(** * SOP validation framework: validators, scoring, gating, self-correction

    A shallow embedding of the TypeScript sources

      - validators.ts                    (the twelve SOP validators and the registry)
      - general-practices-validator.ts   (the general rule engine)
      - metrics-config.ts                (metric catalogue, weighted score, gating)
      - self-correction.ts               (fix patterns, applyFixes, runCorrectionLoop)

    Modelling conventions.

      - A JavaScript string is a [string]: a sequence of 8-bit code units.
        Source files are taken to be ASCII; the character classes [\s], [\w],
        [\d] and case folding are those of ECMAScript restricted to that range
        (with U+00A0 kept in [\s]).
      - A JavaScript [number] holding a score, weight or threshold is an exact
        rational [Q]; one holding a count, an index or a line number is a [nat]
        or a [Z].  Rounding of IEEE doubles is not modelled.
      - A regular expression literal is kept as its source text and interpreted
        by a backtracking matcher that follows the ECMAScript matching order
        (leftmost start, alternatives left to right, greedy quantifiers).  The
        double quote inside a pattern is written [\x22].
      - A [Map] is an association list in insertion order.
      - The [suggestions] channel of a [ValidationResult] (free-text hints) is
        not modelled: no score, verdict or fix depends on it. *)

From Stdlib Require Import String Ascii List Bool Arith ZArith QArith Qminmax Qround Lia Lqa Permutation.
Import ListNotations.

Open Scope string_scope.
Open Scope nat_scope.

(* ================================================================== *)
(** * JavaScript strings and arrays *)
(* ================================================================== *)

Module Js.

Definition LF : ascii := "010"%char.
Definition DQ : ascii := "034"%char.
Definition nl : string := String LF "".
Definition dq : string := String DQ "".

Definition nat_of (c : ascii) : nat := nat_of_ascii c.

Definition in_range (lo hi : ascii) (c : ascii) : bool :=
  (nat_of lo <=? nat_of c) && (nat_of c <=? nat_of hi).

Definition is_digit (c : ascii) : bool := in_range "0" "9" c.
Definition is_upper (c : ascii) : bool := in_range "A" "Z" c.
Definition is_lower (c : ascii) : bool := in_range "a" "z" c.

(** [\w] *)
Definition is_word (c : ascii) : bool :=
  is_lower c || is_upper c || is_digit c || Ascii.eqb c "_".

(** [\s] and the characters stripped by [String.prototype.trim] *)
Definition is_space (c : ascii) : bool :=
  let n := nat_of c in
  ((9 <=? n) && (n <=? 13)) || (n =? 32) || (n =? 160).

(** line terminators, which [.] does not match *)
Definition is_line_terminator (c : ascii) : bool :=
  let n := nat_of c in (n =? 10) || (n =? 13).

Definition to_upper (c : ascii) : ascii :=
  if is_lower c then ascii_of_nat (nat_of c - 32) else c.

Definition to_lower (c : ascii) : ascii :=
  if is_upper c then ascii_of_nat (nat_of c + 32) else c.

(** [s.startsWith(p)] *)
Fixpoint startsWith (p s : string) : bool :=
  match p, s with
  | EmptyString, _ => true
  | String a p', String b s' => Ascii.eqb a b && startsWith p' s'
  | String _ _, EmptyString => false
  end.

(** [s.includes(sub)] *)
Fixpoint includes (sub s : string) : bool :=
  startsWith sub s ||
  match s with
  | EmptyString => false
  | String _ s' => includes sub s'
  end.

(** [s.endsWith(suf)] *)
Definition endsWith (suf s : string) : bool :=
  let n := String.length s in
  let m := String.length suf in
  (m <=? n) && String.eqb (substring (n - m) m s) suf.

(** [s.indexOf(sub, from)], [None] for -1 *)
Fixpoint indexOfFrom (sub : string) (from : nat) (s : string) (pos : nat) : option nat :=
  if (from <=? pos) && startsWith sub s then Some pos
  else match s with
       | EmptyString => None
       | String _ s' => indexOfFrom sub from s' (S pos)
       end.

(** [s.lastIndexOf(sub, from)]: the last occurrence starting at or before
    [from]; [None] for -1. *)
Fixpoint lastIndexOfUpTo (sub : string) (from : nat) (s : string) (pos : nat)
         (best : option nat) : option nat :=
  let best' := if (pos <=? from) && startsWith sub s then Some pos else best in
  match s with
  | EmptyString => best'
  | String _ s' => lastIndexOfUpTo sub from s' (S pos) best'
  end.

(** [s.substring(a, b)] on integer arguments: negative arguments count as 0,
    arguments beyond the length as the length, and the two are swapped when
    [a > b]. *)
Definition substringZ (a b : Z) (s : string) : string :=
  let n := Z.of_nat (String.length s) in
  let clamp x := Z.max 0 (Z.min x n) in
  let a' := clamp a in
  let b' := clamp b in
  let lo := Z.min a' b' in
  let hi := Z.max a' b' in
  substring (Z.to_nat lo) (Z.to_nat (hi - lo)) s.

(** [s.substring(0, n)] *)
Definition take (n : nat) (s : string) : string := substring 0 n s.

(** [s.substring(n)] *)
Fixpoint drop (n : nat) (s : string) : string :=
  match n, s with
  | O, _ => s
  | S n', String _ s' => drop n' s'
  | S _, EmptyString => EmptyString
  end.

(** [s.split(c)] for a one-character separator *)
Fixpoint split (c : ascii) (s : string) : list string :=
  match s with
  | EmptyString => [EmptyString]
  | String a s' =>
      if Ascii.eqb a c then EmptyString :: split c s'
      else match split c s' with
           | [] => [String a EmptyString]
           | w :: ws => String a w :: ws
           end
  end.

Definition lines (s : string) : list string := split LF s.

(** [l.join(sep)] *)
Fixpoint join (sep : string) (l : list string) : string :=
  match l with
  | [] => EmptyString
  | [x] => x
  | x :: rest => x ++ sep ++ join sep rest
  end.

Fixpoint trimStart (s : string) : string :=
  match s with
  | String a s' => if is_space a then trimStart s' else s
  | EmptyString => EmptyString
  end.

Fixpoint rev_string (s acc : string) : string :=
  match s with
  | EmptyString => acc
  | String a s' => rev_string s' (String a acc)
  end.

Definition trimEnd (s : string) : string :=
  rev_string (trimStart (rev_string s "")) "".

(** [s.trim()] *)
Definition trim (s : string) : string := trimEnd (trimStart s).

(** [l.slice(a, b)] for [0 <= a] *)
Definition slice {A : Type} (a b : nat) (l : list A) : list A :=
  firstn (b - a) (skipn a l).

(** [l.slice(-n)]: the last [n] elements *)
Definition lastN {A : Type} (n : nat) (l : list A) : list A :=
  skipn (List.length l - n) l.

(** [l.includes(x)] on an array of strings *)
Definition mem (x : string) (l : list string) : bool :=
  existsb (String.eqb x) l.

(** pairs each element with its index, as [forEach((x, index) => ..)] sees them *)
Fixpoint indexed_from {A : Type} (i : nat) (l : list A) : list (nat * A) :=
  match l with
  | [] => []
  | x :: r => (i, x) :: indexed_from (S i) r
  end.

Definition indexed {A : Type} (l : list A) : list (nat * A) := indexed_from 0 l.

(** [s.split('\n').length] *)
Definition lineCount (s : string) : nat := List.length (lines s).

(** decimal rendering of an integer, as a template literal prints a count *)
Fixpoint digits_of (fuel : nat) (n : N) (acc : string) : string :=
  match fuel with
  | O => acc
  | S f =>
      let d := N.modulo n 10 in
      let acc' := String (ascii_of_N (48 + d)) acc in
      if N.ltb n 10 then acc' else digits_of f (N.div n 10) acc'
  end.

Definition string_of_N (n : N) : string :=
  digits_of (S (N.to_nat (N.log2 n))) n "".

Definition string_of_Z (z : Z) : string :=
  if (z <? 0)%Z then "-" ++ string_of_N (Z.to_N (- z)) else string_of_N (Z.to_N z).

Definition string_of_nat (n : nat) : string := string_of_N (N.of_nat n).

(** [x.toFixed(1)] on an exact rational: the digits of the integer [n] for
    which [n / 10 - x] is closest to zero, the larger [n] on a tie, with a
    sign in front for negative [x]. *)
Definition toFixed1_nonneg (x : Q) : string :=
  let n := Qfloor (x * 10 + (1 # 2))%Q in
  string_of_Z (n / 10)%Z ++ "." ++ string_of_Z (n mod 10)%Z.

Definition toFixed1 (x : Q) : string :=
  if Qle_bool 0 x then toFixed1_nonneg x else "-" ++ toFixed1_nonneg (- x)%Q.

(** A number as a caller may pass it: a finite value (every finite double is
    a rational), an infinity, or [NaN]. *)
Inductive JsNumber : Type :=
| Finite (q : Q)
| PosInfinity
| NegInfinity
| NaN.

(** [n < x] for a loop counter [n]: false for [NaN] *)
Definition countBelow (n : nat) (x : JsNumber) : bool :=
  match x with
  | Finite q => negb (Qle_bool q (inject_Z (Z.of_nat n)))
  | PosInfinity => true
  | NegInfinity | NaN => false
  end.

End Js.

(* ================================================================== *)
(** * Regular expressions *)
(* ================================================================== *)

(** The fragment of ECMAScript regular expressions used by the validators and
    the fix patterns: literals, [.], classes, [\s \w \d \b], groups, greedy
    quantifiers, alternation, anchors, lookahead and the [i] flag.  Lazy
    quantifiers and back-references do not occur in the sources and are
    rejected by the parser. *)

Module Regex.
Import Js.

Inductive citem : Type :=
| CChar (c : ascii)
| CRange (lo hi : ascii)
| CSpace (neg : bool)
| CWord (neg : bool)
| CDigit (neg : bool).

Inductive regex : Type :=
| REmpty
| RFail
| RChar (c : ascii)
| RAny
| RSet (neg : bool) (items : list citem)
| RSeq (a b : regex)
| RAlt (a b : regex)
| RRep (mn : nat) (mx : option nat) (a : regex)
| RGroup (n : nat) (a : regex)
| RBol
| REol
| RWordB (neg : bool)
| RLook (neg : bool) (a : regex).

(** ** Matching *)

Definition item_base (it : citem) (c : ascii) : bool :=
  match it with
  | CChar d => Ascii.eqb c d
  | CRange lo hi => in_range lo hi c
  | CSpace neg => xorb neg (is_space c)
  | CWord neg => xorb neg (is_word c)
  | CDigit neg => xorb neg (is_digit c)
  end.

Definition item_match (ci : bool) (it : citem) (c : ascii) : bool :=
  item_base it c || (ci && (item_base it (to_upper c) || item_base it (to_lower c))).

Definition char_match (ci : bool) (c d : ascii) : bool :=
  Ascii.eqb c d || (ci && Ascii.eqb (to_upper c) (to_upper d)).

Record mstate : Type := MState {
  st_prev : option ascii;          (* the code unit before the position *)
  st_rest : string;                (* the input from the position on *)
  st_pos : nat;                    (* the position *)
  st_caps : list (nat * string)    (* captures, latest first *)
}.

Definition advance (st : mstate) : option (ascii * mstate) :=
  match st_rest st with
  | EmptyString => None
  | String c r => Some (c, MState (Some c) r (S (st_pos st)) (st_caps st))
  end.

Definition set_cap (n : nat) (txt : string) (st : mstate) : mstate :=
  MState (st_prev st) (st_rest st) (st_pos st) ((n, txt) :: st_caps st).

Definition with_caps (caps : list (nat * string)) (st : mstate) : mstate :=
  MState (st_prev st) (st_rest st) (st_pos st) caps.

Definition word_before (st : mstate) : bool :=
  match st_prev st with Some c => is_word c | None => false end.

Definition word_after (st : mstate) : bool :=
  match st_rest st with String c _ => is_word c | EmptyString => false end.

(** The matcher is written in continuation-passing style: [k] is what has
    to match after [r].  [fuel] bounds the number of iterations of the
    quantifiers; an iteration of a quantifier whose lower bound is met must
    consume input, so the length of the input plus the lower bounds of the
    pattern is enough. *)
Fixpoint run (ci : bool) (fuel : nat) {struct fuel}
  : regex -> mstate -> (mstate -> option mstate) -> option mstate :=
  fix go (r : regex) (st : mstate) (k : mstate -> option mstate) {struct r}
    : option mstate :=
    match r with
    | REmpty => k st
    | RFail => None
    | RChar c =>
        match advance st with
        | Some (d, st') => if char_match ci c d then k st' else None
        | None => None
        end
    | RAny =>
        match advance st with
        | Some (d, st') => if is_line_terminator d then None else k st'
        | None => None
        end
    | RSet neg items =>
        match advance st with
        | Some (d, st') =>
            if xorb neg (existsb (fun it => item_match ci it d) items)
            then k st' else None
        | None => None
        end
    | RSeq a b => go a st (fun st1 => go b st1 k)
    | RAlt a b =>
        match go a st k with
        | Some x => Some x
        | None => go b st k
        end
    | RRep mn mx a =>
        match mx with
        | Some O => k st
        | _ =>
            match fuel with
            | O => None
            | S f =>
                let again :=
                  go a st (fun st1 =>
                    if (mn =? 0) && (st_pos st1 =? st_pos st) then None
                    else run ci f (RRep (pred mn) (option_map pred mx) a) st1 k) in
                if mn =? 0
                then match again with Some x => Some x | None => k st end
                else again
            end
        end
    | RGroup n a =>
        go a st (fun st1 =>
          k (set_cap n (take (st_pos st1 - st_pos st) (st_rest st)) st1))
    | RBol => if st_pos st =? 0 then k st else None
    | REol => match st_rest st with EmptyString => k st | _ => None end
    | RWordB neg =>
        if xorb neg (xorb (word_before st) (word_after st)) then k st else None
    | RLook neg a =>
        match go a st Some with
        | Some st1 => if neg then None else k (with_caps (st_caps st1) st)
        | None => if neg then k st else None
        end
    end.

Fixpoint min_budget (r : regex) : nat :=
  match r with
  | RSeq a b | RAlt a b => min_budget a + min_budget b
  | RRep mn _ a => mn + S mn * min_budget a
  | RGroup _ a | RLook _ a => min_budget a
  | _ => 0
  end.

(** ** Parsing the source text of a pattern *)

Definition hexval (c : ascii) : option nat :=
  if is_digit c then Some (nat_of c - 48)
  else if in_range "a" "f" c then Some (nat_of c - 87)
  else if in_range "A" "F" c then Some (nat_of c - 55)
  else None.

Definition ch (c d : ascii) : bool := Ascii.eqb c d.

(** the escape [\c] as a class item; [inClass] tells whether [\b] is a
    backspace *)
Definition escape_item (c : ascii) (rest : string) : option (citem * string) :=
  if ch c "s" then Some (CSpace false, rest)
  else if ch c "S" then Some (CSpace true, rest)
  else if ch c "w" then Some (CWord false, rest)
  else if ch c "W" then Some (CWord true, rest)
  else if ch c "d" then Some (CDigit false, rest)
  else if ch c "D" then Some (CDigit true, rest)
  else if ch c "n" then Some (CChar LF, rest)
  else if ch c "t" then Some (CChar "009"%char, rest)
  else if ch c "r" then Some (CChar "013"%char, rest)
  else if ch c "x" then
    match rest with
    | String h1 (String h2 rest') =>
        match hexval h1, hexval h2 with
        | Some a, Some b => Some (CChar (ascii_of_nat (16 * a + b)), rest')
        | _, _ => None
        end
    | _ => None
    end
  else if is_digit c || is_lower c || is_upper c then None
  else Some (CChar c, rest).

Definition class_atom (s : string) : option (citem * string) :=
  match s with
  | EmptyString => None
  | String c rest =>
      if ch c "\" then
        match rest with
        | String e rest' => if ch e "b" then Some (CChar "008"%char, rest') else escape_item e rest'
        | EmptyString => None
        end
      else Some (CChar c, rest)
  end.

Fixpoint pclass (fuel : nat) (s : string) (acc : list citem) : option (list citem * string) :=
  match fuel with
  | O => None
  | S f =>
      match s with
      | EmptyString => None
      | String c rest =>
          if ch c "]" then Some (rev acc, rest)
          else
            match class_atom s with
            | None => None
            | Some (it, rest1) =>
                match it, rest1 with
                | CChar lo, String m (String c2 _ as after) =>
                    if ch m "-" && negb (ch c2 "]") then
                      match class_atom after with
                      | Some (CChar hi, rest3) => pclass f rest3 (CRange lo hi :: acc)
                      | _ => None
                      end
                    else pclass f rest1 (it :: acc)
                | _, _ => pclass f rest1 (it :: acc)
                end
            end
      end
  end.

Fixpoint pnat (s : string) (acc : option nat) : option nat * string :=
  match s with
  | String c rest =>
      if is_digit c
      then pnat rest (Some (10 * match acc with Some a => a | None => 0 end + (nat_of c - 48)))
      else (acc, s)
  | EmptyString => (acc, s)
  end.

(** the inside of a brace quantifier: [n}], [n,}] or [n,m}] *)
Definition pbraces (s : string) : option (nat * option nat * string) :=
  match pnat s None with
  | (Some mn, String c rest) =>
      if ch c "}" then Some (mn, Some mn, rest)
      else if ch c "," then
        match pnat rest None with
        | (None, String c2 rest2) => if ch c2 "}" then Some (mn, None, rest2) else None
        | (Some mx, String c2 rest2) => if ch c2 "}" then Some (mn, Some mx, rest2) else None
        | _ => None
        end
      else None
  | _ => None
  end.

Definition not_lazy (r : regex) (s : string) : option (regex * string) :=
  match s with
  | String c _ => if ch c "?" then None else Some (r, s)
  | EmptyString => Some (r, s)
  end.

Definition pquant (a : regex) (s : string) : option (regex * string) :=
  match s with
  | String c rest =>
      if ch c "*" then not_lazy (RRep 0 None a) rest
      else if ch c "+" then not_lazy (RRep 1 None a) rest
      else if ch c "?" then not_lazy (RRep 0 (Some 1) a) rest
      else if ch c "{" then
        match pbraces rest with
        | Some (mn, mx, rest') => not_lazy (RRep mn mx a) rest'
        | None => Some (a, s)
        end
      else Some (a, s)
  | EmptyString => Some (a, s)
  end.

Definition seq (a b : regex) : regex :=
  match b with REmpty => a | _ => RSeq a b end.

Definition close_paren (s : string) : option string :=
  match s with
  | String c rest => if ch c ")" then Some rest else None
  | EmptyString => None
  end.

(** [g] is the number of the next capturing group *)
Fixpoint pdisj (fuel : nat) (s : string) (g : nat) {struct fuel}
  : option (regex * string * nat) :=
  match fuel with
  | O => None
  | S f =>
      match palt f s g with
      | None => None
      | Some (a, s1, g1) =>
          match s1 with
          | String c s2 =>
              if ch c "|" then
                match pdisj f s2 g1 with
                | Some (b, s3, g3) => Some (RAlt a b, s3, g3)
                | None => None
                end
              else Some (a, s1, g1)
          | EmptyString => Some (a, s1, g1)
          end
      end
  end
with palt (fuel : nat) (s : string) (g : nat) {struct fuel}
  : option (regex * string * nat) :=
  match fuel with
  | O => None
  | S f =>
      match s with
      | EmptyString => Some (REmpty, s, g)
      | String c _ =>
          if ch c "|" || ch c ")" then Some (REmpty, s, g)
          else
            match pterm f s g with
            | None => None
            | Some (t, s1, g1) =>
                match palt f s1 g1 with
                | Some (r, s2, g2) => Some (seq t r, s2, g2)
                | None => None
                end
            end
      end
  end
with pterm (fuel : nat) (s : string) (g : nat) {struct fuel}
  : option (regex * string * nat) :=
  match fuel with
  | O => None
  | S f =>
      let quantified (a : regex) (rest : string) (g' : nat) :=
        match pquant a rest with
        | Some (q, rest') => Some (q, rest', g')
        | None => None
        end in
      let inner (body : string) (g0 : nat) (wrap : regex -> regex) (quant : bool) :=
        match pdisj f body g0 with
        | Some (a, s1, g1) =>
            match close_paren s1 with
            | Some s2 => if quant then quantified (wrap a) s2 g1 else Some (wrap a, s2, g1)
            | None => None
            end
        | None => None
        end in
      match s with
      | EmptyString => None
      | String c rest =>
          if ch c "^" then Some (RBol, rest, g)
          else if ch c "$" then Some (REol, rest, g)
          else if ch c "." then quantified RAny rest g
          else if ch c "*" || ch c "+" || ch c "?" then None
          else if ch c "[" then
            let '(neg, body) :=
              match rest with
              | String n rest' => if ch n "^" then (true, rest') else (false, rest)
              | EmptyString => (false, rest)
              end in
            match pclass (S (String.length body)) body [] with
            | Some (items, rest') => quantified (RSet neg items) rest' g
            | None => None
            end
          else if ch c "(" then
            match rest with
            | String q rest1 =>
                if ch q "?" then
                  match rest1 with
                  | String m rest2 =>
                      if ch m ":" then inner rest2 g (fun a => a) true
                      else if ch m "!" then inner rest2 g (RLook true) false
                      else if ch m "=" then inner rest2 g (RLook false) false
                      else None
                  | EmptyString => None
                  end
                else inner rest (S g) (RGroup g) true
            | EmptyString => None
            end
          else if ch c "\" then
            match rest with
            | String e rest1 =>
                if ch e "b" then Some (RWordB false, rest1, g)
                else if ch e "B" then Some (RWordB true, rest1, g)
                else
                  match escape_item e rest1 with
                  | Some (CChar d, rest2) => quantified (RChar d) rest2 g
                  | Some (it, rest2) => quantified (RSet false [it]) rest2 g
                  | None => None
                  end
            | EmptyString => None
            end
          else quantified (RChar c) rest g
      end
  end.

(** A regular expression object: the pattern, the number of its capturing
    groups and its [i] flag.  (The [g] flag only selects between the
    operations below.) *)
Record RegExp : Type := {
  re_ast : regex;
  re_groups : nat;
  re_ignoreCase : bool;
  re_ok : bool
}.

Definition compile (ci : bool) (src : string) : RegExp :=
  match pdisj (4 * String.length src + 4) src 1 with
  | Some (r, EmptyString, g) =>
      {| re_ast := r; re_groups := g - 1; re_ignoreCase := ci; re_ok := true |}
  | _ => {| re_ast := RFail; re_groups := 0; re_ignoreCase := ci; re_ok := false |}
  end.

(** [/src/] and [/src/i] *)
Definition re (src : string) : RegExp := compile false src.
Definition rei (src : string) : RegExp := compile true src.

(** ** Operations *)

Record rmatch : Type := {
  m_index : nat;                     (* [match.index] *)
  m_end : nat;
  m_text : string;                   (* [match[0]] *)
  m_groups : list (nat * string);    (* the groups that took part *)
  m_after : mstate
}.

(** [match[n]] ([None] for [undefined]) *)
Fixpoint lookup_cap (n : nat) (caps : list (nat * string)) : option string :=
  match caps with
  | [] => None
  | (m, t) :: rest => if m =? n then Some t else lookup_cap n rest
  end.

Definition group (n : nat) (m : rmatch) : option string := lookup_cap n (m_groups m).

Definition group_or_empty (n : nat) (m : rmatch) : string :=
  match group n m with Some t => t | None => EmptyString end.

Definition match_at (r : RegExp) (fuel : nat) (st : mstate) : option rmatch :=
  match run (re_ignoreCase r) fuel (re_ast r) (with_caps [] st) Some with
  | Some st' =>
      Some {| m_index := st_pos st; m_end := st_pos st';
              m_text := take (st_pos st' - st_pos st) (st_rest st);
              m_groups := st_caps st'; m_after := st' |}
  | None => None
  end.

(** the leftmost match starting at or after the position of the state *)
Fixpoint search_from (r : RegExp) (fuel : nat) (pv : option ascii) (s : string) (p : nat)
  : option rmatch :=
  match match_at r fuel (MState pv s p []) with
  | Some m => Some m
  | None =>
      match s with
      | EmptyString => None
      | String c s' => search_from r fuel (Some c) s' (S p)
      end
  end.

Definition fuel_for (r : RegExp) (s : string) : nat :=
  String.length s + min_budget (re_ast r) + 1.

(** [s.match(r)] for a pattern without the [g] flag, [r.exec(s)] *)
Definition exec (r : RegExp) (s : string) : option rmatch :=
  search_from r (fuel_for r s) None s 0.

(** [r.test(s)] *)
Definition test (r : RegExp) (s : string) : bool :=
  match exec r s with Some _ => true | None => false end.

Fixpoint all_from (r : RegExp) (fuel : nat) (n : nat) (pv : option ascii) (s : string) (p : nat)
  : list rmatch :=
  match n with
  | O => []
  | S n' =>
      match search_from r fuel pv s p with
      | None => []
      | Some m =>
          let st := m_after m in
          if m_end m =? m_index m then
            match st_rest st with
            | EmptyString => [m]
            | String c s' => m :: all_from r fuel n' (Some c) s' (S (st_pos st))
            end
          else m :: all_from r fuel n' (st_prev st) (st_rest st) (st_pos st)
      end
  end.

(** [[...s.matchAll(r)]] for a pattern with the [g] flag *)
Definition matchAll (r : RegExp) (s : string) : list rmatch :=
  all_from r (fuel_for r s) (S (String.length s)) None s 0.

(** [(s.match(r) || []).length] for a pattern with the [g] flag *)
Definition countMatches (r : RegExp) (s : string) : nat := List.length (matchAll r s).

(** ** Replacement *)

Definition digit_val (c : ascii) : nat := nat_of c - 48.

(** The substitution of [$$], [$&], [$`], [$'], [$n] and [$nn] in a
    replacement text ([ngroups] is the number of groups of the pattern). *)
Fixpoint expand (fuel : nat) (tmpl : string) (ngroups : nat) (m : rmatch) (before after : string)
  : string :=
  match fuel with
  | O => tmpl
  | S f =>
      match tmpl with
      | EmptyString => EmptyString
      | String c rest =>
          if ch c "$" then
            match rest with
            | String d rest1 =>
                if ch d "$" then String "$" (expand f rest1 ngroups m before after)
                else if ch d "&" then m_text m ++ expand f rest1 ngroups m before after
                else if ch d "`" then before ++ expand f rest1 ngroups m before after
                else if ch d "'" then after ++ expand f rest1 ngroups m before after
                else if is_digit d then
                  let one := digit_val d in
                  let two :=
                    match rest1 with
                    | String d2 rest2 =>
                        if is_digit d2 then Some (10 * one + digit_val d2, rest2) else None
                    | EmptyString => None
                    end in
                  match two with
                  | Some (nn, rest2) =>
                      if (1 <=? nn) && (nn <=? ngroups)
                      then group_or_empty nn m ++ expand f rest2 ngroups m before after
                      else if (1 <=? one) && (one <=? ngroups)
                      then group_or_empty one m ++ expand f rest1 ngroups m before after
                      else String c (expand f rest ngroups m before after)
                  | None =>
                      if (1 <=? one) && (one <=? ngroups)
                      then group_or_empty one m ++ expand f rest1 ngroups m before after
                      else String c (expand f rest ngroups m before after)
                  end
                else String c (expand f rest ngroups m before after)
            | EmptyString => tmpl
            end
          else String c (expand f rest ngroups m before after)
      end
  end.

(** a replacement is a text with [$] substitutions or a function of the
    match *)
Inductive replacement : Type :=
| ReplText (tmpl : string)
| ReplFn (f : rmatch -> string).

Definition replacement_of (s : string) (ngroups : nat) (rp : replacement) (m : rmatch) : string :=
  match rp with
  | ReplText tmpl =>
      expand (S (String.length tmpl)) tmpl ngroups m (take (m_index m) s) (drop (m_end m) s)
  | ReplFn f => f m
  end.

Fixpoint splice (s : string) (cur : nat) (ms : list rmatch) (f : rmatch -> string) : string :=
  match ms with
  | [] => drop cur s
  | m :: ms' => substring cur (m_index m - cur) s ++ f m ++ splice s (m_end m) ms' f
  end.

(** [s.replace(r, rp)] for a pattern with the [g] flag *)
Definition replaceAll (r : RegExp) (rp : replacement) (s : string) : string :=
  splice s 0 (matchAll r s) (replacement_of s (re_groups r) rp).

(** [s.replace(r, rp)] for a pattern without the [g] flag *)
Definition replaceFirst (r : RegExp) (rp : replacement) (s : string) : string :=
  match exec r s with
  | Some m => splice s 0 [m] (replacement_of s (re_groups r) rp)
  | None => s
  end.

(** [s.replace(pat, tmpl)] for a string [pat]: the first occurrence *)
Definition replaceString (pat tmpl : string) (s : string) : string :=
  match indexOfFrom pat 0 s 0 with
  | Some i =>
      let m := {| m_index := i; m_end := i + String.length pat; m_text := pat;
                  m_groups := []; m_after := MState None EmptyString 0 [] |} in
      splice s 0 [m] (replacement_of s 0 (ReplText tmpl))
  | None => s
  end.

End Regex.

Import Js Regex.

(* ================================================================== *)
(** * validators.ts *)
(* ================================================================== *)

Module Validators.

(** ** Types *)

Inductive Severity : Type := critical | high | medium.

Definition Severity_eqb (a b : Severity) : bool :=
  match a, b with
  | critical, critical | high, high | medium, medium => true
  | _, _ => false
  end.

Record Violation : Type := mkViolation {
  file : string;
  line : nat;
  rule : string;
  message : string;
  severity : Severity;
  fix_ : option string   (* [fix?], a keyword here *)
}.

Record Warning : Type := mkWarning {
  w_file : string;
  w_line : nat;
  w_rule : string;
  w_message : string
}.

Record ValidationResult : Type := {
  sopFile : string;
  metric : string;
  score : Q;
  passed : bool;
  violations : list Violation;
  warnings : list Warning
}.

Record ValidationContext : Type := {
  files : list string;
  fileContents : list (string * string)   (* Map<string, string> *)
}.

(** The two arrays a validator pushes to while it scans. *)
Record Findings : Type := {
  found_violations : list Violation;
  found_warnings : list Warning
}.

Definition nothing : Findings := {| found_violations := []; found_warnings := [] |}.

Definition pushViolation (v : Violation) : Findings :=
  {| found_violations := [v]; found_warnings := [] |}.

Definition pushWarning (w : Warning) : Findings :=
  {| found_violations := []; found_warnings := [w] |}.

(** one statement after the other *)
Definition andThen (a b : Findings) : Findings :=
  {| found_violations := (found_violations a ++ found_violations b)%list;
     found_warnings := (found_warnings a ++ found_warnings b)%list |}.

Declare Scope findings_scope.
Delimit Scope findings_scope with findings.
Notation "a ;; b" := (andThen a b) (at level 61, right associativity) : findings_scope.
Open Scope findings_scope.

Fixpoint forEach {A : Type} (l : list A) (body : A -> Findings) : Findings :=
  match l with
  | [] => nothing
  | x :: rest => body x ;; forEach rest body
  end.

(** [violations.filter(v => v.severity === s).length] *)
Definition countSeverity (s : Severity) (vs : list Violation) : nat :=
  List.length (filter (fun v => Severity_eqb (severity v) s) vs).

(** a count as a number *)
Definition num (n : nat) : Q := inject_Z (Z.of_nat n).

Definition Math_max (a b : Q) : Q := Qmax a b.

(** [content.substring(0, index).split('\n').length] *)
Definition lineOfIndex (content : string) (index : nat) : nat :=
  lineCount (take index content).

(** [for (let i = index; i < Math.min(index + n, lines.length); i++)
       { block += lines[i]; if (stop(lines[i])) break; }] over the window
    [lines.slice(index, index + n)] *)
Fixpoint concatUntil (stop : string -> bool) (window : list string) : string :=
  match window with
  | [] => EmptyString
  | l :: rest => if stop l then l else l ++ concatUntil stop rest
  end.

(** ** validators.ts: 2-supabase *)

Definition validateSupabaseAuth_scan (ctx : ValidationContext) : Findings :=
  forEach (fileContents ctx) (fun '(file, content) =>
    let lines := Js.lines content in
    forEach (indexed lines) (fun '(index, line) =>
      let lineNum := index + 1 in
      (* Check for decode-only JWT handling *)
      (if test (re "jwt\.decode\(|decodeJwt\(") line && negb (test (re "verify") line)
       then pushViolation (mkViolation file lineNum "INV-SUPABASE-1"
              "Decode-only JWT handling detected. Must use JWKS validation."
              critical (Some "Replace with Supabase JWKS verification"))
       else nothing) ;;
      (* Check for JWT/token logging *)
      (if test (rei "logger\.(log|debug|error|warn)\(.*token") line
          || test (rei "console\.(log|debug|error|warn)\(.*jwt") line
       then pushViolation (mkViolation file lineNum "INV-SUPABASE-8"
              "Potential JWT/token logging detected."
              critical (Some "Remove token from log statement"))
       else nothing) ;;
      (* Check for service-role key usage *)
      (if test (rei "service.?role.?key") line && test (rei "client") file
       then pushViolation (mkViolation file lineNum "INV-SUPABASE-1"
              "Service-role key may be exposed client-side."
              critical None)
       else nothing)) ;;
    (* Check guard order in controllers *)
    (if endsWith ".controller.ts" file then
       forEach (matchAll (re "@UseGuards\(([^)]+)\)") content) (fun m =>
         let guards := group_or_empty 1 m in
         if includes "RolesGuard" guards || includes "PermissionsGuard" guards then
           if negb (includes "JwtAuthGuard" guards)
              && negb (includes "@UseGuards(JwtAuthGuard)" content)
           then pushWarning (mkWarning file (lineOfIndex content (m_index m)) "INV-SUPABASE-2"
                  "RolesGuard/PermissionsGuard used without explicit JwtAuthGuard.")
           else nothing
         else nothing)
     else nothing)).

Definition validateSupabaseAuth (ctx : ValidationContext) : ValidationResult :=
  let found := validateSupabaseAuth_scan ctx in
  let violations := found_violations found in
  let score : Q :=
    if List.length violations =? 0 then 1%Q
    else Math_max 0 (1 - num (List.length violations) * 0.2)%Q in
  {| sopFile := "2-supabase";
     metric := "supabase-auth-compliance";
     score := score;
     passed := countSeverity critical violations =? 0;
     violations := violations;
     warnings := found_warnings found |}.

Definition softDeleteEntities : list string :=
  [ "organizations"; "organization_users"; "organization_roles"; "teams";
    "rubrics"; "role_plays"; "tracks" ].

Definition validateTenantIsolation_scan (ctx : ValidationContext) : Findings :=
  forEach (fileContents ctx) (fun '(file, content) =>
    let lines := Js.lines content in
    forEach (indexed lines) (fun '(index, line) =>
      let lineNum := index + 1 in
      (* Check for Prisma queries without organization_id *)
      (match exec (re "prisma\.(\w+)\.(findMany|findFirst|findUnique|count|aggregate)") line with
       | Some prismaQueryMatch =>
           let entity := group_or_empty 1 prismaQueryMatch in
           (* Look ahead for where clause *)
           let whereBlock :=
             concatUntil (fun l => includes "});" l || includes ")];" l)
               (slice index (Nat.min (index + 10) (List.length lines)) lines) in
           (* Check if organization_id is in where clause *)
           (if negb (includes "organization_id" whereBlock)
               && negb (includes "org_id" whereBlock)
               && negb (String.eqb entity "internal_users")
               && negb (String.eqb entity "evaluation_model_configs")
            then pushWarning (mkWarning file lineNum "INV-SUPABASE-4"
                   ("Query on " ++ entity ++ " may be missing organization_id filter."))
            else nothing) ;;
           (* Check soft delete filter *)
           (if existsb (fun e => includes e entity) softDeleteEntities then
              if negb (includes "deleted_at" whereBlock)
              then pushViolation (mkViolation file lineNum "INV-PRISMA-SOFT-DELETE"
                     ("Query on " ++ entity ++ " missing deleted_at: null filter.")
                     high (Some "Add deleted_at: null to where clause"))
              else nothing
            else nothing)
       | None => nothing
       end) ;;
      (* Check cache keys for org/team isolation *)
      (if test (re "cache\.(get|set|del)\(") line || test (re "cacheManager\.(get|set|del)\(") line
       then
         match exec (re "['\x22]([\w:]+)['\x22]") line with
         | Some keyMatch =>
             if negb (includes "org" (group_or_empty 1 keyMatch))
                && negb (includes "${" (group_or_empty 1 keyMatch))
             then pushWarning (mkWarning file lineNum "INV-SUPABASE-6"
                    "Cache key may not include organization context.")
             else nothing
         | None => nothing
         end
       else nothing))).

Definition validateTenantIsolation (ctx : ValidationContext) : ValidationResult :=
  let found := validateTenantIsolation_scan ctx in
  let violations := found_violations found in
  let criticalViolations := countSeverity critical violations in
  let highViolations := countSeverity high violations in
  let score : Q :=
    Math_max 0 (1 - num criticalViolations * 0.3 - num highViolations * 0.15)%Q in
  {| sopFile := "2-supabase";
     metric := "tenant-isolation";
     score := score;
     passed := (criticalViolations =? 0) && (highViolations =? 0);
     violations := violations;
     warnings := found_warnings found |}.

(** ** validators.ts: 3-database-prisma *)

(** the loop that collects a loop body: lines are appended until the braces
    opened since the first [{] are closed again *)
Fixpoint loopBlockOf (window : list string) (started : bool) (braceCount : Z) : string :=
  match window with
  | [] => EmptyString
  | l :: rest =>
      let started1 := started || includes "{" l in
      let braceCount1 := if includes "{" l then (braceCount + 1)%Z else braceCount in
      let braceCount2 := if includes "}" l then (braceCount1 - 1)%Z else braceCount1 in
      if started1 && (braceCount2 =? 0)%Z then l
      else l ++ loopBlockOf rest started1 braceCount2
  end.

Definition validatePrismaQueries_scan (ctx : ValidationContext) : Findings :=
  forEach (fileContents ctx) (fun '(file, content) =>
    let lines := Js.lines content in
    forEach (indexed lines) (fun '(index, line) =>
      let lineNum := index + 1 in
      (* Check for findMany without orderBy *)
      (if test (re "\.findMany\(") line then
         let queryBlock :=
           concatUntil (fun l => includes "});" l)
             (slice index (Nat.min (index + 15) (List.length lines)) lines) in
         (if negb (includes "orderBy" queryBlock)
          then pushViolation (mkViolation file lineNum "INV-PRISMA-ORDERBY"
                 "findMany query missing orderBy clause."
                 medium
                 (Some ("Add orderBy: { created_at: " ++ dq ++ "desc" ++ dq ++ " } or appropriate field")))
          else nothing) ;;
         (* Check for pagination *)
         (if negb (includes "take" queryBlock) && negb (includes "skip" queryBlock)
          then pushWarning (mkWarning file lineNum "INV-PRISMA-PAGINATION"
                 "findMany query may need pagination (take/skip).")
          else nothing)
       else nothing) ;;
      (* Check for N+1 pattern (query in loop) *)
      (if test (re "for\s*\(|\.forEach\(|\.map\(") line then
         let loopBlock :=
           loopBlockOf (slice index (Nat.min (index + 30) (List.length lines)) lines) false 0%Z in
         if test (re "await\s+.*prisma\.\w+\.(findFirst|findUnique|findMany|count)") loopBlock
         then pushViolation (mkViolation file lineNum "INV-PRISMA-N+1"
                "Potential N+1 query detected: Prisma query inside loop."
                high (Some "Use batch query with { in: [...ids] } before the loop"))
         else nothing
       else nothing) ;;
      (* Check for count using findMany().length *)
      (if test (re "\.findMany\([^)]*\)\.length") line || test (re "\.length\s*$") line then
         let prevLines := join nl (slice (Nat.max 0 (index - 5)) (index + 1) lines) in
         if test (re "findMany") prevLines && test (re "\.length") line
         then pushViolation (mkViolation file lineNum "INV-PRISMA-COUNT"
                "Using findMany().length instead of count() for totals."
                medium (Some "Use prisma.model.count({ where }) instead"))
         else nothing
       else nothing)) ;;
    (* Check for hard deletes on soft-delete entities *)
    (match exec (re "prisma\.(organizations|teams|rubrics|role_plays)\.delete\(") content with
     | Some hardDeleteMatch =>
         pushViolation (mkViolation file (lineOfIndex content (m_index hardDeleteMatch))
           "INV-PRISMA-SOFT-DELETE"
           ("Hard delete on " ++ group_or_empty 1 hardDeleteMatch ++ " - use soft delete (deleted_at).")
           critical None)
     | None => nothing
     end)).

Definition validatePrismaQueries (ctx : ValidationContext) : ValidationResult :=
  let found := validatePrismaQueries_scan ctx in
  let violations := found_violations found in
  let criticalViolations := countSeverity critical violations in
  let highViolations := countSeverity high violations in
  let mediumViolations := countSeverity medium violations in
  let score : Q :=
    Math_max 0 (1 - num criticalViolations * 0.3 - num highViolations * 0.15
                  - num mediumViolations * 0.05)%Q in
  {| sopFile := "3-database-prisma";
     metric := "prisma-query-compliance";
     score := score;
     passed := (criticalViolations =? 0) && (highViolations =? 0);
     violations := violations;
     warnings := found_warnings found |}.

(** the scan for the end of a function body: the index of the [}] that
    closes the first [{] at or after [i] *)
Fixpoint findFuncEnd (s : string) (i : nat) (started : bool) (braceCount : Z) : option nat :=
  match s with
  | EmptyString => None
  | String c rest =>
      let started1 := started || Ascii.eqb c "{" in
      let braceCount1 := if Ascii.eqb c "{" then (braceCount + 1)%Z else braceCount in
      let braceCount2 := if Ascii.eqb c "}" then (braceCount1 - 1)%Z else braceCount1 in
      if started1 && (braceCount2 =? 0)%Z then Some i
      else findFuncEnd rest (S i) started1 braceCount2
  end.

(** [new Set(l).size] *)
Definition setSize (l : list string) : nat := List.length (nodup string_dec l).

(** the body of the function matched at [funcStart] *)
Definition funcBodyAt (content : string) (funcStart : nat) : string :=
  let funcEnd :=
    match findFuncEnd (drop funcStart content) funcStart false 0%Z with
    | Some i => i
    | None => funcStart
    end in
  substring funcStart (funcEnd - funcStart) content.

(** the tables written to in a function body *)
Definition mutatedTables (funcBody : string) : list string :=
  let createMatches := matchAll (re "prisma\.(\w+)\.create\(") funcBody in
  let updateMatches := matchAll (re "prisma\.(\w+)\.update\(") funcBody in
  let deleteMatches := matchAll (re "prisma\.(\w+)\.delete\(") funcBody in
  let allMutations := (createMatches ++ updateMatches ++ deleteMatches)%list in
  map (group_or_empty 1) allMutations.

Definition functionMatches (content : string) : list rmatch :=
  matchAll (re "async\s+(\w+)\s*\([^)]*\)\s*(?::\s*[^{]+)?\s*{") content.

Definition validateTransactions_scan (ctx : ValidationContext) : Findings :=
  forEach (fileContents ctx) (fun '(file, content) =>
    (* Find functions with multiple prisma mutations *)
    forEach (functionMatches content) (fun funcMatch =>
      let funcName := group_or_empty 1 funcMatch in
      let funcStart := m_index funcMatch in
      (* Find function body *)
      let funcBody := funcBodyAt content funcStart in
      (* Count distinct table mutations *)
      if (1 <? setSize (mutatedTables funcBody)) && negb (includes "$transaction" funcBody)
      then pushViolation (mkViolation file (lineOfIndex content funcStart)
             "INV-PRISMA-TRANSACTION"
             ("Function " ++ funcName ++ " has multi-table mutations without $transaction.")
             high (Some "Wrap related writes in prisma.$transaction(async (tx) => { ... })"))
      else nothing)).

Definition validateTransactions (ctx : ValidationContext) : ValidationResult :=
  let found := validateTransactions_scan ctx in
  let violations := found_violations found in
  let score : Q :=
    if List.length violations =? 0 then 1%Q
    else Math_max 0 (1 - num (List.length violations) * 0.2)%Q in
  {| sopFile := "3-database-prisma";
     metric := "transaction-compliance";
     score := score;
     passed := List.length violations =? 0;
     violations := violations;
     warnings := found_warnings found |}.

(** ** validators.ts: 4-code-safety-patterns *)

Definition validateCodeSafetyPatterns_scan (ctx : ValidationContext) : Findings :=
  forEach (fileContents ctx) (fun '(file, content) =>
    let lines := Js.lines content in
    forEach (indexed lines) (fun '(index, line) =>
      let lineNum := index + 1 in
      (* Check for status updates with 'complete' before actual operation *)
      if test (re "step:\s*['\x22][\w_]*complete['\x22]") line
         || test (rei "status.*complete") line
      then
        (* Look back to see if operation happened *)
        let prevLines := join nl (slice (Nat.max 0 (index - 10)) index lines) in
        if test (re "updateStatus|setStatus|progress") prevLines then
          (* Check if actual operation is AFTER this status update *)
          let nextLines :=
            join nl (slice (index + 1) (Nat.min (index + 10) (List.length lines)) lines) in
          if test (re "await\s+this\.\w+\(|fetch|prisma\.") nextLines
          then pushWarning (mkWarning file lineNum "INV-STATUS-ACCURACY"
                 ("Status set to " ++ dq ++ "complete" ++ dq ++ " before operation may have finished."))
          else nothing
        else nothing
      else nothing)).

Definition validateCodeSafetyPatterns (ctx : ValidationContext) : ValidationResult :=
  let found := validateCodeSafetyPatterns_scan ctx in
  let violations := found_violations found in
  let score : Q :=
    if List.length violations =? 0 then 1%Q
    else Math_max 0 (1 - num (List.length violations) * 0.15)%Q in
  {| sopFile := "4-code-safety-patterns";
     metric := "code-safety-compliance";
     score := score;
     passed := countSeverity critical violations =? 0;
     violations := violations;
     warnings := found_warnings found |}.

(** ** validators.ts: 5-error-handling-logging *)

Definition nestExceptions : list string :=
  [ "NotFoundException"; "BadRequestException"; "ForbiddenException";
    "UnauthorizedException"; "ConflictException"; "UnprocessableEntityException";
    "InternalServerErrorException"; "BadGatewayException";
    "ServiceUnavailableException" ].

(** the test guarding [genericErrorCount++] *)
Definition throwsGenericError (line : string) : bool :=
  test (re "throw\s+new\s+Error\(") line.

(** the test guarding [nestExceptionCount++] *)
Definition throwsNestException (line : string) : bool :=
  existsb (fun ex => includes ("throw new " ++ ex) line) nestExceptions.

Definition validateExceptionTypes_scan (ctx : ValidationContext) : Findings :=
  forEach (fileContents ctx) (fun '(file, content) =>
    let lines := Js.lines content in
    forEach (indexed lines) (fun '(index, line) =>
      let lineNum := index + 1 in
      (* Check for generic Error throws *)
      (if throwsGenericError line
       then pushViolation (mkViolation file lineNum "INV-ERROR-TYPE"
              "Using generic Error instead of NestJS exception."
              medium (Some "Use NotFoundException, BadRequestException, etc."))
       else nothing) ;;
      (* Check for console.log usage *)
      (if test (re "console\.(log|debug|error|warn|info)\(") line
       then pushViolation (mkViolation file lineNum "INV-LOGGER"
              "Using console.* instead of NestJS Logger."
              medium (Some "Use this.logger.log/error/warn/debug"))
       else nothing) ;;
      (* Check for sensitive data in logs *)
      (if test (re "logger\.(log|debug|error|warn)\(") line then
         if test (rei "password|secret|token|apiKey|api_key|jwt") line
         then pushViolation (mkViolation file lineNum "INV-LOG-SENSITIVE"
                "Potential sensitive data in log statement."
                critical None)
         else nothing
       else nothing) ;;
      (* Check for error context preservation *)
      (if test (re "catch\s*\(\s*(\w+)\s*\)") line then
         let catchBlock :=
           join nl (slice index (Nat.min (index + 10) (List.length lines)) lines) in
         if test (re "throw\s+new\s+\w+Exception\(") catchBlock then
           if negb (includes ".message" catchBlock) && negb (includes ".stack" catchBlock)
           then pushWarning (mkWarning file lineNum "INV-ERROR-CONTEXT"
                  "Rethrowing exception may lose original error context.")
           else nothing
         else nothing
       else nothing))).

(** all the lines the scan visits, file after file *)
Definition allLines (ctx : ValidationContext) : list string :=
  flat_map (fun '(_, content) => Js.lines content) (fileContents ctx).

(** the two counters the scan keeps next to its arrays *)
Definition genericErrorCount (ctx : ValidationContext) : nat :=
  List.length (filter throwsGenericError (allLines ctx)).

Definition nestExceptionCount (ctx : ValidationContext) : nat :=
  List.length (filter throwsNestException (allLines ctx)).

Definition validateExceptionTypes (ctx : ValidationContext) : ValidationResult :=
  let found := validateExceptionTypes_scan ctx in
  let totalThrows := nestExceptionCount ctx + genericErrorCount ctx in
  let score : Q :=
    if totalThrows =? 0 then 1%Q
    else (num (nestExceptionCount ctx) / num totalThrows)%Q in
  {| sopFile := "5-error-handling-logging";
     metric := "exception-type-compliance";
     score := score;
     passed := Qle_bool 0.9 score;
     violations := found_violations found;
     warnings := found_warnings found |}.

Definition validateLogging_scan (ctx : ValidationContext) : Findings :=
  forEach (fileContents ctx) (fun '(file, content) =>
    (* Check for Logger initialization in services *)
    (if endsWith ".service.ts" file then
       if negb (includes "private readonly logger = new Logger(" content)
          && negb (includes "private logger = new Logger(" content)
       then
         if includes "this.logger" content
         then pushViolation (mkViolation file 1 "INV-LOGGER-INIT"
                "Service uses this.logger but Logger is not properly initialized."
                medium None)
         else nothing
       else nothing
     else nothing) ;;
    let lines := Js.lines content in
    forEach (indexed lines) (fun '(index, line) =>
      let lineNum := index + 1 in
      (* Check for log statements without context *)
      (if test (re "this\.logger\.(log|error|warn)\(['\x22][\w\s]+['\x22]\s*\)") line then
         if negb (includes "${" line) && negb (includes "+ " line) && negb (includes ", {" line)
         then pushWarning (mkWarning file lineNum "INV-LOG-CONTEXT"
                "Log statement may be missing context (entity IDs, etc.).")
         else nothing
       else nothing) ;;
      (* Check for hardcoded secrets *)
      (if test (re "['\x22]sk-[a-zA-Z0-9]+['\x22]") line
          || test (re "api[_-]?key\s*[:=]\s*['\x22][^'\x22]+['\x22]") line
       then pushViolation (mkViolation file lineNum "INV-HARDCODED-SECRET"
              "Potential hardcoded secret detected."
              critical None)
       else nothing))).

Definition validateLogging (ctx : ValidationContext) : ValidationResult :=
  let found := validateLogging_scan ctx in
  let violations := found_violations found in
  let criticalViolations := countSeverity critical violations in
  let score : Q :=
    if criticalViolations =? 0 then 1%Q
    else Math_max 0 (1 - num criticalViolations * 0.3)%Q in
  {| sopFile := "5-error-handling-logging";
     metric := "logging-compliance";
     score := score;
     passed := criticalViolations =? 0;
     violations := violations;
     warnings := found_warnings found |}.

(** ** validators.ts: 6-external-services-timing *)

Definition validateExternalServicePatterns_scan (ctx : ValidationContext) : Findings :=
  forEach (fileContents ctx) (fun '(file, content) =>
    let lines := Js.lines content in
    forEach (indexed lines) (fun '(index, line) =>
      let lineNum := index + 1 in
      (* Check for external API calls without retry logic *)
      (if test (re "httpService\.(get|post|put|patch|delete)\(|axios\.(get|post|put|patch|delete)\(|fetch\(") line
       then
         let funcBody := join nl (slice (Nat.max 0 (index - 30)) (index + 30) lines) in
         if negb (includes "retry" funcBody) && negb (includes "attempt" funcBody)
         then pushWarning (mkWarning file lineNum "INV-EXTERNAL-RETRY"
                "External API call may need retry logic.")
         else nothing
       else nothing) ;;
      (* Check for external errors exposed to user *)
      (if test (re "catch\s*\([^)]+\)") line then
         let catchBlock :=
           join nl (slice index (Nat.min (index + 10) (List.length lines)) lines) in
         if test (re "throw\s+new\s+\w+Exception\([^)]*error\.") catchBlock
            || test (re "throw\s+new\s+\w+Exception\([^)]*\.message") catchBlock
         then
           let nextLines :=
             join nl (slice index (Nat.min (index + 5) (List.length lines)) lines) in
           if includes "external" nextLines || includes "http" nextLines
              || includes "api" nextLines
           then pushWarning (mkWarning file lineNum "INV-EXTERNAL-ERROR-EXPOSE"
                  "External service error may be exposed to user.")
           else nothing
         else nothing
       else nothing))).

Definition validateExternalServicePatterns (ctx : ValidationContext) : ValidationResult :=
  let found := validateExternalServicePatterns_scan ctx in
  let violations := found_violations found in
  let warnings := found_warnings found in
  let score : Q :=
    (1.0 - num (List.length violations) * 0.2 - num (List.length warnings) * 0.05)%Q in
  {| sopFile := "6-external-services-timing";
     metric := "external-service-compliance";
     score := Math_max 0 score;
     passed := List.length violations =? 0;
     violations := violations;
     warnings := warnings |}.

(** ** validators.ts: 7-queue-job-processing *)

Definition validateJobProcessing_scan (ctx : ValidationContext) : Findings :=
  forEach (fileContents ctx) (fun '(file, content) =>
    (* Check processor files *)
    if includes "processor" file || includes "consumer" file then
      let lines := Js.lines content in
      (* Check for idempotency *)
      (if includes "async process(" content || includes "async execute(" content then
         (* Look for idempotency check pattern *)
         if negb (includes "already" content) && negb (includes "processed" content)
            && negb (includes "idempotent" content) && negb (includes "skip" content)
         then
           (* Check if it has side effects *)
           if includes "sendEmail" content || includes "notify" content
              || includes "webhook" content || includes "create(" content
           then pushWarning (mkWarning file 1 "INV-JOB-IDEMPOTENT"
                  "Job processor with side effects may need idempotency check.")
           else nothing
         else nothing
       else nothing) ;;
      (* Check for tenant context in job data *)
      forEach (indexed lines) (fun '(index, line) =>
        let lineNum := index + 1 in
        if test (re "Job<[^>]+>") line || test (re "interface.*JobData") line then
          let typeBlock :=
            join nl (slice index (Nat.min (index + 15) (List.length lines)) lines) in
          if negb (includes "organizationId" typeBlock)
             && negb (includes "organization_id" typeBlock)
          then pushWarning (mkWarning file lineNum "INV-JOB-TENANT"
                 "Job data type may be missing organizationId.")
          else nothing
        else nothing) ;;
      (* Check for proper logging *)
      (if negb (includes "this.logger.log" content) && negb (includes "this.logger.error" content)
       then pushWarning (mkWarning file 1 "INV-JOB-LOGGING"
              "Job processor may be missing logging.")
       else nothing)
    else nothing).

Definition validateJobProcessing (ctx : ValidationContext) : ValidationResult :=
  let found := validateJobProcessing_scan ctx in
  let violations := found_violations found in
  let warnings := found_warnings found in
  let score : Q :=
    (1.0 - num (List.length violations) * 0.2 - num (List.length warnings) * 0.1)%Q in
  {| sopFile := "7-queue-job-processing";
     metric := "job-processing-compliance";
     score := Math_max 0 score;
     passed := List.length violations =? 0;
     violations := violations;
     warnings := warnings |}.

(** ** validators.ts: 8-api-design-patterns *)

Definition validateApiDesign_scan (ctx : ValidationContext) : Findings :=
  forEach (fileContents ctx) (fun '(file, content) =>
    let lines := Js.lines content in
    (* Check controllers *)
    (if endsWith ".controller.ts" file then
       (* Check for API documentation *)
       (if negb (includes "@ApiTags" content)
        then pushWarning (mkWarning file 1 "INV-API-DOCS"
               "Controller missing @ApiTags decorator.")
        else nothing) ;;
       forEach (indexed lines) (fun '(index, line) =>
         let lineNum := index + 1 in
         (* Check for guards on mutation endpoints *)
         if test (re "@(Post|Put|Patch|Delete)\(") line then
           let methodBlock := join nl (slice (Nat.max 0 (index - 5)) (index + 1) lines) in
           if negb (includes "@UseGuards" methodBlock) && negb (includes "@UseGuards(" content)
           then pushViolation (mkViolation file lineNum "INV-API-GUARD"
                  "Mutation endpoint missing @UseGuards decorator."
                  critical None)
           else nothing
         else nothing)
     else nothing) ;;
    (* Check DTOs *)
    (if includes "/dto/" file then
       forEach (indexed lines) (fun '(index, line) =>
         let lineNum := index + 1 in
         (* Check for validation decorators *)
         if test (re "^\s+\w+\s*:\s*(string|number|boolean)") line && negb (includes "?" line)
         then
           let prevLines := join nl (slice (Nat.max 0 (index - 3)) index lines) in
           if negb (includes "@Is" prevLines) && negb (includes "@Valid" prevLines)
           then pushWarning (mkWarning file lineNum "INV-DTO-VALIDATION"
                  "Required field may be missing validation decorator.")
           else nothing
         else nothing)
     else nothing)).

Definition validateApiDesign (ctx : ValidationContext) : ValidationResult :=
  let found := validateApiDesign_scan ctx in
  let violations := found_violations found in
  let criticalViolations := countSeverity critical violations in
  let score : Q :=
    if criticalViolations =? 0 then 1%Q
    else Math_max 0 (1 - num criticalViolations * 0.25)%Q in
  {| sopFile := "8-api-design-patterns";
     metric := "api-design-compliance";
     score := score;
     passed := criticalViolations =? 0;
     violations := violations;
     warnings := found_warnings found |}.

(** ** validators.ts: 9-testing-code-quality *)

Definition validateCodeQuality_scan (ctx : ValidationContext) : Findings :=
  forEach (fileContents ctx) (fun '(file, content) =>
    let lines := Js.lines content in
    forEach (indexed lines) (fun '(index, line) =>
      let lineNum := index + 1 in
      (* Check for TODO/FIXME *)
      (if test (rei "\/\/\s*(TODO|FIXME|HACK|XXX)") line
       then pushWarning (mkWarning file lineNum "INV-TODO"
              "Unresolved TODO/FIXME comment.")
       else nothing) ;;
      (* Check for any type *)
      (if test (re ":\s*any\s*[;,=)]") line || test (re "as\s+any") line
       then pushWarning (mkWarning file lineNum "INV-ANY-TYPE"
              ("Usage of " ++ dq ++ "any" ++ dq ++ " type reduces type safety."))
       else nothing))).

Definition validateCodeQuality (ctx : ValidationContext) : ValidationResult :=
  let found := validateCodeQuality_scan ctx in
  let violations := found_violations found in
  let warnings := found_warnings found in
  let score : Q :=
    (1.0 - num (List.length violations) * 0.1 - num (List.length warnings) * 0.02)%Q in
  {| sopFile := "9-testing-code-quality";
     metric := "code-quality";
     score := Math_max 0 score;
     passed := List.length violations =? 0;
     violations := violations;
     warnings := warnings |}.

(** ** validators.ts: audit log validator *)

Definition criticalEntities : list string :=
  [ "organizations"; "role_plays"; "assessments"; "users"; "rubrics" ].

(** [content.lastIndexOf('async ', index)] and [content.indexOf('}', index +
    100)], -1 when there is none *)
Definition indexOrMinus1 (o : option nat) : Z :=
  match o with Some i => Z.of_nat i | None => (-1)%Z end.

Definition auditedOperation (file content entity operation label : string) : Findings :=
  let pattern := re ("prisma\." ++ entity ++ "\." ++ operation ++ "\(") in
  forEach (matchAll pattern content) (fun m =>
    let funcStart := indexOrMinus1 (lastIndexOfUpTo "async " (m_index m) content 0 None) in
    let funcEnd := indexOrMinus1 (indexOfFrom "}" (m_index m + 100) content 0) in
    let funcBody := substringZ funcStart funcEnd content in
    if negb (includes "auditLogsService" funcBody) && negb (includes "audit" funcBody)
    then pushWarning (mkWarning file (lineOfIndex content (m_index m)) "INV-AUDIT-LOG"
           (label ++ " operation on " ++ entity ++ " may be missing audit log."))
    else nothing).

Definition validateAuditLogging_scan (ctx : ValidationContext) : Findings :=
  forEach (fileContents ctx) (fun '(file, content) =>
    if negb (endsWith ".service.ts" file) then nothing
    else
      forEach criticalEntities (fun entity =>
        (* Check for create operations *)
        auditedOperation file content entity "create" "Create" ;;
        (* Check for update operations *)
        auditedOperation file content entity "update" "Update")).

Definition validateAuditLogging (ctx : ValidationContext) : ValidationResult :=
  let found := validateAuditLogging_scan ctx in
  let warnings := found_warnings found in
  let score : Q :=
    if List.length warnings =? 0 then 1%Q
    else Math_max 0 (1 - num (List.length warnings) * 0.1)%Q in
  {| sopFile := "2-supabase";
     metric := "audit-log-coverage";
     score := score;
     passed := true;
     violations := found_violations found;
     warnings := warnings |}.

(** ** validators.ts: the registry *)

Definition Validator : Type := ValidationContext -> ValidationResult.

(** [export const validators = { ... }], in key order *)
Definition validators : list (string * Validator) :=
  [ ("supabase-auth", validateSupabaseAuth);
    ("tenant-isolation", validateTenantIsolation);
    ("audit-logging", validateAuditLogging);
    ("prisma-queries", validatePrismaQueries);
    ("transactions", validateTransactions);
    ("code-safety", validateCodeSafetyPatterns);
    ("exception-types", validateExceptionTypes);
    ("logging", validateLogging);
    ("external-services", validateExternalServicePatterns);
    ("job-processing", validateJobProcessing);
    ("api-design", validateApiDesign);
    ("code-quality", validateCodeQuality) ].

End Validators.

(* ================================================================== *)
(** * general-practices-validator.ts *)
(* ================================================================== *)

Module GeneralPractices.
Import Validators.

(** How the evaluation of a JavaScript expression ends: with a value or with
    a thrown exception. *)
Inductive Completion (A : Type) : Type :=
| Normal (a : A)
| Throw (e : string).
Arguments Normal {A} a.
Arguments Throw {A} e.

Definition bind {A B : Type} (c : Completion A) (k : A -> Completion B) : Completion B :=
  match c with
  | Normal a => k a
  | Throw e => Throw e
  end.

Inductive Category : Type :=
| security | performance | reliability | maintainability | error_handling.

Record LineContext : Type := {
  prevLines : list string;
  nextLines : list string;
  fullContent : string;
  filename : string;
  inFunction : bool;
  inClass : bool;
  inTryCatch : bool
}.

Record RuleViolation : Type := {
  rv_message : string;
  rv_fix : option string
}.

(** [null] is [None] *)
Definition finding (msg hint : string) : option RuleViolation :=
  Some {| rv_message := msg; rv_fix := Some hint |}.

(** a rule; its [description] text is left out *)
Record GeneralRule : Type := {
  id : string;
  name : string;
  category : Category;
  rule_severity : Severity;
  check : string -> nat -> LineContext -> Completion (option RuleViolation)
}.

Definition head_or_empty (l : list string) : string :=
  match l with x :: _ => x | [] => EmptyString end.

Definition securityRules : list GeneralRule :=
  [ {| id := "SEC-001"; name := "No eval()"; category := security; rule_severity := critical;
       check := fun line _ _ => Normal (
         if test (re "\beval\s*\(") line
         then finding "eval() usage detected - security vulnerability"
                "Use JSON.parse() for JSON, or Function constructor if absolutely necessary"
         else None) |};
    {| id := "SEC-002"; name := "No Function constructor"; category := security;
       rule_severity := high;
       check := fun line _ _ => Normal (
         if test (re "new\s+Function\s*\(") line
         then finding "new Function() can execute arbitrary code"
                "Use regular functions or arrow functions instead"
         else None) |};
    {| id := "SEC-003"; name := "No innerHTML with user input"; category := security;
       rule_severity := critical;
       check := fun line _ _ => Normal (
         if test (re "\.innerHTML\s*=") line && negb (test (rei "sanitize|escape|encode") line)
         then finding "innerHTML assignment without visible sanitization"
                "Use textContent, or sanitize HTML before assignment"
         else None) |};
    {| id := "SEC-004"; name := "No hardcoded credentials"; category := security;
       rule_severity := critical;
       check := fun line _ _ => Normal (
         (* API keys *)
         if test (re "['\x22]sk-[a-zA-Z0-9]{20,}['\x22]") line
         then finding "Hardcoded API key detected" "Use environment variables"
         (* Passwords *)
         else if test (re "password\s*[:=]\s*['\x22][^'\x22]{4,}['\x22](?!.*\$\{)") line
                 && negb (test (rei "example|test|mock") line)
         then finding "Hardcoded password detected" "Use environment variables"
         (* AWS keys *)
         else if test (re "AKIA[0-9A-Z]{16}") line
         then finding "AWS access key detected" "Use environment variables"
         else None) |};
    {| id := "SEC-005"; name := "No SQL string concatenation"; category := security;
       rule_severity := critical;
       check := fun line _ _ => Normal (
         if (test (re "\$queryRaw`.*\$\{") line || test (re "\$executeRaw`.*\$\{") line)
            && negb (includes "Prisma.sql" line) && negb (includes "Prisma.join" line)
         then finding "Raw SQL with string interpolation - potential SQL injection"
                "Use Prisma.sql`...` for parameterized queries"
         else if test (re "(SELECT|INSERT|UPDATE|DELETE).*\+\s*['\x22]?\s*\w+") line
         then finding "SQL string concatenation detected - potential injection"
                "Use parameterized queries"
         else None) |};
    {| id := "SEC-006"; name := "No exec/spawn with user input"; category := security;
       rule_severity := critical;
       check := fun line _ _ => Normal (
         if test (re "child_process|exec\(|spawn\(|execSync\(") line
            && test (re "\$\{|\+\s*\w+") line
         then finding "Command execution with variable input - potential command injection"
                "Validate and sanitize all inputs, use argument arrays instead of string"
         else None) |} ].

Definition errorHandlingRules : list GeneralRule :=
  [ {| id := "ERR-001"; name := "No empty catch blocks"; category := error_handling;
       rule_severity := high;
       check := fun line _ ctx => Normal (
         if test (re "catch\s*\([^)]*\)\s*{\s*}") line
         then finding "Empty catch block - errors will be silently ignored"
                "Log the error or rethrow with context"
         (* Multi-line empty catch *)
         else if test (re "catch\s*\([^)]*\)\s*{$") line
                 && test (re "^\s*}") (head_or_empty (nextLines ctx))
         then finding "Empty catch block - errors will be silently ignored"
                "Log the error or rethrow with context"
         else None) |};
    {| id := "ERR-002"; name := "No catch with just console.log"; category := error_handling;
       rule_severity := medium;
       check := fun line _ _ => Normal (
         if test (re "catch\s*\([^)]*\)\s*{\s*console\.log") line
         then finding "Catch block only logs error but doesn't handle it"
                "Rethrow the error, recover, or return an error response"
         else None) |};
    {| id := "ERR-003"; name := "Async functions should handle errors";
       category := error_handling; rule_severity := medium;
       check := fun line _ ctx => Normal (
         if test (re "async\s+\w+\s*\([^)]*\)\s*{") line then
           (* Check if function body has try-catch or .catch *)
           let funcBody := join nl (slice 0 20 (nextLines ctx)) in
           if test (re "await\s") funcBody && negb (test (re "try\s*{|\.catch\(") funcBody)
           then finding "Async function with await but no error handling"
                  "Add try-catch or .catch() for await calls"
           else None
         else None) |};
    {| id := "ERR-004"; name := "Promise rejection handling"; category := error_handling;
       rule_severity := medium;
       check := fun line _ _ => Normal (
         if test (re "new\s+Promise\s*\(") line && negb (test (re "reject|_") line)
         then finding "Promise created without reject handler"
                "Add reject parameter: new Promise((resolve, reject) => {...})"
         else None) |};
    {| id := "ERR-005"; name := "Error thrown should have message"; category := error_handling;
       rule_severity := medium;
       check := fun line _ _ => Normal (
         if test (re "throw\s+new\s+\w*Error\s*\(\s*\)") line
         then finding "Error thrown without message" "Add descriptive error message"
         else None) |} ].

Definition performanceRules : list GeneralRule :=
  [ {| id := "PERF-001"; name := "Avoid await in loops"; category := performance;
       rule_severity := medium;
       check := fun line _ ctx => Normal (
         if test (re "for\s*\(|\.forEach\(|while\s*\(") line then
           let loopBody := join nl (slice 0 15 (nextLines ctx)) in
           if test (re "await\s") loopBody && negb (test (re "Promise\.all") loopBody)
           then finding "await inside loop - runs sequentially instead of in parallel"
                  "Use Promise.all() with map(), or batch the operations"
           else None
         else None) |};
    {| id := "PERF-002"; name := "No sync file operations"; category := performance;
       rule_severity := medium;
       check := fun line _ _ => Normal (
         if test (re "readFileSync|writeFileSync|existsSync|readdirSync|statSync") line
            && negb (test (re "require\s*\(|import") line)
         then finding "Sync file operation blocks event loop"
                "Use async version (readFile, writeFile, etc.) with await"
         else None) |};
    {| id := "PERF-003"; name := "Avoid creating functions in loops"; category := performance;
       rule_severity := medium;
       check := fun line _ ctx => Normal (
         if test (re "for\s*\(|while\s*\(") line then
           let loopBody := join nl (slice 0 10 (nextLines ctx)) in
           if test (re "function\s*\(|=>\s*{") loopBody
              (* Check if it's a callback to a method (acceptable) *)
              && negb (test (re "\.(map|filter|reduce|forEach|find|some|every)\(") loopBody)
           then finding "Function created inside loop"
                  "Define function outside loop and reference it"
           else None
         else None) |};
    {| id := "PERF-004"; name := "Use Set for existence checks"; category := performance;
       rule_severity := medium;
       check := fun line _ ctx => Normal (
         if test (re "\.includes\(") line then
           (* Check if in a loop *)
           let prevLines := join nl (lastN 10 (prevLines ctx)) in
           if test (re "for\s*\(|\.forEach\(|while\s*\(") prevLines
           then finding "Array.includes() in loop is O(n) per iteration"
                  "Convert array to Set before loop, use Set.has()"
           else None
         else None) |} ].

(** [paramMatch[1].split(',').map(p => p.trim().split(':')[0].trim())] *)
Definition paramNames (params : string) : list string :=
  map (fun p => trim (head_or_empty (split ":" (trim p)))) (split "," params).

Definition reliabilityRules : list GeneralRule :=
  [ {| id := "REL-001"; name := "No floating promises"; category := reliability;
       rule_severity := high;
       check := fun line _ _ => Normal (
         (* Check for function calls that likely return promises without await *)
         if test (re "^\s*this\.\w+\.\w+\([^)]*\);?\s*$") line && negb (includes "await" line)
         then
           match exec (re "this\.(\w+)\.(\w+)") line with
           | Some m =>
               if test (re "^(create|update|delete|save|send|fetch|post|get|put|patch)")
                    (group_or_empty 2 m)
               then finding "Potential floating promise - async operation without await"
                      "Add await before the call, or use .then()/.catch()"
               else None
           | None => None
           end
         else None) |};
    {| id := "REL-002"; name := "Check for null/undefined before access";
       category := reliability; rule_severity := medium;
       check := fun _ _ _ => Normal None  (* every path returns null *) |};
    {| id := "REL-003"; name := "No mutation of function parameters"; category := reliability;
       rule_severity := medium;
       check := fun line _ ctx => Normal (
         (* Check if we're inside a function *)
         if inFunction ctx then
           (* Parameter mutation patterns *)
           if test (re "^\s*\w+\.\w+\s*=") line then
             (* Check if variable is a parameter *)
             let funcDef := join nl (lastN 15 (prevLines ctx)) in
             match exec (re "\(([^)]+)\)") funcDef with
             | Some paramMatch =>
                 let params := paramNames (group_or_empty 1 paramMatch) in
                 match exec (re "^\s*(\w+)\.") line with
                 | Some mm =>
                     let mutatedVar := group_or_empty 1 mm in
                     if mem mutatedVar params
                     then finding ("Mutating function parameter '" ++ mutatedVar ++ "'")
                            "Create a copy of the parameter before modifying"
                     else None
                 | None => None
                 end
             | None => None
             end
           else None
         else None) |};
    {| id := "REL-004"; name := "Timeout in async operations"; category := reliability;
       rule_severity := medium;
       check := fun line _ _ => Normal (
         if test (re "fetch\(|axios\.|httpService\.") line
            && negb (test (re "timeout|signal|AbortController") line)
         then finding "HTTP request without timeout"
                "Add timeout option or AbortController signal"
         else None) |} ].

(** the line count of MAINT-005: lines are counted from the first one with a
    [{] until the braces balance *)
Fixpoint functionLineCount (window : list string) (started : bool) (braceCount : Z)
         (lineCount : nat) : nat :=
  match window with
  | [] => lineCount
  | l :: rest =>
      let started1 := started || includes "{" l in
      let braceCount1 :=
        if includes "{" l then (braceCount + Z.of_nat (countMatches (re "{") l))%Z
        else braceCount in
      let braceCount2 :=
        if includes "}" l then (braceCount1 - Z.of_nat (countMatches (re "}") l))%Z
        else braceCount1 in
      let lineCount1 := if started1 then S lineCount else lineCount in
      if started1 && (braceCount2 =? 0)%Z then lineCount1
      else functionLineCount rest started1 braceCount2 lineCount1
  end.

Definition maintainabilityRules : list GeneralRule :=
  [ {| id := "MAINT-001"; name := "No magic numbers"; category := maintainability;
       rule_severity := medium;
       check := fun line _ _ => Normal (
         (* Common magic numbers *)
         if test (re "[^a-zA-Z0-9_](86400|3600|1000|60000|5000|10000|30000)[^0-9]") line
            && negb (test (re "const|let|var|=\s*\d+;?\s*\/\/") line)
         then finding "Magic number detected"
                "Extract to named constant (e.g., const TIMEOUT_MS = 5000)"
         else None) |};
    {| id := "MAINT-002"; name := "No deeply nested callbacks"; category := maintainability;
       rule_severity := medium;
       check := fun line _ _ => Normal (
         let indent :=
           match exec (re "^(\s*)") line with
           | Some m => String.length (group_or_empty 1 m)
           | None => 0
           end in
         if (20 <? indent) && test (re "=>\s*{|function\s*\(|\{\s*$") line
         then finding "Deeply nested code (>5 levels)"
                "Extract to separate functions or use early returns"
         else None) |};
    {| id := "MAINT-003"; name := "No commented-out code"; category := maintainability;
       rule_severity := medium;
       check := fun line _ _ => Normal (
         if test (re "^\s*\/\/\s*(const|let|var|if|for|while|return|await|function|class|import)\s") line
         then finding "Commented-out code detected"
                "Remove commented code, use version control for history"
         else None) |};
    {| id := "MAINT-004"; name := "Avoid any type"; category := maintainability;
       rule_severity := medium;
       check := fun line _ _ => Normal (
         if test (re ":\s*any\s*[;,=)\]]|as\s+any\b") line
         then finding ("Usage of " ++ dq ++ "any" ++ dq ++ " type")
                "Use proper type, unknown, or generic"
         else None) |};
    {| id := "MAINT-005"; name := "Function too long"; category := maintainability;
       rule_severity := medium;
       check := fun line _ ctx => Normal (
         if test (re "async\s+\w+\s*\(|function\s+\w+\s*\(") line then
           (* Count lines until function end *)
           let lineCount := functionLineCount (slice 0 100 (nextLines ctx)) false 0%Z 0 in
           if 50 <? lineCount
           then finding ("Function is " ++ string_of_nat lineCount ++ " lines (>50 lines)")
                  "Extract logic into smaller functions"
           else None
         else None) |} ].

(** the helper scans walk from the current line back to the first *)
Fixpoint scanBack (opens : list RegExp) (back : list string) (braceCount : Z) : bool :=
  match back with
  | [] => false
  | l :: rest =>
      let braceCount1 := (braceCount + Z.of_nat (countMatches (re "}") l))%Z in
      let braceCount2 := (braceCount1 - Z.of_nat (countMatches (re "{") l))%Z in
      if existsb (fun r => test r l) opens && (braceCount2 <=? 0)%Z then true
      else scanBack opens rest braceCount2
  end.

(** [lines[currentIndex], lines[currentIndex - 1], ..., lines[0]] *)
Definition backFrom (lines : list string) (currentIndex : nat) : list string :=
  rev (firstn (S currentIndex) lines).

Definition checkInFunction (lines : list string) (currentIndex : nat) : bool :=
  scanBack [re "async\s+\w+|function\s+\w+"] (backFrom lines currentIndex) 0%Z.

Definition checkInClass (lines : list string) (currentIndex : nat) : bool :=
  existsb (fun l => test (re "^class\s+\w+") l || test (re "^export\s+class\s+\w+") l)
    (backFrom lines currentIndex).

Definition checkInTryCatch (lines : list string) (currentIndex : nat) : bool :=
  scanBack [re "try\s*{"; re "catch\s*\([^)]*\)\s*{"] (backFrom lines currentIndex) 0%Z.

(** a loop whose body may throw: the exception ends the loop and whatever
    called it *)
Fixpoint forEachC {A : Type} (l : list A) (body : A -> Completion Findings)
  : Completion Findings :=
  match l with
  | [] => Normal nothing
  | x :: rest =>
      bind (body x) (fun f1 =>
      bind (forEachC rest body) (fun f2 =>
      Normal (f1 ;; f2)))
  end.

Definition allRules : list GeneralRule :=
  (securityRules ++ errorHandlingRules ++ performanceRules ++ reliabilityRules
     ++ maintainabilityRules)%list.

(** the [LineContext] built for the line at [index] *)
Definition buildContext (filename content : string) (lines : list string) (index : nat)
  : LineContext :=
  {| prevLines := slice (Nat.max 0 (index - 15)) index lines;
     nextLines := slice (index + 1) (Nat.min (index + 30) (List.length lines)) lines;
     fullContent := content;
     filename := filename;
     inFunction := checkInFunction lines index;
     inClass := checkInClass lines index;
     inTryCatch := checkInTryCatch lines index |}.

(** The main validator, over the rules it is given.  The source builds the
    list [allRules] from the five catalogues above. *)
Definition runGeneralRules (rules : list GeneralRule) (ctx : ValidationContext)
  : Completion Findings :=
  forEachC (fileContents ctx) (fun '(filename, content) =>
    let lines := Js.lines content in
    forEachC (indexed lines) (fun '(index, line) =>
      let lineNum := index + 1 in
      (* Build context *)
      let lineContext := buildContext filename content lines index in
      (* Run all rules *)
      forEachC rules (fun rule =>
        bind (check rule line lineNum lineContext) (fun violation =>
        match violation with
        | Some violation =>
            match rule_severity rule with
            | critical | high =>
                Normal (pushViolation (mkViolation filename lineNum (id rule)
                          (rv_message violation) (rule_severity rule) (rv_fix violation)))
            | medium =>
                Normal (pushWarning (mkWarning filename lineNum (id rule)
                          (rv_message violation)))
            end
        | None => Normal nothing
        end)))).

Definition generalPracticesResult (found : Findings) : ValidationResult :=
  let violations := found_violations found in
  let warnings := found_warnings found in
  let criticalCount := countSeverity critical violations in
  let highCount := countSeverity high violations in
  let score : Q :=
    Math_max 0 (1 - num criticalCount * 0.3 - num highCount * 0.1
                  - num (List.length warnings) * 0.02)%Q in
  {| sopFile := "general-practices";
     metric := "general-best-practices";
     score := score;
     passed := criticalCount =? 0;
     violations := violations;
     warnings := warnings |}.

Definition validateGeneralPracticesWith (rules : list GeneralRule) (ctx : ValidationContext)
  : Completion ValidationResult :=
  bind (runGeneralRules rules ctx) (fun found => Normal (generalPracticesResult found)).

(** [validateGeneralPractices]: no check of the catalogue throws (see
    [validateGeneralPractices_returns]), so the second branch is never
    taken. *)
Definition validateGeneralPractices (ctx : ValidationContext) : ValidationResult :=
  match validateGeneralPracticesWith allRules ctx with
  | Normal r => r
  | Throw _ => generalPracticesResult nothing
  end.

End GeneralPractices.

(* ================================================================== *)
(** * metrics-config.ts *)
(* ================================================================== *)

Module MetricsConfig.

(** ** A [Map] with string keys, in insertion order *)

Definition JsMap (V : Type) : Type := list (string * V).

(** [m.get(k)], [None] for [undefined] *)
Fixpoint Map_get {V : Type} (m : JsMap V) (k : string) : option V :=
  match m with
  | [] => None
  | (k', v) :: rest => if String.eqb k' k then Some v else Map_get rest k
  end.

(** [m.has(k)] *)
Definition Map_has {V : Type} (m : JsMap V) (k : string) : bool :=
  match Map_get m k with Some _ => true | None => false end.

(** [m.set(k, v)]: an existing key keeps its place, a new one goes last *)
Fixpoint Map_set {V : Type} (m : JsMap V) (k : string) (v : V) : JsMap V :=
  match m with
  | [] => [(k, v)]
  | (k', v') :: rest =>
      if String.eqb k' k then (k', v) :: rest else (k', v') :: Map_set rest k v
  end.

(** the map obtained by [set]ting the entries one after the other *)
Definition Map_of {V : Type} (entries : list (string * V)) : JsMap V :=
  fold_left (fun m '(k, v) => Map_set m k v) entries [].

(** ** Metric definitions *)

Record Thresholds : Type := {
  pass : Q;
  warn : Q;
  fail : Q
}.

(** a metric; its [description] and [invariants] texts are left out *)
Record MetricDefinition : Type := {
  name : string;
  displayName : string;
  sopFile : string;
  weight : Q;
  blockOnFail : bool;
  thresholds : Thresholds
}.

Definition METRIC_DEFINITIONS : list MetricDefinition :=
  [ (* 2-SUPABASE METRICS *)
    {| name := "supabase-auth"; displayName := "Supabase Auth Compliance";
       sopFile := "2-supabase"; weight := 0.15; blockOnFail := true;
       thresholds := {| pass := 1.0; warn := 0.95; fail := 0.9 |} |};
    {| name := "tenant-isolation"; displayName := "Tenant Isolation";
       sopFile := "2-supabase"; weight := 0.15; blockOnFail := true;
       thresholds := {| pass := 1.0; warn := 0.95; fail := 0.9 |} |};
    {| name := "audit-logging"; displayName := "Audit Log Coverage";
       sopFile := "2-supabase"; weight := 0.05; blockOnFail := false;
       thresholds := {| pass := 1.0; warn := 0.8; fail := 0.5 |} |};
    (* 3-DATABASE-PRISMA METRICS *)
    {| name := "prisma-queries"; displayName := "Prisma Query Compliance";
       sopFile := "3-database-prisma"; weight := 0.15; blockOnFail := true;
       thresholds := {| pass := 1.0; warn := 0.9; fail := 0.8 |} |};
    {| name := "transactions"; displayName := "Transaction Compliance";
       sopFile := "3-database-prisma"; weight := 0.10; blockOnFail := true;
       thresholds := {| pass := 1.0; warn := 0.9; fail := 0.8 |} |};
    (* 4-CODE-SAFETY-PATTERNS METRICS *)
    {| name := "code-safety"; displayName := "Code Safety Patterns";
       sopFile := "4-code-safety-patterns"; weight := 0.05; blockOnFail := false;
       thresholds := {| pass := 1.0; warn := 0.8; fail := 0.6 |} |};
    (* 5-ERROR-HANDLING-LOGGING METRICS *)
    {| name := "exception-types"; displayName := "Exception Type Compliance";
       sopFile := "5-error-handling-logging"; weight := 0.10; blockOnFail := false;
       thresholds := {| pass := 0.95; warn := 0.85; fail := 0.7 |} |};
    {| name := "logging"; displayName := "Logging Compliance";
       sopFile := "5-error-handling-logging"; weight := 0.05; blockOnFail := false;
       thresholds := {| pass := 1.0; warn := 0.8; fail := 0.6 |} |};
    (* 6-EXTERNAL-SERVICES-TIMING METRICS *)
    {| name := "external-services"; displayName := "External Service Patterns";
       sopFile := "6-external-services-timing"; weight := 0.05; blockOnFail := false;
       thresholds := {| pass := 1.0; warn := 0.7; fail := 0.5 |} |};
    (* 7-QUEUE-JOB-PROCESSING METRICS *)
    {| name := "job-processing"; displayName := "Job Processing Compliance";
       sopFile := "7-queue-job-processing"; weight := 0.05; blockOnFail := false;
       thresholds := {| pass := 1.0; warn := 0.7; fail := 0.5 |} |};
    (* 8-API-DESIGN-PATTERNS METRICS *)
    {| name := "api-design"; displayName := "API Design Compliance";
       sopFile := "8-api-design-patterns"; weight := 0.05; blockOnFail := true;
       thresholds := {| pass := 1.0; warn := 0.9; fail := 0.8 |} |};
    (* 9-TESTING-CODE-QUALITY METRICS *)
    {| name := "code-quality"; displayName := "Code Quality";
       sopFile := "9-testing-code-quality"; weight := 0.05; blockOnFail := false;
       thresholds := {| pass := 1.0; warn := 0.7; fail := 0.5 |} |} ].

(** ** Gating configuration *)

Record GatingConfig : Type := {
  minimumScore : Q;          (* Minimum total score to pass *)
  blockOnBlockers : bool;    (* Block merge on any blocker violations *)
  failOnWarnings : bool;     (* Fail on warnings (optional strict mode) *)
  maxBlockers : Z;           (* Maximum allowed blockers (0 = none allowed) *)
  maxWarnings : Z            (* Maximum allowed warnings before failure *)
}.

Definition DEFAULT_GATING_CONFIG : GatingConfig :=
  {| minimumScore := 0.85;
     blockOnBlockers := true;
     failOnWarnings := false;
     maxBlockers := 0;
     maxWarnings := 50 |}.

Definition STRICT_GATING_CONFIG : GatingConfig :=
  {| minimumScore := 0.95;
     blockOnBlockers := true;
     failOnWarnings := true;
     maxBlockers := 0;
     maxWarnings := 0 |}.

(** ** Helper functions *)

Definition getMetricByName (n : string) : option MetricDefinition :=
  find (fun m => String.eqb (name m) n) METRIC_DEFINITIONS.

Definition getMetricsBySop (sop : string) : list MetricDefinition :=
  filter (fun m => String.eqb (sopFile m) sop) METRIC_DEFINITIONS.

Definition getBlockingMetrics : list MetricDefinition :=
  filter (fun m => blockOnFail m) METRIC_DEFINITIONS.

(** [a < b] on numbers *)
Definition Qlt_bool (a b : Q) : bool := negb (Qle_bool b a).

(** one turn of the loop of [calculateWeightedScore] on the pair
    [(weightedSum, totalWeight)] *)
Definition accumulate (scores : JsMap Q) (acc : Q * Q) (metric : MetricDefinition) : Q * Q :=
  let '(weightedSum, totalWeight) := acc in
  match Map_get scores (name metric) with
  | Some score => ((weightedSum + score * weight metric)%Q, (totalWeight + weight metric)%Q)
  | None => (weightedSum, totalWeight)
  end.

Definition calculateWeightedScore (scores : JsMap Q) : Q :=
  let '(weightedSum, totalWeight) :=
    fold_left (accumulate scores) METRIC_DEFINITIONS (0%Q, 0%Q) in
  if Qlt_bool 0 totalWeight then (weightedSum / totalWeight)%Q else 1.0%Q.

Record GatingResult : Type := {
  passed : bool;
  reason : option string
}.

Definition failed (why : string) : GatingResult :=
  {| passed := false; reason := Some why |}.

Definition blockerReason (blockerCount : Z) (config : GatingConfig) : string :=
  string_of_Z blockerCount ++ " blocking violations (max: "
    ++ string_of_Z (maxBlockers config) ++ ")".

Definition warningReason (warningCount : Z) (config : GatingConfig) : string :=
  string_of_Z warningCount ++ " warnings (max: " ++ string_of_Z (maxWarnings config) ++ ")".

Definition metricReason (metric : MetricDefinition) (score : Q) : string :=
  "Blocking metric " ++ displayName metric ++ " score " ++ toFixed1 (score * 100)%Q
    ++ "% below threshold " ++ toFixed1 (fail (thresholds metric) * 100)%Q ++ "%".

Definition totalReason (totalScore : Q) (config : GatingConfig) : string :=
  "Total score " ++ toFixed1 (totalScore * 100)%Q ++ "% below minimum "
    ++ toFixed1 (minimumScore config * 100)%Q ++ "%".

(** the loop over [getBlockingMetrics()]: the first metric with a score below
    its [fail] threshold ends the function *)
Fixpoint checkBlockingMetrics (scores : JsMap Q) (metrics : list MetricDefinition)
  : option GatingResult :=
  match metrics with
  | [] => None
  | metric :: rest =>
      match Map_get scores (name metric) with
      | Some score =>
          if Qlt_bool score (fail (thresholds metric))
          then Some (failed (metricReason metric score))
          else checkBlockingMetrics scores rest
      | None => checkBlockingMetrics scores rest
      end
  end.

Definition evaluateGating (scores : JsMap Q) (blockerCount warningCount : Z)
           (config : GatingConfig) : GatingResult :=
  (* Check blockers *)
  if blockOnBlockers config && (maxBlockers config <? blockerCount)%Z
  then failed (blockerReason blockerCount config)
  (* Check warnings *)
  else if failOnWarnings config && (maxWarnings config <? warningCount)%Z
  then failed (warningReason warningCount config)
  else
    (* Check individual blocking metrics *)
    match checkBlockingMetrics scores getBlockingMetrics with
    | Some result => result
    | None =>
        (* Check total score *)
        let totalScore := calculateWeightedScore scores in
        if Qlt_bool totalScore (minimumScore config)
        then failed (totalReason totalScore config)
        else {| passed := true; reason := None |}
    end.

End MetricsConfig.

(* ================================================================== *)
(** * self-correction.ts *)
(* ================================================================== *)

Module SelfCorrection.
Import Validators.
Import MetricsConfig (JsMap, Map_get, Map_has, Map_set).

(** ** Types *)

Record AppliedFix : Type := {
  af_rule : string;
  af_line : nat;
  description : string;
  before : string;
  after : string
}.

Record CorrectionResult : Type := {
  original : string;
  corrected : string;
  appliedFixes : list AppliedFix;
  remainingViolations : list Violation
}.

Record CorrectionConfig : Type := {
  maxIterations : JsNumber;
  autoFix : bool;
  fixRules : option (list string);
  skipRules : option (list string)
}.

(** ** Fix patterns *)

Record FixPattern : Type := {
  fp_rule : string;
  pattern : RegExp;          (* every pattern below carries the [g] flag *)
  replacement : replacement;
  fp_description : string
}.

(** the replacement function of the [deleted_at] fix, on [(match, prefix,
    entity, conditions, suffix)] *)
Definition addDeletedAt (m : rmatch) : string :=
  let prefix := group_or_empty 1 m in
  let conditions := group_or_empty 3 m in
  let suffix := group_or_empty 4 m in
  if includes "deleted_at" conditions then m_text m
  else
    let newConditions :=
      replaceFirst (re ",?\s*$") (ReplText "") (trim conditions)
        ++ "," ++ nl ++ "      deleted_at: null," in
    prefix ++ newConditions ++ suffix.

Definition FIX_PATTERNS : list FixPattern :=
  [ (* Generic Error -> NestJS Exception *)
    {| fp_rule := "INV-ERROR-TYPE";
       pattern := rei "throw\s+new\s+Error\(\s*['\x22]([^'\x22]*not\s*found[^'\x22]*)['\x22][\s)]";
       replacement := ReplText "throw new NotFoundException('$1')";
       fp_description := "Replace generic Error with NotFoundException" |};
    {| fp_rule := "INV-ERROR-TYPE";
       pattern := rei "throw\s+new\s+Error\(\s*['\x22]([^'\x22]*invalid[^'\x22]*)['\x22][\s)]";
       replacement := ReplText "throw new BadRequestException('$1')";
       fp_description := "Replace generic Error with BadRequestException" |};
    {| fp_rule := "INV-ERROR-TYPE";
       pattern := rei "throw\s+new\s+Error\(\s*['\x22]([^'\x22]*denied[^'\x22]*)['\x22][\s)]";
       replacement := ReplText "throw new ForbiddenException('$1')";
       fp_description := "Replace generic Error with ForbiddenException" |};
    (* console.* -> Logger *)
    {| fp_rule := "INV-LOGGER";
       pattern := re "console\.log\(";
       replacement := ReplText "this.logger.log(";
       fp_description := "Replace console.log with Logger" |};
    {| fp_rule := "INV-LOGGER";
       pattern := re "console\.error\(";
       replacement := ReplText "this.logger.error(";
       fp_description := "Replace console.error with Logger" |};
    {| fp_rule := "INV-LOGGER";
       pattern := re "console\.warn\(";
       replacement := ReplText "this.logger.warn(";
       fp_description := "Replace console.warn with Logger" |};
    {| fp_rule := "INV-LOGGER";
       pattern := re "console\.debug\(";
       replacement := ReplText "this.logger.debug(";
       fp_description := "Replace console.debug with Logger" |};
    (* Add deleted_at filter *)
    {| fp_rule := "INV-PRISMA-SOFT-DELETE";
       pattern := re "(prisma\.(organizations|teams|rubrics|role_plays)\.find\w+\(\s*{\s*where:\s*{)([^}]+)(}\s*}\))";
       replacement := ReplFn addDeletedAt;
       fp_description := "Add deleted_at: null filter" |};
    (* Add orderBy to findMany *)
    {| fp_rule := "INV-PRISMA-ORDERBY";
       pattern := re "(\.findMany\(\s*{\s*where:\s*{[^}]+}\s*)(}\))";
       replacement :=
         ReplText ("$1," ++ nl ++ "    orderBy: { created_at: 'desc' }," ++ nl ++ "  $2");
       fp_description := "Add orderBy clause to findMany" |} ].

(** ** Import fixes *)

(** [Object.entries(IMPORT_FIXES)] *)
Definition IMPORT_FIXES : list (string * string) :=
  [ ("NotFoundException", "import { NotFoundException } from '@nestjs/common';");
    ("BadRequestException", "import { BadRequestException } from '@nestjs/common';");
    ("ForbiddenException", "import { ForbiddenException } from '@nestjs/common';");
    ("UnauthorizedException", "import { UnauthorizedException } from '@nestjs/common';");
    ("ConflictException", "import { ConflictException } from '@nestjs/common';");
    ("Logger", "import { Logger } from '@nestjs/common';") ].

(** ** Correction engine *)

(** [list = map.get(v.rule) || []; list.push(v); map.set(v.rule, list)] for
    every violation *)
Definition groupByRule (violations : list Violation) : JsMap (list Violation) :=
  fold_left (fun m v =>
      let list := match Map_get m (rule v) with Some l => l | None => [] end in
      Map_set m (rule v) (list ++ [v])%list)
    violations [].

(** [text.split('\n')[line - 1] || ''] *)
Definition lineAt (text : string) (line : nat) : string :=
  match line with
  | O => EmptyString
  | S i => nth i (Js.lines text) EmptyString
  end.

(** [opt?.includes(x)], falsy when [opt] is [undefined] *)
Definition optIncludes (opt : option (list string)) (x : string) : bool :=
  match opt with Some l => mem x l | None => false end.

(** one turn of the loop over [FIX_PATTERNS], on [(corrected, appliedFixes)] *)
Definition applyPattern (config : CorrectionConfig)
           (violationsByRule : JsMap (list Violation))
           (state : string * list AppliedFix) (p : FixPattern)
  : string * list AppliedFix :=
  let '(corrected, appliedFixes) := state in
  (* Check if we should skip this rule *)
  if optIncludes (skipRules config) (fp_rule p) then state
  else if match fixRules config with
          | Some l => negb (mem (fp_rule p) l)
          | None => false
          end then state
  (* Check if we have violations for this rule *)
  else if negb (Map_has violationsByRule (fp_rule p)) then state
  else
    (* Apply the fix *)
    let before := corrected in
    let corrected := replaceAll (pattern p) (replacement p) corrected in
    if negb (String.eqb before corrected) then
      (* Find affected lines *)
      let affectedViolations :=
        match Map_get violationsByRule (fp_rule p) with Some l => l | None => [] end in
      (corrected,
       (appliedFixes ++
        map (fun v =>
               {| af_rule := fp_rule p;
                  af_line := line v;
                  description := fp_description p;
                  before := lineAt before (line v);
                  after := lineAt corrected (line v) |})
            affectedViolations)%list)
    else (corrected, appliedFixes).

Record ImportState : Type := {
  is_corrected : string;
  is_appliedFixes : list AppliedFix;
  is_neededImports : list string       (* a [Set], in insertion order *)
}.

Definition setAdd (x : string) (s : list string) : list string :=
  if mem x s then s else (s ++ [x])%list.

(** one turn of the loop over [IMPORT_FIXES] *)
Definition addImport (st : ImportState) (entry : string * string) : ImportState :=
  let '(exceptionName, importStatement) := entry in
  let corrected := is_corrected st in
  if includes exceptionName corrected && negb (includes importStatement corrected) then
    (* Check if there's already an import from @nestjs/common *)
    match exec (re "import\s*{([^}]+)}\s*from\s*['\x22]@nestjs\/common['\x22]") corrected with
    | Some existingImport =>
        (* Add to existing import *)
        let imports := map trim (split "," (group_or_empty 1 existingImport)) in
        if negb (mem exceptionName imports) then
          let imports := (imports ++ [exceptionName])%list in
          let merged := "import { " ++ join ", " imports ++ " } from '@nestjs/common'" in
          {| is_corrected := replaceString (m_text existingImport) merged corrected;
             is_appliedFixes :=
               (is_appliedFixes st ++
                [ {| af_rule := "INV-IMPORT";
                     af_line := 1;
                     description := "Add " ++ exceptionName ++ " to existing import";
                     before := m_text existingImport;
                     after := merged |} ])%list;
             is_neededImports := is_neededImports st |}
        else st
    | None =>
        {| is_corrected := corrected;
           is_appliedFixes := is_appliedFixes st;
           is_neededImports := setAdd importStatement (is_neededImports st) |}
    end
  else st.

(** the violations every validator of the registry reports for one file *)
Definition validateAll (registry : list (string * Validator)) (fileName content : string)
  : list Violation :=
  let ctx := {| files := [fileName]; fileContents := [(fileName, content)] |} in
  flat_map (fun '(_, validator) => violations (validator ctx)) registry.

(** [applyFixes]; [registry] is the object [validators] as it stands when
    the function runs *)
Definition applyFixes (registry : list (string * Validator)) (content : string)
           (violations : list Violation) (config : CorrectionConfig) : CorrectionResult :=
  (* Group violations by rule *)
  let violationsByRule := groupByRule violations in
  (* Apply fix patterns *)
  let '(corrected, appliedFixes) :=
    fold_left (applyPattern config violationsByRule) FIX_PATTERNS (content, []) in
  (* Add missing imports *)
  let st :=
    fold_left addImport IMPORT_FIXES
      {| is_corrected := corrected; is_appliedFixes := appliedFixes;
         is_neededImports := [] |} in
  (* Add new import statements at the top *)
  let '(corrected, appliedFixes) :=
    if 0 <? List.length (is_neededImports st) then
      let importBlock := join nl (is_neededImports st) ++ nl in
      (importBlock ++ is_corrected st,
       (is_appliedFixes st ++
        [ {| af_rule := "INV-IMPORT";
             af_line := 1;
             description := "Add missing imports";
             before := "";
             after := trim importBlock |} ])%list)
    else (is_corrected st, is_appliedFixes st) in
  (* Check for remaining violations: run all validators *)
  {| original := content;
     corrected := corrected;
     appliedFixes := appliedFixes;
     remainingViolations := validateAll registry "corrected.ts" corrected |}.

(** ** Self-correction loop *)

Record CorrectionLoopResult : Type := {
  iterations : nat;
  initialViolations : nat;
  finalViolations : nat;
  correctionHistory : list CorrectionResult;
  finalContent : string;
  success : bool
}.

(** the variables of the loop *)
Record LoopState : Type := {
  ls_iterations : nat;
  currentContent : string;
  allViolations : list Violation;
  ls_history : list CorrectionResult
}.

(** [while (iterations < config.maxIterations && allViolations.length > 0)].
    Nothing else bounds the loop: with [Infinity] as cap it runs for as long
    as fixes are applied and violations remain.  [fuel] is the number of turns
    followed; the answer is [None] when the loop is still running after
    them. *)
Fixpoint correctionLoop (registry : list (string * Validator)) (config : CorrectionConfig)
         (fuel : nat) (st : LoopState) : option LoopState :=
  if countBelow (ls_iterations st) (maxIterations config)
     && (0 <? List.length (allViolations st))
  then
    match fuel with
    | O => None
    | S fuel' =>
        let iterations := ls_iterations st + 1 in
        let result := applyFixes registry (currentContent st) (allViolations st) config in
        let history := (ls_history st ++ [result])%list in
        if List.length (appliedFixes result) =? 0 then
          (* No fixes were applied, can't improve further *)
          Some {| ls_iterations := iterations; currentContent := currentContent st;
                  allViolations := allViolations st; ls_history := history |}
        else
          correctionLoop registry config fuel'
            {| ls_iterations := iterations; currentContent := corrected result;
               allViolations := remainingViolations result; ls_history := history |}
    end
  else Some st.

(** [runCorrectionLoop], followed for [fuel] turns of its loop *)
Definition runCorrectionLoop (registry : list (string * Validator)) (content : string)
           (config : CorrectionConfig) (fuel : nat) : option CorrectionLoopResult :=
  (* Get initial violations *)
  let allViolations := validateAll registry "file.ts" content in
  let initialViolations := List.length allViolations in
  (* Correction loop *)
  match correctionLoop registry config fuel
          {| ls_iterations := 0; currentContent := content;
             allViolations := allViolations; ls_history := [] |} with
  | Some final =>
      Some {| iterations := ls_iterations final;
              initialViolations := initialViolations;
              finalViolations := List.length (SelfCorrection.allViolations final);
              correctionHistory := ls_history final;
              finalContent := currentContent final;
              success := List.length (SelfCorrection.allViolations final) =? 0 |}
  | None => None
  end.

(** the default value of the [config] parameter *)
Definition defaultConfig : CorrectionConfig :=
  {| maxIterations := Finite 3; autoFix := true; fixRules := None; skipRules := None |}.

(** every [AppliedFix] a run recorded *)
Definition allAppliedFixes (r : CorrectionLoopResult) : list AppliedFix :=
  flat_map appliedFixes (correctionHistory r).

End SelfCorrection.

(** the registry after the command-line entry point has run [(validators as
    any)['general-practices'] = validateGeneralPractices] *)
Definition validatorsWithGeneral : list (string * Validators.Validator) :=
  (Validators.validators
     ++ [("general-practices", GeneralPractices.validateGeneralPractices)])%list.

(* ================================================================== *)
(** * Notions used to state the properties *)
(* ================================================================== *)

Module Spec.
Import MetricsConfig.

(** ** Scoring and gating *)

(** The aggregate score in the words of the specification: the sum of
    [score_i * weight_i] divided by the sum of [weight_i], both taken over the
    categories of the catalogue that have a score in the map. *)
Definition presentMetrics (scores : JsMap Q) : list MetricDefinition :=
  filter (fun m => Map_has scores (name m)) METRIC_DEFINITIONS.

Definition sigma (f : MetricDefinition -> Q) (l : list MetricDefinition) : Q :=
  fold_right (fun m acc => (f m + acc)%Q) 0%Q l.

Definition scoreOf (scores : JsMap Q) (m : MetricDefinition) : Q :=
  match Map_get scores (name m) with Some s => s | None => 0%Q end.

Definition weightedAverage (scores : JsMap Q) : Q :=
  (sigma (fun m => scoreOf scores m * weight m) (presentMetrics scores)
   / sigma weight (presentMetrics scores))%Q.

(** the first gate: too many blockers *)
Definition blockersExceeded (config : GatingConfig) (blockerCount : Z) : Prop :=
  blockOnBlockers config = true /\ (maxBlockers config < blockerCount)%Z.

(** the second gate: too many warnings *)
Definition warningsExceeded (config : GatingConfig) (warningCount : Z) : Prop :=
  failOnWarnings config = true /\ (maxWarnings config < warningCount)%Z.

(** [metric] is marked [blockOnFail], has the score [s] in the map, and [s] is
    below its [fail] threshold *)
Definition failsThreshold (scores : JsMap Q) (metric : MetricDefinition) (s : Q) : Prop :=
  blockOnFail metric = true /\ Map_get scores (name metric) = Some s
  /\ (s < fail (thresholds metric))%Q.

(** [metric] is the first metric of the catalogue that fails its threshold *)
Definition firstFailing (scores : JsMap Q) (metric : MetricDefinition) (s : Q) : Prop :=
  exists earlier later,
    METRIC_DEFINITIONS = (earlier ++ metric :: later)%list
    /\ failsThreshold scores metric s
    /\ forall m s', In m earlier -> ~ failsThreshold scores m s'.

Definition noneFailing (scores : JsMap Q) : Prop :=
  forall m s, In m METRIC_DEFINITIONS -> ~ failsThreshold scores m s.

(** ** Scores *)

(** a score lies between 0 and 1 *)
Definition unitRange (s : Q) : Prop := (0 <= s)%Q /\ (s <= 1)%Q.

End Spec.

(** ** Example inputs for scoring and gating *)

Module GatingExamples.
Import MetricsConfig.

(** only the authentication category was scored, at 0.8 *)
Definition authOnly : JsMap Q := [("supabase-auth", 0.8%Q)].

(** authentication at 0.6 and tenant isolation at 1.0, of equal weight: the
    aggregate is 0.8 *)
Definition authBelowThreshold : JsMap Q :=
  [("supabase-auth", 0.6%Q); ("tenant-isolation", 1.0%Q)].

(** only the transactions category was scored, at 0.8 *)
Definition transactionsOnly : JsMap Q := [("transactions", 0.8%Q)].

(** the map a run over zero files produces *)
Definition noScores : JsMap Q := [].

Definition twoScores : list (string * Q) := [("transactions", 0.8%Q); ("logging", 0.5%Q)].

End GatingExamples.

(** ** Notions and example inputs for the validators *)

Module ValidatorExamples.
Import Validators.

(** a context holding one file *)
Definition oneFile (fileName content : string) : ValidationContext :=
  {| files := [fileName]; fileContents := [(fileName, content)] |}.


(** the violation pushed for a function match *)
Definition transactionViolation (file content : string) (funcMatch : rmatch) : Violation :=
  mkViolation file (lineOfIndex content (m_index funcMatch)) "INV-PRISMA-TRANSACTION"
    ("Function " ++ group_or_empty 1 funcMatch
       ++ " has multi-table mutations without $transaction.")
    high (Some "Wrap related writes in prisma.$transaction(async (tx) => { ... })").

(** test-runner.ts, 'Multi-table write without transaction' *)
Definition multiTableWrite : string :=
  join nl
    [ "";
      "        async createRolePlay(data: CreateRolePlayDto) {";
      "          const rolePlay = await this.prisma.role_plays.create({";
      "            data: { name: data.name },";
      "          });";
      "";
      "          await this.prisma.agent_configs.create({";
      "            data: { role_play_id: rolePlay.id },";
      "          });";
      "";
      "          return rolePlay;";
      "        }";
      "      " ].

(** test-runner.ts, 'Proper transaction usage' *)
Definition transactionWrite : string :=
  join nl
    [ "";
      "        async createRolePlay(data: CreateRolePlayDto) {";
      "          return this.prisma.$transaction(async (tx) => {";
      "            const rolePlay = await tx.role_plays.create({";
      "              data: { name: data.name },";
      "            });";
      "";
      "            await tx.agent_configs.create({";
      "              data: { role_play_id: rolePlay.id },";
      "            });";
      "";
      "            return rolePlay;";
      "          });";
      "        }";
      "      " ].

(** *** Async methods that write to two tables *)







(** a service that logs a password and throws nothing *)
Definition logsPassword : string :=
  join nl
    [ "async login(user: string, password: string) {";
      "  this.logger.log(`login ${user} ${password}`);";
      "  return this.auth.check(user, password);";
      "}" ].

(** *** Service files, line by line *)

(** a line of a service file, by what it does *)
Inductive ServiceLine : Type :=
| throwsNest (ex : string)   (* throws the exception [ex] of [@nestjs/common] *)
| throwsError                (* throws a generic [Error] *)
| logsToken                  (* logs a token *)
| returns.                   (* throws nothing and logs nothing *)

Definition lineText (l : ServiceLine) : string :=
  match l with
  | throwsNest ex => "    throw new " ++ ex ++ "('Resource not found');"
  | throwsError => "    throw new Error('Something failed');"
  | logsToken => "    this.logger.log(`token ${token}`);"
  | returns => "    return result;"
  end.

(** the file with these lines *)
Definition serviceFile (ls : list ServiceLine) : string := join nl (map lineText ls).

(** the exceptions thrown are exceptions of [@nestjs/common] *)
Definition knownExceptions (ls : list ServiceLine) : Prop :=
  forall ex, In (throwsNest ex) ls -> In ex nestExceptions.

Definition isNestThrow (l : ServiceLine) : bool :=
  match l with throwsNest _ => true | _ => false end.

Definition isGenericThrow (l : ServiceLine) : bool :=
  match l with throwsError => true | _ => false end.

(** the number of lines that throw a NestJS exception, and of lines that
    throw a generic [Error] *)
Definition nestThrows (ls : list ServiceLine) : nat := List.length (filter isNestThrow ls).

Definition genericThrows (ls : list ServiceLine) : nat :=
  List.length (filter isGenericThrow ls).

(** nine NestJS throws, one generic throw, and a logged token *)
Definition nineOfTen : list ServiceLine :=
  [ throwsNest "NotFoundException"; throwsNest "BadRequestException";
    throwsNest "ForbiddenException"; throwsNest "UnauthorizedException";
    throwsNest "ConflictException"; throwsNest "UnprocessableEntityException";
    throwsNest "InternalServerErrorException"; throwsNest "BadGatewayException";
    throwsNest "ServiceUnavailableException"; logsToken; throwsError; returns ].

(** eight NestJS throws and one generic throw *)
Definition eightOfNine : list ServiceLine :=
  [ throwsNest "NotFoundException"; throwsNest "NotFoundException";
    throwsNest "BadRequestException"; throwsNest "BadRequestException";
    throwsNest "ForbiddenException"; throwsNest "ForbiddenException";
    throwsNest "ConflictException"; throwsNest "ConflictException"; throwsError ].

End ValidatorExamples.

(** ** Notions and example inputs for the rule engine and the correction loop *)

Module EngineExamples.
Import Validators GeneralPractices SelfCorrection ValidatorExamples.

(** some rule's check throws on some line of some file of the context *)
Definition checkThrows (rules : list GeneralRule) (ctx : ValidationContext) : Prop :=
  exists fileName content index line rule e,
    In (fileName, content) (fileContents ctx)
    /\ nth_error (Js.lines content) index = Some line
    /\ In rule rules
    /\ check rule line (index + 1) (buildContext fileName content (Js.lines content) index)
       = Throw e.

(** a rule whose check reads a property of [undefined] on a line with a
    [@ts-ignore] marker *)
Definition faultyRule : GeneralRule :=
  {| id := "CUSTOM-001"; name := "faulty rule"; category := maintainability;
     rule_severity := high;
     check := fun line _ _ =>
       if includes "@ts-ignore" line
       then Throw "TypeError: Cannot read properties of undefined"
       else Normal None |}.

Definition faultyInput : ValidationContext :=
  oneFile "a.ts" (join nl [ "eval(x);"; "// @ts-ignore"; "eval(y);" ]).

(** a violation without its [file] *)
Definition eraseFile (v : Violation) : Violation :=
  mkViolation "" (line v) (rule v) (message v) (severity v) (fix_ v).

(** the violations a scan pushed, without their [file] *)
Definition erased (found : Findings) : list Violation :=
  map eraseFile (found_violations found).

Definition erasedC (c : Completion Findings) : Completion (list Violation) :=
  match c with
  | Normal found => Normal (erased found)
  | Throw e => Throw e
  end.

(** The registry reports the same violations for a content whether the file
    is called [file.ts], as in [runCorrectionLoop], or [corrected.ts], as in
    [applyFixes]. *)
Definition sameForBothNames (registry : list (string * Validator)) : Prop :=
  forall content,
    map eraseFile (validateAll registry "file.ts" content)
    = map eraseFile (validateAll registry "corrected.ts" content).

(** the violations in the state of the loop are those of its content *)
Definition consistent (registry : list (string * Validator)) (st : LoopState) : Prop :=
  map eraseFile (allViolations st)
  = map eraseFile (validateAll registry "file.ts" (currentContent st)).

(** [g] applied to every value of a map *)
Definition mapValues {V W : Type} (g : V -> W) (m : MetricsConfig.JsMap V)
  : MetricsConfig.JsMap W :=
  map (fun '(k, v) => (k, g v)) m.

(** A run converged when it did not stop at the iteration cap with work left:
    no violation remains, or its last iteration applied no fix (or there was
    no iteration at all). *)
Definition converged (r : CorrectionLoopResult) : bool :=
  (finalViolations r =? 0)
  || match rev (correctionHistory r) with
     | last :: _ => List.length (appliedFixes last) =? 0
     | [] => true
     end.

(** The number of turns the first test of the loop lets through, when it
    bounds them: a counter is below a finite cap exactly while it is below the
    cap rounded up; no counter is below [NaN] or [-Infinity], and every
    counter is below [Infinity]. *)
Definition turnsAllowed (cap : JsNumber) : option nat :=
  match cap with
  | Finite q => Some (Z.to_nat (Qceiling q))
  | PosInfinity => None
  | NegInfinity | NaN => Some 0
  end.

(** the test of the [while] of the loop *)
Definition loopGoesOn (config : CorrectionConfig) (st : LoopState) : bool :=
  countBelow (ls_iterations st) (maxIterations config)
  && (0 <? List.length (allViolations st)).

(** the state of the loop after a turn that applied a fix *)
Definition nextState (registry : list (string * Validator)) (config : CorrectionConfig)
           (st : LoopState) : LoopState :=
  {| ls_iterations := ls_iterations st + 1;
     currentContent :=
       corrected (applyFixes registry (currentContent st) (allViolations st) config);
     allViolations :=
       remainingViolations (applyFixes registry (currentContent st) (allViolations st) config);
     ls_history :=
       (ls_history st
          ++ [applyFixes registry (currentContent st) (allViolations st) config])%list |}.

(** the state the loop leaves by its [break], after a turn that applied no
    fix *)
Definition stuckState (registry : list (string * Validator)) (config : CorrectionConfig)
           (st : LoopState) : LoopState :=
  {| ls_iterations := ls_iterations st + 1;
     currentContent := currentContent st;
     allViolations := allViolations st;
     ls_history :=
       (ls_history st
          ++ [applyFixes registry (currentContent st) (allViolations st) config])%list |}.

(** half an iteration allowed *)
Definition halfIteration : CorrectionConfig :=
  {| maxIterations := Finite 0.5; autoFix := true; fixRules := None; skipRules := None |}.

(** no cap *)
Definition noCap : CorrectionConfig :=
  {| maxIterations := PosInfinity; autoFix := true; fixRules := None; skipRules := None |}.

(** one iteration allowed *)
Definition oneIteration : CorrectionConfig :=
  {| maxIterations := Finite 1; autoFix := true; fixRules := None; skipRules := None |}.

(** A [findFirst] on a soft-delete entity whose look-ahead window of ten lines
    reaches a mention of [deleted_at], followed by a [findMany] without
    [orderBy]. *)
Definition shiftingWindow : string :=
  join nl
    [ "const t = await prisma.teams.findFirst({ where: { id: 1 } })";
      "const u = await prisma.users.findMany({ where: { id: 2 } })";
      ""; ""; ""; ""; ""; ""; "";
      "// deleted_at" ].

(** a [console.info] call: reported as INV-LOGGER, matched by no fix pattern *)
Definition unfixable : string := "console.info('started');".

End EngineExamples.

(** ** Further notions for scoring and gating *)

Module GatingNotions.
Import MetricsConfig.

(** [after] has a score for the same categories as [before], and none is
    lower *)
Definition scoresImproved (before after : JsMap Q) : Prop :=
  forall k,
    match Map_get before k, Map_get after k with
    | Some a, Some b => (a <= b)%Q
    | None, None => True
    | _, _ => False
    end.

(** every score of the map lies between [lo] and [hi] *)
Definition scoresWithin (lo hi : Q) (scores : JsMap Q) : Prop :=
  forall k s, Map_get scores k = Some s -> (lo <= s)%Q /\ (s <= hi)%Q.

(** the two maps agree on the names of the catalogue *)
Definition sameOnCatalogue (s1 s2 : JsMap Q) : Prop :=
  forall m, In m METRIC_DEFINITIONS -> Map_get s1 (name m) = Map_get s2 (name m).

(** all twelve categories at the same score *)
Definition allAt (s : Q) : JsMap Q := map (fun m => (name m, s)) METRIC_DEFINITIONS.

End GatingNotions.

(** ** Further notions for the validators *)

Module ValidatorNotions.
Import Validators.

(** what a scan pushed: every violation satisfies [PV], every warning [PW] *)
Definition allFindings (PV : Violation -> Prop) (PW : Warning -> Prop) (found : Findings)
  : Prop :=
  Forall PV (found_violations found) /\ Forall PW (found_warnings found).

(** [line] is a line of the file [fileName] of the context, counted from 1 *)
Definition pointsIntoContext (ctx : ValidationContext) (fileName : string) (line : nat)
  : Prop :=
  exists content,
    In (fileName, content) (fileContents ctx) /\ 1 <= line /\ line <= lineCount content.

(** every violation and every warning of the result points into the context *)
Definition resultLocated (ctx : ValidationContext) (r : ValidationResult) : Prop :=
  Forall (fun v => pointsIntoContext ctx (file v) (line v)) (violations r)
  /\ Forall (fun w => pointsIntoContext ctx (w_file w) (w_line w)) (warnings r).

(** the context that holds the files of [ctx1], then those of [ctx2] *)
Definition bothContexts (ctx1 ctx2 : ValidationContext) : ValidationContext :=
  {| files := (files ctx1 ++ files ctx2)%list;
     fileContents := (fileContents ctx1 ++ fileContents ctx2)%list |}.

(** a context without files *)
Definition noFiles : ValidationContext := {| files := []; fileContents := [] |}.

End ValidatorNotions.

(** ** Further notions for the correction engine *)

Module CorrectionNotions.
Import Validators SelfCorrection.

(** [applied] was recorded by a fix pattern: it carries the rule and the line of
    one of the violations and the rule and the description of one of the
    patterns, and the configuration lets the rule through *)
Definition answersViolation (config : CorrectionConfig) (violations : list Violation)
           (applied : AppliedFix) : Prop :=
  (exists v, In v violations /\ rule v = af_rule applied /\ line v = af_line applied)
  /\ (exists p, In p FIX_PATTERNS /\ fp_rule p = af_rule applied
                /\ fp_description p = description applied)
  /\ optIncludes (skipRules config) (af_rule applied) = false
  /\ (forall l, fixRules config = Some l -> mem (af_rule applied) l = true).

(** [applied] was recorded by the import stage *)
Definition importFix (applied : AppliedFix) : Prop :=
  af_rule applied = "INV-IMPORT" /\ af_line applied = 1.

(** the text a history of corrections ends with, from [start] *)
Definition contentAfter (start : string) (history : list CorrectionResult) : string :=
  fold_left (fun _ r => corrected r) history start.

(** each entry starts from the text the one before it ended with, and only
    the last entry may be without a fix *)
Fixpoint chained (start : string) (history : list CorrectionResult) : Prop :=
  match history with
  | [] => True
  | r :: rest =>
      original r = start
      /\ (rest <> [] -> appliedFixes r <> [])
      /\ chained (corrected r) rest
  end.

(** a number that lets no turn of the loop start: a finite number that is at
    most 0, [-Infinity] or [NaN] *)
Definition notPositive (x : JsNumber) : Prop :=
  match x with
  | Finite q => (q <= 0)%Q
  | PosInfinity => False
  | NegInfinity | NaN => True
  end.

(** rules to fix, and rules to leave alone *)
Definition onlyLogger : CorrectionConfig :=
  {| maxIterations := Finite 3; autoFix := true;
     fixRules := Some ["INV-LOGGER"]; skipRules := Some ["INV-ERROR-TYPE"] |}.

(** a generic throw and a console call *)
Definition throwAndLog : string :=
  join nl [ "throw new Error('user not found')"; "console.log('done')" ].

End CorrectionNotions.

(* ================================================================== *)
(** * self-correction.ts: suggestions *)
(* ================================================================== *)

Module Suggestions.
Import Validators.

Record Suggestion : Type := {
  s_rule : string;
  s_message : string;
  codeExample : option string
}.

(** a template literal of several lines, [.trim()]med *)
Definition example (text : list string) : option string := Some (trim (join nl text)).

(** [v.message.match(/on (\w+)/)?.[1] || 'model'] *)
Definition modelOf (message : string) : string :=
  match exec (re "on (\w+)") message with
  | Some m =>
      match group 1 m with
      | Some g => if String.eqb g "" then "model" else g
      | None => "model"
      end
  | None => "model"
  end.

(** the [switch (v.rule)]: what one violation pushes *)
Definition suggestionFor (v : Violation) : list Suggestion :=
  if String.eqb (rule v) "INV-ERROR-TYPE" then
    [ {| s_rule := rule v;
         s_message := "Use NestJS exceptions for proper HTTP status codes";
         codeExample := example
           [ "";
             "// Instead of:";
             "throw new Error('Not found');";
             "";
             "// Use:";
             "throw new NotFoundException('Resource not found');";
             "throw new BadRequestException('Invalid input');";
             "throw new ForbiddenException('Access denied');";
             "          " ] |} ]
  else if String.eqb (rule v) "INV-PRISMA-SOFT-DELETE" then
    [ {| s_rule := rule v;
         s_message := "Add deleted_at: null filter to exclude soft-deleted records";
         codeExample := example
           [ "";
             "const records = await this.prisma." ++ modelOf (message v) ++ ".findMany({";
             "  where: {";
             "    organization_id: orgId,";
             "    deleted_at: null,  // Add this";
             "  },";
             "});";
             "          " ] |} ]
  else if String.eqb (rule v) "INV-PRISMA-ORDERBY" then
    [ {| s_rule := rule v;
         s_message := "Add orderBy to ensure deterministic query results";
         codeExample := example
           [ "";
             "const records = await this.prisma.model.findMany({";
             "  where: { ... },";
             "  orderBy: { created_at: 'desc' },  // Add this";
             "});";
             "          " ] |} ]
  else if String.eqb (rule v) "INV-PRISMA-TRANSACTION" then
    [ {| s_rule := rule v;
         s_message := "Wrap multi-table writes in a transaction";
         codeExample := example
           [ "";
             "await this.prisma.$transaction(async (tx) => {";
             "  const parent = await tx.parents.create({ data: parentData });";
             "  await tx.children.create({ data: { parent_id: parent.id } });";
             "  return parent;";
             "});";
             "          " ] |} ]
  else if String.eqb (rule v) "INV-API-GUARD" then
    [ {| s_rule := rule v;
         s_message := "Add authorization guards to mutation endpoints";
         codeExample := example
           [ "";
             "@UseGuards(RolesGuard)";
             "@Roles(UserRole.ADMIN)";
             "@Post()";
             "async create(@Body() dto: CreateDto) { ... }";
             "          " ] |} ]
  else if String.eqb (rule v) "INV-PRISMA-N+1" then
    [ {| s_rule := rule v;
         s_message := "Use batch queries instead of queries in loops";
         codeExample := example
           [ "";
             "// Instead of:";
             "for (const id of ids) {";
             "  const record = await prisma.model.findFirst({ where: { id } });";
             "}";
             "";
             "// Use:";
             "const records = await prisma.model.findMany({";
             "  where: { id: { in: ids } },";
             "});";
             "          " ] |} ]
  else
    (* default: [if (v.fix)], false for [undefined] and for the empty string *)
    match fix_ v with
    | Some hint =>
        if String.eqb hint "" then []
        else [ {| s_rule := rule v; s_message := hint; codeExample := None |} ]
    | None => []
    end.

(** [suggestions.filter(s => { if (seen.has(s.rule)) return false;
    seen.add(s.rule); return true; })] *)
Fixpoint dedupeByRule (seen : list string) (suggestions : list Suggestion) : list Suggestion :=
  match suggestions with
  | [] => []
  | s :: rest =>
      if mem (s_rule s) seen then dedupeByRule seen rest
      else s :: dedupeByRule (s_rule s :: seen) rest
  end.

Definition generateSuggestions (violations : list Violation) : list Suggestion :=
  let suggestions := flat_map suggestionFor violations in
  (* Deduplicate suggestions by rule *)
  dedupeByRule [] suggestions.

End Suggestions.

(* ================================================================== *)
(** * claude-code-validator.ts *)
(* ================================================================== *)

Module ClaudeCodeValidator.
Import Validators.
Import MetricsConfig (JsMap, Map_get, Map_has, Map_set, METRIC_DEFINITIONS, getMetricByName,
                      Qlt_bool).
Import GeneralPractices (Completion, Normal, Throw, bind).

(** ** Types *)

Record ClaudeCodeInput : Type := {
  code : string;                          (* The code Claude wrote *)
  filename : string;
  originalCode : option string;
  specifiedValidators : option (list string)   (* [validators?] *)
}.

Record ClaudeViolation : Type := {
  cv_rule : string;
  cv_line : nat;
  cv_message : string;
  cv_severity : Severity;
  cv_sopFile : string;
  cv_fix : option string
}.

Record ValidatorDetail : Type := {
  d_name : string;
  d_sopFile : string;
  d_score : Q;
  d_passed : bool;
  isBlocker : bool;
  violationCount : nat;
  warningCount : nat
}.

Record SuggestedFix : Type := {
  sf_rule : string;
  sf_pattern : string;
  sf_replacement : string;
  sf_description : string
}.

(** the result; its [suggestions] are not modelled *)
Record ClaudeValidationResult : Type := {
  cr_passed : bool;
  cr_score : Q;
  blockers : list ClaudeViolation;
  cr_warnings : list ClaudeViolation;
  details : list ValidatorDetail;
  summary : string;
  fixes : option (list SuggestedFix)
}.

(** ** Validator selection *)

(** [[...new Set(l)]]: the first occurrence of each element, in order *)
Definition unique (l : list string) : list string :=
  fold_left (fun acc x => if mem x acc then acc else (acc ++ [x])%list) l [].

Definition selectValidatorsForFile (filename : string) : list string :=
  let validators : list string := [] in
  (* Service files - check most rules *)
  let validators :=
    if endsWith ".service.ts" filename
    then (validators ++ [ "exception-types"; "logging"; "prisma-queries"; "transactions";
                          "tenant-isolation"; "code-safety"; "external-services";
                          "code-quality" ])%list
    else validators in
  (* Controller files - check API design *)
  let validators :=
    if endsWith ".controller.ts" filename
    then (validators ++ [ "api-design"; "supabase-auth"; "code-quality" ])%list
    else validators in
  (* Processor/Consumer files - check job processing *)
  let validators :=
    if includes "processor" filename || includes "consumer" filename
    then (validators ++ [ "job-processing"; "exception-types"; "logging"; "tenant-isolation";
                          "code-quality" ])%list
    else validators in
  (* DTO files - check validation *)
  let validators :=
    if includes "/dto/" filename
    then (validators ++ [ "api-design"; "code-quality" ])%list
    else validators in
  (* Repository files - check database patterns *)
  let validators :=
    if includes "repository" filename
    then (validators ++ [ "prisma-queries"; "transactions"; "tenant-isolation";
                          "code-quality" ])%list
    else validators in
  (* Guard files - check auth patterns *)
  let validators :=
    if includes "guard" filename
    then (validators ++ [ "supabase-auth"; "code-quality" ])%list
    else validators in
  (* Default: run core validators *)
  let validators :=
    if List.length validators =? 0
    then (validators ++ [ "exception-types"; "logging"; "code-quality" ])%list
    else validators in
  unique validators. (* Deduplicate *)

(** ** Summary generation *)

(** [x.toFixed(0)] on an exact rational: the integer nearest to [x], the
    larger one on a tie, with a sign in front for negative [x] *)
Definition toFixed0 (x : Q) : string :=
  if Qle_bool 0 x then string_of_Z (Qfloor (x + (1 # 2))%Q)
  else "-" ++ string_of_Z (Qfloor (- x + (1 # 2))%Q).

(** the two marks of the summary, as the bytes of their UTF-8 encoding *)
Definition checkMark : string := "✅".
Definition crossMark : string := "❌".

(** [byRule.set(b.rule, (byRule.get(b.rule) || 0) + 1)] for every blocker *)
Definition countByRule (blockers : list ClaudeViolation) : JsMap nat :=
  fold_left (fun byRule b =>
      Map_set byRule (cv_rule b)
        (match Map_get byRule (cv_rule b) with Some n => n | None => 0 end + 1))
    blockers [].

Definition generateSummary (passed : bool) (blockers warnings : list ClaudeViolation)
           (score : Q) : string :=
  if passed && (List.length warnings =? 0) then
    checkMark ++ " Code passes all SOP checks (score: " ++ toFixed0 (score * 100)%Q ++ "%)"
  else if passed && (0 <? List.length warnings) then
    checkMark ++ " Code passes with " ++ string_of_nat (List.length warnings)
      ++ " warning(s) (score: " ++ toFixed0 (score * 100)%Q ++ "%)"
  else
    let parts :=
      [ crossMark ++ " Code has " ++ string_of_nat (List.length blockers)
          ++ " blocking violation(s)" ] in
    (* Group blockers by rule *)
    let byRule := countByRule blockers in
    let parts :=
      (parts ++ map (fun '(rule, count) =>
                       ("  - " ++ rule ++ ": " ++ string_of_nat count ++ " violation(s)")%string)
                    byRule)%list in
    let parts :=
      if 0 <? List.length warnings
      then (parts ++ [ ("  + " ++ string_of_nat (List.length warnings)
                          ++ " warning(s)")%string ])%list
      else parts in
    join nl parts.

(** ** Fix generation *)

Definition knownFixes : list SuggestedFix :=
  [ {| sf_rule := "INV-ERROR-TYPE";
       sf_pattern := "throw new Error('...')";
       sf_replacement := "throw new NotFoundException('...') or BadRequestException('...')";
       sf_description := "Use NestJS exceptions instead of generic Error" |};
    {| sf_rule := "INV-LOGGER";
       sf_pattern := "console.log(...)";
       sf_replacement := "this.logger.log(...)";
       sf_description := "Use NestJS Logger instead of console" |};
    {| sf_rule := "INV-PRISMA-SOFT-DELETE";
       sf_pattern := "where: { ... }";
       sf_replacement := "where: { ..., deleted_at: null }";
       sf_description := "Add deleted_at: null filter for soft-delete entities" |};
    {| sf_rule := "INV-PRISMA-ORDERBY";
       sf_pattern := "findMany({ where: {...} })";
       sf_replacement := "findMany({ where: {...}, orderBy: { created_at: 'desc' } })";
       sf_description := "Add orderBy clause to findMany queries" |};
    {| sf_rule := "INV-PRISMA-TRANSACTION";
       sf_pattern := "Multiple prisma.*.create/update calls";
       sf_replacement := "prisma.$transaction(async (tx) => { ... })";
       sf_description := "Wrap multi-table mutations in transaction" |};
    {| sf_rule := "INV-API-GUARD";
       sf_pattern := "@Post() or @Put() without guards";
       sf_replacement := "@UseGuards(RolesGuard) @Roles(UserRole.ADMIN)";
       sf_description := "Add authorization guards to mutation endpoints" |};
    {| sf_rule := "INV-SUPABASE-1";
       sf_pattern := "jwt.decode(token)";
       sf_replacement := "jwtService.verifyAsync(token)";
       sf_description := "Use JWT verification, not decode-only" |};
    {| sf_rule := "INV-LOG-SENSITIVE";
       sf_pattern := "this.logger.log(`...${password}...`)";
       sf_replacement := "Remove sensitive data from log statement";
       sf_description := "Never log passwords, tokens, or secrets" |};
    {| sf_rule := "INV-HARDCODED-SECRET";
       sf_pattern := "const key = 'sk-...'";
       sf_replacement := "const key = process.env.API_KEY";
       sf_description := "Use environment variables for secrets" |} ].

(** the [switch (blocker.rule)]: the cases, in [knownFixes], and the default *)
Definition fixFor (blocker : ClaudeViolation) : list SuggestedFix :=
  match find (fun f => String.eqb (sf_rule f) (cv_rule blocker)) knownFixes with
  | Some f => [f]
  | None =>
      match cv_fix blocker with
      | Some hint =>
          if String.eqb hint "" then []
          else [ {| sf_rule := cv_rule blocker;
                    sf_pattern := "Current code";
                    sf_replacement := hint;
                    sf_description := cv_message blocker |} ]
      | None => []
      end
  end.

(** the loop over the blockers, on [(seenRules, fixes)] *)
Fixpoint generateFixesFrom (seenRules : list string) (blockers : list ClaudeViolation)
  : list SuggestedFix :=
  match blockers with
  | [] => []
  | blocker :: rest =>
      if mem (cv_rule blocker) seenRules then generateFixesFrom seenRules rest
      else (fixFor blocker ++ generateFixesFrom (cv_rule blocker :: seenRules) rest)%list
  end.

Definition generateFixes (blockers : list ClaudeViolation) : list SuggestedFix :=
  generateFixesFrom [] blockers.

(** ** Main validation function *)

(** what the loop over [validatorsToRun] has collected *)
Record Collected : Type := {
  allBlockers : list ClaudeViolation;
  allWarnings : list ClaudeViolation;
  collectedDetails : list ValidatorDetail
}.

(** [metricDef?.blockOnFail ?? false] *)
Definition isBlockerMetric (validatorName : string) : bool :=
  match getMetricByName validatorName with
  | Some metricDef => MetricsConfig.blockOnFail metricDef
  | None => false
  end.

(** [metricDef?.weight ?? 0.05] *)
Definition weightOf (validatorName : string) : Q :=
  match getMetricByName validatorName with
  | Some metricDef => MetricsConfig.weight metricDef
  | None => 0.05%Q
  end.

Definition asClaudeViolation (result : ValidationResult) (v : Violation) : ClaudeViolation :=
  {| cv_rule := rule v; cv_line := line v; cv_message := message v;
     cv_severity := severity v; cv_sopFile := sopFile result; cv_fix := fix_ v |}.

Definition asClaudeWarning (result : ValidationResult) (w : Warning) : ClaudeViolation :=
  {| cv_rule := w_rule w; cv_line := w_line w; cv_message := w_message w;
     cv_severity := medium; cv_sopFile := sopFile result; cv_fix := None |}.

(** one turn of the loop over [result.violations], on
    [(allBlockers, allWarnings)] *)
Definition collectViolation (result : ValidationResult) (isBlocker : bool)
           (acc : list ClaudeViolation * list ClaudeViolation) (v : Violation)
  : list ClaudeViolation * list ClaudeViolation :=
  let '(allBlockers, allWarnings) := acc in
  let violation := asClaudeViolation result v in
  if isBlocker || Severity_eqb (severity v) critical
  then ((allBlockers ++ [violation])%list, allWarnings)
  else (allBlockers, (allWarnings ++ [violation])%list).

(** the properties every object inherits from [Object.prototype] *)
Definition inheritedNames : list string :=
  [ "constructor"; "__defineGetter__"; "__defineSetter__"; "hasOwnProperty";
    "__lookupGetter__"; "__lookupSetter__"; "isPrototypeOf"; "propertyIsEnumerable";
    "toString"; "valueOf"; "__proto__"; "toLocaleString" ].

(** [validators[validatorName]] on the object [validators]: the validator
    under a key of the object, a property the object inherits from
    [Object.prototype], or [undefined] *)
Inductive Property : Type :=
| own (validator : Validator)
| inherited
| undefined.

Definition getProperty (registry : list (string * Validator)) (validatorName : string)
  : Property :=
  match Map_get registry validatorName with
  | Some validator => own validator
  | None => if mem validatorName inheritedNames then inherited else undefined
  end.

(** The exception a turn of the loop ends with when
    [validators[validatorName]] is an inherited property.  None of them is a
    validator: called on the context, [constructor] gives back the context and
    [toString] a string, whose [violations] are [undefined] and cannot be
    iterated; [__proto__] is an object, not a function; the others throw for
    want of a receiver.  The exception is a [TypeError] each time, with a
    message of its own. *)
Definition typeError : string := "TypeError".

(** what a turn of the loop over [validatorsToRun] adds for the [result] of
    the validator called [validatorName] *)
Definition collect (validatorName : string) (result : ValidationResult) (acc : Collected)
  : Collected :=
  let isBlocker := isBlockerMetric validatorName in
  (* Collect violations *)
  let '(allBlockers, allWarnings) :=
    fold_left (collectViolation result isBlocker) (violations result)
      (allBlockers acc, allWarnings acc) in
  (* Collect warnings *)
  let allWarnings :=
    fold_left (fun ws w => (ws ++ [asClaudeWarning result w])%list)
      (warnings result) allWarnings in
  {| allBlockers := allBlockers;
     allWarnings := allWarnings;
     (* Add to details *)
     collectedDetails :=
       (collectedDetails acc ++
        [ {| d_name := validatorName;
             d_sopFile := sopFile result;
             d_score := score result;
             d_passed := passed result;
             isBlocker := isBlocker;
             violationCount := List.length (violations result);
             warningCount := List.length (warnings result) |} ])%list |}.

(** one turn of the loop over [validatorsToRun]; [registry] is the object
    [validators] as it stands when the function runs *)
Definition runOne (registry : list (string * Validator)) (ctx : ValidationContext)
           (acc : Collected) (validatorName : string) : Completion Collected :=
  match getProperty registry validatorName with
  | undefined => Normal acc   (* if (!validator) continue *)
  | inherited => Throw typeError
  | own validator => Normal (collect validatorName (validator ctx) acc)
  end.

(** the loop over [validatorsToRun] *)
Fixpoint runValidators (registry : list (string * Validator)) (ctx : ValidationContext)
         (validatorsToRun : list string) (acc : Collected) : Completion Collected :=
  match validatorsToRun with
  | [] => Normal acc
  | validatorName :: rest =>
      bind (runOne registry ctx acc validatorName) (runValidators registry ctx rest)
  end.

(** one turn of the loop that computes the overall score, on
    [(totalScore, totalWeight)] *)
Definition addDetail (acc : Q * Q) (detail : ValidatorDetail) : Q * Q :=
  let '(totalScore, totalWeight) := acc in
  let weight := weightOf (d_name detail) in
  ((totalScore + d_score detail * weight)%Q, (totalWeight + weight)%Q).

Definition overallScore (details : list ValidatorDetail) : Q :=
  let '(totalScore, totalWeight) := fold_left addDetail details (0%Q, 0%Q) in
  if Qlt_bool 0 totalWeight then (totalScore / totalWeight)%Q else 1.0%Q.

(** the part of [validateClaudeCode] after the loop over [validatorsToRun] *)
Definition summarize (collected : Collected) : ClaudeValidationResult :=
  (* Calculate overall score *)
  let score := overallScore (collectedDetails collected) in
  (* Determine if passed *)
  let passed := (List.length (allBlockers collected) =? 0) && Qle_bool 0.85 score in
  (* Generate summary *)
  let summary := generateSummary passed (allBlockers collected) (allWarnings collected) score in
  (* Generate suggested fixes *)
  let fixes := if passed then None else Some (generateFixes (allBlockers collected)) in
  {| cr_passed := passed;
     cr_score := score;
     blockers := allBlockers collected;
     cr_warnings := allWarnings collected;
     details := collectedDetails collected;
     summary := summary;
     fixes := fixes |}.

Definition validateClaudeCode (registry : list (string * Validator)) (input : ClaudeCodeInput)
  : Completion ClaudeValidationResult :=
  (* Determine which validators to run *)
  let validatorsToRun :=
    match specifiedValidators input with
    | Some names => names
    | None => selectValidatorsForFile (filename input)
    end in
  (* Create validation context *)
  let ctx := {| files := [filename input];
                fileContents := [(filename input, code input)] |} in
  (* Run validators *)
  bind (runValidators registry ctx validatorsToRun
          {| allBlockers := []; allWarnings := []; collectedDetails := [] |})
       (fun collected => Normal (summarize collected)).

(** ** Quick check functions *)

Definition inputOf (code filename : string) : ClaudeCodeInput :=
  {| code := code; filename := filename; originalCode := None;
     specifiedValidators := None |}.

Definition hasBlockingViolations (registry : list (string * Validator))
           (code filename : string) : Completion bool :=
  bind (validateClaudeCode registry (inputOf code filename))
       (fun result => Normal (negb (cr_passed result))).

Definition getBlockerSummary (registry : list (string * Validator))
           (code filename : string) : Completion string :=
  bind (validateClaudeCode registry (inputOf code filename))
       (fun result => Normal (summary result)).

Definition getRequiredFixes (registry : list (string * Validator))
           (code filename : string) : Completion (list SuggestedFix) :=
  bind (validateClaudeCode registry (inputOf code filename))
       (fun result => Normal (match fixes result with
                              | Some l => l
                              | None => []
                              end)).

End ClaudeCodeValidator.

(** ** Notions and example inputs for the validation of generated code *)

Module ClaudeNotions.
Import Validators ClaudeCodeValidator.
Import MetricsConfig (Map_get, Map_has).

(** the names [validateClaudeCode] runs for an input *)
Definition validatorsToRun (input : ClaudeCodeInput) : list string :=
  match specifiedValidators input with
  | Some names => names
  | None => selectValidatorsForFile (filename input)
  end.

(** the context [validateClaudeCode] builds *)
Definition contextOf (input : ClaudeCodeInput) : ValidationContext :=
  {| files := [filename input]; fileContents := [(filename input, code input)] |}.

(** a turn of the loop of [validateClaudeCode] for a name that is a key of
    the registry or no property at all *)
Definition runKnown (registry : list (string * Validator)) (ctx : ValidationContext)
           (acc : Collected) (validatorName : string) : Collected :=
  match Map_get registry validatorName with
  | Some validator => collect validatorName (validator ctx) acc
  | None => acc
  end.

(** the result [validateClaudeCode] returns when no turn of its loop throws *)
Definition resultOf (registry : list (string * Validator)) (input : ClaudeCodeInput)
  : ClaudeValidationResult :=
  summarize (fold_left (runKnown registry (contextOf input)) (validatorsToRun input)
               {| allBlockers := []; allWarnings := []; collectedDetails := [] |}).

(** [name] is a key of the registry, or it is not a property that objects
    inherit *)
Definition callable (registry : list (string * Validator)) (name : string) : bool :=
  Map_has registry name || negb (mem name inheritedNames).

(** every validator of the registry scores between 0 and 1 *)
Definition scoresInRange (registry : list (string * Validator)) : Prop :=
  forall n v ctx, Map_get registry n = Some v ->
                  (0 <= score (v ctx))%Q /\ (score (v ctx) <= 1)%Q.

(** a repository file with a query on a soft-delete entity *)
Definition teamsQuery : ClaudeCodeInput :=
  inputOf "const t = await prisma.teams.findFirst({ where: { id: 1 } })" "a.repository.ts".

(** a run of named validators: one twice, one unknown *)
Definition namedValidators : ClaudeCodeInput :=
  {| code := "throw new Error('Not found')"; filename := "test.service.ts";
     originalCode := None;
     specifiedValidators := Some [ "exception-types"; "logging"; "exception-types"; "style" ] |}.

(** a run that names a property every object inherits *)
Definition namesConstructor : ClaudeCodeInput :=
  {| code := "const x = 1;"; filename := "a.ts"; originalCode := None;
     specifiedValidators := Some [ "logging"; "constructor" ] |}.

(** a service file with a generic throw *)
Definition genericThrow : ClaudeCodeInput :=
  inputOf "throw new Error('Not found')" "test.service.ts".

End ClaudeNotions.

(* ================================================================== *)
(** * runner.ts: the selection of validators and the summary *)
(* ================================================================== *)

Module Runner.
Import Validators.
Import MetricsConfig (JsMap, Map_get, Map_has, Qlt_bool).

Record MetricSummary : Type := {
  ms_name : string;
  ms_sopFile : string;
  ms_score : Q;
  ms_passed : bool;
  ms_blockOnFail : bool;
  ms_violationCount : nat;
  ms_warningCount : nat
}.

(** the summary; its [timestamp] (the clock), its [targetDir] and its count
    of suggestions are left out *)
Record ValidationSummary : Type := {
  filesAnalyzed : nat;
  totalScore : Q;
  vs_passed : bool;
  vs_blockers : nat;
  vs_warnings : nat;
  results : list ValidationResult;
  metrics : list MetricSummary
}.

(** ** Configuration *)

Definition SOP_VALIDATOR_MAP : list (string * list string) :=
  [ ("2-supabase", [ "supabase-auth"; "tenant-isolation"; "audit-logging" ]);
    ("3-database-prisma", [ "prisma-queries"; "transactions" ]);
    ("4-code-safety-patterns", [ "code-safety" ]);
    ("5-error-handling-logging", [ "exception-types"; "logging" ]);
    ("6-external-services-timing", [ "external-services" ]);
    ("7-queue-job-processing", [ "job-processing" ]);
    ("8-api-design-patterns", [ "api-design" ]);
    ("9-testing-code-quality", [ "code-quality" ]) ].

Definition METRIC_WEIGHTS : list (string * Q) :=
  [ ("supabase-auth", 0.15%Q);
    ("tenant-isolation", 0.15%Q);
    ("audit-logging", 0.05%Q);
    ("prisma-queries", 0.15%Q);
    ("transactions", 0.10%Q);
    ("code-safety", 0.05%Q);
    ("exception-types", 0.10%Q);
    ("logging", 0.05%Q);
    ("external-services", 0.05%Q);
    ("job-processing", 0.05%Q);
    ("api-design", 0.05%Q);
    ("code-quality", 0.05%Q) ].

Definition BLOCK_ON_FAIL : list string :=
  [ "supabase-auth"; "tenant-isolation"; "prisma-queries"; "transactions"; "api-design" ].

(** ** Validation runner *)

(** [[...new Set(l)]]: the first occurrence of each element, in order *)
Definition unique (l : list string) : list string :=
  fold_left (fun acc x => if mem x acc then acc else (acc ++ [x])%list) l [].

(** the validators [runValidation] runs; [registry] is the object
    [validators] as it stands when the function runs.  The names of SOP files
    are taken not to be names of [Object.prototype]. *)
Definition selectValidators (registry : list (string * Validator))
           (selectedValidators sopFiles : option (list string)) : list string :=
  let validatorsToRun :=
    match selectedValidators with
    | Some (_ :: _ as selected) => selected
    | _ =>
        match sopFiles with
        | Some (_ :: _ as sops) =>
            flat_map (fun sop =>
                        match Map_get SOP_VALIDATOR_MAP sop with
                        | Some sopValidators => sopValidators
                        | None => []
                        end) sops
        | _ =>
            (* Run all validators *)
            map fst registry
        end
    end in
  (* Deduplicate *)
  unique validatorsToRun.

(** the loop that runs the validators; [validators[validatorName]] is looked
    up among the keys of the object itself, [validatorName] being a
    [ValidatorName] and never a property every object inherits *)
Definition runValidators (registry : list (string * Validator)) (validatorsToRun : list string)
           (ctx : ValidationContext) : list ValidationResult :=
  flat_map (fun validatorName =>
              match Map_get registry validatorName with
              | Some validator => [validator ctx]
              | None => []
              end) validatorsToRun.

(** [Object.keys(validators).find(k => validators[k] ===
    validators[result.metric])].  The value [validators[result.metric]] is
    [undefined] unless the metric is a key of the registry, and no key holds
    [undefined]; when it is a key, the first key that holds the same function
    is that key itself, the functions of the registry being pairwise
    different objects. *)
Definition validatorNameOf (registry : list (string * Validator)) (metricName : string)
  : option string :=
  if Map_has registry metricName then Some metricName else None.

(** [METRIC_WEIGHTS[validatorName] || 0.05] *)
Definition weightFor (validatorName : option string) : Q :=
  match validatorName with
  | Some n =>
      match Map_get METRIC_WEIGHTS n with
      | Some w => if Qeq_bool w 0 then 0.05%Q else w
      | None => 0.05%Q
      end
  | None => 0.05%Q
  end.

(** [BLOCK_ON_FAIL.includes(validatorName)] *)
Definition blocksOnFail (validatorName : option string) : bool :=
  match validatorName with
  | Some n => mem n BLOCK_ON_FAIL
  | None => false
  end.

(** the variables of the loop of [calculateSummary] *)
Record Totals : Type := {
  weightedScore : Q;
  totalWeight : Q;
  t_blockers : nat;
  t_warnings : nat;
  t_metrics : list MetricSummary
}.

Definition addResult (registry : list (string * Validator)) (acc : Totals)
           (result : ValidationResult) : Totals :=
  let validatorName := validatorNameOf registry (metric result) in
  let weight := weightFor validatorName in
  let blockOnFail := blocksOnFail validatorName in
  {| weightedScore := (weightedScore acc + score result * weight)%Q;
     totalWeight := (totalWeight acc + weight)%Q;
     t_blockers :=
       if negb (passed result) && blockOnFail
       then t_blockers acc + List.length (violations result)
       else t_blockers acc;
     t_warnings := t_warnings acc + List.length (warnings result);
     t_metrics :=
       (t_metrics acc ++
        [ {| ms_name := metric result;
             ms_sopFile := sopFile result;
             ms_score := score result;
             ms_passed := passed result;
             ms_blockOnFail := blockOnFail;
             ms_violationCount := List.length (violations result);
             ms_warningCount := List.length (warnings result) |} ])%list |}.

Definition calculateSummary (registry : list (string * Validator))
           (results : list ValidationResult) (filesAnalyzed : nat) (failOnWarnings : bool)
  : ValidationSummary :=
  let totals :=
    fold_left (addResult registry) results
      {| weightedScore := 0; totalWeight := 0; t_blockers := 0; t_warnings := 0;
         t_metrics := [] |} in
  let totalScore :=
    if Qlt_bool 0 (totalWeight totals)
    then (weightedScore totals / totalWeight totals)%Q else 1.0%Q in
  let passed :=
    (t_blockers totals =? 0) && Qle_bool 0.85 totalScore
    && (negb failOnWarnings || (t_warnings totals =? 0)) in
  {| filesAnalyzed := filesAnalyzed;
     totalScore := totalScore;
     vs_passed := passed;
     vs_blockers := t_blockers totals;
     vs_warnings := t_warnings totals;
     results := results;
     metrics := t_metrics totals |}.

(** [runValidation], from the files [getFiles] found and the contents
    [readFileContents] read; printing is left out *)
Definition runValidationOn (registry : list (string * Validator))
           (selectedValidators sopFiles : option (list string)) (failOnWarnings : bool)
           (files : list string) (fileContents : list (string * string))
  : ValidationSummary :=
  (* Determine which validators to run *)
  let validatorsToRun := selectValidators registry selectedValidators sopFiles in
  (* Create context *)
  let ctx := {| files := files; fileContents := fileContents |} in
  (* Run validators *)
  let results := runValidators registry validatorsToRun ctx in
  (* Calculate summary *)
  calculateSummary registry results (List.length files) failOnWarnings.

End Runner.

(* ================================================================== *)
(** * cli.ts: validation and gating *)
(* ================================================================== *)

Module Cli.
Import Validators GeneralPractices.
Import MetricsConfig (JsMap, Map_get, Map_has, Map_set, METRIC_DEFINITIONS, getMetricByName,
                      Qlt_bool, evaluateGating, GatingConfig, DEFAULT_GATING_CONFIG,
                      STRICT_GATING_CONFIG).

Inductive Mode : Type := full | staged | changed | commit | branch | codeMode.

(** the options [runValidation] reads once the files are loaded, and those of
    the mode [code] *)
Record CLIOptions : Type := {
  mode : Mode;
  o_validators : list string;
  o_sopFiles : list string;
  strict : bool;
  failOnWarnings : bool;
  code : option string;
  filename : option string;
  includeGeneral : bool
}.

Record Summary : Type := {
  s_passed : bool;
  s_score : Q;
  s_filesAnalyzed : nat;
  s_blockers : nat;
  s_warnings : nat;
  s_message : option string
}.

(** [git diff --name-status], line by line *)
Inductive FileStatus : Type := added | modified | deleted.

Record FileChange : Type := {
  path : string;
  status : FileStatus
}.

Definition TAB : ascii := ascii_of_nat 9.

(** [output.trim().split('\n').filter(Boolean)], then for every line
    [[status, filePath] = line.split('\t')] *)
Definition parseGitStatus (output : string) : list FileChange :=
  let lines := filter (fun l => negb (String.eqb l "")) (Js.lines (trim output)) in
  flat_map (fun line =>
      match split TAB line with
      | status :: filePath :: _ =>
          if String.eqb filePath "" then []   (* if (!filePath) continue *)
          else
            let fileStatus :=
              if String.eqb status "A" then added
              else if String.eqb status "D" then deleted
              else modified in
            [ {| path := filePath; status := fileStatus |} ]
      | _ => []
      end) lines.

(** the table [sopMap] *)
Definition sopMap : list (string * list string) :=
  [ ("2-supabase", [ "supabase-auth"; "tenant-isolation"; "audit-logging" ]);
    ("3-database-prisma", [ "prisma-queries"; "transactions" ]);
    ("4-code-safety-patterns", [ "code-safety" ]);
    ("5-error-handling-logging", [ "exception-types"; "logging" ]);
    ("6-external-services-timing", [ "external-services" ]);
    ("7-queue-job-processing", [ "job-processing" ]);
    ("8-api-design-patterns", [ "api-design" ]);
    ("9-testing-code-quality", [ "code-quality" ]) ].

(** the validators to run; [registry] is the object [validators], to which
    the module has added [general-practices] *)
Definition selectValidators (registry : list (string * Validator)) (options : CLIOptions)
  : list string :=
  let validatorsToRun :=
    if 0 <? List.length (o_validators options) then o_validators options
    else if 0 <? List.length (o_sopFiles options) then
      flat_map (fun sop =>
                  match Map_get sopMap sop with
                  | Some sopValidators => sopValidators
                  | None => []
                  end) (o_sopFiles options)
    else
      (* Run all validators *)
      map fst registry in
  (* Add general practices if requested *)
  if includeGeneral options && negb (mem "general-practices" validatorsToRun)
  then (validatorsToRun ++ [ "general-practices" ])%list
  else validatorsToRun.

(** the loop that runs the validators, with the lookup among the keys of
    the object itself; for a name that is a property every object inherits
    the code ends with a [TypeError], which this function does not model *)
Definition runValidators (registry : list (string * Validator)) (validatorsToRun : list string)
           (ctx : ValidationContext) : list ValidationResult :=
  flat_map (fun name =>
              match Map_get registry name with
              | Some validator => [validator ctx]
              | None => []
              end) validatorsToRun.

(** the variables of the loop over the results *)
Record Tally : Type := {
  scores : JsMap Q;
  blockers : nat;
  warnings : nat
}.

Definition isBlocker (v : Violation) : bool :=
  Severity_eqb (severity v) critical || Severity_eqb (severity v) high.

Definition tally (acc : Tally) (result : ValidationResult) : Tally :=
  {| scores := Map_set (scores acc) (metric result) (score result);
     blockers := blockers acc + List.length (filter isBlocker (violations result));
     warnings := warnings acc + List.length (Validators.warnings result) |}.

(** one turn of the loop over the entries of [scores], on
    [(totalScore, totalWeight)] *)
Definition addScore (acc : Q * Q) (entry : string * Q) : Q * Q :=
  let '(totalScore, totalWeight) := acc in
  let '(name, score) := entry in
  let weight :=
    match getMetricByName name with
    | Some metric => MetricsConfig.weight metric
    | None => 0.05%Q
    end in
  ((totalScore + score * weight)%Q, (totalWeight + weight)%Q).

(** [runValidation], from the file contents the mode has loaded *)
Definition runValidationOn (registry : list (string * Validator)) (options : CLIOptions)
           (fileContents : list (string * string)) : list ValidationResult * Summary :=
  if List.length fileContents =? 0 then
    ([], {| s_passed := true; s_score := 1.0; s_filesAnalyzed := 0; s_blockers := 0;
            s_warnings := 0; s_message := Some "No files to validate" |})
  else
    (* Determine validators to run *)
    let validatorsToRun := selectValidators registry options in
    (* Create context *)
    let ctx := {| files := map fst fileContents; fileContents := fileContents |} in
    (* Run validators *)
    let results := runValidators registry validatorsToRun ctx in
    (* Calculate summary *)
    let totals := fold_left tally results {| scores := []; blockers := 0; warnings := 0 |} in
    let gatingConfig := if strict options then STRICT_GATING_CONFIG else DEFAULT_GATING_CONFIG in
    let gatingResult :=
      evaluateGating (scores totals) (Z.of_nat (blockers totals)) (Z.of_nat (warnings totals))
        gatingConfig in
    let '(totalScore, totalWeight) := fold_left addScore (scores totals) (0%Q, 0%Q) in
    (results,
     {| s_passed := MetricsConfig.passed gatingResult;
        s_score := if Qlt_bool 0 totalWeight then (totalScore / totalWeight)%Q else 1.0%Q;
        s_filesAnalyzed := List.length fileContents;
        s_blockers := blockers totals;
        s_warnings := warnings totals;
        s_message := MetricsConfig.reason gatingResult |}).

(** [runValidation] in the mode [code]: the file is the code given *)
Definition runValidationCode (registry : list (string * Validator)) (options : CLIOptions)
  : Completion (list ValidationResult * Summary) :=
  match code options, filename options with
  | Some code, Some filename =>
      if String.eqb code "" || String.eqb filename ""
      then Throw "Code and filename required for code mode"
      else Normal (runValidationOn registry options [(filename, code)])
  | _, _ => Throw "Code and filename required for code mode"
  end.

(** the exit code of [main] after a run that returned *)
Definition exitCode (options : CLIOptions) (summary : Summary) : Z :=
  if s_passed summary && (negb (failOnWarnings options) || (s_warnings summary =? 0))
  then 0%Z else 1%Z.

End Cli.

(** ** Notions and example inputs for the runner and the command line *)

Module RunNotions.
Import Validators.
Import MetricsConfig (JsMap, Map_get).






(** the options of a run on a piece of code *)
Definition codeOptions (code filename : string) (strict : bool) : Cli.CLIOptions :=
  {| Cli.mode := Cli.codeMode; Cli.o_validators := []; Cli.o_sopFiles := [];
     Cli.strict := strict; Cli.failOnWarnings := false;
     Cli.code := Some code; Cli.filename := Some filename;
     Cli.includeGeneral := true |}.

(** no name given with [--validators] or [--sop] is a property that objects
    inherit: for such a name [validators[name]] and [sopMap[sop]] are not
    [undefined], and the run ends with a [TypeError] *)
Definition plainNames (options : Cli.CLIOptions) : Prop :=
  forall n, In n (Cli.o_validators options ++ Cli.o_sopFiles options)%list ->
            mem n ClaudeCodeValidator.inheritedNames = false.

(** a service that writes to the console and leaves a note *)
Definition totalService : string :=
  "export class TotalService {" ++ nl ++
  "  total(items: number[]): number {" ++ nl ++
  "    console.log('total');" ++ nl ++
  "    // TODO: handle empty lists" ++ nl ++
  "    return items.length;" ++ nl ++
  "  }" ++ nl ++
  "}".

End RunNotions.

(** ** Notions for the output of git read by the command line *)

Module GitNotions.
Import Js.

(** the letter [git diff --name-status] prints for a status *)
Definition statusLetter (s : Cli.FileStatus) : string :=
  match s with
  | Cli.added => "A"
  | Cli.modified => "M"
  | Cli.deleted => "D"
  end.

(** one line of that output: the letter, a tab, the path *)
Definition statusLine (c : Cli.FileChange) : string :=
  statusLetter (Cli.status c) ++ String Cli.TAB (Cli.path c).

(** the output for a list of changes: one line each, every line ended by a
    line feed *)
Definition gitOutput (changes : list Cli.FileChange) : string :=
  fold_right (fun c rest => statusLine c ++ nl ++ rest) "" changes.

Fixpoint hasChar (c : ascii) (s : string) : bool :=
  match s with
  | EmptyString => false
  | String a s' => Ascii.eqb a c || hasChar c s'
  end.

Fixpoint lastChar (s : string) : option ascii :=
  match s with
  | EmptyString => None
  | String a EmptyString => Some a
  | String _ s' => lastChar s'
  end.

(** a path that is not empty, holds no tab and no line feed, and does not end
    in white space *)
Definition plainPath (p : string) : bool :=
  negb (hasChar Cli.TAB p) && negb (hasChar LF p)
  && match lastChar p with
     | Some c => negb (is_space c)
     | None => false
     end.

End GitNotions.

(** ** Notions for reasoning on patterns and texts *)

Module RegexNotions.
Import Js Regex.



(** a class of a pattern without the flag [i], as a test on code units *)
Definition inClass (neg : bool) (items : list citem) (c : ascii) : bool :=
  xorb neg (existsb (fun it => item_match false it c) items).














End RegexNotions.

(* ================================================================== *)
(** * Properties *)
(* ================================================================== *)

Open Scope findings_scope.

(* ================================================================== *)
(** * Scoring and gating: properties *)
(* ================================================================== *)

Section Gating.
Import MetricsConfig Spec.

Lemma Qlt_bool_iff (a b : Q) : Qlt_bool a b = true <-> (a < b)%Q.
Proof.
  unfold Qlt_bool. rewrite negb_true_iff.
  split; intro H.
  - apply Qnot_le_lt. intro Hle. apply Qle_bool_iff in Hle. congruence.
  - destruct (Qle_bool b a) eqn:E; [|reflexivity].
    apply Qle_bool_iff in E. exfalso. apply (Qlt_not_le _ _ H E).
Qed.

Lemma Qlt_bool_false_iff (a b : Q) : Qlt_bool a b = false <-> ~ (a < b)%Q.
Proof.
  rewrite <- Qlt_bool_iff. destruct (Qlt_bool a b); split; intro; congruence.
Qed.

(** *** Maps *)

Lemma Map_get_set {V : Type} (m : JsMap V) (k k' : string) (v : V) :
  Map_get (Map_set m k v) k' = if String.eqb k k' then Some v else Map_get m k'.
Proof.
  induction m as [|[k0 v0] m IH]; simpl.
  - reflexivity.
  - destruct (String.eqb k0 k) eqn:E0; simpl.
    + apply String.eqb_eq in E0. subst k0.
      destruct (String.eqb k k'); reflexivity.
    + destruct (String.eqb k0 k') eqn:E1.
      * apply String.eqb_eq in E1. subst k0. rewrite String.eqb_sym in E0.
        rewrite E0. reflexivity.
      * apply IH.
Qed.

Lemma Map_get_fold_set_notin {V : Type} (entries : list (string * V)) (m : JsMap V) (k : string) :
  ~ In k (map fst entries) ->
  Map_get (fold_left (fun m '(k, v) => Map_set m k v) entries m) k = Map_get m k.
Proof.
  revert m. induction entries as [|[k0 v0] entries IH]; intros m Hn; simpl.
  - reflexivity.
  - rewrite IH by (intro; apply Hn; right; assumption).
    rewrite Map_get_set.
    destruct (String.eqb k0 k) eqn:E; [|reflexivity].
    apply String.eqb_eq in E. exfalso. apply Hn. left. exact E.
Qed.

Lemma Map_get_fold_set_in {V : Type} (entries : list (string * V)) (m : JsMap V)
      (k : string) (v : V) :
  NoDup (map fst entries) -> In (k, v) entries ->
  Map_get (fold_left (fun m '(k, v) => Map_set m k v) entries m) k = Some v.
Proof.
  revert m. induction entries as [|[k0 v0] entries IH]; intros m Hnd Hin; simpl.
  - destruct Hin.
  - inversion Hnd as [|? ? Hnotin Hnd']; subst.
    destruct Hin as [Heq|Hin].
    + inversion Heq; subst.
      rewrite Map_get_fold_set_notin by assumption.
      rewrite Map_get_set, String.eqb_refl. reflexivity.
    + apply IH; assumption.
Qed.

(** Two insertion orders of the same entries give maps with the same
    lookups. *)
Lemma Map_of_perm_get {V : Type} (l1 l2 : list (string * V)) (k : string) :
  NoDup (map fst l1) -> Permutation l1 l2 ->
  Map_get (Map_of l1) k = Map_get (Map_of l2) k.
Proof.
  intros Hnd Hp.
  assert (Hnd2 : NoDup (map fst l2)).
  { eapply Permutation_NoDup; [|exact Hnd]. apply Permutation_map. exact Hp. }
  unfold Map_of.
  destruct (in_dec string_dec k (map fst l1)) as [Hin|Hnin].
  - apply in_map_iff in Hin. destruct Hin as [[k0 v] [Hk Hin]]. simpl in Hk. subst k0.
    rewrite (Map_get_fold_set_in l1 [] k v Hnd Hin).
    rewrite (Map_get_fold_set_in l2 [] k v Hnd2); [reflexivity|].
    eapply Permutation_in; eassumption.
  - rewrite Map_get_fold_set_notin by assumption.
    rewrite Map_get_fold_set_notin; [reflexivity|].
    intro Hin. apply Hnin.
    eapply Permutation_in; [|exact Hin]. apply Permutation_sym, Permutation_map. exact Hp.
Qed.

(** *** The weighted score reads the map through [get] only *)

Lemma accumulate_ext (s1 s2 : JsMap Q) :
  (forall k, Map_get s1 k = Map_get s2 k) ->
  forall l acc, fold_left (accumulate s1) l acc = fold_left (accumulate s2) l acc.
Proof.
  intros Hext l. induction l as [|m l IH]; intro acc; simpl.
  - reflexivity.
  - rewrite IH. f_equal. unfold accumulate. destruct acc. rewrite Hext. reflexivity.
Qed.

Lemma calculateWeightedScore_ext (s1 s2 : JsMap Q) :
  (forall k, Map_get s1 k = Map_get s2 k) ->
  calculateWeightedScore s1 = calculateWeightedScore s2.
Proof.
  intro Hext. unfold calculateWeightedScore. rewrite (accumulate_ext s1 s2 Hext). reflexivity.
Qed.

Lemma checkBlockingMetrics_ext (s1 s2 : JsMap Q) :
  (forall k, Map_get s1 k = Map_get s2 k) ->
  forall l, checkBlockingMetrics s1 l = checkBlockingMetrics s2 l.
Proof.
  intros Hext l. induction l as [|m l IH]; simpl.
  - reflexivity.
  - rewrite Hext, IH. reflexivity.
Qed.

Lemma evaluateGating_ext (s1 s2 : JsMap Q) (b w : Z) (config : GatingConfig) :
  (forall k, Map_get s1 k = Map_get s2 k) ->
  evaluateGating s1 b w config = evaluateGating s2 b w config.
Proof.
  intro Hext. unfold evaluateGating.
  rewrite (checkBlockingMetrics_ext s1 s2 Hext), (calculateWeightedScore_ext s1 s2 Hext).
  reflexivity.
Qed.

(** *** The loop of [calculateWeightedScore] against the two sums *)

Lemma accumulate_sums (scores : JsMap Q) (l : list MetricDefinition) (a b : Q) :
  let present := filter (fun m => Map_has scores (name m)) l in
  (fst (fold_left (accumulate scores) l (a, b))
     == a + sigma (fun m => scoreOf scores m * weight m) present)%Q
  /\ (snd (fold_left (accumulate scores) l (a, b)) == b + sigma weight present)%Q.
Proof.
  revert a b. induction l as [|m l IH]; intros a b.
  - simpl. split; ring.
  - assert (Hacc : accumulate scores (a, b) m =
                   match Map_get scores (name m) with
                   | Some s => ((a + s * weight m)%Q, (b + weight m)%Q)
                   | None => (a, b)
                   end) by reflexivity.
    cbn [fold_left filter]. rewrite Hacc.
    destruct (Map_get scores (name m)) as [s|] eqn:E.
    + assert (Hhas : Map_has scores (name m) = true) by (unfold Map_has; rewrite E; reflexivity).
      rewrite Hhas.
      destruct (IH (a + s * weight m)%Q (b + weight m)%Q) as [H1 H2].
      rewrite H1, H2.
      change (sigma ?f (m :: ?r)) with (f m + sigma f r)%Q.
      cbv beta. unfold scoreOf at 2. rewrite E.
      split; ring.
    + assert (Hhas : Map_has scores (name m) = false) by (unfold Map_has; rewrite E; reflexivity).
      rewrite Hhas. apply IH.
Qed.

Lemma weights_positive : Forall (fun m => (0 < weight m)%Q) METRIC_DEFINITIONS.
Proof. repeat constructor. Qed.

Lemma sigma_weight_nonneg (l : list MetricDefinition) :
  Forall (fun m => (0 < weight m)%Q) l -> (0 <= sigma weight l)%Q.
Proof.
  induction 1 as [|m l Hm _ IH]; simpl.
  - apply Qle_refl.
  - apply Qlt_le_weak in Hm.
    setoid_replace 0%Q with (0 + 0)%Q by ring. apply Qplus_le_compat; assumption.
Qed.

Lemma sigma_weight_positive (l : list MetricDefinition) :
  Forall (fun m => (0 < weight m)%Q) l -> l <> [] -> (0 < sigma weight l)%Q.
Proof.
  intros Hall Hne. destruct l as [|m l]; [congruence|].
  inversion Hall as [|? ? Hm Hl]; subst. simpl.
  pose proof (sigma_weight_nonneg l Hl) as H0.
  setoid_replace 0%Q with (0 + 0)%Q by ring.
  apply Qplus_lt_le_compat; assumption.
Qed.

Lemma presentMetrics_positive (scores : JsMap Q) :
  Forall (fun m => (0 < weight m)%Q) (presentMetrics scores).
Proof.
  unfold presentMetrics. apply Forall_forall. intros m Hin.
  apply filter_In in Hin. destruct Hin as [Hin _].
  exact (proj1 (Forall_forall _ _) weights_positive m Hin).
Qed.

(** the score, by cases on whether a category of the catalogue has a score *)
Lemma calculateWeightedScore_cases (scores : JsMap Q) :
  (presentMetrics scores = [] -> calculateWeightedScore scores = 1.0%Q)
  /\ (presentMetrics scores <> [] ->
      (calculateWeightedScore scores == weightedAverage scores)%Q).
Proof.
  unfold calculateWeightedScore, weightedAverage.
  destruct (accumulate_sums scores METRIC_DEFINITIONS 0 0) as [H1 H2].
  fold (presentMetrics scores) in H1, H2.
  destruct (fold_left (accumulate scores) METRIC_DEFINITIONS (0%Q, 0%Q)) as [ws tw].
  simpl in H1, H2. split.
  - intro Hempty. rewrite Hempty in H2. simpl in H2.
    assert (Hf : Qlt_bool 0 tw = false).
    { apply Qlt_bool_false_iff. rewrite H2. intro H. revert H. apply Qlt_irrefl. }
    rewrite Hf. reflexivity.
  - intro Hne.
    assert (Hp : (0 < tw)%Q).
    { rewrite H2. rewrite Qplus_0_l.
      apply sigma_weight_positive; [apply presentMetrics_positive | exact Hne]. }
    rewrite (proj2 (Qlt_bool_iff 0 tw) Hp).
    rewrite H1, H2, !Qplus_0_l. reflexivity.
Qed.

(** *** The loop over the blocking metrics *)

Lemma checkBlockingMetrics_spec (scores : JsMap Q) (l : list MetricDefinition) :
  match checkBlockingMetrics scores (filter (fun m => blockOnFail m) l) with
  | Some r =>
      exists earlier m later s,
        l = (earlier ++ m :: later)%list
        /\ failsThreshold scores m s
        /\ (forall m' s', In m' earlier -> ~ failsThreshold scores m' s')
        /\ r = failed (metricReason m s)
  | None => forall m s, In m l -> ~ failsThreshold scores m s
  end.
Proof.
  induction l as [|m l IH].
  - simpl. intros m s [].
  - cbn [filter].
    assert (Hskip :
      (forall s, ~ failsThreshold scores m s) ->
      match checkBlockingMetrics scores (filter (fun m => blockOnFail m) l) with
      | Some r =>
          exists earlier m0 later s,
            m :: l = (earlier ++ m0 :: later)%list
            /\ failsThreshold scores m0 s
            /\ (forall m' s', In m' earlier -> ~ failsThreshold scores m' s')
            /\ r = failed (metricReason m0 s)
      | None => forall m0 s, In m0 (m :: l) -> ~ failsThreshold scores m0 s
      end).
    { intro Hm.
      destruct (checkBlockingMetrics scores (filter (fun m => blockOnFail m) l)) as [r|].
      - destruct IH as (earlier & m0 & later & s & Hl & Hf & Hbefore & Hr).
        exists (m :: earlier), m0, later, s.
        split; [rewrite Hl; reflexivity|]. split; [exact Hf|]. split; [|exact Hr].
        intros m' s' [Heq|Hin]; [subst m'; apply Hm | apply Hbefore; assumption].
      - intros m0 s [Heq|Hin]; [subst m0; apply Hm | apply IH; assumption]. }
    destruct (blockOnFail m) eqn:Hb.
    + cbn [checkBlockingMetrics].
      destruct (Map_get scores (name m)) as [s|] eqn:Hget.
      * destruct (Qlt_bool s (fail (thresholds m))) eqn:Hlt.
        -- exists [], m, l, s.
           split; [reflexivity|]. split; [|split; [intros m' s' []|reflexivity]].
           split; [exact Hb|]. split; [exact Hget|].
           apply Qlt_bool_iff. exact Hlt.
        -- apply Hskip. intros s' (_ & Hs & Hlt').
           rewrite Hget in Hs. inversion Hs; subst s'.
           apply Qlt_bool_false_iff in Hlt. contradiction.
      * apply Hskip. intros s' (_ & Hs & _). congruence.
    + apply Hskip. intros s' (Hb' & _). congruence.
Qed.

(** *** [evaluateGating], gate by gate *)

Lemma blockersExceeded_dec (config : GatingConfig) (b : Z) :
  blockOnBlockers config && (maxBlockers config <? b)%Z = true <-> blockersExceeded config b.
Proof.
  unfold blockersExceeded. rewrite andb_true_iff, Z.ltb_lt. reflexivity.
Qed.

Lemma warningsExceeded_dec (config : GatingConfig) (w : Z) :
  failOnWarnings config && (maxWarnings config <? w)%Z = true <-> warningsExceeded config w.
Proof.
  unfold warningsExceeded. rewrite andb_true_iff, Z.ltb_lt. reflexivity.
Qed.

Lemma evaluateGating_blockers (config : GatingConfig) (scores : JsMap Q) (b w : Z) :
  blockersExceeded config b ->
  evaluateGating scores b w config = failed (blockerReason b config).
Proof.
  intro H. apply blockersExceeded_dec in H. unfold evaluateGating. rewrite H. reflexivity.
Qed.

Lemma evaluateGating_warnings (config : GatingConfig) (scores : JsMap Q) (b w : Z) :
  ~ blockersExceeded config b -> warningsExceeded config w ->
  evaluateGating scores b w config = failed (warningReason w config).
Proof.
  intros Hb Hw. rewrite <- blockersExceeded_dec in Hb. apply not_true_is_false in Hb.
  apply warningsExceeded_dec in Hw. unfold evaluateGating. rewrite Hb, Hw. reflexivity.
Qed.

Lemma evaluateGating_metric (config : GatingConfig) (scores : JsMap Q) (b w : Z) :
  ~ blockersExceeded config b -> ~ warningsExceeded config w ->
  (exists m s, In m METRIC_DEFINITIONS /\ failsThreshold scores m s) ->
  exists m s, firstFailing scores m s
              /\ evaluateGating scores b w config = failed (metricReason m s).
Proof.
  intros Hb Hw (m0 & s0 & Hin & Hf).
  rewrite <- blockersExceeded_dec in Hb. apply not_true_is_false in Hb.
  rewrite <- warningsExceeded_dec in Hw. apply not_true_is_false in Hw.
  unfold evaluateGating. rewrite Hb, Hw.
  pose proof (checkBlockingMetrics_spec scores METRIC_DEFINITIONS) as Hspec.
  fold getBlockingMetrics in Hspec.
  destruct (checkBlockingMetrics scores getBlockingMetrics) as [r|].
  - destruct Hspec as (earlier & m & later & s & Hl & Hfm & Hbefore & Hr).
    exists m, s. split; [|exact Hr].
    exists earlier, later. split; [exact Hl|]. split; [exact Hfm|exact Hbefore].
  - exfalso. exact (Hspec m0 s0 Hin Hf).
Qed.

Lemma evaluateGating_total (config : GatingConfig) (scores : JsMap Q) (b w : Z) :
  ~ blockersExceeded config b -> ~ warningsExceeded config w -> noneFailing scores ->
  evaluateGating scores b w config =
    if Qlt_bool (calculateWeightedScore scores) (minimumScore config)
    then failed (totalReason (calculateWeightedScore scores) config)
    else {| passed := true; reason := None |}.
Proof.
  intros Hb Hw Hnone.
  rewrite <- blockersExceeded_dec in Hb. apply not_true_is_false in Hb.
  rewrite <- warningsExceeded_dec in Hw. apply not_true_is_false in Hw.
  unfold evaluateGating. rewrite Hb, Hw.
  pose proof (checkBlockingMetrics_spec scores METRIC_DEFINITIONS) as Hspec.
  fold getBlockingMetrics in Hspec.
  destruct (checkBlockingMetrics scores getBlockingMetrics) as [r|]; [|reflexivity].
  exfalso. destruct Hspec as (earlier & m & later & s & Hl & Hfm & _).
  apply (Hnone m s); [|exact Hfm].
  rewrite Hl. apply in_or_app. right. left. reflexivity.
Qed.

(** *** Number formatting respects equality of rationals *)

Lemma Qle_bool_comp_r (a x y : Q) : (x == y)%Q -> Qle_bool a x = Qle_bool a y.
Proof.
  intro H. destruct (Qle_bool a x) eqn:E1, (Qle_bool a y) eqn:E2; try reflexivity.
  - apply Qle_bool_iff in E1. rewrite H in E1. apply Qle_bool_iff in E1. congruence.
  - apply Qle_bool_iff in E2. rewrite <- H in E2. apply Qle_bool_iff in E2. congruence.
Qed.

Lemma toFixed1_comp (x y : Q) : (x == y)%Q -> toFixed1 x = toFixed1 y.
Proof.
  intro H. unfold toFixed1, toFixed1_nonneg.
  rewrite (Qle_bool_comp_r 0 x y H).
  assert (H1 : Qfloor (x * 10 + (1 # 2)) = Qfloor (y * 10 + (1 # 2))) by (rewrite H; reflexivity).
  assert (H2 : Qfloor (- x * 10 + (1 # 2)) = Qfloor (- y * 10 + (1 # 2))) by (rewrite H; reflexivity).
  rewrite H1, H2. reflexivity.
Qed.

End Gating.

(* ================================================================== *)
(** * Validators: properties *)
(* ================================================================== *)

Section ValidatorScores.
Import Validators GeneralPractices Spec ValidatorExamples.

(** *** Scores *)

Lemma num_nonneg (n : nat) : (0 <= num n)%Q.
Proof.
  unfold num. change 0%Q with (inject_Z 0). rewrite <- Zle_Qle. lia.
Qed.

Lemma Math_max_range (x : Q) : (x <= 1)%Q -> unitRange (Math_max 0 x).
Proof.
  intro H. unfold unitRange, Math_max. split.
  - apply Q.le_max_l.
  - apply Q.max_lub; [discriminate | exact H].
Qed.

Lemma one_unitRange : unitRange 1.
Proof. split; discriminate. Qed.

Lemma ratio_range (a b : nat) :
  (a + b =? 0) = false -> unitRange (num a / num (a + b)).
Proof.
  intro H. apply Nat.eqb_neq in H.
  assert (Hpos : (0 < num (a + b))%Q).
  { unfold num. change 0%Q with (inject_Z 0). rewrite <- Zlt_Qlt. lia. }
  split.
  - apply Qle_shift_div_l; [exact Hpos|]. rewrite Qmult_0_l. apply num_nonneg.
  - apply Qle_shift_div_r; [exact Hpos|]. rewrite Qmult_1_l.
    unfold num. rewrite <- Zle_Qle. lia.
Qed.

(** a score of the shape [1 - n1 * c1 - n2 * c2 - ...] is at most 1 *)
Ltac penalties :=
  repeat match goal with
         | |- context [num ?e] =>
             let x := fresh "n" in
             let Hx := fresh "Hn" in
             pose proof (num_nonneg e) as Hx;
             set (x := num e) in *; clearbody x
         end;
  lra.

Ltac score_range :=
  cbv zeta; cbn [score];
  repeat match goal with
         | |- unitRange (if ?c then _ else _) => destruct c
         end;
  first [ exact one_unitRange | apply Math_max_range; penalties ].

Lemma validateSupabaseAuth_score ctx : unitRange (score (validateSupabaseAuth ctx)).
Proof. unfold validateSupabaseAuth. score_range. Qed.

Lemma validateTenantIsolation_score ctx : unitRange (score (validateTenantIsolation ctx)).
Proof. unfold validateTenantIsolation. score_range. Qed.

Lemma validateAuditLogging_score ctx : unitRange (score (validateAuditLogging ctx)).
Proof. unfold validateAuditLogging. score_range. Qed.

Lemma validatePrismaQueries_score ctx : unitRange (score (validatePrismaQueries ctx)).
Proof. unfold validatePrismaQueries. score_range. Qed.

Lemma validateTransactions_score ctx : unitRange (score (validateTransactions ctx)).
Proof. unfold validateTransactions. score_range. Qed.

Lemma validateCodeSafetyPatterns_score ctx : unitRange (score (validateCodeSafetyPatterns ctx)).
Proof. unfold validateCodeSafetyPatterns. score_range. Qed.

Lemma validateExceptionTypes_score ctx : unitRange (score (validateExceptionTypes ctx)).
Proof.
  unfold validateExceptionTypes. cbv zeta. cbn [score].
  destruct (nestExceptionCount ctx + genericErrorCount ctx =? 0) eqn:E.
  - exact one_unitRange.
  - apply ratio_range. exact E.
Qed.

Lemma validateLogging_score ctx : unitRange (score (validateLogging ctx)).
Proof. unfold validateLogging. score_range. Qed.

Lemma validateExternalServicePatterns_score ctx :
  unitRange (score (validateExternalServicePatterns ctx)).
Proof. unfold validateExternalServicePatterns. score_range. Qed.

Lemma validateJobProcessing_score ctx : unitRange (score (validateJobProcessing ctx)).
Proof. unfold validateJobProcessing. score_range. Qed.

Lemma validateApiDesign_score ctx : unitRange (score (validateApiDesign ctx)).
Proof. unfold validateApiDesign. score_range. Qed.

Lemma validateCodeQuality_score ctx : unitRange (score (validateCodeQuality ctx)).
Proof. unfold validateCodeQuality. score_range. Qed.

Lemma generalPracticesResult_score found : unitRange (score (generalPracticesResult found)).
Proof. unfold generalPracticesResult. score_range. Qed.

(** whatever [validateGeneralPractices] returns was built by
    [generalPracticesResult] *)
Lemma validateGeneralPractices_result ctx :
  exists found, validateGeneralPractices ctx = generalPracticesResult found.
Proof.
  unfold validateGeneralPractices, validateGeneralPracticesWith, bind.
  destruct (runGeneralRules allRules ctx) as [found|e]; eexists; reflexivity.
Qed.

Lemma validateGeneralPractices_score ctx : unitRange (score (validateGeneralPractices ctx)).
Proof.
  destruct (validateGeneralPractices_result ctx) as [found ->].
  apply generalPracticesResult_score.
Qed.

End ValidatorScores.

Section ValidatorScans.
Import Validators GeneralPractices Spec ValidatorExamples.

(** *** Loops that push findings *)

Lemma forEach_violations {A : Type} (l : list A) (body : A -> Findings) :
  found_violations (forEach l body) = flat_map (fun x => found_violations (body x)) l.
Proof.
  induction l as [|x l IH]; simpl; [reflexivity|]. rewrite IH. reflexivity.
Qed.


Lemma filter_none {A : Type} (p : A -> bool) (l : list A) :
  (forall x, In x l -> p x = false) -> filter p l = [].
Proof.
  induction l as [|x l IH]; intro H; simpl; [reflexivity|].
  rewrite (H x (or_introl eq_refl)). apply IH. intros y Hy. apply H. right. exact Hy.
Qed.

(** *** validateTransactions *)




(** *** validateExceptionTypes *)

Lemma genericErrorCount_zero (ctx : ValidationContext) :
  (forall l, In l (allLines ctx) -> throwsGenericError l = false) ->
  genericErrorCount ctx = 0.
Proof.
  intro H. unfold genericErrorCount. rewrite (filter_none _ _ H). reflexivity.
Qed.

Lemma num_ratio_one (n : nat) : n <> 0 -> (num n / num n == 1)%Q.
Proof.
  intro H. apply Qmult_inv_r. unfold num. intro E.
  unfold Qeq in E. simpl in E. lia.
Qed.

End ValidatorScans.

(* ================================================================== *)
(** * The rule engine and the correction loop: properties *)
(* ================================================================== *)

Section FileNames.
Import Validators GeneralPractices SelfCorrection ValidatorExamples EngineExamples.

(** *** Violations do not depend on the name of the file *)

Lemma erased_andThen (a b : Findings) : erased (a ;; b) = (erased a ++ erased b)%list.
Proof. unfold erased, andThen. cbn [found_violations]. apply map_app. Qed.

Lemma erased_forEach {A : Type} (l : list A) (f g : A -> Findings) :
  (forall x, In x l -> erased (f x) = erased (g x)) ->
  erased (forEach l f) = erased (forEach l g).
Proof.
  induction l as [|x l IH]; intro H; [reflexivity|].
  cbn [forEach]. rewrite !erased_andThen.
  rewrite (H x (or_introl eq_refl)), IH by (intros y Hy; apply H; right; exact Hy).
  reflexivity.
Qed.

Lemma erased_pushViolation f l r m s x :
  erased (pushViolation (mkViolation f l r m s x)) = [mkViolation "" l r m s x].
Proof. reflexivity. Qed.

Lemma erased_pushWarning w : erased (pushWarning w) = [].
Proof. reflexivity. Qed.

Lemma erased_nothing : erased nothing = [].
Proof. reflexivity. Qed.

(** two scans that differ in the [file] of what they push only *)
Ltac same_findings :=
  repeat first
    [ rewrite erased_andThen
    | rewrite erased_pushViolation
    | rewrite erased_pushWarning
    | rewrite erased_nothing
    | match goal with
      | |- (_ ++ _)%list = (_ ++ _)%list => f_equal
      | |- [] = [] => reflexivity
      | |- [_] = [_] => reflexivity
      | |- erased (forEach _ (fun '(_, _) => _)) = erased (forEach _ _) =>
          apply erased_forEach; intros [? ?] _
      | |- erased (forEach _ _) = erased (forEach _ _) =>
          apply erased_forEach; intros ? _
      | |- erased (if ?c then _ else _) = erased (if ?c then _ else _) => destruct c
      | |- erased (match ?x with Some _ => _ | None => _ end)
           = erased (match ?x with Some _ => _ | None => _ end) => destruct x
      end ].

(** what the validators ask about the two names *)
Ltac names :=
  repeat first
    [ progress change (test (rei "client") "file.ts") with false
    | progress change (test (rei "client") "corrected.ts") with false
    | progress change (endsWith ".controller.ts" "file.ts") with false
    | progress change (endsWith ".controller.ts" "corrected.ts") with false
    | progress change (endsWith ".service.ts" "file.ts") with false
    | progress change (endsWith ".service.ts" "corrected.ts") with false
    | progress change (includes "processor" "file.ts") with false
    | progress change (includes "processor" "corrected.ts") with false
    | progress change (includes "consumer" "file.ts") with false
    | progress change (includes "consumer" "corrected.ts") with false
    | progress change (includes "/dto/" "file.ts") with false
    | progress change (includes "/dto/" "corrected.ts") with false ];
  cbv beta iota; cbn [negb andb orb].

Lemma validateSupabaseAuth_names content :
  erased (validateSupabaseAuth_scan (oneFile "file.ts" content))
  = erased (validateSupabaseAuth_scan (oneFile "corrected.ts" content)).
Proof.
  unfold validateSupabaseAuth_scan, oneFile. cbn [fileContents forEach].
  names. same_findings.
Qed.

Lemma validateTenantIsolation_names content :
  erased (validateTenantIsolation_scan (oneFile "file.ts" content))
  = erased (validateTenantIsolation_scan (oneFile "corrected.ts" content)).
Proof.
  unfold validateTenantIsolation_scan, oneFile. cbn [fileContents forEach].
  names. same_findings.
Qed.

Lemma validateAuditLogging_names content :
  erased (validateAuditLogging_scan (oneFile "file.ts" content))
  = erased (validateAuditLogging_scan (oneFile "corrected.ts" content)).
Proof.
  unfold validateAuditLogging_scan, oneFile. cbn [fileContents forEach]. unfold auditedOperation.
  names. same_findings.
Qed.

Lemma validatePrismaQueries_names content :
  erased (validatePrismaQueries_scan (oneFile "file.ts" content))
  = erased (validatePrismaQueries_scan (oneFile "corrected.ts" content)).
Proof.
  unfold validatePrismaQueries_scan, oneFile. cbn [fileContents forEach].
  names. same_findings.
Qed.

Lemma validateTransactions_names content :
  erased (validateTransactions_scan (oneFile "file.ts" content))
  = erased (validateTransactions_scan (oneFile "corrected.ts" content)).
Proof.
  unfold validateTransactions_scan, oneFile. cbn [fileContents forEach].
  names. same_findings.
Qed.

Lemma validateCodeSafetyPatterns_names content :
  erased (validateCodeSafetyPatterns_scan (oneFile "file.ts" content))
  = erased (validateCodeSafetyPatterns_scan (oneFile "corrected.ts" content)).
Proof.
  unfold validateCodeSafetyPatterns_scan, oneFile. cbn [fileContents forEach].
  names. same_findings.
Qed.

Lemma validateExceptionTypes_names content :
  erased (validateExceptionTypes_scan (oneFile "file.ts" content))
  = erased (validateExceptionTypes_scan (oneFile "corrected.ts" content)).
Proof.
  unfold validateExceptionTypes_scan, oneFile. cbn [fileContents forEach].
  names. same_findings.
Qed.

Lemma validateLogging_names content :
  erased (validateLogging_scan (oneFile "file.ts" content))
  = erased (validateLogging_scan (oneFile "corrected.ts" content)).
Proof.
  unfold validateLogging_scan, oneFile. cbn [fileContents forEach].
  names. same_findings.
Qed.

Lemma validateExternalServicePatterns_names content :
  erased (validateExternalServicePatterns_scan (oneFile "file.ts" content))
  = erased (validateExternalServicePatterns_scan (oneFile "corrected.ts" content)).
Proof.
  unfold validateExternalServicePatterns_scan, oneFile. cbn [fileContents forEach].
  names. same_findings.
Qed.

Lemma validateJobProcessing_names content :
  erased (validateJobProcessing_scan (oneFile "file.ts" content))
  = erased (validateJobProcessing_scan (oneFile "corrected.ts" content)).
Proof.
  unfold validateJobProcessing_scan, oneFile. cbn [fileContents forEach].
  names. same_findings.
Qed.

Lemma validateApiDesign_names content :
  erased (validateApiDesign_scan (oneFile "file.ts" content))
  = erased (validateApiDesign_scan (oneFile "corrected.ts" content)).
Proof.
  unfold validateApiDesign_scan, oneFile. cbn [fileContents forEach].
  names. same_findings.
Qed.

Lemma validateCodeQuality_names content :
  erased (validateCodeQuality_scan (oneFile "file.ts" content))
  = erased (validateCodeQuality_scan (oneFile "corrected.ts" content)).
Proof.
  unfold validateCodeQuality_scan, oneFile. cbn [fileContents forEach].
  names. same_findings.
Qed.

End FileNames.

Section RuleEngine.
Import Validators GeneralPractices SelfCorrection ValidatorExamples EngineExamples.

(** *** The checks of the catalogue *)

Ltac each_rule H :=
  unfold allRules, securityRules, errorHandlingRules, performanceRules, reliabilityRules,
    maintainabilityRules in H;
  cbn [app In] in H;
  repeat (destruct H as [<-|H]; [cbn [check]|]); [..|destruct H].

(** no check of the catalogue throws *)
Lemma builtin_checks_return (rule : GeneralRule) :
  In rule allRules ->
  forall line lineNum ctx, exists v, check rule line lineNum ctx = Normal v.
Proof.
  intros H line lineNum ctx. each_rule H; eexists; reflexivity.
Qed.

(** no check of the catalogue reads the file name *)
Lemma builtin_checks_ignore_filename (rule : GeneralRule) :
  In rule allRules ->
  forall line lineNum f1 f2 content lines index,
    check rule line lineNum (buildContext f1 content lines index)
    = check rule line lineNum (buildContext f2 content lines index).
Proof.
  intros H line lineNum f1 f2 content lines index. each_rule H; reflexivity.
Qed.

(** *** Loops whose body may throw *)

Lemma forEachC_normal {A : Type} (l : list A) (body : A -> Completion Findings) :
  (forall x, In x l -> exists found, body x = Normal found) ->
  exists found, forEachC l body = Normal found.
Proof.
  induction l as [|x l IH]; intro H; cbn [forEachC].
  - eexists. reflexivity.
  - destruct (H x (or_introl eq_refl)) as [f1 ->].
    destruct IH as [f2 ->]; [intros y Hy; apply H; right; exact Hy|].
    eexists. reflexivity.
Qed.

Lemma forEachC_throw {A : Type} (l : list A) (body : A -> Completion Findings) :
  (exists x e, In x l /\ body x = Throw e) ->
  exists e, forEachC l body = Throw e.
Proof.
  induction l as [|x l IH]; intros (y & e & Hin & Hy); [destruct Hin|].
  cbn [forEachC]. destruct (body x) as [f1|e1] eqn:Hx.
  - destruct Hin as [->|Hin]; [congruence|].
    destruct IH as [e2 ->]; [exists y, e; split; assumption|].
    eexists. reflexivity.
  - eexists. reflexivity.
Qed.

Lemma erasedC_forEachC {A : Type} (l : list A) (f g : A -> Completion Findings) :
  (forall x, In x l -> erasedC (f x) = erasedC (g x)) ->
  erasedC (forEachC l f) = erasedC (forEachC l g).
Proof.
  induction l as [|x l IH]; intro H; [reflexivity|].
  cbn [forEachC]. pose proof (H x (or_introl eq_refl)) as Hx.
  assert (Hl : erasedC (forEachC l f) = erasedC (forEachC l g))
    by (apply IH; intros y Hy; apply H; right; exact Hy).
  destruct (f x) as [f1|e1], (g x) as [g1|e1']; cbn [erasedC bind] in *;
    try discriminate Hx; [|exact Hx].
  destruct (forEachC l f) as [f2|e2], (forEachC l g) as [g2|e2']; cbn [erasedC bind] in *;
    try discriminate Hl; [|exact Hl].
  rewrite !erased_andThen. inversion Hx. inversion Hl. congruence.
Qed.

Lemma indexed_from_In {A : Type} (l : list A) (start i : nat) (x : A) :
  nth_error l i = Some x -> In (start + i, x) (indexed_from start l).
Proof.
  revert start i. induction l as [|y l IH]; intros start i H.
  - destruct i; discriminate H.
  - destruct i as [|i]; cbn [indexed_from].
    + inversion H. left. f_equal. lia.
    + right. replace (start + S i) with (S start + i) by lia. apply IH. exact H.
Qed.

(** *** The engine *)

Lemma erasedC_singleton (a b : Completion Findings) :
  erasedC a = erasedC b ->
  erasedC (bind a (fun f1 => bind (Normal nothing) (fun f2 => Normal (f1 ;; f2))))
  = erasedC (bind b (fun f1 => bind (Normal nothing) (fun f2 => Normal (f1 ;; f2)))).
Proof.
  intro H. destruct a as [fa|ea], b as [fb|eb]; cbn [erasedC bind] in *;
    try discriminate H; [|exact H].
  rewrite !erased_andThen. inversion H. congruence.
Qed.

Lemma runGeneralRules_names content :
  erasedC (runGeneralRules allRules (oneFile "file.ts" content))
  = erasedC (runGeneralRules allRules (oneFile "corrected.ts" content)).
Proof.
  unfold runGeneralRules, oneFile. cbn [fileContents forEachC].
  apply erasedC_singleton.
  apply erasedC_forEachC. intros [index line] _.
  apply erasedC_forEachC. intros rule Hrule.
  rewrite (builtin_checks_ignore_filename rule Hrule line (index + 1)
             "file.ts" "corrected.ts" content (Js.lines content) index).
  destruct (check rule line (index + 1)
              (buildContext "corrected.ts" content (Js.lines content) index))
    as [[violation|]|e]; cbn [bind erasedC]; [|reflexivity|reflexivity].
  destruct (rule_severity rule); reflexivity.
Qed.

Lemma validateGeneralPractices_names content :
  map eraseFile (violations (validateGeneralPractices (oneFile "file.ts" content)))
  = map eraseFile (violations (validateGeneralPractices (oneFile "corrected.ts" content))).
Proof.
  pose proof (runGeneralRules_names content) as H.
  unfold validateGeneralPractices, validateGeneralPracticesWith, bind.
  destruct (runGeneralRules allRules (oneFile "file.ts" content)) as [fa|ea],
           (runGeneralRules allRules (oneFile "corrected.ts" content)) as [fb|eb];
    cbn [erasedC] in H; try discriminate H.
  - inversion H. assumption.
  - reflexivity.
Qed.

(** the built-in catalogue never throws *)
Lemma validateGeneralPractices_returns ctx :
  validateGeneralPracticesWith allRules ctx = Normal (validateGeneralPractices ctx).
Proof.
  unfold validateGeneralPractices.
  assert (H : exists found, runGeneralRules allRules ctx = Normal found).
  { unfold runGeneralRules. apply forEachC_normal. intros [fileName content] _.
    apply forEachC_normal. intros [index line] _.
    apply forEachC_normal. intros rule Hrule.
    destruct (builtin_checks_return rule Hrule line (index + 1)
                (buildContext fileName content (Js.lines content) index)) as [v ->].
    cbn [bind]. destruct v as [violation|]; [|eexists; reflexivity].
    destruct (rule_severity rule); eexists; reflexivity. }
  destruct H as [found H]. unfold validateGeneralPracticesWith. rewrite H. reflexivity.
Qed.

(** a check that throws makes the whole validation throw *)
Lemma validateGeneralPracticesWith_throws rules ctx :
  checkThrows rules ctx -> exists e, validateGeneralPracticesWith rules ctx = Throw e.
Proof.
  intros (fileName & content & index & line & rule & e & Hfile & Hline & Hrule & Hcheck).
  assert (H : exists e', runGeneralRules rules ctx = Throw e').
  { unfold runGeneralRules. apply forEachC_throw.
    destruct (forEachC_throw (indexed (Js.lines content))
                (fun '(index, line) =>
                   forEachC rules (fun rule =>
                     bind (check rule line (index + 1)
                             (buildContext fileName content (Js.lines content) index))
                       (fun violation =>
                          match violation with
                          | Some violation =>
                              match rule_severity rule with
                              | critical | high =>
                                  Normal (pushViolation (mkViolation fileName (index + 1) (id rule)
                                            (rv_message violation) (rule_severity rule)
                                            (rv_fix violation)))
                              | medium =>
                                  Normal (pushWarning (mkWarning fileName (index + 1) (id rule)
                                            (rv_message violation)))
                              end
                          | None => Normal nothing
                          end)))) as [e1 He1].
    { destruct (forEachC_throw rules
                  (fun rule =>
                     bind (check rule line (index + 1)
                             (buildContext fileName content (Js.lines content) index))
                       (fun violation =>
                          match violation with
                          | Some violation =>
                              match rule_severity rule with
                              | critical | high =>
                                  Normal (pushViolation (mkViolation fileName (index + 1) (id rule)
                                            (rv_message violation) (rule_severity rule)
                                            (rv_fix violation)))
                              | medium =>
                                  Normal (pushWarning (mkWarning fileName (index + 1) (id rule)
                                            (rv_message violation)))
                              end
                          | None => Normal nothing
                          end))) as [e2 He2].
      { exists rule, e. split; [exact Hrule|]. rewrite Hcheck. reflexivity. }
      exists (index, line), e2. split; [|exact He2].
      apply (indexed_from_In (Js.lines content) 0 index line Hline). }
    exists (fileName, content), e1. split; [exact Hfile | exact He1]. }
  destruct H as [e' H]. exists e'. unfold validateGeneralPracticesWith. rewrite H. reflexivity.
Qed.

End RuleEngine.

Section CorrectionEngine.
Import Validators GeneralPractices SelfCorrection ValidatorExamples EngineExamples.
Import MetricsConfig (JsMap, Map_get, Map_has, Map_set).

(** *** [applyFixes] reads the rule and the line of a violation only *)

Lemma Map_get_mapValues {V W : Type} (g : V -> W) (m : JsMap V) (k : string) :
  Map_get (mapValues g m) k = option_map g (Map_get m k).
Proof.
  induction m as [|[k0 v0] m IH]; simpl; [reflexivity|].
  destruct (String.eqb k0 k); [reflexivity | exact IH].
Qed.

Lemma Map_has_mapValues {V W : Type} (g : V -> W) (m : JsMap V) (k : string) :
  Map_has (mapValues g m) k = Map_has m k.
Proof.
  unfold Map_has. rewrite Map_get_mapValues. destruct (Map_get m k); reflexivity.
Qed.

Lemma Map_set_mapValues {V W : Type} (g : V -> W) (m : JsMap V) (k : string) (v : V) :
  mapValues g (Map_set m k v) = Map_set (mapValues g m) k (g v).
Proof.
  induction m as [|[k0 v0] m IH]; simpl; [reflexivity|].
  destruct (String.eqb k0 k); simpl; [reflexivity|]. rewrite IH. reflexivity.
Qed.

Lemma groupByRule_erase (vs : list Violation) :
  groupByRule (map eraseFile vs) = mapValues (map eraseFile) (groupByRule vs).
Proof.
  unfold groupByRule.
  assert (H : forall m,
    fold_left (fun m v =>
        let list := match Map_get m (rule v) with Some l => l | None => [] end in
        Map_set m (rule v) (list ++ [v])%list) (map eraseFile vs) (mapValues (map eraseFile) m)
    = mapValues (map eraseFile)
        (fold_left (fun m v =>
           let list := match Map_get m (rule v) with Some l => l | None => [] end in
           Map_set m (rule v) (list ++ [v])%list) vs m)).
  { induction vs as [|v vs IH]; intro m; [reflexivity|].
    cbn [map fold_left]. rewrite <- IH. f_equal.
    cbv zeta. rewrite Map_set_mapValues, Map_get_mapValues. cbn [eraseFile rule].
    destruct (Map_get m (rule v)) as [l|]; cbn [option_map]; rewrite ?map_app; reflexivity. }
  exact (H []).
Qed.

Lemma applyPattern_erase (config : CorrectionConfig) (g : JsMap (list Violation))
      (state : string * list AppliedFix) (p : FixPattern) :
  applyPattern config (mapValues (map eraseFile) g) state p = applyPattern config g state p.
Proof.
  unfold applyPattern. destruct state as [corrected0 applied].
  rewrite Map_has_mapValues, Map_get_mapValues.
  destruct (optIncludes (skipRules config) (fp_rule p)); [reflexivity|].
  destruct (match fixRules config with Some l => negb (mem (fp_rule p) l) | None => false end);
    [reflexivity|].
  destruct (negb (Map_has g (fp_rule p))); [reflexivity|].
  destruct (negb (String.eqb corrected0 (replaceAll (pattern p) (replacement p) corrected0)));
    [|reflexivity].
  destruct (Map_get g (fp_rule p)) as [l|]; cbn [option_map]; [|reflexivity].
  rewrite map_map. reflexivity.
Qed.

Lemma fold_applyPattern_erase (config : CorrectionConfig) (g : JsMap (list Violation))
      (ps : list FixPattern) (state : string * list AppliedFix) :
  fold_left (applyPattern config (mapValues (map eraseFile) g)) ps state
  = fold_left (applyPattern config g) ps state.
Proof.
  revert state. induction ps as [|p ps IH]; intro state; [reflexivity|].
  cbn [fold_left]. rewrite applyPattern_erase. apply IH.
Qed.

Lemma applyFixes_erase registry content (vs1 vs2 : list Violation) config :
  map eraseFile vs1 = map eraseFile vs2 ->
  applyFixes registry content vs1 config = applyFixes registry content vs2 config.
Proof.
  intro H. unfold applyFixes.
  rewrite <- (fold_applyPattern_erase config (groupByRule vs1)).
  rewrite <- (fold_applyPattern_erase config (groupByRule vs2)).
  rewrite <- !groupByRule_erase, H. reflexivity.
Qed.

Lemma applyFixes_original registry content vs config :
  original (applyFixes registry content vs config) = content.
Proof.
  unfold applyFixes.
  destruct (fold_left (applyPattern config (groupByRule vs)) FIX_PATTERNS (content, []))
    as [c a].
  match goal with
  | |- original (let '(_, _) := ?x in _) = _ => destruct x
  end.
  reflexivity.
Qed.

Lemma applyFixes_remaining registry content vs config :
  remainingViolations (applyFixes registry content vs config)
  = validateAll registry "corrected.ts" (corrected (applyFixes registry content vs config)).
Proof.
  unfold applyFixes.
  destruct (fold_left (applyPattern config (groupByRule vs)) FIX_PATTERNS (content, []))
    as [c a].
  match goal with
  | |- remainingViolations (let '(_, _) := ?x in _) = _ => destruct x
  end.
  reflexivity.
Qed.

(** *** The loop *)

Variable registry : list (string * Validator).
Variable config : CorrectionConfig.

Lemma length_zero_nil {A : Type} (l : list A) : (List.length l =? 0) = true -> l = [].
Proof. destruct l; [reflexivity | discriminate]. Qed.

Lemma length_pos_not_nil {A : Type} (l : list A) : (0 <? List.length l) = true -> l <> [].
Proof. destruct l; [discriminate | intros _ H; discriminate H]. Qed.

(** the turns of the loop, one at a time *)
Lemma correctionLoop_stop (fuel : nat) (st : LoopState) :
  loopGoesOn config st = false -> correctionLoop registry config fuel st = Some st.
Proof.
  unfold loopGoesOn. intro H. destruct fuel; cbn [correctionLoop]; rewrite H; reflexivity.
Qed.

Lemma correctionLoop_O (st : LoopState) :
  loopGoesOn config st = true -> correctionLoop registry config 0 st = None.
Proof. unfold loopGoesOn. intro H. cbn [correctionLoop]. rewrite H. reflexivity. Qed.

Lemma correctionLoop_S (fuel : nat) (st : LoopState) :
  loopGoesOn config st = true ->
  correctionLoop registry config (S fuel) st
  = if List.length
         (appliedFixes (applyFixes registry (currentContent st) (allViolations st) config))
       =? 0
    then Some (stuckState registry config st)
    else correctionLoop registry config fuel (nextState registry config st).
Proof. unfold loopGoesOn. intro H. cbn [correctionLoop]. rewrite H. reflexivity. Qed.

(** more fuel does not change the answer of a run that returned *)
Lemma correctionLoop_more_fuel (fuel : nat) (st final : LoopState) :
  correctionLoop registry config fuel st = Some final ->
  correctionLoop registry config (S fuel) st = Some final.
Proof.
  revert st. induction fuel as [|fuel IH]; intros st H.
  - destruct (loopGoesOn config st) eqn:Hgo.
    + rewrite (correctionLoop_O st Hgo) in H. discriminate H.
    + rewrite (correctionLoop_stop 0 st Hgo) in H. rewrite (correctionLoop_stop 1 st Hgo).
      exact H.
  - destruct (loopGoesOn config st) eqn:Hgo.
    + rewrite (correctionLoop_S fuel st Hgo) in H. rewrite (correctionLoop_S (S fuel) st Hgo).
      destruct (List.length _ =? 0); [exact H | exact (IH _ H)].
    + rewrite (correctionLoop_stop _ st Hgo) in H. rewrite (correctionLoop_stop _ st Hgo).
      exact H.
Qed.

Lemma correctionLoop_fuel_le (fuel fuel' : nat) (st final : LoopState) :
  fuel <= fuel' ->
  correctionLoop registry config fuel st = Some final ->
  correctionLoop registry config fuel' st = Some final.
Proof.
  intros Hle H. induction Hle as [|fuel' _ IH]; [exact H|].
  apply correctionLoop_more_fuel. exact IH.
Qed.

(** What a run of the loop from [st] that returned did: [new] are the
    results it appended to the history. *)
Lemma correctionLoop_trace (fuel : nat) (st final : LoopState) :
  correctionLoop registry config fuel st = Some final ->
  exists new,
    ls_history final = (ls_history st ++ new)%list
    /\ ls_iterations final = ls_iterations st + List.length new
    /\ List.length new <= fuel
    /\ (forall i res, nth_error new i = Some res -> appliedFixes res = [] ->
                      S i = List.length new)
    /\ (new = [] -> final = st /\ loopGoesOn config st = false)
    /\ (forall front res, new = (front ++ [res])%list -> appliedFixes res = [] ->
          res = applyFixes registry (currentContent final) (allViolations final) config
          /\ allViolations final <> [])
    /\ (new <> [] ->
        countBelow (ls_iterations final - 1) (maxIterations config) = true)
    /\ (loopGoesOn config final = true ->
        exists front res, new = (front ++ [res])%list /\ appliedFixes res = []).
Proof.
  revert st. induction fuel as [|fuel IH]; intros st Hrun.
  - destruct (loopGoesOn config st) eqn:Hgo.
    { rewrite (correctionLoop_O st Hgo) in Hrun. discriminate Hrun. }
    rewrite (correctionLoop_stop 0 st Hgo) in Hrun. injection Hrun as <-.
    exists []. rewrite app_nil_r, Nat.add_0_r.
    split; [reflexivity|]. split; [reflexivity|]. split; [apply Nat.le_refl|].
    split; [intros i res H; destruct i; discriminate H|].
    split; [intros _; split; [reflexivity | first [exact Hgo | reflexivity]]|].
    split; [intros front res H; destruct front; discriminate H|].
    split; [intro H; contradiction H; reflexivity|].
    intro H. rewrite Hgo in H. discriminate H.
  - destruct (loopGoesOn config st) eqn:Hgo.
    + rewrite (correctionLoop_S fuel st Hgo) in Hrun.
      assert (Hviol : allViolations st <> []).
      { unfold loopGoesOn in Hgo. apply andb_prop in Hgo. apply length_pos_not_nil, Hgo. }
      assert (Hbelow : countBelow (ls_iterations st) (maxIterations config) = true).
      { unfold loopGoesOn in Hgo. apply andb_prop in Hgo. apply Hgo. }
      set (result := applyFixes registry (currentContent st) (allViolations st) config) in *.
      destruct (List.length (appliedFixes result) =? 0) eqn:Hfix.
      * injection Hrun as <-. exists [result].
        split; [reflexivity|]. split; [reflexivity|]. split; [apply le_n_S, Nat.le_0_l|].
        split; [intros i res H _; destruct i as [|i]; [reflexivity|];
                destruct i; discriminate H|].
        split; [intro H; discriminate H|].
        split.
        { intros front res H _.
          assert (res = result).
          { destruct front as [|x front']; [inversion H; reflexivity|].
            destruct front'; discriminate H. }
          subst res. split; [reflexivity | exact Hviol]. }
        split.
        { intros _. cbn [stuckState ls_iterations]. rewrite Nat.add_sub. exact Hbelow. }
        intros _. exists [], result. split; [reflexivity|].
        apply length_zero_nil. exact Hfix.
      * destruct (IH (nextState registry config st) Hrun)
          as (new & Hhist & Hiter & Hlen & Hzero & Hnil & Hlast & Hcap & Hon).
        cbn [nextState ls_history ls_iterations] in Hhist, Hiter. fold result in Hhist.
        exists (result :: new).
        split; [rewrite Hhist, <- app_assoc; reflexivity|].
        split; [rewrite Hiter; cbn [List.length]; lia|].
        split; [cbn [List.length]; lia|].
        split.
        { intros i res H Hres. destruct i as [|i]; cbn [nth_error] in H.
          - inversion H; subst res. rewrite Hres in Hfix. discriminate Hfix.
          - cbn [List.length]. f_equal. exact (Hzero i res H Hres). }
        split; [intro H; discriminate H|].
        split.
        { intros front res H Hres. destruct front as [|x front'].
          - inversion H; subst. rewrite Hres in Hfix. discriminate Hfix.
          - inversion H as [[Hx Hnew]]. exact (Hlast front' res Hnew Hres). }
        split.
        { intros _. destruct new as [|r0 new'].
          - destruct (Hnil eq_refl) as [Hfinal _]. rewrite Hfinal.
            cbn [nextState ls_iterations]. rewrite Nat.add_sub. exact Hbelow.
          - apply Hcap. discriminate. }
        intro Hgoes. destruct (Hon Hgoes) as (front & res & Hnew & Hres).
        exists (result :: front), res. split; [rewrite Hnew; reflexivity | exact Hres].
    + rewrite (correctionLoop_stop _ st Hgo) in Hrun. injection Hrun as <-.
      exists []. rewrite app_nil_r, Nat.add_0_r.
      split; [reflexivity|]. split; [reflexivity|]. split; [apply Nat.le_0_l|].
      split; [intros i res H; destruct i; discriminate H|].
      split; [intros _; split; [reflexivity | first [exact Hgo | reflexivity]]|].
      split; [intros front res H; destruct front; discriminate H|].
      split; [intro H; contradiction H; reflexivity|].
      intro H. rewrite Hgo in H. discriminate H.
Qed.

(** the first test bounds the turns unless the cap is [Infinity] *)
Lemma countBelow_turnsAllowed (i n : nat) :
  turnsAllowed (maxIterations config) = Some n ->
  countBelow i (maxIterations config) = true -> i < n.
Proof.
  unfold turnsAllowed, countBelow. destruct (maxIterations config) as [q| | |];
    intros Hn Hi; try discriminate.
  injection Hn as <-. apply negb_true_iff in Hi.
  assert (Hlt : (inject_Z (Z.of_nat i) < q)%Q).
  { apply Qnot_le_lt. intro Hle. apply Qle_bool_iff in Hle. rewrite Hle in Hi.
    discriminate Hi. }
  assert (Hc : (Z.of_nat i < Qceiling q)%Z).
  { apply Z.lt_nge. intro Hge.
    assert (H1 : (q <= inject_Z (Qceiling q))%Q) by apply Qle_ceiling.
    assert (H2 : (inject_Z (Qceiling q) <= inject_Z (Z.of_nat i))%Q).
    { rewrite <- Zle_Qle. exact Hge. }
    apply (Qlt_not_le _ _ Hlt). apply (Qle_trans _ _ _ H1 H2). }
  lia.
Qed.

Lemma correctionLoop_returns (n fuel : nat) (st : LoopState) :
  turnsAllowed (maxIterations config) = Some n ->
  n <= fuel + ls_iterations st ->
  exists final, correctionLoop registry config fuel st = Some final.
Proof.
  intro Hn. revert st. induction fuel as [|fuel IH]; intros st Hle.
  - destruct (loopGoesOn config st) eqn:Hgo.
    + exfalso. unfold loopGoesOn in Hgo. apply andb_prop in Hgo. destruct Hgo as [Hb _].
      pose proof (countBelow_turnsAllowed _ _ Hn Hb). lia.
    + exists st. exact (correctionLoop_stop 0 st Hgo).
  - destruct (loopGoesOn config st) eqn:Hgo.
    + rewrite (correctionLoop_S fuel st Hgo).
      destruct (List.length _ =? 0); [eexists; reflexivity|].
      apply IH. cbn [nextState ls_iterations]. lia.
    + exists st. exact (correctionLoop_stop _ st Hgo).
Qed.

(** *** A second run *)

Hypothesis names : sameForBothNames registry.

Lemma correctionLoop_consistent (fuel : nat) (st final : LoopState) :
  correctionLoop registry config fuel st = Some final ->
  consistent registry st -> consistent registry final.
Proof.
  revert st. induction fuel as [|fuel IH]; intros st Hrun Hst.
  - destruct (loopGoesOn config st) eqn:Hgo.
    + rewrite (correctionLoop_O st Hgo) in Hrun. discriminate Hrun.
    + rewrite (correctionLoop_stop 0 st Hgo) in Hrun. injection Hrun as <-. exact Hst.
  - destruct (loopGoesOn config st) eqn:Hgo.
    + rewrite (correctionLoop_S fuel st Hgo) in Hrun.
      destruct (List.length _ =? 0).
      * injection Hrun as <-. exact Hst.
      * apply (IH _ Hrun). unfold consistent. cbn [nextState allViolations currentContent].
        rewrite applyFixes_remaining. symmetry. apply names.
    + rewrite (correctionLoop_stop _ st Hgo) in Hrun. injection Hrun as <-. exact Hst.
Qed.

(** a first iteration that applies no fix ends the run with nothing applied *)
Lemma correctionLoop_nothing_to_do (fuel : nat) (content : string) (vs vs' : list Violation) :
  map eraseFile vs = map eraseFile vs' ->
  (vs' <> [] -> appliedFixes (applyFixes registry content vs' config) = []) ->
  exists final,
    correctionLoop registry config (S fuel)
      {| ls_iterations := 0; currentContent := content;
         allViolations := vs; ls_history := [] |} = Some final
    /\ flat_map appliedFixes (ls_history final) = []
    /\ List.length (ls_history final) <= 1.
Proof.
  intros Hsame Hnone.
  set (st := {| ls_iterations := 0; currentContent := content;
                allViolations := vs; ls_history := [] |}).
  destruct (loopGoesOn config st) eqn:Hgo.
  - rewrite (correctionLoop_S fuel st Hgo). cbn [st currentContent allViolations].
    rewrite (applyFixes_erase registry content vs vs' config Hsame).
    assert (Hne : vs' <> []).
    { intro E. subst vs'. unfold loopGoesOn in Hgo. apply andb_prop in Hgo.
      destruct Hgo as [_ Hv]. cbn [st allViolations] in Hv.
      destruct vs; [discriminate Hv | discriminate Hsame]. }
    rewrite (Hnone Hne). cbn [List.length Nat.eqb]. eexists. split; [reflexivity|].
    cbn [stuckState st ls_history currentContent allViolations app flat_map List.length].
    rewrite (applyFixes_erase registry content vs vs' config Hsame), (Hnone Hne).
    split; [reflexivity | apply Nat.le_refl].
  - exists st. split; [exact (correctionLoop_stop _ st Hgo)|].
    split; [reflexivity | apply Nat.le_0_l].
Qed.

Lemma second_run_applies_nothing (content : string) (fuel : nat) (r : CorrectionLoopResult) :
  runCorrectionLoop registry content config fuel = Some r ->
  converged r = true ->
  forall fuel',
  exists r2,
    runCorrectionLoop registry (finalContent r) config (S fuel') = Some r2
    /\ allAppliedFixes r2 = []
    /\ List.length (correctionHistory r2) <= 1.
Proof.
  intros Hrun Hconv fuel'. unfold runCorrectionLoop in Hrun.
  set (st0 := {| ls_iterations := 0; currentContent := content;
                 allViolations := validateAll registry "file.ts" content;
                 ls_history := [] |}) in Hrun.
  destruct (correctionLoop registry config fuel st0) as [final|] eqn:Hloop;
    [|discriminate Hrun].
  injection Hrun as <-.
  cbn [finalContent]. unfold converged in Hconv. cbn [finalViolations correctionHistory] in Hconv.
  assert (Hcons : consistent registry final).
  { apply (correctionLoop_consistent fuel st0 final Hloop). reflexivity. }
  destruct (correctionLoop_trace fuel st0 final Hloop)
    as (new & Hhist & _ & _ & _ & Hnil & Hlast & _).
  cbn [ls_history st0 app] in Hhist.
  assert (Hsecond : exists final2,
            correctionLoop registry config (S fuel')
              {| ls_iterations := 0; currentContent := currentContent final;
                 allViolations := validateAll registry "file.ts" (currentContent final);
                 ls_history := [] |} = Some final2
            /\ flat_map appliedFixes (ls_history final2) = []
            /\ List.length (ls_history final2) <= 1).
  { apply orb_true_iff in Hconv. destruct Hconv as [Hdone|Hstuck].
    - (* no violation remains *)
      apply length_zero_nil in Hdone.
      apply (correctionLoop_nothing_to_do fuel' (currentContent final) _ (allViolations final)).
      + symmetry. exact Hcons.
      + intro Hne. contradiction.
    - rewrite Hhist in Hstuck. destruct (rev new) as [|last rest] eqn:Hrev.
      + (* no iteration at all: the second run starts from the same state *)
        assert (Hnew : new = []).
        { rewrite <- (rev_involutive new), Hrev. reflexivity. }
        destruct (Hnil Hnew) as [Hfinal Hwhy]. rewrite Hfinal. cbn [st0 currentContent].
        fold st0. exists st0. split; [exact (correctionLoop_stop _ st0 Hwhy)|].
        split; [reflexivity | apply Nat.le_0_l].
      + (* the last iteration applied no fix *)
        assert (Hnew : new = (rev rest ++ [last])%list).
        { rewrite <- (rev_involutive new), Hrev. reflexivity. }
        apply length_zero_nil in Hstuck.
        destruct (Hlast (rev rest) last Hnew Hstuck) as [Hres _].
        apply (correctionLoop_nothing_to_do fuel' (currentContent final) _
                 (allViolations final)).
        * symmetry. exact Hcons.
        * intros _. rewrite <- Hres. exact Hstuck. }
  destruct Hsecond as (final2 & Hloop2 & Hnone & Hlen).
  unfold runCorrectionLoop. rewrite Hloop2. eexists. split; [reflexivity|].
  split; [exact Hnone | exact Hlen].
Qed.

End CorrectionEngine.

Section Registry.
Import Validators GeneralPractices SelfCorrection ValidatorExamples EngineExamples.

(** *** The registry and the two file names *)

Lemma sameForBothNames_nil : sameForBothNames [].
Proof. intro content. reflexivity. Qed.

Lemma sameForBothNames_cons (n : string) (v : Validator) (rest : list (string * Validator)) :
  (forall content,
      map eraseFile (violations (v (oneFile "file.ts" content)))
      = map eraseFile (violations (v (oneFile "corrected.ts" content)))) ->
  sameForBothNames rest -> sameForBothNames ((n, v) :: rest).
Proof.
  intros Hv Hrest content. unfold validateAll. cbn [flat_map].
  rewrite !map_app. f_equal; [apply Hv | apply Hrest].
Qed.

Lemma validators_sameForBothNames : sameForBothNames validators.
Proof.
  unfold validators.
  apply sameForBothNames_cons; [exact validateSupabaseAuth_names|].
  apply sameForBothNames_cons; [exact validateTenantIsolation_names|].
  apply sameForBothNames_cons; [exact validateAuditLogging_names|].
  apply sameForBothNames_cons; [exact validatePrismaQueries_names|].
  apply sameForBothNames_cons; [exact validateTransactions_names|].
  apply sameForBothNames_cons; [exact validateCodeSafetyPatterns_names|].
  apply sameForBothNames_cons; [exact validateExceptionTypes_names|].
  apply sameForBothNames_cons; [exact validateLogging_names|].
  apply sameForBothNames_cons; [exact validateExternalServicePatterns_names|].
  apply sameForBothNames_cons; [exact validateJobProcessing_names|].
  apply sameForBothNames_cons; [exact validateApiDesign_names|].
  apply sameForBothNames_cons; [exact validateCodeQuality_names|].
  apply sameForBothNames_nil.
Qed.

Lemma sameForBothNames_app (r1 r2 : list (string * Validator)) :
  sameForBothNames r1 -> sameForBothNames r2 -> sameForBothNames (r1 ++ r2).
Proof.
  intros H1 H2 content. unfold validateAll. rewrite !flat_map_app, !map_app.
  f_equal; [apply H1 | apply H2].
Qed.

Lemma validatorsWithGeneral_sameForBothNames : sameForBothNames validatorsWithGeneral.
Proof.
  unfold validatorsWithGeneral. apply sameForBothNames_app.
  - exact validators_sameForBothNames.
  - apply sameForBothNames_cons; [exact validateGeneralPractices_names|].
    apply sameForBothNames_nil.
Qed.

Lemma nth_error_last_split {A : Type} (l : list A) (i : nat) (x : A) :
  nth_error l i = Some x -> S i = List.length l -> l = (firstn i l ++ [x])%list.
Proof.
  revert i. induction l as [|y l IH]; intros i H Hlen.
  - destruct i; discriminate H.
  - destruct i as [|i]; cbn [nth_error] in H.
    + inversion H; subst. destruct l; [reflexivity | discriminate Hlen].
    + cbn [firstn app]. f_equal. apply IH; [exact H|]. cbn [List.length] in Hlen. lia.
Qed.

Lemma In_indexed_from {A : Type} (l : list A) (start i : nat) (x : A) :
  In (i, x) (indexed_from start l) -> exists j, i = start + j /\ nth_error l j = Some x.
Proof.
  revert start. induction l as [|y l IH]; intros start H; [destruct H|].
  cbn [indexed_from] in H. destruct H as [H|H].
  - inversion H; subst. exists 0. split; [lia | reflexivity].
  - destruct (IH (S start) H) as (j & -> & Hj). exists (S j). split; [lia | exact Hj].
Qed.

(** without a throwing check the engine returns *)
Lemma validateGeneralPracticesWith_returns rules ctx :
  ~ checkThrows rules ctx -> exists r, validateGeneralPracticesWith rules ctx = Normal r.
Proof.
  intro Hno.
  assert (H : exists found, runGeneralRules rules ctx = Normal found).
  { unfold runGeneralRules. apply forEachC_normal. intros [fileName content] Hfile.
    apply forEachC_normal. intros [index line] Hline.
    apply forEachC_normal. intros rule Hrule.
    destruct (check rule line (index + 1)
                (buildContext fileName content (Js.lines content) index)) as [v|e] eqn:Hcheck.
    - cbn [bind]. destruct v as [violation|]; [|eexists; reflexivity].
      destruct (rule_severity rule); eexists; reflexivity.
    - exfalso. apply Hno.
      destruct (In_indexed_from (Js.lines content) 0 index line Hline) as (j & Hj & Hnth).
      cbn [Nat.add] in Hj. subst j.
      exists fileName, content, index, line, rule, e.
      split; [exact Hfile|]. split; [exact Hnth|]. split; [exact Hrule | exact Hcheck]. }
  destruct H as [found H]. eexists. unfold validateGeneralPracticesWith. rewrite H. reflexivity.
Qed.

End Registry.
(* ================================================================== *)
(** * Patterns on texts with unknown parts *)
(* ================================================================== *)

Section PatternTheory.
Import Validators RegexNotions.

(** *** Texts *)



Lemma drop_app_length (w rest : string) : drop (String.length w) (w ++ rest) = rest.
Proof. induction w as [|c w IH]; [reflexivity | exact IH]. Qed.


Lemma app_nil_r_string (a : string) : (a ++ "" = a)%string.
Proof. induction a as [|x a IH]; [reflexivity|]. cbn [append]. rewrite IH. reflexivity. Qed.





(** *** The matcher, one construct at a time *)













(** *** A repeated class *)







(** *** Searching *)


Section Need.
Variable r : RegExp.
Variable need : string -> bool.
Hypothesis match_needs :
  forall fuel pv s p, need s = false -> match_at r fuel (MState pv s p []) = None.



End Need.


(** *** Positions in a text with unknown words *)







End PatternTheory.
(* ================================================================== *)
(** * validateTransactions on async methods *)
(* ================================================================== *)

Section TransactionsOnMethods.
Import Validators RegexNotions ValidatorExamples.







(** *** The header of a method *)



(** *** A call on a table *)








(** *** All matches *)








(** *** The end of a function body *)






(** *** A file that is one async method *)





(** *** Two writes *)




















(** *** The verdicts *)



End TransactionsOnMethods.

(* ================================================================== *)
(** * Scoring and gating: the claims *)
(* ================================================================== *)

Section GatingClaims.
Import MetricsConfig Spec GatingExamples.

(** C1.  [evaluateGating] checks its conditions in a fixed order and the
    first failing check determines the reason: (1) too many blockers: the
    reason is the blocker count and the maximum, as "N blocking violations
    (max: M)"; (2) too many warnings: the warning count and the maximum, as
    "N warnings (max: M)"; (3) a blocking metric below its fail threshold: the
    first such metric of the catalogue is named, with its score and its
    threshold in percent; (4) the aggregate score below the minimum: the
    aggregate and the minimum in percent; (5) otherwise pass, without a
    reason.  The result depends on the scores only through the lookups, so
    equal inputs give the same reason. *)
Theorem C1_evaluateGating_first_failing_check
        (config : GatingConfig) (scores : JsMap Q) (blockerCount warningCount : Z) :
  let result := evaluateGating scores blockerCount warningCount config in
  (blockersExceeded config blockerCount ->
   passed result = false
   /\ reason result
      = Some (string_of_Z blockerCount ++ " blocking violations (max: "
                ++ string_of_Z (maxBlockers config) ++ ")"))
  /\ (~ blockersExceeded config blockerCount -> warningsExceeded config warningCount ->
      passed result = false
      /\ reason result
         = Some (string_of_Z warningCount ++ " warnings (max: "
                   ++ string_of_Z (maxWarnings config) ++ ")"))
  /\ (~ blockersExceeded config blockerCount -> ~ warningsExceeded config warningCount ->
      (exists m s, In m METRIC_DEFINITIONS /\ failsThreshold scores m s) ->
      exists m s,
        firstFailing scores m s
        /\ passed result = false
        /\ reason result
           = Some ("Blocking metric " ++ displayName m ++ " score "
                     ++ toFixed1 (s * 100) ++ "% below threshold "
                     ++ toFixed1 (fail (thresholds m) * 100) ++ "%"))
  /\ (~ blockersExceeded config blockerCount -> ~ warningsExceeded config warningCount ->
      noneFailing scores ->
      (calculateWeightedScore scores < minimumScore config)%Q ->
      passed result = false
      /\ reason result
         = Some ("Total score " ++ toFixed1 (calculateWeightedScore scores * 100)
                   ++ "% below minimum " ++ toFixed1 (minimumScore config * 100) ++ "%"))
  /\ (~ blockersExceeded config blockerCount -> ~ warningsExceeded config warningCount ->
      noneFailing scores ->
      ~ (calculateWeightedScore scores < minimumScore config)%Q ->
      passed result = true /\ reason result = None)
  /\ (forall scores',
        (forall k, Map_get scores' k = Map_get scores k) ->
        evaluateGating scores' blockerCount warningCount config = result).
Proof.
  intro result. subst result.
  split; [intro Hb; rewrite (evaluateGating_blockers _ _ _ _ Hb); split; reflexivity|].
  split; [intros Hb Hw; rewrite (evaluateGating_warnings _ _ _ _ Hb Hw); split; reflexivity|].
  split.
  { intros Hb Hw Hsome.
    destruct (evaluateGating_metric _ _ _ _ Hb Hw Hsome) as (m & s & Hfirst & Hr).
    exists m, s. rewrite Hr. split; [exact Hfirst|]. split; reflexivity. }
  split; [|split].
  - intros Hb Hw Hnone Hlt. rewrite (evaluateGating_total _ _ _ _ Hb Hw Hnone).
    apply Qlt_bool_iff in Hlt. rewrite Hlt. split; reflexivity.
  - intros Hb Hw Hnone Hlt. rewrite (evaluateGating_total _ _ _ _ Hb Hw Hnone).
    apply Qlt_bool_false_iff in Hlt. rewrite Hlt. split; reflexivity.
  - intros scores' Hext. apply evaluateGating_ext. exact Hext.
Qed.

(** Three blockers under the default policy: the blocker gate answers with
    the count, though the authentication metric is below its threshold too.
    Without blockers, the same scores are answered by the metric gate. *)
Lemma C1_witness :
  (blockersExceeded DEFAULT_GATING_CONFIG 3
   /\ evaluateGating authOnly 3 0 DEFAULT_GATING_CONFIG
      = failed "3 blocking violations (max: 0)")
  /\ (warningsExceeded STRICT_GATING_CONFIG 2
      /\ evaluateGating authOnly 0 2 STRICT_GATING_CONFIG = failed "2 warnings (max: 0)")
  /\ exists m s,
       firstFailing authOnly m s
       /\ reason (evaluateGating authOnly 0 0 DEFAULT_GATING_CONFIG)
          = Some "Blocking metric Supabase Auth Compliance score 80.0% below threshold 90.0%".
Proof.
  assert (Hb : blockersExceeded DEFAULT_GATING_CONFIG 3) by (split; reflexivity).
  assert (Hw : warningsExceeded STRICT_GATING_CONFIG 2) by (split; reflexivity).
  assert (Hnb : forall config, maxBlockers config = 0%Z -> ~ blockersExceeded config 0).
  { intros config H0 [_ H]. rewrite H0 in H. discriminate H. }
  assert (Hnw : ~ warningsExceeded DEFAULT_GATING_CONFIG 0) by (intros [H _]; discriminate H).
  split; [|split].
  - split; [exact Hb|].
    destruct (proj1 (C1_evaluateGating_first_failing_check
                       DEFAULT_GATING_CONFIG authOnly 3 0) Hb) as [Hp Hr].
    destruct (evaluateGating authOnly 3 0 DEFAULT_GATING_CONFIG) as [p r].
    cbn [passed reason] in Hp, Hr. rewrite Hp, Hr. reflexivity.
  - split; [exact Hw|].
    destruct (proj1 (proj2 (C1_evaluateGating_first_failing_check
                              STRICT_GATING_CONFIG authOnly 0 2))
                (Hnb STRICT_GATING_CONFIG eq_refl) Hw) as [Hp Hr].
    destruct (evaluateGating authOnly 0 2 STRICT_GATING_CONFIG) as [p r].
    cbn [passed reason] in Hp, Hr. rewrite Hp, Hr. reflexivity.
  - assert (Hsome : exists m s, In m METRIC_DEFINITIONS /\ failsThreshold authOnly m s).
    { eexists. exists 0.8%Q. split; [left; reflexivity|]. repeat split. }
    destruct (proj1 (proj2 (proj2 (C1_evaluateGating_first_failing_check
                                     DEFAULT_GATING_CONFIG authOnly 0 0)))
                (Hnb DEFAULT_GATING_CONFIG eq_refl) Hnw Hsome) as (m & s & Hfirst & _ & Hr).
    exists m, s. split; [exact Hfirst|]. rewrite Hr.
    destruct Hfirst as (earlier & later & Hsplit & (_ & Hget & _) & Hnone).
    destruct earlier as [|e earlier].
    + cbn in Hsplit. injection Hsplit as <- _. cbn in Hget. injection Hget as <-.
      reflexivity.
    + exfalso. cbn in Hsplit. injection Hsplit as <- _.
      apply (Hnone _ 0.8%Q (or_introl eq_refl)). repeat split.
Defined.

(** C2, as stated, fails on the map without scores: no category is present,
    both sums are empty, and the function returns 1.0, which is not the
    quotient of the two sums. *)
Lemma C2_counterexample :
  presentMetrics noScores = []
  /\ (sigma weight (presentMetrics noScores) == 0)%Q
  /\ calculateWeightedScore noScores = 1.0%Q
  /\ ~ (calculateWeightedScore noScores == weightedAverage noScores)%Q.
Proof.
  split; [reflexivity|]. split; [reflexivity|]. split; [reflexivity|].
  intro H. vm_compute in H. discriminate H.
Qed.

(** C2, amended.  When at least one category of the catalogue has a score in
    the map, [calculateWeightedScore] returns the sum of [score * weight]
    divided by the sum of [weight] over exactly the categories present; when
    none has, it returns 1.0.  The result does not depend on the order in
    which the scores were inserted into the map. *)
Theorem C2_calculateWeightedScore_weighted_average :
  (forall scores : JsMap Q,
      (presentMetrics scores <> [] ->
       (calculateWeightedScore scores == weightedAverage scores)%Q)
      /\ (presentMetrics scores = [] -> calculateWeightedScore scores = 1.0%Q))
  /\ (forall entries1 entries2 : list (string * Q),
         NoDup (map fst entries1) -> Permutation entries1 entries2 ->
         calculateWeightedScore (Map_of entries1) = calculateWeightedScore (Map_of entries2)).
Proof.
  split.
  - intro scores. destruct (calculateWeightedScore_cases scores) as [H1 H2].
    split; assumption.
  - intros entries1 entries2 Hnd Hp. apply calculateWeightedScore_ext.
    intro k. apply Map_of_perm_get; assumption.
Qed.

(** Two scores inserted in either order. *)
Lemma C2_witness :
  (calculateWeightedScore (Map_of twoScores) == weightedAverage (Map_of twoScores))%Q
  /\ calculateWeightedScore (Map_of twoScores) = calculateWeightedScore (Map_of (rev twoScores)).
Proof.
  split.
  - apply (proj1 C2_calculateWeightedScore_weighted_average (Map_of twoScores)).
    vm_compute. discriminate.
  - apply (proj2 C2_calculateWeightedScore_weighted_average twoScores (rev twoScores)).
    + repeat constructor; simpl; intuition discriminate.
    + apply Permutation_rev.
Defined.

(** C7, as stated, fails when the aggregate of 0.80 comes with a blocking
    metric below its own fail threshold: the third gate answers before the
    aggregate is looked at, and the reason gives that metric's score against
    its threshold. *)
Lemma C7_counterexample :
  (calculateWeightedScore authBelowThreshold == 0.8)%Q
  /\ evaluateGating authBelowThreshold 0 0 DEFAULT_GATING_CONFIG
     = failed "Blocking metric Supabase Auth Compliance score 60.0% below threshold 90.0%"
  /\ reason (evaluateGating authBelowThreshold 0 0 DEFAULT_GATING_CONFIG)
     <> Some (totalReason (calculateWeightedScore authBelowThreshold) DEFAULT_GATING_CONFIG).
Proof.
  split; [vm_compute; reflexivity|].
  split; [vm_compute; reflexivity|].
  vm_compute. discriminate.
Qed.

(** C7, amended.  Under the default policy (minimum score 0.85) and without
    blockers, a map of scores whose aggregate is 0.80 never passes and never
    gets a blocker-count reason; when no blocking metric is below its fail
    threshold the reason is the aggregate score against the minimum, and
    otherwise it names the first blocking metric that fails. *)
Theorem C7_aggregate_below_minimum (scores : JsMap Q) (warningCount : Z) :
  (calculateWeightedScore scores == 0.8)%Q ->
  let result := evaluateGating scores 0 warningCount DEFAULT_GATING_CONFIG in
  passed result = false
  /\ reason result <> Some (blockerReason 0 DEFAULT_GATING_CONFIG)
  /\ (noneFailing scores ->
      result = failed (totalReason (calculateWeightedScore scores) DEFAULT_GATING_CONFIG)
      /\ reason result = Some "Total score 80.0% below minimum 85.0%")
  /\ ((exists m s, In m METRIC_DEFINITIONS /\ failsThreshold scores m s) ->
      exists m s, firstFailing scores m s /\ result = failed (metricReason m s)).
Proof.
  intros Hagg result.
  assert (Hb : ~ blockersExceeded DEFAULT_GATING_CONFIG 0).
  { intros [_ H]. simpl in H. lia. }
  assert (Hw : ~ warningsExceeded DEFAULT_GATING_CONFIG warningCount).
  { intros [H _]. discriminate H. }
  assert (Hlt : Qlt_bool (calculateWeightedScore scores) (minimumScore DEFAULT_GATING_CONFIG) = true).
  { apply Qlt_bool_iff. rewrite Hagg. reflexivity. }
  assert (Htotal : noneFailing scores ->
            result = failed (totalReason (calculateWeightedScore scores) DEFAULT_GATING_CONFIG)).
  { intro Hnone. subst result. rewrite (evaluateGating_total _ _ _ _ Hb Hw Hnone), Hlt.
    reflexivity. }
  assert (Hmetric : (exists m s, In m METRIC_DEFINITIONS /\ failsThreshold scores m s) ->
            exists m s, firstFailing scores m s /\ result = failed (metricReason m s)).
  { apply evaluateGating_metric; assumption. }
  assert (Hcases : noneFailing scores
                   \/ exists m s, In m METRIC_DEFINITIONS /\ failsThreshold scores m s).
  { pose proof (checkBlockingMetrics_spec scores METRIC_DEFINITIONS) as Hspec.
    destruct (checkBlockingMetrics scores (filter (fun m => blockOnFail m) METRIC_DEFINITIONS)).
    - right. destruct Hspec as (earlier & m & later & s & Hl & Hf & _).
      exists m, s. split; [|exact Hf]. rewrite Hl. apply in_or_app. right. left. reflexivity.
    - left. exact Hspec. }
  split; [|split; [|split]].
  - destruct Hcases as [Hnone|Hsome].
    + rewrite (Htotal Hnone). reflexivity.
    + destruct (Hmetric Hsome) as (m & s & _ & Hr). rewrite Hr. reflexivity.
  - destruct Hcases as [Hnone|Hsome].
    + rewrite (Htotal Hnone). discriminate.
    + destruct (Hmetric Hsome) as (m & s & _ & Hr). rewrite Hr. discriminate.
  - intro Hnone. split; [exact (Htotal Hnone)|].
    rewrite (Htotal Hnone). unfold failed, totalReason. cbn [reason]. f_equal.
    rewrite (toFixed1_comp (calculateWeightedScore scores * 100) 80).
    + reflexivity.
    + rewrite Hagg. reflexivity.
  - exact Hmetric.
Qed.

(** The transactions category alone at 0.8: its threshold is 0.8, so no
    blocking metric fails and the aggregate decides. *)
Lemma C7_witness :
  (calculateWeightedScore transactionsOnly == 0.8)%Q
  /\ passed (evaluateGating transactionsOnly 0 0 DEFAULT_GATING_CONFIG) = false
  /\ reason (evaluateGating transactionsOnly 0 0 DEFAULT_GATING_CONFIG)
     <> Some (blockerReason 0 DEFAULT_GATING_CONFIG).
Proof.
  assert (H : (calculateWeightedScore transactionsOnly == 0.8)%Q) by (vm_compute; reflexivity).
  split; [exact H|].
  pose proof (C7_aggregate_below_minimum transactionsOnly 0 H) as (Hp & Hr & _).
  split; [exact Hp | exact Hr].
Defined.

(** C10.  A map with no score for any metric of the catalogue has the
    weighted score 1.0 exactly, and passes the default gate when there are no
    blockers and no warnings. *)
Theorem C10_no_scores_pass (scores : JsMap Q) :
  (forall m, In m METRIC_DEFINITIONS -> Map_get scores (name m) = None) ->
  calculateWeightedScore scores = 1.0%Q
  /\ evaluateGating scores 0 0 DEFAULT_GATING_CONFIG = {| passed := true; reason := None |}.
Proof.
  intro Hnone.
  assert (Hempty : presentMetrics scores = []).
  { unfold presentMetrics.
    assert (H : forall l, incl l METRIC_DEFINITIONS ->
                          filter (fun m => Map_has scores (name m)) l = []).
    { induction l as [|m l IH]; intro Hincl; [reflexivity|].
      cbn [filter]. unfold Map_has at 1. rewrite (Hnone m (Hincl m (or_introl eq_refl))).
      apply IH. intros x Hx. apply Hincl. right. exact Hx. }
    apply H. apply incl_refl. }
  assert (Hscore : calculateWeightedScore scores = 1.0%Q).
  { apply (proj1 (calculateWeightedScore_cases scores)). exact Hempty. }
  split; [exact Hscore|].
  rewrite evaluateGating_total.
  - rewrite Hscore. reflexivity.
  - intros [_ H]. simpl in H. lia.
  - intros [H _]. discriminate H.
  - intros m s Hin (_ & Hget & _). rewrite (Hnone m Hin) in Hget. discriminate Hget.
Qed.

(** The empty map. *)
Lemma C10_witness :
  calculateWeightedScore noScores = 1.0%Q
  /\ evaluateGating noScores 0 0 DEFAULT_GATING_CONFIG = {| passed := true; reason := None |}.
Proof.
  apply (C10_no_scores_pass noScores). intros m _. reflexivity.
Defined.

End GatingClaims.

(* ================================================================== *)
(** * Validators: the claims *)
(* ================================================================== *)

Section ValidatorClaims.
Import Validators GeneralPractices Spec ValidatorExamples RegexNotions.

(** C3.  Every validator of the registry, [validateGeneralPractices]
    included, returns a score between 0 and 1 on every context. *)
Theorem C3_scores_in_unit_range (entry : string * Validator) (ctx : ValidationContext) :
  In entry validatorsWithGeneral ->
  (0 <= score (snd entry ctx))%Q /\ (score (snd entry ctx) <= 1)%Q.
Proof.
  unfold validatorsWithGeneral, validators. cbn [app In].
  intro H.
  destruct H as [<-|H]; [exact (validateSupabaseAuth_score ctx)|].
  destruct H as [<-|H]; [exact (validateTenantIsolation_score ctx)|].
  destruct H as [<-|H]; [exact (validateAuditLogging_score ctx)|].
  destruct H as [<-|H]; [exact (validatePrismaQueries_score ctx)|].
  destruct H as [<-|H]; [exact (validateTransactions_score ctx)|].
  destruct H as [<-|H]; [exact (validateCodeSafetyPatterns_score ctx)|].
  destruct H as [<-|H]; [exact (validateExceptionTypes_score ctx)|].
  destruct H as [<-|H]; [exact (validateLogging_score ctx)|].
  destruct H as [<-|H]; [exact (validateExternalServicePatterns_score ctx)|].
  destruct H as [<-|H]; [exact (validateJobProcessing_score ctx)|].
  destruct H as [<-|H]; [exact (validateApiDesign_score ctx)|].
  destruct H as [<-|H]; [exact (validateCodeQuality_score ctx)|].
  destruct H as [<-|H]; [exact (validateGeneralPractices_score ctx)|].
  destruct H.
Qed.

(** The transactions validator on the failing scenario scores 0.8. *)
Lemma C3_witness :
  (0 <= score (validateTransactions (oneFile "roleplay.service.ts" multiTableWrite)))%Q
  /\ (score (validateTransactions (oneFile "roleplay.service.ts" multiTableWrite)) <= 1)%Q.
Proof.
  apply (C3_scores_in_unit_range ("transactions", validateTransactions)).
  unfold validatorsWithGeneral, validators. cbn [app In]. do 4 right. left. reflexivity.
Defined.




(** *** Service files, line by line *)

(** what the two counting tests and the log tests say of each kind of line *)
Lemma lineText_tests (l : ServiceLine) :
  (forall ex, l = throwsNest ex -> In ex nestExceptions) ->
  throwsNestException (lineText l) = isNestThrow l
  /\ throwsGenericError (lineText l) = isGenericThrow l
  /\ test (re "logger\.(log|debug|error|warn)\(") (lineText l)
     = match l with logsToken => true | _ => false end
  /\ (l = logsToken ->
      test (rei "password|secret|token|apiKey|api_key|jwt") (lineText l) = true)
  /\ forall rest, split LF (lineText l ++ String LF rest) = lineText l :: split LF rest.
Proof.
  intro Hknown. destruct l as [ex| | |].
  - specialize (Hknown ex eq_refl). cbn [nestExceptions In] in Hknown.
    repeat (destruct Hknown as [<-|Hknown];
            [split; [vm_compute; reflexivity|]; split; [vm_compute; reflexivity|];
             split; [vm_compute; reflexivity|]; split; [intro H; discriminate H|];
             intro rest; reflexivity|]).
    destruct Hknown.
  - split; [vm_compute; reflexivity|]. split; [vm_compute; reflexivity|].
    split; [vm_compute; reflexivity|]. split; [intro H; discriminate H|].
    intro rest. reflexivity.
  - split; [vm_compute; reflexivity|]. split; [vm_compute; reflexivity|].
    split; [vm_compute; reflexivity|]. split; [intros _; vm_compute; reflexivity|].
    intro rest. reflexivity.
  - split; [vm_compute; reflexivity|]. split; [vm_compute; reflexivity|].
    split; [vm_compute; reflexivity|]. split; [intro H; discriminate H|].
    intro rest. reflexivity.
Qed.

Lemma lineText_alone (l : ServiceLine) :
  (forall ex, l = throwsNest ex -> In ex nestExceptions) ->
  split LF (lineText l) = [lineText l].
Proof.
  intro Hknown. destruct l as [ex| | |]; try reflexivity.
  specialize (Hknown ex eq_refl). cbn [nestExceptions In] in Hknown.
  repeat (destruct Hknown as [<-|Hknown]; [reflexivity|]). destruct Hknown.
Qed.

Lemma knownExceptions_cons (l : ServiceLine) (ls : list ServiceLine) :
  knownExceptions (l :: ls) ->
  (forall ex, l = throwsNest ex -> In ex nestExceptions) /\ knownExceptions ls.
Proof.
  intro H. split.
  - intros ex ->. apply H. left. reflexivity.
  - intros ex Hex. apply H. right. exact Hex.
Qed.

(** the lines of a service file are the texts of its lines *)
Lemma lines_serviceFile (l : ServiceLine) (ls : list ServiceLine) :
  knownExceptions (l :: ls) ->
  Js.lines (serviceFile (l :: ls)) = map lineText (l :: ls).
Proof.
  revert l. induction ls as [|l' ls IH]; intros l Hknown;
    destruct (knownExceptions_cons _ _ Hknown) as [Hl Hls].
  - exact (lineText_alone l Hl).
  - unfold serviceFile, Js.lines.
    change (join nl (map lineText (l :: l' :: ls)))
      with (lineText l ++ String LF (join nl (map lineText (l' :: ls))))%string.
    rewrite (proj2 (proj2 (proj2 (proj2 (lineText_tests l Hl))))).
    change (split LF (join nl (map lineText (l' :: ls))))
      with (Js.lines (serviceFile (l' :: ls))).
    rewrite (IH l' Hls). reflexivity.
Qed.

Lemma serviceFile_counts (ls : list ServiceLine) :
  knownExceptions ls ->
  List.length (filter throwsNestException (map lineText ls)) = nestThrows ls
  /\ List.length (filter throwsGenericError (map lineText ls)) = genericThrows ls.
Proof.
  unfold nestThrows, genericThrows.
  induction ls as [|l ls IH]; intro Hknown; [split; reflexivity|].
  destruct (knownExceptions_cons _ _ Hknown) as [Hl Hls].
  destruct (lineText_tests l Hl) as (Hn & Hg & _).
  destruct (IH Hls) as [IHn IHg].
  cbn [map filter]. rewrite Hn, Hg.
  split; [destruct (isNestThrow l) | destruct (isGenericThrow l)];
    cbn [List.length]; congruence.
Qed.

(** the two counters of the validator on a service file *)
Lemma validateExceptionTypes_counts (file : string) (ls : list ServiceLine) :
  knownExceptions ls ->
  nestExceptionCount (oneFile file (serviceFile ls)) = nestThrows ls
  /\ genericErrorCount (oneFile file (serviceFile ls)) = genericThrows ls.
Proof.
  intro Hknown. unfold nestExceptionCount, genericErrorCount, allLines, oneFile.
  cbn [fileContents flat_map]. rewrite app_nil_r.
  destruct ls as [|l ls]; [split; reflexivity|].
  rewrite (lines_serviceFile l ls Hknown). exact (serviceFile_counts (l :: ls) Hknown).
Qed.

(** nine of ten is the least ratio that passes *)
Lemma ratio_at_least_nine_tenths (n m : nat) :
  n + m <> 0 ->
  (Qle_bool 0.9 (num n / num (n + m)) = true <-> 9 * (n + m) <= 10 * n).
Proof.
  intro Hne. unfold num.
  assert (Hpos : (0 < inject_Z (Z.of_nat (n + m)))%Q).
  { change 0%Q with (inject_Z 0). rewrite <- Zlt_Qlt. lia. }
  rewrite Qle_bool_iff. split.
  - intro H. apply (Qmult_le_compat_r _ _ (inject_Z (Z.of_nat (n + m)))) in H;
      [|apply Qlt_le_weak; exact Hpos].
    unfold Qdiv in H. rewrite <- Qmult_assoc, (Qmult_comm (/ _)), Qmult_inv_r, Qmult_1_r in H;
      [|intro E; rewrite E in Hpos; discriminate Hpos].
    unfold Qle in H. cbn -[Z.mul Z.of_nat] in H. lia.
  - intro H. apply Qle_shift_div_l; [exact Hpos|].
    unfold Qle. cbn -[Z.mul Z.of_nat]. lia.
Qed.

(** C9.  [validateExceptionTypes] computes [passed] from the ratio of NestJS
    exception throws to all throws alone: on every context [passed] says
    whether the score is at least 0.9, and without a generic throw the result
    is the score 1 and a pass.  On a service file whose lines throw [n]
    NestJS exceptions and [m] generic errors, in any order and among other
    lines, the score is [n / (n + m)] (1 when nothing is thrown) and the file
    passes exactly when at least nine throws in ten are NestJS exceptions,
    whatever violations are reported: a logged token is reported as a
    critical INV-LOG-SENSITIVE violation, yet a file that logs a token and
    has no generic throw gets the score 1 and passes. *)
Theorem C9_exception_types_passed_by_ratio
        (ctx : ValidationContext) (file : string) (ls : list ServiceLine) :
  (passed (validateExceptionTypes ctx) = true
   <-> (0.9 <= score (validateExceptionTypes ctx))%Q)
  /\ ((forall l, In l (allLines ctx) -> throwsGenericError l = false) ->
      (score (validateExceptionTypes ctx) == 1)%Q
      /\ passed (validateExceptionTypes ctx) = true)
  /\ (knownExceptions ls ->
      let result := validateExceptionTypes (oneFile file (serviceFile ls)) in
      let n := nestThrows ls in
      let m := genericThrows ls in
      (n + m = 0 -> score result = 1%Q /\ passed result = true)
      /\ (n + m <> 0 ->
          score result = (num n / num (n + m))%Q
          /\ (passed result = true <-> 9 * (n + m) <= 10 * n))
      /\ (m = 0 -> (score result == 1)%Q /\ passed result = true)
      /\ (In logsToken ls ->
          exists v, In v (violations result)
                    /\ rule v = "INV-LOG-SENSITIVE" /\ severity v = critical)).
Proof.
  assert (Hgeneral : forall ctx,
            (forall l, In l (allLines ctx) -> throwsGenericError l = false) ->
            (score (validateExceptionTypes ctx) == 1)%Q
            /\ passed (validateExceptionTypes ctx) = true).
  { intros ctx0 Hnone.
    assert (Hscore : score (validateExceptionTypes ctx0) =
                     if nestExceptionCount ctx0 + genericErrorCount ctx0 =? 0 then 1%Q
                     else (num (nestExceptionCount ctx0)
                           / num (nestExceptionCount ctx0 + genericErrorCount ctx0))%Q)
      by reflexivity.
    assert (Hone : (score (validateExceptionTypes ctx0) == 1)%Q).
    { rewrite Hscore. rewrite (genericErrorCount_zero ctx0 Hnone), Nat.add_0_r.
      destruct (nestExceptionCount ctx0 =? 0) eqn:E; [reflexivity|].
      apply num_ratio_one. apply Nat.eqb_neq. exact E. }
    split; [exact Hone|].
    change (passed (validateExceptionTypes ctx0))
      with (Qle_bool 0.9 (score (validateExceptionTypes ctx0))).
    apply Qle_bool_iff. rewrite Hone. discriminate. }
  split; [|split].
  - change (passed (validateExceptionTypes ctx))
      with (Qle_bool 0.9 (score (validateExceptionTypes ctx))).
    apply Qle_bool_iff.
  - exact (Hgeneral ctx).
  - intros Hknown result n m.
    destruct (validateExceptionTypes_counts file ls Hknown) as [Hn Hm].
    assert (Hscore : score result =
                     if n + m =? 0 then 1%Q else (num n / num (n + m))%Q).
    { unfold result, validateExceptionTypes. cbv zeta. cbn [score].
      rewrite Hn, Hm. reflexivity. }
    assert (Hpassed : passed result = Qle_bool 0.9 (score result)) by reflexivity.
    split; [|split; [|split]].
    + intro H0. rewrite Hpassed, Hscore, H0. split; reflexivity.
    + intro Hne. assert (E : (n + m =? 0) = false) by (apply Nat.eqb_neq; exact Hne).
      rewrite Hpassed, Hscore, E. split; [reflexivity|].
      apply ratio_at_least_nine_tenths. exact Hne.
    + intro H0. rewrite Hpassed, Hscore, H0, Nat.add_0_r.
      destruct (n =? 0) eqn:E; [split; reflexivity|].
      assert (Hone : (num n / num n == 1)%Q)
        by (apply num_ratio_one; apply Nat.eqb_neq; exact E).
      split; [exact Hone|]. apply Qle_bool_iff. rewrite Hone. discriminate.
    + intro Hin.
      destruct ls as [|l0 ls0]; [destruct Hin|].
      apply In_nth_error in Hin. destruct Hin as [i Hi].
      exists (mkViolation file (i + 1) "INV-LOG-SENSITIVE"
                "Potential sensitive data in log statement." critical None).
      split; [|split; reflexivity].
      unfold result, validateExceptionTypes. cbv zeta. cbn [violations].
      unfold validateExceptionTypes_scan, oneFile. cbn [fileContents forEach].
      rewrite (lines_serviceFile l0 ls0 Hknown).
      unfold andThen at 1. cbn [found_violations]. rewrite app_nil_r.
      rewrite forEach_violations. apply in_flat_map.
      exists (i, lineText logsToken). split.
      * apply (indexed_from_In (map lineText (l0 :: ls0)) 0 i).
        rewrite nth_error_map, Hi. reflexivity.
      * assert (Hl : forall ex, logsToken = throwsNest ex -> In ex nestExceptions)
          by (intros ex H; discriminate H).
        destruct (lineText_tests logsToken Hl) as (_ & Hg & Hlog & Hsens & _).
        cbv beta iota. rewrite Hg, Hlog, (Hsens eq_refl).
        cbn [isGenericThrow]. unfold andThen. cbn [found_violations nothing pushViolation app].
        destruct (test (re "console\.(log|debug|error|warn|info)\(") (lineText logsToken));
          cbn [found_violations pushViolation nothing app]; [right|]; left; reflexivity.
Qed.

(** Nine NestJS throws, one generic throw and a logged token: the ratio is
    0.9 and the file passes, with its critical violation.  Eight NestJS throws
    and one generic throw: the ratio is below 0.9 and the file fails. *)
Lemma C9_witness :
  (knownExceptions nineOfTen
   /\ (score (validateExceptionTypes (oneFile "users.service.ts" (serviceFile nineOfTen)))
       == 0.9)%Q
   /\ passed (validateExceptionTypes (oneFile "users.service.ts" (serviceFile nineOfTen)))
      = true
   /\ exists v,
        In v (violations
                (validateExceptionTypes (oneFile "users.service.ts" (serviceFile nineOfTen))))
        /\ rule v = "INV-LOG-SENSITIVE" /\ severity v = critical)
  /\ (knownExceptions eightOfNine
      /\ passed (validateExceptionTypes
                   (oneFile "users.service.ts" (serviceFile eightOfNine))) = false).
Proof.
  assert (Hknown : forall ls,
            forallb (fun l => match l with
                              | throwsNest ex => mem ex nestExceptions
                              | _ => true
                              end) ls = true -> knownExceptions ls).
  { intros ls H ex Hex. rewrite forallb_forall in H. specialize (H _ Hex). cbv beta iota in H.
    unfold mem in H. apply existsb_exists in H. destruct H as (x & Hx & E).
    apply String.eqb_eq in E. subst x. exact Hx. }
  assert (K10 : knownExceptions nineOfTen) by (apply Hknown; reflexivity).
  assert (K9 : knownExceptions eightOfNine) by (apply Hknown; reflexivity).
  split.
  - split; [exact K10|].
    destruct (proj2 (proj2 (C9_exception_types_passed_by_ratio
                              (oneFile "a.ts" "") "users.service.ts" nineOfTen)) K10)
      as (_ & Hratio & _ & Hlog).
    assert (Hne : nestThrows nineOfTen + genericThrows nineOfTen <> 0) by discriminate.
    destruct (Hratio Hne) as [Hscore Hpass].
    split; [rewrite Hscore; reflexivity|].
    split; [apply (proj2 Hpass); cbn; lia|].
    apply Hlog. do 9 right. left. reflexivity.
  - split; [exact K9|].
    destruct (proj2 (proj2 (C9_exception_types_passed_by_ratio
                              (oneFile "a.ts" "") "users.service.ts" eightOfNine)) K9)
      as (_ & Hratio & _).
    assert (Hne : nestThrows eightOfNine + genericThrows eightOfNine <> 0) by discriminate.
    destruct (Hratio Hne) as [_ Hpass].
    destruct (passed _); [|reflexivity].
    exfalso. assert (H : 9 * (8 + 1) <= 10 * 8) by (apply Hpass; reflexivity). lia.
Defined.

End ValidatorClaims.

(* ================================================================== *)
(** * The rule engine and the correction loop: the claims *)
(* ================================================================== *)

Section EngineClaims.
Import Validators GeneralPractices SelfCorrection ValidatorExamples EngineExamples.

(** C4, as stated, fails when the first run stops at the iteration cap.  With
    one iteration allowed, the first run adds an [orderBy] clause, which
    pushes the mention of [deleted_at] out of the look-ahead window of the
    [findFirst] above it; the second run on the result then finds a
    soft-delete violation and applies the [deleted_at] fix. *)
Lemma C4_counterexample :
  exists r r2,
    runCorrectionLoop validators shiftingWindow oneIteration 1 = Some r
    /\ iterations r = 1
    /\ map af_rule (allAppliedFixes r) = ["INV-PRISMA-ORDERBY"]
    /\ runCorrectionLoop validators (finalContent r) oneIteration 1 = Some r2
    /\ map af_rule (allAppliedFixes r2) = ["INV-PRISMA-SOFT-DELETE"].
Proof.
  eexists. eexists.
  split; [vm_compute; reflexivity|].
  split; [reflexivity|]. split; [vm_compute; reflexivity|].
  split; [vm_compute; reflexivity|]. vm_compute. reflexivity.
Qed.

(** C4, amended.  When a run of the correction loop converged, that is, it
    ended with no violation left or with an iteration that applied no fix (or
    without any iteration), and not at the iteration cap with work left, a
    second run with the same configuration on its final content records no
    [AppliedFix]: it performs no iteration, or its first [applyFixes] call
    applies nothing.  The first run is any run that returned; the second
    returns within its first turn. *)
Theorem C4_second_run_after_convergence
        (registry : list (string * Validator)) (content : string) (config : CorrectionConfig)
        (fuel : nat) (r : CorrectionLoopResult) :
  registry = validators \/ registry = validatorsWithGeneral ->
  runCorrectionLoop registry content config fuel = Some r ->
  converged r = true ->
  forall fuel',
  exists r2,
    runCorrectionLoop registry (finalContent r) config (S fuel') = Some r2
    /\ allAppliedFixes r2 = []
    /\ List.length (correctionHistory r2) <= 1.
Proof.
  intros Hreg Hrun Hconv fuel'.
  assert (Hnames : sameForBothNames registry).
  { destruct Hreg as [->| ->];
      [exact validators_sameForBothNames | exact validatorsWithGeneral_sameForBothNames]. }
  exact (second_run_applies_nothing registry config Hnames content fuel r Hrun Hconv fuel').
Qed.

(** A [console.info] call is reported but matched by no fix pattern: the
    first run stops after one iteration without a fix, and so does the
    second. *)
Lemma C4_witness :
  exists r r2,
    runCorrectionLoop validators unfixable defaultConfig 3 = Some r
    /\ converged r = true
    /\ runCorrectionLoop validators (finalContent r) defaultConfig 3 = Some r2
    /\ allAppliedFixes r2 = [].
Proof.
  destruct (runCorrectionLoop validators unfixable defaultConfig 3) as [r|] eqn:Hrun;
    [|vm_compute in Hrun; discriminate Hrun].
  assert (H : converged r = true).
  { assert (Hc : option_map converged (runCorrectionLoop validators unfixable defaultConfig 3)
                 = Some true) by (vm_compute; reflexivity).
    rewrite Hrun in Hc. injection Hc as Hc. exact Hc. }
  destruct (C4_second_run_after_convergence validators unfixable defaultConfig 3 r
              (or_introl eq_refl) Hrun H 2) as (r2 & Hrun2 & Hnone & _).
  exists r, r2. split; [reflexivity|]. split; [exact H|]. split; [exact Hrun2 | exact Hnone].
Defined.

(** C5, as stated, fails for a cap that is not a whole number: the test
    [iterations < maxIterations] lets a turn start whenever the counter is
    below the cap, so with [maxIterations = 0.5] the loop performs one
    iteration, and 1 is not at most 0.5. *)
Lemma C5_counterexample :
  (0 <= 0.5)%Q
  /\ exists r,
       runCorrectionLoop validators unfixable halfIteration 1 = Some r
       /\ iterations r = 1
       /\ ~ (inject_Z (Z.of_nat (iterations r)) <= 0.5)%Q.
Proof.
  split; [discriminate|]. eexists.
  split; [vm_compute; reflexivity|]. split; [reflexivity|].
  intro H. vm_compute in H. apply H. reflexivity.
Qed.

(** C5, amended.  With a finite [maxIterations >= 0], [runCorrectionLoop]
    returns after at most [maxIterations] rounded up iterations: at most
    [maxIterations] when it is a whole number, and always fewer than
    [maxIterations + 1].  Whatever the cap, a run that returns has one history
    entry per iteration, and an iteration whose [applyFixes] call applies no
    fix is the last one: the loop stops there with the content unchanged,
    although violations remain.  With [Infinity] as cap the first test never
    ends the loop: a run returns only with no violation left or after an
    iteration without a fix. *)
Theorem C5_loop_bounded_and_stops_without_fixes
        (registry : list (string * Validator)) (content : string) (config : CorrectionConfig) :
  (forall q, maxIterations config = Finite q -> (0 <= q)%Q ->
     exists r,
       (forall fuel, Z.to_nat (Qceiling q) <= fuel ->
                     runCorrectionLoop registry content config fuel = Some r)
       /\ (Z.of_nat (iterations r) <= Qceiling q)%Z
       /\ (inject_Z (Z.of_nat (iterations r)) < q + 1)%Q
       /\ (forall n : Z, (q == inject_Z n)%Q -> (Z.of_nat (iterations r) <= n)%Z))
  /\ (forall fuel r, runCorrectionLoop registry content config fuel = Some r ->
        List.length (correctionHistory r) = iterations r
        /\ (forall i res,
              nth_error (correctionHistory r) i = Some res -> appliedFixes res = [] ->
              S i = iterations r /\ finalContent r = original res /\ finalViolations r <> 0)
        /\ (forall fuel', fuel <= fuel' ->
                          runCorrectionLoop registry content config fuel' = Some r))
  /\ (maxIterations config = PosInfinity ->
      forall fuel r, runCorrectionLoop registry content config fuel = Some r ->
                     converged r = true).
Proof.
  set (st0 := {| ls_iterations := 0; currentContent := content;
                 allViolations := validateAll registry "file.ts" content;
                 ls_history := [] |}).
  assert (Hunfold : forall fuel,
            runCorrectionLoop registry content config fuel
            = match correctionLoop registry config fuel st0 with
              | Some final =>
                  Some {| iterations := ls_iterations final;
                          initialViolations :=
                            List.length (validateAll registry "file.ts" content);
                          finalViolations := List.length (allViolations final);
                          correctionHistory := ls_history final;
                          finalContent := currentContent final;
                          success := List.length (allViolations final) =? 0 |}
              | None => None
              end) by reflexivity.
  split; [|split].
  - intros q Hcap Hq.
    assert (Hturns : turnsAllowed (maxIterations config) = Some (Z.to_nat (Qceiling q))).
    { rewrite Hcap. reflexivity. }
    destruct (correctionLoop_returns registry config _ (Z.to_nat (Qceiling q)) st0 Hturns)
      as (final & Hloop); [cbn [st0 ls_iterations]; lia|].
    eexists. split.
    { intros fuel Hfuel. rewrite Hunfold.
      rewrite (correctionLoop_fuel_le registry config _ fuel st0 final Hfuel Hloop).
      reflexivity. }
    cbn [iterations].
    destruct (correctionLoop_trace registry config _ st0 final Hloop)
      as (new & _ & Hiter & _ & _ & Hnil & _ & Hlast & _).
    cbn [st0 ls_iterations Nat.add] in Hiter.
    assert (Hceil0 : (0 <= Qceiling q)%Z).
    { change 0%Z with (Qceiling 0). apply Qceiling_resp_le. exact Hq. }
    assert (Hbound : (Z.of_nat (ls_iterations final) <= Qceiling q)%Z
                     /\ (inject_Z (Z.of_nat (ls_iterations final)) < q + 1)%Q).
    { destruct new as [|res new'].
      - rewrite Hiter. cbn [List.length Z.of_nat]. split; [exact Hceil0|].
        apply (Qle_lt_trans _ q); [exact Hq|].
        rewrite <- (Qplus_0_r q) at 1. apply Qplus_lt_r. reflexivity.
      - assert (Hb : countBelow (ls_iterations final - 1) (maxIterations config) = true)
          by (apply Hlast; discriminate).
        pose proof (countBelow_turnsAllowed config _ _ Hturns Hb) as Hlt.
        split; [lia|].
        rewrite Hcap in Hb. cbn [countBelow] in Hb. apply negb_true_iff in Hb.
        assert (Hq1 : (inject_Z (Z.of_nat (ls_iterations final - 1)) < q)%Q).
        { apply Qnot_le_lt. intro Hle. apply Qle_bool_iff in Hle. rewrite Hle in Hb.
          discriminate Hb. }
        assert (Hs : ls_iterations final = S (ls_iterations final - 1)).
        { rewrite Hiter. cbn [List.length]. lia. }
        rewrite Hs at 1. rewrite Nat2Z.inj_succ. unfold Z.succ. rewrite inject_Z_plus.
        apply Qplus_lt_l. exact Hq1. }
    split; [apply Hbound|]. split; [apply Hbound|].
    intros n Hn. destruct Hbound as [Hb _].
    rewrite (Qceiling_comp _ _ Hn), Qceiling_Z in Hb. exact Hb.
  - intros fuel r Hrun. rewrite Hunfold in Hrun.
    destruct (correctionLoop registry config fuel st0) as [final|] eqn:Hloop;
      [|discriminate Hrun].
    injection Hrun as <-.
    cbn [correctionHistory iterations finalContent finalViolations].
    destruct (correctionLoop_trace registry config fuel st0 final Hloop)
      as (new & Hhist & Hiter & _ & Hzero & _ & Hlast & _).
    cbn [st0 ls_history ls_iterations app Nat.add] in Hhist, Hiter.
    split; [rewrite Hhist, Hiter; reflexivity|]. split.
    + intros i res Hnth Hres. rewrite Hhist in Hnth.
      pose proof (Hzero i res Hnth Hres) as Hi.
      split; [lia|].
      destruct (Hlast (firstn i new) res (nth_error_last_split new i res Hnth Hi) Hres)
        as [Heq Hne].
      split.
      * rewrite Heq at 1. rewrite applyFixes_original. reflexivity.
      * destruct (allViolations final); [contradiction Hne; reflexivity | discriminate].
    + intros fuel' Hle. rewrite Hunfold.
      rewrite (correctionLoop_fuel_le registry config fuel fuel' st0 final Hle Hloop).
      reflexivity.
  - intros Hcap fuel r Hrun. rewrite Hunfold in Hrun.
    destruct (correctionLoop registry config fuel st0) as [final|] eqn:Hloop;
      [|discriminate Hrun].
    injection Hrun as <-. unfold converged. cbn [finalViolations correctionHistory].
    destruct (correctionLoop_trace registry config fuel st0 final Hloop)
      as (new & Hhist & _ & _ & _ & _ & _ & _ & Hon).
    cbn [st0 ls_history app] in Hhist.
    destruct (List.length (allViolations final) =? 0) eqn:Hv; [reflexivity|].
    cbn [orb].
    destruct Hon as (front & res & Hnew & Hres).
    { unfold loopGoesOn. rewrite Hcap. cbn [countBelow andb].
      destruct (allViolations final); [discriminate Hv | reflexivity]. }
    rewrite Hhist, Hnew, rev_app_distr. cbn [rev app]. rewrite Hres. reflexivity.
Qed.

(** Three iterations allowed, and the first applies no fix: the run returns
    after that one iteration, with the content as it was and the violation
    still there.  Without a cap the same run returns for the same reason. *)
Lemma C5_witness :
  (exists r res,
      runCorrectionLoop validators unfixable defaultConfig 3 = Some r
      /\ (Z.of_nat (iterations r) <= 3)%Z
      /\ nth_error (correctionHistory r) 0 = Some res
      /\ 1 = iterations r /\ finalContent r = original res /\ finalViolations r <> 0)
  /\ (exists r,
        runCorrectionLoop validators unfixable noCap 1 = Some r
        /\ iterations r = 1 /\ converged r = true).
Proof.
  split; cycle 1.
  { destruct (runCorrectionLoop validators unfixable noCap 1) as [r|] eqn:Hrun;
      [|vm_compute in Hrun; discriminate Hrun].
    exists r. split; [reflexivity|]. split.
    - assert (Hc : option_map iterations (runCorrectionLoop validators unfixable noCap 1)
                   = Some 1) by (vm_compute; reflexivity).
      rewrite Hrun in Hc. injection Hc as Hc. exact Hc.
    - exact (proj2 (proj2 (C5_loop_bounded_and_stops_without_fixes
                             validators unfixable noCap)) eq_refl 1 r Hrun). }
  destruct (proj1 (C5_loop_bounded_and_stops_without_fixes validators unfixable defaultConfig)
              3%Q eq_refl) as (r & Hrun & Hle & _); [discriminate|].
  specialize (Hrun 3 (Nat.le_refl 3)).
  destruct (proj1 (proj2 (C5_loop_bounded_and_stops_without_fixes
                            validators unfixable defaultConfig)) 3 r Hrun)
    as (_ & Hstop & _).
  assert (Hres : exists res, nth_error (correctionHistory r) 0 = Some res
                             /\ appliedFixes res = []).
  { assert (Hc : option_map (fun r => map appliedFixes (correctionHistory r))
                   (runCorrectionLoop validators unfixable defaultConfig 3)
                 = Some [[]]) by (vm_compute; reflexivity).
    rewrite Hrun in Hc. cbn [option_map] in Hc. injection Hc as Hc.
    destruct (correctionHistory r) as [|res rest]; [discriminate Hc|].
    exists res. split; [reflexivity|]. cbn [map] in Hc. injection Hc as Hc _. exact Hc. }
  destruct Hres as (res & Hnth & Hnone).
  destruct (Hstop 0 res Hnth Hnone) as (H1 & H2 & H3).
  exists r, res. split; [exact Hrun|]. split; [exact Hle|]. split; [exact Hnth|].
  split; [exact H1|]. split; [exact H2 | exact H3].
Defined.

(** C6, as stated, fails: the engine has no handler around the call of a
    check.  With a rule added whose check throws on the second line, the
    whole validation throws, and the [eval] calls of the first and third
    lines are not reported. *)
Lemma C6_counterexample :
  checkThrows (allRules ++ [faultyRule]) faultyInput
  /\ validateGeneralPracticesWith (allRules ++ [faultyRule]) faultyInput
     = Throw "TypeError: Cannot read properties of undefined"
  /\ map rule (violations (validateGeneralPractices faultyInput)) = ["SEC-001"; "SEC-001"].
Proof.
  split; [|split].
  - exists "a.ts", (join nl [ "eval(x);"; "// @ts-ignore"; "eval(y);" ]), 1, "// @ts-ignore",
      faultyRule, "TypeError: Cannot read properties of undefined".
    split; [left; reflexivity|]. split; [vm_compute; reflexivity|].
    split; [apply in_or_app; right; left; reflexivity|]. vm_compute. reflexivity.
  - vm_compute. reflexivity.
  - vm_compute. reflexivity.
Qed.

(** C6, amended.  When some rule's check throws on some line, the exception
    propagates out of the validation to the caller: no result, finding or
    diagnostic is produced.  When no check throws the validation returns a
    result; this is so for the rules of the catalogue, on every context. *)
Theorem C6_rule_fault_propagates :
  (forall rules ctx,
      checkThrows rules ctx -> exists e, validateGeneralPracticesWith rules ctx = Throw e)
  /\ (forall rules ctx,
         ~ checkThrows rules ctx -> exists r, validateGeneralPracticesWith rules ctx = Normal r)
  /\ (forall ctx,
         validateGeneralPracticesWith allRules ctx = Normal (validateGeneralPractices ctx)).
Proof.
  split; [exact validateGeneralPracticesWith_throws|].
  split; [exact validateGeneralPracticesWith_returns|].
  exact validateGeneralPractices_returns.
Qed.

(** The faulty rule on the three-line input. *)
Lemma C6_witness :
  exists e, validateGeneralPracticesWith [faultyRule] faultyInput = Throw e.
Proof.
  apply (proj1 C6_rule_fault_propagates [faultyRule] faultyInput).
  exists "a.ts", (join nl [ "eval(x);"; "// @ts-ignore"; "eval(y);" ]), 1, "// @ts-ignore",
    faultyRule, "TypeError: Cannot read properties of undefined".
  split; [left; reflexivity|]. split; [vm_compute; reflexivity|].
  split; [left; reflexivity|]. vm_compute. reflexivity.
Defined.

End EngineClaims.

(* ================================================================== *)
(** * Scoring and gating: further properties *)
(* ================================================================== *)

Section GatingProperties.
Import MetricsConfig Spec GatingExamples GatingNotions.

(** *** Passing, as one condition *)

Lemma noneFailing_dec (scores : JsMap Q) :
  noneFailing scores \/ exists m s, In m METRIC_DEFINITIONS /\ failsThreshold scores m s.
Proof.
  pose proof (checkBlockingMetrics_spec scores METRIC_DEFINITIONS) as Hspec.
  destruct (checkBlockingMetrics scores (filter (fun m => blockOnFail m) METRIC_DEFINITIONS)).
  - right. destruct Hspec as (earlier & m & later & s & Hl & Hf & _).
    exists m, s. split; [|exact Hf]. rewrite Hl. apply in_or_app. right. left. reflexivity.
  - left. exact Hspec.
Qed.

Lemma evaluateGating_passed_iff (config : GatingConfig) (scores : JsMap Q) (b w : Z) :
  passed (evaluateGating scores b w config) = true
  <-> ~ blockersExceeded config b /\ ~ warningsExceeded config w /\ noneFailing scores
      /\ (minimumScore config <= calculateWeightedScore scores)%Q.
Proof.
  split.
  - intro Hpass.
    destruct (blockOnBlockers config && (maxBlockers config <? b)%Z) eqn:Eb.
    { apply blockersExceeded_dec in Eb.
      rewrite (evaluateGating_blockers config scores b w Eb) in Hpass. discriminate Hpass. }
    assert (Hb : ~ blockersExceeded config b).
    { intro H. apply blockersExceeded_dec in H. congruence. }
    destruct (failOnWarnings config && (maxWarnings config <? w)%Z) eqn:Ew.
    { apply warningsExceeded_dec in Ew.
      rewrite (evaluateGating_warnings config scores b w Hb Ew) in Hpass. discriminate Hpass. }
    assert (Hw : ~ warningsExceeded config w).
    { intro H. apply warningsExceeded_dec in H. congruence. }
    destruct (noneFailing_dec scores) as [Hnone|Hsome].
    + split; [exact Hb|]. split; [exact Hw|]. split; [exact Hnone|].
      rewrite (evaluateGating_total config scores b w Hb Hw Hnone) in Hpass.
      destruct (Qlt_bool (calculateWeightedScore scores) (minimumScore config)) eqn:E;
        [discriminate Hpass|].
      apply Qlt_bool_false_iff in E. apply Qnot_lt_le. exact E.
    + destruct (evaluateGating_metric config scores b w Hb Hw Hsome) as (m & s & _ & Hr).
      rewrite Hr in Hpass. discriminate Hpass.
  - intros (Hb & Hw & Hnone & Hmin).
    rewrite (evaluateGating_total config scores b w Hb Hw Hnone).
    assert (E : Qlt_bool (calculateWeightedScore scores) (minimumScore config) = false).
    { apply Qlt_bool_false_iff. apply Qle_not_lt. exact Hmin. }
    rewrite E. reflexivity.
Qed.

(** *** Sums over the categories present *)

Lemma sigma_scores_between (lo hi : Q) (scores : JsMap Q) (l : list MetricDefinition) :
  scoresWithin lo hi scores ->
  Forall (fun m => (0 < weight m)%Q /\ Map_has scores (name m) = true) l ->
  (lo * sigma weight l <= sigma (fun m => scoreOf scores m * weight m) l)%Q
  /\ (sigma (fun m => scoreOf scores m * weight m) l <= hi * sigma weight l)%Q.
Proof.
  intros Hin Hall. induction Hall as [|m l [Hw Hhas] _ [IH1 IH2]].
  - simpl. split; rewrite Qmult_0_r; apply Qle_refl.
  - change (sigma ?f (m :: ?r)) with (f m + sigma f r)%Q. cbv beta.
    unfold Map_has in Hhas. unfold scoreOf at 1 3.
    destruct (Map_get scores (name m)) as [s|] eqn:E; [|discriminate Hhas].
    destruct (Hin _ _ E) as [Hlo Hhi].
    apply Qlt_le_weak in Hw.
    split.
    + setoid_replace (lo * (weight m + sigma weight l))%Q
        with (lo * weight m + lo * sigma weight l)%Q by ring.
      apply Qplus_le_compat; [|exact IH1].
      apply Qmult_le_compat_r; assumption.
    + setoid_replace (hi * (weight m + sigma weight l))%Q
        with (hi * weight m + hi * sigma weight l)%Q by ring.
      apply Qplus_le_compat; [|exact IH2].
      apply Qmult_le_compat_r; assumption.
Qed.

Lemma presentMetrics_all (scores : JsMap Q) :
  Forall (fun m => (0 < weight m)%Q /\ Map_has scores (name m) = true) (presentMetrics scores).
Proof.
  apply Forall_forall. intros m Hin. split.
  - exact (proj1 (Forall_forall _ _) (presentMetrics_positive scores) m Hin).
  - unfold presentMetrics in Hin. apply filter_In in Hin. apply Hin.
Qed.

Lemma calculateWeightedScore_between (lo hi : Q) (scores : JsMap Q) :
  scoresWithin lo hi scores -> presentMetrics scores <> [] ->
  (lo <= calculateWeightedScore scores)%Q /\ (calculateWeightedScore scores <= hi)%Q.
Proof.
  intros Hin Hne.
  rewrite (proj2 (calculateWeightedScore_cases scores) Hne). unfold weightedAverage.
  destruct (sigma_scores_between lo hi scores _ Hin (presentMetrics_all scores)) as [H1 H2].
  pose proof (sigma_weight_positive _ (presentMetrics_positive scores) Hne) as Hpos.
  split.
  - apply Qle_shift_div_l; assumption.
  - apply Qle_shift_div_r; assumption.
Qed.

(** X1.  The weighted score lies in the unit range: when every score of the
    map lies between 0 and 1, so does the weighted score, with or without a
    category of the catalogue present. *)
Theorem calculateWeightedScore_unit_range (scores : JsMap Q) :
  scoresWithin 0 1 scores -> unitRange (calculateWeightedScore scores).
Proof.
  intro Hin. destruct (presentMetrics scores) as [|m l] eqn:E.
  - rewrite (proj1 (calculateWeightedScore_cases scores) E). split; discriminate.
  - apply calculateWeightedScore_between; [exact Hin|]. rewrite E. discriminate.
Qed.

Lemma calculateWeightedScore_unit_range_witness :
  unitRange (calculateWeightedScore twoScores).
Proof.
  apply (calculateWeightedScore_unit_range twoScores).
  intros k s H. cbn [twoScores Map_get] in H.
  destruct (String.eqb "transactions" k); [injection H as <-; split; discriminate|].
  destruct (String.eqb "logging" k); [injection H as <-; split; discriminate|].
  discriminate H.
Defined.

(** *** Only the names of the catalogue are looked up *)

Lemma accumulate_ext_on (s1 s2 : JsMap Q) (l : list MetricDefinition) :
  (forall m, In m l -> Map_get s1 (name m) = Map_get s2 (name m)) ->
  forall acc, fold_left (accumulate s1) l acc = fold_left (accumulate s2) l acc.
Proof.
  induction l as [|m l IH]; intros H acc; [reflexivity|].
  cbn [fold_left].
  assert (E : accumulate s1 acc m = accumulate s2 acc m).
  { unfold accumulate. destruct acc. rewrite (H m (or_introl eq_refl)). reflexivity. }
  rewrite E. apply IH. intros m' Hm'. apply H. right. exact Hm'.
Qed.

Lemma checkBlockingMetrics_ext_on (s1 s2 : JsMap Q) (l : list MetricDefinition) :
  (forall m, In m l -> Map_get s1 (name m) = Map_get s2 (name m)) ->
  checkBlockingMetrics s1 l = checkBlockingMetrics s2 l.
Proof.
  induction l as [|m l IH]; intro H; [reflexivity|].
  cbn [checkBlockingMetrics]. rewrite (H m (or_introl eq_refl)).
  rewrite IH; [reflexivity|]. intros m' Hm'. apply H. right. exact Hm'.
Qed.

Lemma calculateWeightedScore_sameOnCatalogue (s1 s2 : JsMap Q) :
  sameOnCatalogue s1 s2 -> calculateWeightedScore s1 = calculateWeightedScore s2.
Proof.
  intro H. unfold calculateWeightedScore. rewrite (accumulate_ext_on s1 s2 _ H). reflexivity.
Qed.

Lemma evaluateGating_sameOnCatalogue (s1 s2 : JsMap Q) (b w : Z) (config : GatingConfig) :
  sameOnCatalogue s1 s2 -> evaluateGating s1 b w config = evaluateGating s2 b w config.
Proof.
  intro H. unfold evaluateGating.
  rewrite (calculateWeightedScore_sameOnCatalogue s1 s2 H).
  rewrite (checkBlockingMetrics_ext_on s1 s2 getBlockingMetrics); [reflexivity|].
  intros m Hm. apply H. unfold getBlockingMetrics in Hm. apply filter_In in Hm. apply Hm.
Qed.

(** X3.  The weighted score and the gating verdict read the map only at the
    twelve names of the catalogue: two maps that agree there get the same
    score and the same verdict, and a score stored under any other key changes
    neither. *)
Theorem gating_reads_catalogue_names_only (s1 : JsMap Q) :
  (forall s2 b w config,
      sameOnCatalogue s1 s2 ->
      calculateWeightedScore s1 = calculateWeightedScore s2
      /\ evaluateGating s1 b w config = evaluateGating s2 b w config)
  /\ (forall key score b w config,
         getMetricByName key = None ->
         calculateWeightedScore (Map_set s1 key score) = calculateWeightedScore s1
         /\ evaluateGating (Map_set s1 key score) b w config = evaluateGating s1 b w config).
Proof.
  split.
  - intros s2 b w config H. split.
    + apply calculateWeightedScore_sameOnCatalogue. exact H.
    + apply evaluateGating_sameOnCatalogue. exact H.
  - intros key score b w config Hnone.
    assert (H : sameOnCatalogue (Map_set s1 key score) s1).
    { intros m Hin. rewrite Map_get_set.
      destruct (String.eqb key (name m)) eqn:E; [|reflexivity].
      exfalso. unfold getMetricByName in Hnone.
      apply (find_none _ _ Hnone) in Hin. cbv beta in Hin.
      apply String.eqb_eq in E. rewrite E, String.eqb_refl in Hin. discriminate Hin. }
    split.
    + apply calculateWeightedScore_sameOnCatalogue. exact H.
    + apply evaluateGating_sameOnCatalogue. exact H.
Qed.

Lemma gating_reads_catalogue_names_only_witness :
  calculateWeightedScore (Map_set twoScores "transaction-compliance" 0%Q)
  = calculateWeightedScore twoScores.
Proof.
  apply (proj2 (gating_reads_catalogue_names_only twoScores)
           "transaction-compliance" 0%Q 0%Z 0%Z DEFAULT_GATING_CONFIG).
  reflexivity.
Defined.

(** X4.  [getMetricByName] finds a metric exactly for the twelve names of
    the catalogue, which are pairwise different: the metric found has the
    name asked for, every metric of the catalogue is found under its own
    name, and any other name gives [undefined]. *)
Theorem getMetricByName_lookup :
  NoDup (map name METRIC_DEFINITIONS)
  /\ (forall m, In m METRIC_DEFINITIONS -> getMetricByName (name m) = Some m)
  /\ (forall n m, getMetricByName n = Some m -> name m = n /\ In m METRIC_DEFINITIONS)
  /\ (forall n, getMetricByName n = None <-> ~ In n (map name METRIC_DEFINITIONS)).
Proof.
  split; [|split; [|split]].
  - repeat constructor; cbn; intuition discriminate.
  - intros m Hin. cbn [METRIC_DEFINITIONS In] in Hin.
    repeat (destruct Hin as [<-|Hin]; [reflexivity|]). destruct Hin.
  - intros n m H. unfold getMetricByName in H. apply find_some in H.
    destruct H as [Hin E]. apply String.eqb_eq in E. split; assumption.
  - intro n. unfold getMetricByName. split.
    + intros H Hin. apply in_map_iff in Hin. destruct Hin as (m & <- & Hin).
      apply (find_none _ _ H) in Hin. cbv beta in Hin. rewrite String.eqb_refl in Hin.
      discriminate Hin.
    + intro Hnot. destruct (find _ METRIC_DEFINITIONS) as [m|] eqn:E; [|reflexivity].
      exfalso. apply find_some in E. destruct E as [Hin E]. apply String.eqb_eq in E.
      apply Hnot. rewrite <- E. apply in_map. exact Hin.
Qed.

Lemma getMetricByName_lookup_witness :
  getMetricByName "transaction-compliance" = None.
Proof.
  apply (proj2 (proj2 (proj2 (proj2 getMetricByName_lookup)) "transaction-compliance")).
  cbn. intuition discriminate.
Defined.

(** *** Monotonicity *)

Lemma scoresImproved_present (s1 s2 : JsMap Q) :
  scoresImproved s1 s2 -> presentMetrics s1 = presentMetrics s2.
Proof.
  intro H. unfold presentMetrics. apply filter_ext. intro m. unfold Map_has.
  specialize (H (name m)).
  destruct (Map_get s1 (name m)), (Map_get s2 (name m)); try reflexivity; contradiction.
Qed.

Lemma sigma_scores_improved (s1 s2 : JsMap Q) (l : list MetricDefinition) :
  scoresImproved s1 s2 -> Forall (fun m => (0 < weight m)%Q) l ->
  (sigma (fun m => scoreOf s1 m * weight m) l <= sigma (fun m => scoreOf s2 m * weight m) l)%Q.
Proof.
  intros H Hall. induction Hall as [|m l Hw _ IH]; [apply Qle_refl|].
  change (sigma ?f (m :: ?r)) with (f m + sigma f r)%Q. cbv beta.
  apply Qplus_le_compat; [|exact IH].
  apply Qmult_le_compat_r; [|apply Qlt_le_weak; exact Hw].
  unfold scoreOf. specialize (H (name m)).
  destruct (Map_get s1 (name m)), (Map_get s2 (name m));
    try contradiction; [exact H | apply Qle_refl].
Qed.

Lemma calculateWeightedScore_improved (s1 s2 : JsMap Q) :
  scoresImproved s1 s2 -> (calculateWeightedScore s1 <= calculateWeightedScore s2)%Q.
Proof.
  intro H. pose proof (scoresImproved_present s1 s2 H) as Hp.
  destruct (presentMetrics s1) as [|m l] eqn:E.
  - rewrite (proj1 (calculateWeightedScore_cases s1) E).
    rewrite (proj1 (calculateWeightedScore_cases s2) (eq_sym Hp)). apply Qle_refl.
  - assert (Hne1 : presentMetrics s1 <> []) by (rewrite E; discriminate).
    assert (Hne2 : presentMetrics s2 <> []) by (rewrite <- Hp; discriminate).
    rewrite (proj2 (calculateWeightedScore_cases s1) Hne1).
    rewrite (proj2 (calculateWeightedScore_cases s2) Hne2).
    unfold weightedAverage. rewrite <- Hp, E.
    assert (Hpos : (0 < sigma weight (m :: l))%Q).
    { rewrite <- E. apply sigma_weight_positive; [apply presentMetrics_positive | exact Hne1]. }
    apply Qmult_le_compat_r.
    + apply sigma_scores_improved; [exact H|]. rewrite <- E. apply presentMetrics_positive.
    + apply Qlt_le_weak. apply Qinv_lt_0_compat. exact Hpos.
Qed.

Lemma noneFailing_improved (s1 s2 : JsMap Q) :
  scoresImproved s1 s2 -> noneFailing s1 -> noneFailing s2.
Proof.
  intros H Hnone m s Hin (Hblock & Hget & Hlt).
  specialize (H (name m)). rewrite Hget in H.
  destruct (Map_get s1 (name m)) as [a|] eqn:E; [|contradiction].
  apply (Hnone m a Hin). split; [exact Hblock|]. split; [exact E|].
  apply Qle_lt_trans with s; assumption.
Qed.

Lemma allAt_improved (a b : Q) : (a <= b)%Q -> scoresImproved (allAt a) (allAt b).
Proof.
  intros Hab k. unfold allAt.
  induction METRIC_DEFINITIONS as [|m l IH]; [exact I|].
  cbn [map Map_get]. destruct (String.eqb (name m) k); [exact Hab | exact IH].
Qed.

(** X5.  Gating is monotone: a run that passes still passes with fewer
    blockers, fewer warnings and scores that are nowhere lower (for the same
    categories). *)
Theorem evaluateGating_monotone (config : GatingConfig) (s1 s2 : JsMap Q) (b1 b2 w1 w2 : Z) :
  (b2 <= b1)%Z -> (w2 <= w1)%Z -> scoresImproved s1 s2 ->
  passed (evaluateGating s1 b1 w1 config) = true ->
  passed (evaluateGating s2 b2 w2 config) = true.
Proof.
  intros Hb Hw Hs Hpass.
  apply evaluateGating_passed_iff in Hpass. destruct Hpass as (H1 & H2 & H3 & H4).
  apply evaluateGating_passed_iff.
  split; [|split; [|split]].
  - intros [Ha Hlt]. apply H1. split; [exact Ha | lia].
  - intros [Ha Hlt]. apply H2. split; [exact Ha | lia].
  - exact (noneFailing_improved s1 s2 Hs H3).
  - apply Qle_trans with (calculateWeightedScore s1); [exact H4|].
    apply calculateWeightedScore_improved. exact Hs.
Qed.

Lemma evaluateGating_monotone_witness :
  passed (evaluateGating (allAt 1%Q) 0 0 DEFAULT_GATING_CONFIG) = true.
Proof.
  apply (evaluateGating_monotone DEFAULT_GATING_CONFIG (allAt 0.9%Q) (allAt 1%Q) 0 0 7 0).
  - lia.
  - lia.
  - apply allAt_improved. discriminate.
  - vm_compute. reflexivity.
Defined.

(** X6.  The strict policy is stricter than the default one: whatever passes
    [STRICT_GATING_CONFIG] passes [DEFAULT_GATING_CONFIG], and then there is
    no blocker, no warning, no blocking metric below its threshold, and the
    weighted score is at least 0.95. *)
Theorem strict_gating_implies_default (scores : JsMap Q) (blockerCount warningCount : Z) :
  passed (evaluateGating scores blockerCount warningCount STRICT_GATING_CONFIG) = true ->
  passed (evaluateGating scores blockerCount warningCount DEFAULT_GATING_CONFIG) = true
  /\ (blockerCount <= 0)%Z /\ (warningCount <= 0)%Z /\ noneFailing scores
  /\ (0.95 <= calculateWeightedScore scores)%Q.
Proof.
  intro Hpass. apply evaluateGating_passed_iff in Hpass.
  destruct Hpass as (H1 & H2 & H3 & H4).
  assert (Hb : (blockerCount <= 0)%Z).
  { destruct (Z_le_gt_dec blockerCount 0) as [H|H]; [exact H|].
    exfalso. apply H1. split; [reflexivity | cbn; lia]. }
  assert (Hw : (warningCount <= 0)%Z).
  { destruct (Z_le_gt_dec warningCount 0) as [H|H]; [exact H|].
    exfalso. apply H2. split; [reflexivity | cbn; lia]. }
  split; [|split; [exact Hb|split; [exact Hw|split; [exact H3 | exact H4]]]].
  apply evaluateGating_passed_iff.
  split; [|split; [|split]].
  - intros [_ H]. cbn in H. lia.
  - intros [H _]. discriminate H.
  - exact H3.
  - apply Qle_trans with 0.95%Q; [discriminate | exact H4].
Qed.

Lemma strict_gating_implies_default_witness :
  passed (evaluateGating (allAt 1%Q) 0 0 DEFAULT_GATING_CONFIG) = true
  /\ (0.95 <= calculateWeightedScore (allAt 1%Q))%Q.
Proof.
  assert (H : passed (evaluateGating (allAt 1%Q) 0 0 STRICT_GATING_CONFIG) = true)
    by (vm_compute; reflexivity).
  destruct (strict_gating_implies_default (allAt 1%Q) 0 0 H) as (H1 & _ & _ & _ & H2).
  split; [exact H1 | exact H2].
Defined.

End GatingProperties.

(* ================================================================== *)
(** * Validators: further properties *)
(* ================================================================== *)

Section ValidatorProperties.
Import Validators GeneralPractices Spec ValidatorExamples ValidatorNotions.

(** *** Findings, statement by statement *)

Lemma allFindings_nothing PV PW : allFindings PV PW nothing.
Proof. split; constructor. Qed.

Lemma allFindings_andThen PV PW (a b : Findings) :
  allFindings PV PW a -> allFindings PV PW b -> allFindings PV PW (a ;; b).
Proof.
  intros [Ha1 Ha2] [Hb1 Hb2]. split; cbn [andThen found_violations found_warnings];
    apply Forall_app; split; assumption.
Qed.

Lemma allFindings_forEach PV PW {A : Type} (l : list A) (body : A -> Findings) :
  (forall x, In x l -> allFindings PV PW (body x)) -> allFindings PV PW (forEach l body).
Proof.
  induction l as [|x l IH]; intro H; [apply allFindings_nothing|].
  cbn [forEach]. apply allFindings_andThen.
  - apply H. left. reflexivity.
  - apply IH. intros y Hy. apply H. right. exact Hy.
Qed.

Lemma allFindings_pushViolation (PV : Violation -> Prop) PW v :
  PV v -> allFindings PV PW (pushViolation v).
Proof. intro H. split; repeat constructor. exact H. Qed.

Lemma allFindings_pushWarning PV (PW : Warning -> Prop) w :
  PW w -> allFindings PV PW (pushWarning w).
Proof. intro H. split; repeat constructor. exact H. Qed.

(** *** Line numbers *)

Lemma split_length_cons (c a : ascii) (s : string) :
  List.length (split c (String a s))
  = if Ascii.eqb a c then S (List.length (split c s)) else List.length (split c s).
Proof.
  cbn [split]. destruct (Ascii.eqb a c); [reflexivity|].
  destruct (split c s) as [|w ws] eqn:E; [|reflexivity].
  destruct s; cbn [split] in E; [discriminate E|].
  destruct (Ascii.eqb _ c); [discriminate E|]. destruct (split c s); discriminate E.
Qed.

Lemma lineCount_pos (s : string) : 1 <= lineCount s.
Proof.
  unfold lineCount, Js.lines. induction s as [|a s IH]; [cbn; lia|].
  rewrite split_length_cons. destruct (Ascii.eqb a LF); lia.
Qed.

Lemma lineCount_take (i : nat) (s : string) : lineCount (take i s) <= lineCount s.
Proof.
  unfold lineCount, Js.lines, take. revert i. induction s as [|a s IH]; intro i.
  - destruct i; cbn; lia.
  - destruct i as [|i].
    + cbn [substring]. pose proof (lineCount_pos (String a s)) as H.
      unfold lineCount, Js.lines in H. cbn [split List.length]. exact H.
    + cbn [substring]. rewrite !split_length_cons. specialize (IH i).
      destruct (Ascii.eqb a LF); lia.
Qed.

Lemma lineOfIndex_bounds (content : string) (index : nat) :
  1 <= lineOfIndex content index /\ lineOfIndex content index <= lineCount content.
Proof.
  unfold lineOfIndex. split; [apply lineCount_pos | apply lineCount_take].
Qed.

Lemma indexed_from_bound {A : Type} (l : list A) (start i : nat) (x : A) :
  In (i, x) (indexed_from start l) -> start <= i /\ i < start + List.length l.
Proof.
  revert start. induction l as [|y l IH]; intros start H; [destruct H|].
  cbn [indexed_from] in H. destruct H as [H|H].
  - inversion H; subst. cbn [List.length]. lia.
  - apply IH in H. cbn [List.length]. lia.
Qed.

Lemma indexed_line_bounds (content : string) (index : nat) (line : string) :
  In (index, line) (indexed (Js.lines content)) ->
  1 <= index + 1 /\ index + 1 <= lineCount content.
Proof.
  intro H. apply indexed_from_bound in H. unfold lineCount. lia.
Qed.

(** a finding of the file at hand points into the context *)
Ltac points_here :=
  match goal with
  | Hfile : In (?f, ?c) (fileContents ?ctx) |- pointsIntoContext ?ctx ?f _ =>
      exists c; split; [exact Hfile|];
      first [ apply lineOfIndex_bounds
            | eapply indexed_line_bounds; eassumption
            | split; [apply Nat.le_refl | apply lineCount_pos] ]
  end.

(** walks a scan down to the findings it pushes *)
Ltac walk leafV leafW :=
  repeat first
    [ apply allFindings_nothing
    | apply allFindings_andThen
    | match goal with
      | |- allFindings _ _ (forEach (indexed _) _) =>
          apply allFindings_forEach; intros [? ?] ?
      | |- allFindings _ _ (forEach _ _) =>
          apply allFindings_forEach; intros ? ?
      | |- allFindings _ _ (if ?c then _ else _) => destruct c
      | |- allFindings _ _ (match ?x with Some _ => _ | None => _ end) => destruct x
      | |- allFindings _ _ (pushViolation _) => apply allFindings_pushViolation; leafV
      | |- allFindings _ _ (pushWarning _) => apply allFindings_pushWarning; leafW
      end ].

Ltac located :=
  walk ltac:(cbn [file line]; points_here) ltac:(cbn [w_file w_line]; points_here).

Ltac scan_located scan :=
  unfold scan; apply allFindings_forEach; intros [? ?] ?; cbv zeta; located.

Lemma validateSupabaseAuth_located ctx :
  allFindings (fun v => pointsIntoContext ctx (file v) (line v))
              (fun w => pointsIntoContext ctx (w_file w) (w_line w))
              (validateSupabaseAuth_scan ctx).
Proof. scan_located validateSupabaseAuth_scan. Qed.

Lemma validateTenantIsolation_located ctx :
  allFindings (fun v => pointsIntoContext ctx (file v) (line v))
              (fun w => pointsIntoContext ctx (w_file w) (w_line w))
              (validateTenantIsolation_scan ctx).
Proof. scan_located validateTenantIsolation_scan. Qed.

Lemma validateAuditLogging_located ctx :
  allFindings (fun v => pointsIntoContext ctx (file v) (line v))
              (fun w => pointsIntoContext ctx (w_file w) (w_line w))
              (validateAuditLogging_scan ctx).
Proof. scan_located validateAuditLogging_scan; unfold auditedOperation; cbv zeta; located. Qed.

Lemma validatePrismaQueries_located ctx :
  allFindings (fun v => pointsIntoContext ctx (file v) (line v))
              (fun w => pointsIntoContext ctx (w_file w) (w_line w))
              (validatePrismaQueries_scan ctx).
Proof. scan_located validatePrismaQueries_scan. Qed.

Lemma validateTransactions_located ctx :
  allFindings (fun v => pointsIntoContext ctx (file v) (line v))
              (fun w => pointsIntoContext ctx (w_file w) (w_line w))
              (validateTransactions_scan ctx).
Proof. scan_located validateTransactions_scan. Qed.

Lemma validateCodeSafetyPatterns_located ctx :
  allFindings (fun v => pointsIntoContext ctx (file v) (line v))
              (fun w => pointsIntoContext ctx (w_file w) (w_line w))
              (validateCodeSafetyPatterns_scan ctx).
Proof. scan_located validateCodeSafetyPatterns_scan. Qed.

Lemma validateExceptionTypes_located ctx :
  allFindings (fun v => pointsIntoContext ctx (file v) (line v))
              (fun w => pointsIntoContext ctx (w_file w) (w_line w))
              (validateExceptionTypes_scan ctx).
Proof. scan_located validateExceptionTypes_scan. Qed.

Lemma validateLogging_located ctx :
  allFindings (fun v => pointsIntoContext ctx (file v) (line v))
              (fun w => pointsIntoContext ctx (w_file w) (w_line w))
              (validateLogging_scan ctx).
Proof. scan_located validateLogging_scan. Qed.

Lemma validateExternalServicePatterns_located ctx :
  allFindings (fun v => pointsIntoContext ctx (file v) (line v))
              (fun w => pointsIntoContext ctx (w_file w) (w_line w))
              (validateExternalServicePatterns_scan ctx).
Proof. scan_located validateExternalServicePatterns_scan. Qed.

Lemma validateJobProcessing_located ctx :
  allFindings (fun v => pointsIntoContext ctx (file v) (line v))
              (fun w => pointsIntoContext ctx (w_file w) (w_line w))
              (validateJobProcessing_scan ctx).
Proof. scan_located validateJobProcessing_scan. Qed.

Lemma validateApiDesign_located ctx :
  allFindings (fun v => pointsIntoContext ctx (file v) (line v))
              (fun w => pointsIntoContext ctx (w_file w) (w_line w))
              (validateApiDesign_scan ctx).
Proof. scan_located validateApiDesign_scan. Qed.

Lemma validateCodeQuality_located ctx :
  allFindings (fun v => pointsIntoContext ctx (file v) (line v))
              (fun w => pointsIntoContext ctx (w_file w) (w_line w))
              (validateCodeQuality_scan ctx).
Proof. scan_located validateCodeQuality_scan. Qed.

(** the rule engine sets the file and the line of a finding itself *)
Lemma allFindings_forEachC PV PW {A : Type} (l : list A) (body : A -> Completion Findings)
      (found : Findings) :
  forEachC l body = Normal found ->
  (forall x f, In x l -> body x = Normal f -> allFindings PV PW f) ->
  allFindings PV PW found.
Proof.
  revert found. induction l as [|x l IH]; intros found Hrun H.
  - injection Hrun as <-. apply allFindings_nothing.
  - cbn [forEachC] in Hrun.
    destruct (body x) as [f1|e] eqn:E1; [|discriminate Hrun]. cbn [bind] in Hrun.
    destruct (forEachC l body) as [f2|e] eqn:E2; [|discriminate Hrun]. cbn [bind] in Hrun.
    injection Hrun as <-. apply allFindings_andThen.
    + apply (H x f1); [left; reflexivity | exact E1].
    + apply IH; [reflexivity|]. intros y f Hy. apply H. right. exact Hy.
Qed.

Lemma runGeneralRules_located rules ctx found :
  runGeneralRules rules ctx = Normal found ->
  allFindings (fun v => pointsIntoContext ctx (file v) (line v))
              (fun w => pointsIntoContext ctx (w_file w) (w_line w)) found.
Proof.
  unfold runGeneralRules. intro Hrun.
  apply (allFindings_forEachC _ _ _ _ _ Hrun). intros [fileName content] f Hfile Hf.
  apply (allFindings_forEachC _ _ _ _ _ Hf). intros [index line] f' Hline Hf'.
  apply (allFindings_forEachC _ _ _ _ _ Hf'). intros rule f'' _ Hrule.
  destruct (check rule line (index + 1) _) as [[violation|]|e]; cbn [bind] in Hrule;
    [| injection Hrule as <-; apply allFindings_nothing | discriminate Hrule].
  destruct (rule_severity rule); injection Hrule as <-; located.
Qed.

Lemma validateGeneralPractices_found ctx :
  exists found,
    runGeneralRules allRules ctx = Normal found
    /\ validateGeneralPractices ctx = generalPracticesResult found.
Proof.
  pose proof (validateGeneralPractices_returns ctx) as H.
  unfold validateGeneralPracticesWith in H.
  destruct (runGeneralRules allRules ctx) as [found|e] eqn:E; [|discriminate H].
  exists found. split; [reflexivity|]. cbn [bind] in H. injection H as H. symmetry. exact H.
Qed.

(** X7.  Every violation and every warning a validator of the registry
    reports ([validateGeneralPractices] included) names a file of the context
    and a line of that file, counted from 1. *)
Theorem findings_point_into_context (entry : string * Validator) (ctx : ValidationContext) :
  In entry validatorsWithGeneral -> resultLocated ctx (snd entry ctx).
Proof.
  unfold validatorsWithGeneral, validators. cbn [app In]. intro H.
  destruct H as [<-|H]; [exact (validateSupabaseAuth_located ctx)|].
  destruct H as [<-|H]; [exact (validateTenantIsolation_located ctx)|].
  destruct H as [<-|H]; [exact (validateAuditLogging_located ctx)|].
  destruct H as [<-|H]; [exact (validatePrismaQueries_located ctx)|].
  destruct H as [<-|H]; [exact (validateTransactions_located ctx)|].
  destruct H as [<-|H]; [exact (validateCodeSafetyPatterns_located ctx)|].
  destruct H as [<-|H]; [exact (validateExceptionTypes_located ctx)|].
  destruct H as [<-|H]; [exact (validateLogging_located ctx)|].
  destruct H as [<-|H]; [exact (validateExternalServicePatterns_located ctx)|].
  destruct H as [<-|H]; [exact (validateJobProcessing_located ctx)|].
  destruct H as [<-|H]; [exact (validateApiDesign_located ctx)|].
  destruct H as [<-|H]; [exact (validateCodeQuality_located ctx)|].
  destruct H as [<-|H]; [|destruct H].
  cbn [snd]. destruct (validateGeneralPractices_found ctx) as (found & Hrun & ->).
  exact (runGeneralRules_located allRules ctx found Hrun).
Qed.

Lemma findings_point_into_context_witness :
  resultLocated (oneFile "roleplay.service.ts" multiTableWrite)
    (validateTransactions (oneFile "roleplay.service.ts" multiTableWrite)).
Proof.
  apply (findings_point_into_context ("transactions", validateTransactions)).
  unfold validatorsWithGeneral, validators. cbn [app In]. do 4 right. left. reflexivity.
Defined.

(** *** File by file *)

Lemma forEach_warnings {A : Type} (l : list A) (body : A -> Findings) :
  found_warnings (forEach l body) = flat_map (fun x => found_warnings (body x)) l.
Proof.
  induction l as [|x l IH]; simpl; [reflexivity|]. rewrite IH. reflexivity.
Qed.

Lemma forEach_app_violations {A : Type} (l1 l2 : list A) (body : A -> Findings) :
  found_violations (forEach (l1 ++ l2) body)
  = (found_violations (forEach l1 body) ++ found_violations (forEach l2 body))%list.
Proof. rewrite !forEach_violations. apply flat_map_app. Qed.

Lemma forEach_app_warnings {A : Type} (l1 l2 : list A) (body : A -> Findings) :
  found_warnings (forEach (l1 ++ l2) body)
  = (found_warnings (forEach l1 body) ++ found_warnings (forEach l2 body))%list.
Proof. rewrite !forEach_warnings. apply flat_map_app. Qed.

Lemma forEachC_app {A : Type} (l1 l2 : list A) (body : A -> Completion Findings)
      (found : Findings) :
  forEachC (l1 ++ l2) body = Normal found ->
  exists f1 f2,
    forEachC l1 body = Normal f1 /\ forEachC l2 body = Normal f2
    /\ found_violations found = (found_violations f1 ++ found_violations f2)%list
    /\ found_warnings found = (found_warnings f1 ++ found_warnings f2)%list.
Proof.
  revert found. induction l1 as [|x l1 IH]; intros found H.
  - exists nothing, found. cbn [app] in H.
    split; [reflexivity|]. split; [exact H|]. split; reflexivity.
  - cbn [app forEachC] in H |- *.
    destruct (body x) as [fx|e]; [|discriminate H]. cbn [bind] in H |- *.
    destruct (forEachC (l1 ++ l2) body) as [frest|e] eqn:E; [|discriminate H].
    cbn [bind] in H. injection H as <-.
    destruct (IH frest eq_refl) as (f1 & f2 & H1 & H2 & Hv & Hw).
    rewrite H1. cbn [bind]. exists (fx ;; f1), f2.
    split; [reflexivity|]. split; [exact H2|].
    cbn [andThen found_violations found_warnings]. rewrite Hv, Hw, !app_assoc.
    split; reflexivity.
Qed.

(** the form all twelve validators of validators.ts have: one loop over the
    files, whose body looks at its own file only *)
Ltac file_by_file :=
  split; [apply forEach_app_violations | apply forEach_app_warnings].

Lemma validateGeneralPractices_file_by_file (ctx1 ctx2 : ValidationContext) :
  violations (validateGeneralPractices (bothContexts ctx1 ctx2))
  = (violations (validateGeneralPractices ctx1)
       ++ violations (validateGeneralPractices ctx2))%list
  /\ warnings (validateGeneralPractices (bothContexts ctx1 ctx2))
     = (warnings (validateGeneralPractices ctx1)
          ++ warnings (validateGeneralPractices ctx2))%list.
Proof.
  destruct (validateGeneralPractices_found (bothContexts ctx1 ctx2)) as (found & Hrun & ->).
  destruct (validateGeneralPractices_found ctx1) as (found1 & Hrun1 & ->).
  destruct (validateGeneralPractices_found ctx2) as (found2 & Hrun2 & ->).
  unfold runGeneralRules, bothContexts in Hrun. cbn [fileContents] in Hrun.
  apply forEachC_app in Hrun. destruct Hrun as (f1 & f2 & H1 & H2 & Hv & Hw).
  unfold runGeneralRules in Hrun1, Hrun2. rewrite H1 in Hrun1. rewrite H2 in Hrun2.
  injection Hrun1 as <-. injection Hrun2 as <-.
  cbn [generalPracticesResult violations warnings]. split; assumption.
Qed.

(** X8.  The validators of the registry report file by file: the violations
    and the warnings for two sets of files together are those for the first
    set followed by those for the second.  No rule looks across files. *)
Theorem validators_report_file_by_file
        (entry : string * Validator) (ctx1 ctx2 : ValidationContext) :
  In entry validatorsWithGeneral ->
  violations (snd entry (bothContexts ctx1 ctx2))
  = (violations (snd entry ctx1) ++ violations (snd entry ctx2))%list
  /\ warnings (snd entry (bothContexts ctx1 ctx2))
     = (warnings (snd entry ctx1) ++ warnings (snd entry ctx2))%list.
Proof.
  unfold validatorsWithGeneral, validators. cbn [app In]. intro H.
  destruct H as [<-|H]; [file_by_file|].
  destruct H as [<-|H]; [file_by_file|].
  destruct H as [<-|H]; [file_by_file|].
  destruct H as [<-|H]; [file_by_file|].
  destruct H as [<-|H]; [file_by_file|].
  destruct H as [<-|H]; [file_by_file|].
  destruct H as [<-|H]; [file_by_file|].
  destruct H as [<-|H]; [file_by_file|].
  destruct H as [<-|H]; [file_by_file|].
  destruct H as [<-|H]; [file_by_file|].
  destruct H as [<-|H]; [file_by_file|].
  destruct H as [<-|H]; [file_by_file|].
  destruct H as [<-|H]; [|destruct H].
  apply validateGeneralPractices_file_by_file.
Qed.

Lemma validators_report_file_by_file_witness :
  violations (validateTransactions
                (bothContexts (oneFile "a.service.ts" multiTableWrite)
                              (oneFile "b.service.ts" transactionWrite)))
  = (violations (validateTransactions (oneFile "a.service.ts" multiTableWrite))
       ++ violations (validateTransactions (oneFile "b.service.ts" transactionWrite)))%list.
Proof.
  apply (validators_report_file_by_file ("transactions", validateTransactions)).
  unfold validatorsWithGeneral, validators. cbn [app In]. do 4 right. left. reflexivity.
Defined.

(** *** Passing and severities *)

Lemma countSeverity_zero (s : Severity) (vs : list Violation) :
  (countSeverity s vs =? 0) = true -> Forall (fun v => severity v <> s) vs.
Proof.
  unfold countSeverity. induction vs as [|v vs IH]; intro H; [constructor|].
  cbn [filter] in H. destruct (Severity_eqb (severity v) s) eqn:E; [discriminate H|].
  constructor; [|exact (IH H)].
  intro Heq. rewrite Heq in E. destruct s; discriminate E.
Qed.

Lemma no_violations_no_severity (s : Severity) (vs : list Violation) :
  (List.length vs =? 0) = true -> Forall (fun v => severity v <> s) vs.
Proof. destruct vs; [constructor | discriminate]. Qed.

Lemma validateAuditLogging_no_violations ctx : violations (validateAuditLogging ctx) = [].
Proof.
  assert (H : allFindings (fun _ => False) (fun _ => True) (validateAuditLogging_scan ctx)).
  { unfold validateAuditLogging_scan. apply allFindings_forEach. intros [? ?] ?.
    unfold auditedOperation. cbv zeta. walk idtac ltac:(exact I). }
  destruct H as [H _]. cbn [validateAuditLogging violations].
  destruct (found_violations (validateAuditLogging_scan ctx)) as [|v vs]; [reflexivity|].
  inversion H as [|? ? Hv]. destruct Hv.
Qed.

(** [passed] is the test [criticalViolations === 0], alone or with more *)
Ltac passes_without_critical :=
  let Hpass := fresh "Hpass" in
  intro Hpass; cbn [snd passed violations] in Hpass |- *;
  first [ apply countSeverity_zero; exact Hpass
        | apply no_violations_no_severity; exact Hpass
        | apply andb_prop in Hpass; apply countSeverity_zero; exact (proj1 Hpass) ].

(** X9.  A validator of the registry that passes has reported no critical
    violation, with one exception: [validateExceptionTypes], whose verdict
    is the ratio of exception throws alone. *)
Theorem passing_validator_reports_nothing_critical
        (entry : string * Validator) (ctx : ValidationContext) :
  In entry validatorsWithGeneral -> fst entry <> "exception-types" ->
  passed (snd entry ctx) = true ->
  Forall (fun v => severity v <> critical) (violations (snd entry ctx)).
Proof.
  unfold validatorsWithGeneral, validators. cbn [app In]. intros H Hname.
  destruct H as [<-|H]; [passes_without_critical|].
  destruct H as [<-|H]; [passes_without_critical|].
  destruct H as [<-|H]; [intros _; cbn [snd]; rewrite validateAuditLogging_no_violations;
                         constructor|].
  destruct H as [<-|H]; [passes_without_critical|].
  destruct H as [<-|H]; [passes_without_critical|].
  destruct H as [<-|H]; [passes_without_critical|].
  destruct H as [<-|H]; [exfalso; apply Hname; reflexivity|].
  destruct H as [<-|H]; [passes_without_critical|].
  destruct H as [<-|H]; [passes_without_critical|].
  destruct H as [<-|H]; [passes_without_critical|].
  destruct H as [<-|H]; [passes_without_critical|].
  destruct H as [<-|H]; [passes_without_critical|].
  destruct H as [<-|H]; [|destruct H].
  cbn [snd]. destruct (validateGeneralPractices_found ctx) as (found & _ & ->).
  passes_without_critical.
Qed.

Lemma passing_validator_reports_nothing_critical_witness :
  Forall (fun v => severity v <> critical)
    (violations (validateLogging (oneFile "auth.service.ts" logsPassword))).
Proof.
  apply (passing_validator_reports_nothing_critical ("logging", validateLogging)).
  - unfold validatorsWithGeneral, validators. cbn [app In]. do 7 right. left. reflexivity.
  - discriminate.
  - vm_compute. reflexivity.
Defined.

(** *** Clean results *)

Lemma flat_map_nil_inv {A B : Type} (f : A -> list B) (l : list A) (x : A) :
  flat_map f l = [] -> In x l -> f x = [].
Proof.
  induction l as [|y l IH]; intros H Hin; [destruct Hin|].
  cbn [flat_map] in H. apply app_eq_nil in H. destruct H as [H1 H2].
  destruct Hin as [<-|Hin]; [exact H1 | exact (IH H2 Hin)].
Qed.

Lemma In_indexed {A : Type} (l : list A) (x : A) : In x l -> exists i, In (i, x) (indexed l).
Proof.
  intro H. apply In_nth_error in H. destruct H as [i H]. exists (0 + i).
  apply indexed_from_In. exact H.
Qed.

(** every generic throw is reported *)
Lemma no_violation_no_generic_error ctx :
  found_violations (validateExceptionTypes_scan ctx) = [] ->
  forall l, In l (allLines ctx) -> throwsGenericError l = false.
Proof.
  unfold validateExceptionTypes_scan, allLines. rewrite forEach_violations.
  intros Hnone l Hl. apply in_flat_map in Hl. destruct Hl as [[fileName content] [Hfile Hl]].
  pose proof (flat_map_nil_inv _ _ _ Hnone Hfile) as Hfound. cbv beta iota zeta in Hfound.
  rewrite forEach_violations in Hfound.
  destruct (In_indexed _ _ Hl) as [index Hindex].
  pose proof (flat_map_nil_inv _ _ _ Hfound Hindex) as Hline. cbv beta iota zeta in Hline.
  cbn [andThen found_violations] in Hline. apply app_eq_nil in Hline.
  destruct Hline as [Hline _].
  destruct (throwsGenericError l); [discriminate Hline | reflexivity].
Qed.

Lemma validateExceptionTypes_clean ctx :
  violations (validateExceptionTypes ctx) = [] ->
  (score (validateExceptionTypes ctx) == 1)%Q /\ passed (validateExceptionTypes ctx) = true.
Proof.
  intro Hnone. cbn [validateExceptionTypes violations] in Hnone.
  pose proof (genericErrorCount_zero ctx (no_violation_no_generic_error ctx Hnone)) as Hzero.
  assert (Hone : (score (validateExceptionTypes ctx) == 1)%Q).
  { unfold validateExceptionTypes. cbv zeta. cbn [score]. rewrite Hzero, Nat.add_0_r.
    destruct (nestExceptionCount ctx =? 0) eqn:E; [reflexivity|].
    apply num_ratio_one. apply Nat.eqb_neq. exact E. }
  split; [exact Hone|].
  change (passed (validateExceptionTypes ctx))
    with (Qle_bool 0.9 (score (validateExceptionTypes ctx))).
  apply Qle_bool_iff. rewrite Hone. discriminate.
Qed.

(** a result with no violation and no warning: the score formulas of the
    validators all give 1 *)
Ltac clean_result :=
  let Hv := fresh "Hv" in
  let Hw := fresh "Hw" in
  cbn [snd];
  split;
  [ let Hfiles := fresh "Hfiles" in
    intro Hfiles;
    cbv delta [validateSupabaseAuth validateTenantIsolation validateAuditLogging
               validatePrismaQueries validateTransactions validateCodeSafetyPatterns
               validateExceptionTypes validateLogging validateExternalServicePatterns
               validateJobProcessing validateApiDesign validateCodeQuality
               validateSupabaseAuth_scan validateTenantIsolation_scan
               validateAuditLogging_scan validatePrismaQueries_scan
               validateTransactions_scan validateCodeSafetyPatterns_scan
               validateExceptionTypes_scan validateLogging_scan
               validateExternalServicePatterns_scan validateJobProcessing_scan
               validateApiDesign_scan validateCodeQuality_scan] beta zeta;
    cbn [violations warnings]; rewrite Hfiles; split; reflexivity
  | intro Hv;
    cbv delta [validateSupabaseAuth validateTenantIsolation validateAuditLogging
               validatePrismaQueries validateTransactions validateCodeSafetyPatterns
               validateLogging validateExternalServicePatterns
               validateJobProcessing validateApiDesign validateCodeQuality] beta zeta
      in Hv |- *;
    cbn [violations warnings score passed] in Hv |- *;
    split;
    [ try rewrite Hv; reflexivity
    | intro Hw; try rewrite Hv; try rewrite Hw; vm_compute; reflexivity ] ].

Lemma generalPracticesResult_clean (found : Findings) :
  found_violations found = [] ->
  passed (generalPracticesResult found) = true
  /\ (found_warnings found = [] -> (score (generalPracticesResult found) == 1)%Q).
Proof.
  intro Hv. unfold generalPracticesResult. cbv zeta. cbn [passed score]. rewrite Hv.
  split; [reflexivity|]. intro Hw. rewrite Hw. vm_compute. reflexivity.
Qed.

(** X10.  A context without files gets no violation and no warning from any
    validator of the registry; and whenever a validator reports no violation
    it passes, with the score 1 when it reports no warning either. *)
Theorem clean_result_passes (entry : string * Validator) (ctx : ValidationContext) :
  In entry validatorsWithGeneral ->
  let result := snd entry ctx in
  (fileContents ctx = [] -> violations result = [] /\ warnings result = [])
  /\ (violations result = [] ->
      passed result = true /\ (warnings result = [] -> (score result == 1)%Q)).
Proof.
  intro H. cbv zeta. unfold validatorsWithGeneral, validators in H. cbn [app In] in H.
  destruct H as [<-|H]; [clean_result|].
  destruct H as [<-|H]; [clean_result|].
  destruct H as [<-|H]; [clean_result|].
  destruct H as [<-|H]; [clean_result|].
  destruct H as [<-|H]; [clean_result|].
  destruct H as [<-|H]; [clean_result|].
  destruct H as [<-|H].
  { cbn [snd]. split.
    - intro Hfiles. unfold validateExceptionTypes, validateExceptionTypes_scan. cbv zeta.
      cbn [violations warnings]. rewrite Hfiles. split; reflexivity.
    - intro Hv. destruct (validateExceptionTypes_clean ctx Hv) as [Hs Hp].
      split; [exact Hp | intros _; exact Hs]. }
  destruct H as [<-|H]; [clean_result|].
  destruct H as [<-|H]; [clean_result|].
  destruct H as [<-|H]; [clean_result|].
  destruct H as [<-|H]; [clean_result|].
  destruct H as [<-|H]; [clean_result|].
  destruct H as [<-|H]; [|destruct H].
  cbn [snd]. split.
  - intro Hfiles. unfold validateGeneralPractices, validateGeneralPracticesWith, runGeneralRules.
    rewrite Hfiles. split; reflexivity.
  - destruct (validateGeneralPractices_found ctx) as (found & _ & ->).
    apply generalPracticesResult_clean.
Qed.

Lemma clean_result_passes_witness :
  passed (validateTransactions (oneFile "roleplay.service.ts" transactionWrite)) = true
  /\ (score (validateTransactions (oneFile "roleplay.service.ts" transactionWrite)) == 1)%Q.
Proof.
  assert (Hin : In ("transactions", validateTransactions) validatorsWithGeneral).
  { unfold validatorsWithGeneral, validators. cbn [app In]. do 4 right. left. reflexivity. }
  assert (Hv : violations (validateTransactions (oneFile "roleplay.service.ts" transactionWrite))
               = []) by (vm_compute; reflexivity).
  destruct (proj2 (clean_result_passes ("transactions", validateTransactions)
                     (oneFile "roleplay.service.ts" transactionWrite) Hin) Hv) as [Hp Hs].
  split; [exact Hp|]. apply Hs. vm_compute. reflexivity.
Defined.

End ValidatorProperties.

(* ================================================================== *)
(** * The correction engine: further properties *)
(* ================================================================== *)

Section CorrectionProperties.
Import Validators GeneralPractices SelfCorrection ValidatorExamples EngineExamples.
Import CorrectionNotions.
Import MetricsConfig (JsMap, Map_get, Map_has, Map_set).

(** *** The violations, grouped by rule *)

Lemma groupByRule_fold (all vs : list Violation) (m : JsMap (list Violation)) :
  incl vs all ->
  (forall k l, Map_get m k = Some l ->
               l <> [] /\ Forall (fun v => In v all /\ rule v = k) l) ->
  forall k l,
    Map_get (fold_left (fun m v =>
               let list := match Map_get m (rule v) with Some l => l | None => [] end in
               Map_set m (rule v) (list ++ [v])%list) vs m) k = Some l ->
    l <> [] /\ Forall (fun v => In v all /\ rule v = k) l.
Proof.
  revert m. induction vs as [|v vs IH]; intros m Hincl Hm; [exact Hm|].
  cbn [fold_left]. apply IH.
  - intros x Hx. apply Hincl. right. exact Hx.
  - intros k l. cbv zeta. rewrite Map_get_set.
    destruct (String.eqb (rule v) k) eqn:E.
    + intro H. injection H as <-. apply String.eqb_eq in E.
      split; [intro Hnil; apply app_eq_nil in Hnil; destruct Hnil as [_ Hnil];
              discriminate Hnil|].
      apply Forall_app. split.
      * destruct (Map_get m (rule v)) as [l0|] eqn:E0; [|constructor].
        rewrite <- E. exact (proj2 (Hm _ _ E0)).
      * constructor; [|constructor]. split; [apply Hincl; left; reflexivity | exact E].
    + apply Hm.
Qed.

Lemma groupByRule_sound (vs : list Violation) (k : string) (l : list Violation) :
  Map_get (groupByRule vs) k = Some l ->
  l <> [] /\ Forall (fun v => In v vs /\ rule v = k) l.
Proof.
  unfold groupByRule. apply groupByRule_fold; [apply incl_refl|].
  intros k0 l0 H. discriminate H.
Qed.

(** *** The fix patterns *)

Lemma applyPattern_answers (config : CorrectionConfig) (vs : list Violation)
      (state : string * list AppliedFix) (p : FixPattern) :
  In p FIX_PATTERNS ->
  Forall (fun applied => answersViolation config vs applied \/ importFix applied) (snd state) ->
  Forall (fun applied => answersViolation config vs applied \/ importFix applied)
         (snd (applyPattern config (groupByRule vs) state p)).
Proof.
  intros Hp Hstate. unfold applyPattern. destruct state as [corrected0 fixes].
  cbn [snd] in Hstate.
  destruct (optIncludes (skipRules config) (fp_rule p)) eqn:Hskip; [exact Hstate|].
  destruct (match fixRules config with Some l => negb (mem (fp_rule p) l) | None => false end)
    eqn:Hfix; [exact Hstate|].
  destruct (negb (Map_has (groupByRule vs) (fp_rule p))); [exact Hstate|].
  destruct (negb (String.eqb corrected0 (replaceAll (pattern p) (replacement p) corrected0)));
    [|exact Hstate].
  cbn [snd]. apply Forall_app. split; [exact Hstate|].
  destruct (Map_get (groupByRule vs) (fp_rule p)) as [l|] eqn:E; [|constructor].
  destruct (groupByRule_sound vs _ _ E) as [_ Hl].
  apply Forall_forall. intros applied Hin. apply in_map_iff in Hin.
  destruct Hin as (v & <- & Hv). left.
  destruct (proj1 (Forall_forall _ _) Hl v Hv) as [Hin Hrule].
  unfold answersViolation. cbn [af_rule af_line description].
  split; [exists v; split; [exact Hin | split; [exact Hrule | reflexivity]]|].
  split; [exists p; split; [exact Hp | split; reflexivity]|].
  split; [exact Hskip|].
  intros l0 Hl0. rewrite Hl0 in Hfix. apply negb_false_iff in Hfix. exact Hfix.
Qed.

Lemma fold_applyPattern_answers (config : CorrectionConfig) (vs : list Violation)
      (ps : list FixPattern) (state : string * list AppliedFix) :
  incl ps FIX_PATTERNS ->
  Forall (fun applied => answersViolation config vs applied \/ importFix applied) (snd state) ->
  Forall (fun applied => answersViolation config vs applied \/ importFix applied)
         (snd (fold_left (applyPattern config (groupByRule vs)) ps state)).
Proof.
  revert state. induction ps as [|p ps IH]; intros state Hincl Hstate; [exact Hstate|].
  cbn [fold_left]. apply IH.
  - intros x Hx. apply Hincl. right. exact Hx.
  - apply applyPattern_answers; [apply Hincl; left; reflexivity | exact Hstate].
Qed.

Lemma applyPattern_recorded (config : CorrectionConfig) (vs : list Violation)
      (content : string) (state : string * list AppliedFix) (p : FixPattern) :
  (snd state = [] -> fst state = content) ->
  snd (applyPattern config (groupByRule vs) state p) = [] ->
  fst (applyPattern config (groupByRule vs) state p) = content.
Proof.
  intro Hstate. unfold applyPattern. destruct state as [corrected0 fixes].
  cbn [fst snd] in Hstate.
  destruct (optIncludes (skipRules config) (fp_rule p)); [exact Hstate|].
  destruct (match fixRules config with Some l => negb (mem (fp_rule p) l) | None => false end);
    [exact Hstate|].
  unfold Map_has.
  destruct (Map_get (groupByRule vs) (fp_rule p)) as [l|] eqn:E; [|exact Hstate].
  cbn [negb].
  destruct (String.eqb corrected0 (replaceAll (pattern p) (replacement p) corrected0)) eqn:Eq;
    cbn [negb fst snd].
  - apply String.eqb_eq in Eq. rewrite <- Eq. exact Hstate.
  - intro Hnil. apply app_eq_nil in Hnil. destruct Hnil as [_ Hnil].
    destruct (groupByRule_sound vs _ _ E) as [Hne _].
    destruct l; [contradiction Hne; reflexivity | discriminate Hnil].
Qed.

Lemma fold_applyPattern_recorded (config : CorrectionConfig) (vs : list Violation)
      (content : string) (ps : list FixPattern) (state : string * list AppliedFix) :
  (snd state = [] -> fst state = content) ->
  snd (fold_left (applyPattern config (groupByRule vs)) ps state) = [] ->
  fst (fold_left (applyPattern config (groupByRule vs)) ps state) = content.
Proof.
  revert state. induction ps as [|p ps IH]; intros state Hstate; [exact Hstate|].
  cbn [fold_left]. apply IH. apply applyPattern_recorded. exact Hstate.
Qed.

(** *** The import stage *)

Lemma addImport_answers (config : CorrectionConfig) (vs : list Violation)
      (st : ImportState) (entry : string * string) :
  Forall (fun applied => answersViolation config vs applied \/ importFix applied) (is_appliedFixes st) ->
  Forall (fun applied => answersViolation config vs applied \/ importFix applied)
         (is_appliedFixes (addImport st entry)).
Proof.
  intro Hst. unfold addImport. destruct entry as [exceptionName importStatement].
  destruct (includes exceptionName (is_corrected st)
            && negb (includes importStatement (is_corrected st))); [|exact Hst].
  destruct (exec _ (is_corrected st)) as [existingImport|]; [|exact Hst].
  destruct (negb (mem exceptionName _)); [|exact Hst].
  cbn [is_appliedFixes]. apply Forall_app. split; [exact Hst|].
  constructor; [|constructor]. right. split; reflexivity.
Qed.

Lemma fold_addImport_answers (config : CorrectionConfig) (vs : list Violation)
      (entries : list (string * string)) (st : ImportState) :
  Forall (fun applied => answersViolation config vs applied \/ importFix applied) (is_appliedFixes st) ->
  Forall (fun applied => answersViolation config vs applied \/ importFix applied)
         (is_appliedFixes (fold_left addImport entries st)).
Proof.
  revert st. induction entries as [|e entries IH]; intros st Hst; [exact Hst|].
  cbn [fold_left]. apply IH. apply addImport_answers. exact Hst.
Qed.

Lemma addImport_recorded (content : string) (st : ImportState) (entry : string * string) :
  (is_appliedFixes st = [] -> is_corrected st = content) ->
  is_appliedFixes (addImport st entry) = [] -> is_corrected (addImport st entry) = content.
Proof.
  intro Hst. unfold addImport. destruct entry as [exceptionName importStatement].
  destruct (includes exceptionName (is_corrected st)
            && negb (includes importStatement (is_corrected st))); [|exact Hst].
  destruct (exec _ (is_corrected st)) as [existingImport|]; [|exact Hst].
  destruct (negb (mem exceptionName _)); [|exact Hst].
  cbn [is_appliedFixes]. intro Hnil. apply app_eq_nil in Hnil. destruct Hnil as [_ Hnil].
  discriminate Hnil.
Qed.

Lemma fold_addImport_recorded (content : string) (entries : list (string * string))
      (st : ImportState) :
  (is_appliedFixes st = [] -> is_corrected st = content) ->
  is_appliedFixes (fold_left addImport entries st) = [] ->
  is_corrected (fold_left addImport entries st) = content.
Proof.
  revert st. induction entries as [|e entries IH]; intros st Hst; [exact Hst|].
  cbn [fold_left]. apply IH. apply addImport_recorded. exact Hst.
Qed.

(** [applyFixes], stage by stage *)
Lemma applyFixes_stages registry content vs config :
  exists (patterns : string * list AppliedFix) (st : ImportState),
    patterns = fold_left (applyPattern config (groupByRule vs)) FIX_PATTERNS (content, [])
    /\ st = fold_left addImport IMPORT_FIXES
              {| is_corrected := fst patterns; is_appliedFixes := snd patterns;
                 is_neededImports := [] |}
    /\ ((is_neededImports st = []
         /\ corrected (applyFixes registry content vs config) = is_corrected st
         /\ appliedFixes (applyFixes registry content vs config) = is_appliedFixes st)
        \/ (exists after,
              appliedFixes (applyFixes registry content vs config)
              = (is_appliedFixes st
                   ++ [ {| af_rule := "INV-IMPORT"; af_line := 1;
                           description := "Add missing imports";
                           before := ""; after := after |} ])%list)).
Proof.
  unfold applyFixes.
  destruct (fold_left (applyPattern config (groupByRule vs)) FIX_PATTERNS (content, []))
    as [c a] eqn:E.
  exists (c, a). eexists. split; [reflexivity|]. split; [reflexivity|].
  cbn [fst snd].
  destruct (is_neededImports _) as [|needed rest].
  - left. split; [reflexivity|]. split; reflexivity.
  - right. eexists. reflexivity.
Qed.

(** X11.  Every fix [applyFixes] records either comes from the import stage
    (rule INV-IMPORT, line 1) or answers a violation it was given: it carries
    the rule and the line of that violation and the description of a fix
    pattern of that rule, the rule is not in [skipRules], and it is in
    [fixRules] when that list is given.  With no violation given, only the
    import stage can record a fix. *)
Theorem applyFixes_answers_violations
        (registry : list (string * Validator)) (content : string)
        (violations : list Violation) (config : CorrectionConfig) :
  Forall (fun applied => answersViolation config violations applied \/ importFix applied)
         (appliedFixes (applyFixes registry content violations config))
  /\ (violations = [] ->
      Forall importFix (appliedFixes (applyFixes registry content violations config))).
Proof.
  assert (Hall : Forall (fun applied => answersViolation config violations applied \/ importFix applied)
                   (appliedFixes (applyFixes registry content violations config))).
  { destruct (applyFixes_stages registry content violations config)
      as (patterns & st & Hpatterns & Hst & Hend).
    assert (Hfixes : Forall (fun applied => answersViolation config violations applied \/ importFix applied)
                       (is_appliedFixes st)).
    { rewrite Hst. apply fold_addImport_answers. cbn [is_appliedFixes]. rewrite Hpatterns.
      apply fold_applyPattern_answers; [apply incl_refl | constructor]. }
    destruct Hend as [(_ & _ & ->)|[after ->]]; [exact Hfixes|].
    apply Forall_app. split; [exact Hfixes|].
    constructor; [|constructor]. right. split; reflexivity. }
  split; [exact Hall|].
  intros ->. apply Forall_forall. intros applied Hin.
  destruct (proj1 (Forall_forall _ _) Hall applied Hin) as [((v & Hv & _) & _)|H];
    [destruct Hv | exact H].
Qed.

Lemma applyFixes_answers_violations_witness :
  Forall importFix (appliedFixes (applyFixes validators "const x = 1;" [] defaultConfig)).
Proof.
  apply (proj2 (applyFixes_answers_violations validators "const x = 1;" [] defaultConfig)).
  reflexivity.
Defined.

Lemma applyFixes_recorded registry content vs config :
  appliedFixes (applyFixes registry content vs config) = [] ->
  corrected (applyFixes registry content vs config) = content.
Proof.
  destruct (applyFixes_stages registry content vs config)
    as (patterns & st & Hpatterns & Hst & Hend).
  destruct Hend as [(_ & -> & ->)|[after ->]].
  - rewrite Hst. apply fold_addImport_recorded. cbn [is_appliedFixes is_corrected].
    rewrite Hpatterns. apply fold_applyPattern_recorded. intros _. reflexivity.
  - intro Hnil. apply app_eq_nil in Hnil. destruct Hnil as [_ Hnil]. discriminate Hnil.
Qed.

(** X12.  [applyFixes] changes nothing silently: when it records no fix, the
    corrected text is the text it was given; so a change of the text always
    comes with at least one [AppliedFix]. *)
Theorem applyFixes_records_every_change
        (registry : list (string * Validator)) (content : string)
        (violations : list Violation) (config : CorrectionConfig) :
  (appliedFixes (applyFixes registry content violations config) = [] ->
   corrected (applyFixes registry content violations config) = content)
  /\ (corrected (applyFixes registry content violations config) <> content ->
      appliedFixes (applyFixes registry content violations config) <> []).
Proof.
  split.
  - apply applyFixes_recorded.
  - intros Hchanged Hnil. apply Hchanged. apply applyFixes_recorded. exact Hnil.
Qed.

Lemma applyFixes_records_every_change_witness :
  corrected (applyFixes validators unfixable
               (validateAll validators "file.ts" unfixable) defaultConfig)
  = unfixable.
Proof.
  apply (proj1 (applyFixes_records_every_change validators unfixable
                  (validateAll validators "file.ts" unfixable) defaultConfig)).
  vm_compute. reflexivity.
Defined.

(** *** The history of a run *)

Lemma contentAfter_app (start : string) (h1 h2 : list CorrectionResult) :
  contentAfter start (h1 ++ h2) = contentAfter (contentAfter start h1) h2.
Proof. unfold contentAfter. apply fold_left_app. Qed.

Lemma correctionLoop_chain registry config (fuel : nat)
      (i : nat) (c : string) (vs : list Violation) (h : list CorrectionResult)
      (final : LoopState) :
  correctionLoop registry config fuel
    {| ls_iterations := i; currentContent := c; allViolations := vs; ls_history := h |}
  = Some final ->
  exists new,
    ls_history final = (h ++ new)%list
    /\ chained c new
    /\ currentContent final = contentAfter c new.
Proof.
  revert i c vs h. induction fuel as [|fuel IH]; intros i c vs h Hrun.
  - destruct (loopGoesOn config
                {| ls_iterations := i; currentContent := c; allViolations := vs;
                   ls_history := h |}) eqn:Hgo.
    + rewrite (correctionLoop_O registry config _ Hgo) in Hrun. discriminate Hrun.
    + rewrite (correctionLoop_stop registry config 0 _ Hgo) in Hrun. injection Hrun as <-.
      exists []. rewrite app_nil_r. split; [reflexivity|]. split; [exact I | reflexivity].
  - destruct (loopGoesOn config
                {| ls_iterations := i; currentContent := c; allViolations := vs;
                   ls_history := h |}) eqn:Hgo.
    + rewrite (correctionLoop_S registry config fuel _ Hgo) in Hrun.
      unfold nextState, stuckState in Hrun.
      cbn [ls_iterations currentContent allViolations ls_history] in Hrun.
      remember (applyFixes registry c vs config) as result eqn:Hresult.
      assert (Horiginal : original result = c)
        by (rewrite Hresult; apply applyFixes_original).
      destruct (List.length (appliedFixes result) =? 0) eqn:Hzero.
      * injection Hrun as <-.
        assert (Hsame : corrected result = c).
        { rewrite Hresult. apply applyFixes_recorded. rewrite <- Hresult.
          apply length_zero_nil. exact Hzero. }
        exists [result]. split; [reflexivity|]. split.
        -- split; [exact Horiginal|].
           split; [intro H; contradiction H; reflexivity | exact I].
        -- symmetry. exact Hsame.
      * destruct (IH (i + 1) (corrected result) (remainingViolations result)
                     (h ++ [result])%list Hrun)
          as (new & Hhist & Hchain & Hcontent).
        exists (result :: new). split; [rewrite Hhist, <- app_assoc; reflexivity|].
        split.
        -- split; [exact Horiginal|]. split; [|exact Hchain].
           intros _ Hnil. rewrite Hnil in Hzero. discriminate Hzero.
        -- exact Hcontent.
    + rewrite (correctionLoop_stop registry config _ _ Hgo) in Hrun. injection Hrun as <-.
      exists []. rewrite app_nil_r. split; [reflexivity|]. split; [exact I | reflexivity].
Qed.

(** X13.  [runCorrectionLoop] returns whenever [maxIterations] is not
    [Infinity], and the history of a run that returns is a chain: its first
    entry starts from the input, every entry starts from the corrected text of
    the entry before it, only the last entry can be without a fix, and the
    final content is the corrected text of the last entry (the input when
    there is no entry).  The run reports success exactly when no violation is
    left. *)
Theorem runCorrectionLoop_history_is_a_chain
        (registry : list (string * Validator)) (content : string) (config : CorrectionConfig) :
  (maxIterations config <> PosInfinity ->
   exists fuel r, runCorrectionLoop registry content config fuel = Some r)
  /\ (forall fuel r,
         runCorrectionLoop registry content config fuel = Some r ->
         chained content (correctionHistory r)
         /\ finalContent r = contentAfter content (correctionHistory r)
         /\ (success r = true <-> finalViolations r = 0)).
Proof.
  split.
  - intro Hcap.
    assert (Hturns : exists n, turnsAllowed (maxIterations config) = Some n).
    { destruct (maxIterations config) as [q| | |];
        [eexists; reflexivity | contradiction Hcap; reflexivity
         | eexists; reflexivity | eexists; reflexivity]. }
    destruct Hturns as [n Hturns].
    destruct (correctionLoop_returns registry config n n
                {| ls_iterations := 0; currentContent := content;
                   allViolations := validateAll registry "file.ts" content;
                   ls_history := [] |} Hturns) as [final Hloop];
      [cbn [ls_iterations]; lia|].
    exists n. unfold runCorrectionLoop. rewrite Hloop. eexists. reflexivity.
  - intros fuel r Hrun. unfold runCorrectionLoop in Hrun.
    destruct (correctionLoop registry config fuel _) as [final|] eqn:Hloop;
      [|discriminate Hrun].
    injection Hrun as <-. cbn [correctionHistory finalContent success finalViolations].
    destruct (correctionLoop_chain registry config fuel 0 content
                (validateAll registry "file.ts" content) [] final Hloop)
      as (new & Hhist & Hchain & Hcontent).
    change ([] ++ new)%list with new in Hhist.
    rewrite Hhist. split; [exact Hchain|]. split; [exact Hcontent|].
    apply Nat.eqb_eq.
Qed.

(** The run with one iteration allowed on the file with the look-ahead
    window: one entry, from the input to the final content. *)
Lemma runCorrectionLoop_history_is_a_chain_witness :
  exists r,
    runCorrectionLoop validators shiftingWindow oneIteration 1 = Some r
    /\ chained shiftingWindow (correctionHistory r)
    /\ finalContent r = contentAfter shiftingWindow (correctionHistory r).
Proof.
  destruct (runCorrectionLoop validators shiftingWindow oneIteration 1) as [r|] eqn:Hrun;
    [|vm_compute in Hrun; discriminate Hrun].
  exists r. split; [reflexivity|].
  destruct (proj2 (runCorrectionLoop_history_is_a_chain validators shiftingWindow
                     oneIteration) 1 r Hrun) as (H1 & H2 & _).
  split; [exact H1 | exact H2].
Defined.

Lemma applyPattern_reads (c1 c2 : CorrectionConfig) g state p :
  fixRules c1 = fixRules c2 -> skipRules c1 = skipRules c2 ->
  applyPattern c1 g state p = applyPattern c2 g state p.
Proof. intros H1 H2. unfold applyPattern. rewrite H1, H2. reflexivity. Qed.

Lemma fold_applyPattern_reads (c1 c2 : CorrectionConfig) g ps state :
  fixRules c1 = fixRules c2 -> skipRules c1 = skipRules c2 ->
  fold_left (applyPattern c1 g) ps state = fold_left (applyPattern c2 g) ps state.
Proof.
  intros H1 H2. revert state. induction ps as [|p ps IH]; intro state; [reflexivity|].
  cbn [fold_left]. rewrite (applyPattern_reads c1 c2 g state p H1 H2). apply IH.
Qed.

Lemma applyFixes_reads registry content vs (c1 c2 : CorrectionConfig) :
  fixRules c1 = fixRules c2 -> skipRules c1 = skipRules c2 ->
  applyFixes registry content vs c1 = applyFixes registry content vs c2.
Proof.
  intros H1 H2. unfold applyFixes.
  rewrite (fold_applyPattern_reads c1 c2 _ _ _ H1 H2). reflexivity.
Qed.

Lemma correctionLoop_reads registry (c1 c2 : CorrectionConfig) fuel st :
  maxIterations c1 = maxIterations c2 ->
  fixRules c1 = fixRules c2 -> skipRules c1 = skipRules c2 ->
  correctionLoop registry c1 fuel st = correctionLoop registry c2 fuel st.
Proof.
  intros H0 H1 H2. revert st. induction fuel as [|fuel IH]; intro st.
  - cbn [correctionLoop]. rewrite H0. reflexivity.
  - cbn [correctionLoop]. rewrite H0.
    rewrite (applyFixes_reads registry (currentContent st) (allViolations st) c1 c2 H1 H2).
    destruct (countBelow _ _ && _); [|reflexivity].
    destruct (List.length (appliedFixes _) =? 0); [reflexivity|]. apply IH.
Qed.

Lemma notPositive_countBelow (x : JsNumber) : notPositive x -> countBelow 0 x = false.
Proof.
  destruct x as [q| | |]; cbn [notPositive countBelow]; intro H;
    [|contradiction|reflexivity|reflexivity].
  apply negb_false_iff. apply Qle_bool_iff. exact H.
Qed.

(** X14.  [runCorrectionLoop] does nothing when no validator reports a
    violation or when [maxIterations] is not positive (at most 0, [NaN] or
    [-Infinity]): it returns at once, with no iteration, an empty history, and
    the input as final content.  The [autoFix] field of the configuration is
    never read: two configurations that differ in it only give the same
    run. *)
Theorem runCorrectionLoop_nothing_to_do
        (registry : list (string * Validator)) (content : string) (config : CorrectionConfig) :
  (validateAll registry "file.ts" content = [] \/ notPositive (maxIterations config) ->
   forall fuel,
   exists r,
     runCorrectionLoop registry content config fuel = Some r
     /\ iterations r = 0 /\ correctionHistory r = [] /\ finalContent r = content
     /\ finalViolations r = initialViolations r)
  /\ (forall config' fuel,
         maxIterations config' = maxIterations config ->
         fixRules config' = fixRules config -> skipRules config' = skipRules config ->
         runCorrectionLoop registry content config' fuel
         = runCorrectionLoop registry content config fuel).
Proof.
  split.
  - intros H fuel.
    assert (Hstop : loopGoesOn config
                      {| ls_iterations := 0; currentContent := content;
                         allViolations := validateAll registry "file.ts" content;
                         ls_history := [] |} = false).
    { unfold loopGoesOn. cbn [ls_iterations allViolations]. destruct H as [H|H].
      - rewrite H. apply andb_false_r.
      - rewrite (notPositive_countBelow _ H). reflexivity. }
    unfold runCorrectionLoop. rewrite (correctionLoop_stop registry config fuel _ Hstop).
    eexists. split; [reflexivity|].
    split; [reflexivity|]. split; [reflexivity|]. split; reflexivity.
  - intros config' fuel Hmax Hfix Hskip. unfold runCorrectionLoop.
    rewrite (correctionLoop_reads registry config' config fuel _ Hmax Hfix Hskip).
    reflexivity.
Qed.

Lemma runCorrectionLoop_nothing_to_do_witness :
  exists r,
    runCorrectionLoop validators "const x = 1;" defaultConfig 0 = Some r
    /\ iterations r = 0 /\ finalContent r = "const x = 1;".
Proof.
  assert (H : validateAll validators "file.ts" "const x = 1;" = [])
    by (vm_compute; reflexivity).
  destruct (proj1 (runCorrectionLoop_nothing_to_do validators "const x = 1;" defaultConfig)
              (or_introl H) 0) as (r & Hrun & H1 & _ & H2 & _).
  exists r. split; [exact Hrun|]. split; [exact H1 | exact H2].
Defined.

End CorrectionProperties.

(* ================================================================== *)
(** * Suggestions and the validation of generated code: properties *)
(* ================================================================== *)

Section SuggestionProperties.
Import Validators Suggestions.

Lemma mem_In (x : string) (l : list string) : mem x l = true <-> In x l.
Proof.
  unfold mem. rewrite existsb_exists. split.
  - intros (y & Hy & E). apply String.eqb_eq in E. subst y. exact Hy.
  - intro H. exists x. split; [exact H | apply String.eqb_refl].
Qed.

Lemma mem_not_In (x : string) (l : list string) : mem x l = false <-> ~ In x l.
Proof.
  rewrite <- mem_In. destruct (mem x l); split; intro H.
  - discriminate H.
  - exfalso. apply H. reflexivity.
  - intro H0. discriminate H0.
  - reflexivity.
Qed.

Lemma suggestionFor_rule (v : Violation) (s : Suggestion) :
  In s (suggestionFor v) -> s_rule s = rule v.
Proof.
  unfold suggestionFor.
  repeat match goal with
         | |- In _ (if ?c then _ else _) -> _ => destruct c
         end;
    try (intros [<-|[]]; reflexivity).
  destruct (fix_ v) as [hint|]; [|intros []].
  destruct (String.eqb hint ""); [intros [] | intros [<-|[]]; reflexivity].
Qed.

Lemma dedupeByRule_spec (seen : list string) (l : list Suggestion) :
  NoDup (map s_rule (dedupeByRule seen l))
  /\ (forall s, In s (dedupeByRule seen l) -> In s l /\ ~ In (s_rule s) seen)
  /\ (forall s, In s l -> ~ In (s_rule s) seen ->
                In (s_rule s) (map s_rule (dedupeByRule seen l))).
Proof.
  revert seen. induction l as [|s l IH]; intro seen.
  - split; [constructor|]. split; [intros s []|intros s []].
  - cbn [dedupeByRule]. destruct (mem (s_rule s) seen) eqn:E.
    + destruct (IH seen) as (H1 & H2 & H3). split; [exact H1|]. split.
      * intros x Hx. destruct (H2 x Hx) as [Hin Hseen]. split; [right; exact Hin | exact Hseen].
      * intros x [<-|Hx] Hseen.
        -- exfalso. apply Hseen. apply mem_In. exact E.
        -- exact (H3 x Hx Hseen).
    + apply mem_not_In in E.
      destruct (IH (s_rule s :: seen)) as (H1 & H2 & H3). split; [|split].
      * cbn [map]. constructor; [|exact H1].
        intro Hin. apply in_map_iff in Hin. destruct Hin as (x & Hx & Hin).
        destruct (H2 x Hin) as [_ Hseen]. apply Hseen. left. symmetry. exact Hx.
      * intros x [<-|Hx]; [split; [left; reflexivity | exact E]|].
        destruct (H2 x Hx) as [Hin Hseen]. split; [right; exact Hin|].
        intro H. apply Hseen. right. exact H.
      * intros x Hx Hseen. cbn [map].
        destruct (string_dec (s_rule s) (s_rule x)) as [Heq|Hne]; [left; exact Heq|].
        right. destruct Hx as [<-|Hx]; [contradiction Hne; reflexivity|].
        apply (H3 x Hx). intros [H|H]; [exact (Hne H) | exact (Hseen H)].
Qed.

(** X15.  [generateSuggestions] gives at most one suggestion per rule: the
    rules of the suggestions are pairwise different, every suggestion is the
    one the [switch] produces for some violation of its rule, and every
    violation for which the [switch] produces a suggestion has its rule among
    the suggestions. *)
Theorem generateSuggestions_one_per_rule (violations : list Violation) :
  NoDup (map s_rule (generateSuggestions violations))
  /\ (forall s, In s (generateSuggestions violations) ->
                exists v, In v violations /\ rule v = s_rule s /\ In s (suggestionFor v))
  /\ (forall v, In v violations -> suggestionFor v <> [] ->
                In (rule v) (map s_rule (generateSuggestions violations))).
Proof.
  unfold generateSuggestions. cbv zeta.
  destruct (dedupeByRule_spec [] (flat_map suggestionFor violations)) as (H1 & H2 & H3).
  split; [exact H1|]. split.
  - intros s Hs. destruct (H2 s Hs) as [Hin _]. apply in_flat_map in Hin.
    destruct Hin as (v & Hv & Hsv). exists v. split; [exact Hv|].
    split; [symmetry; exact (suggestionFor_rule v s Hsv) | exact Hsv].
  - intros v Hv Hne. destruct (suggestionFor v) as [|s rest] eqn:E; [contradiction Hne; reflexivity|].
    assert (Hs : In s (suggestionFor v)) by (rewrite E; left; reflexivity).
    rewrite <- (suggestionFor_rule v s Hs). apply H3.
    + apply in_flat_map. exists v. split; [exact Hv | exact Hs].
    + intros [].
Qed.

Lemma generateSuggestions_one_per_rule_witness :
  In "INV-PRISMA-TRANSACTION"
     (map s_rule (generateSuggestions
                    [ValidatorExamples.transactionViolation "a.ts" "x"
                       {| m_index := 0; m_end := 0; m_text := ""; m_groups := [];
                          m_after := MState None EmptyString 0 [] |}])).
Proof.
  apply (proj2 (proj2 (generateSuggestions_one_per_rule
                         [ValidatorExamples.transactionViolation "a.ts" "x"
                            {| m_index := 0; m_end := 0; m_text := ""; m_groups := [];
                               m_after := MState None EmptyString 0 [] |}]))
           (ValidatorExamples.transactionViolation "a.ts" "x"
              {| m_index := 0; m_end := 0; m_text := ""; m_groups := [];
                 m_after := MState None EmptyString 0 [] |})).
  - left. reflexivity.
  - vm_compute. discriminate.
Defined.

End SuggestionProperties.

Section ClaudeProperties.
Import Validators ClaudeCodeValidator ClaudeNotions.
Import MetricsConfig (JsMap, Map_get, Map_has, Map_set, METRIC_DEFINITIONS, getMetricByName,
                      Qlt_bool).
Import GeneralPractices (Completion, Normal, Throw, bind).

(** *** Validator selection *)

Lemma unique_fold (l acc : list string) :
  NoDup acc ->
  NoDup (fold_left (fun acc x => if mem x acc then acc else (acc ++ [x])%list) l acc)
  /\ forall x, In x (fold_left (fun acc x => if mem x acc then acc else (acc ++ [x])%list) l acc)
               <-> In x acc \/ In x l.
Proof.
  revert acc. induction l as [|y l IH]; intros acc Hacc.
  - split; [exact Hacc|]. intro x. cbn. tauto.
  - cbn [fold_left]. destruct (mem y acc) eqn:E.
    + destruct (IH acc Hacc) as [H1 H2]. split; [exact H1|].
      intro x. rewrite H2. apply mem_In in E. cbn [In]. split; [tauto|].
      intros [H|[<-|H]]; tauto.
    + apply mem_not_In in E.
      assert (Hnd : NoDup (acc ++ [y])).
      { apply NoDup_app; [exact Hacc | repeat constructor; intros [] |].
        intros a Ha [<-|[]]. exact (E Ha). }
      destruct (IH _ Hnd) as [H1 H2]. split; [exact H1|].
      intro x. rewrite H2, in_app_iff. cbn [In]. tauto.
Qed.

Lemma unique_spec (l : list string) :
  NoDup (unique l) /\ forall x, In x (unique l) <-> In x l.
Proof.
  unfold unique. destruct (unique_fold l [] (NoDup_nil _)) as [H1 H2].
  split; [exact H1|]. intro x. rewrite H2. cbn. tauto.
Qed.

(** what is asked of a selection, as a computation on the list pushed *)
Lemma selection_ok (pushed : list string) :
  mem "code-quality" pushed = true ->
  forallb (fun n => mem n [ "supabase-auth"; "tenant-isolation"; "audit-logging";
                            "prisma-queries"; "transactions"; "code-safety";
                            "exception-types"; "logging"; "external-services";
                            "job-processing"; "api-design"; "code-quality" ])
          pushed = true ->
  unique pushed <> [] /\ NoDup (unique pushed) /\ In "code-quality" (unique pushed)
  /\ (forall n, In n (unique pushed) ->
                Map_has validators n = true /\ getMetricByName n <> None)
  /\ (forall n, In n (unique pushed) -> mem n inheritedNames = false).
Proof.
  intros Hq Hall. destruct (unique_spec pushed) as [Hnd Hin].
  assert (Hcq : In "code-quality" (unique pushed)) by (apply Hin, mem_In; exact Hq).
  split; [intro H; rewrite H in Hcq; destruct Hcq|].
  split; [exact Hnd|]. split; [exact Hcq|].
  rewrite forallb_forall in Hall. split.
  - intros n Hn. apply Hin in Hn.
    specialize (Hall n Hn). apply mem_In in Hall. cbn [In] in Hall.
    repeat (destruct Hall as [<-|Hall]; [split; [reflexivity | discriminate]|]).
    destruct Hall.
  - intros n Hn. apply Hin in Hn.
    specialize (Hall n Hn). apply mem_In in Hall. cbn [In] in Hall.
    repeat (destruct Hall as [<-|Hall]; [reflexivity|]).
    destruct Hall.
Qed.

Lemma selection_cases (filename : string) :
  exists pushed,
    selectValidatorsForFile filename = unique pushed
    /\ mem "code-quality" pushed = true
    /\ forallb (fun n => mem n [ "supabase-auth"; "tenant-isolation"; "audit-logging";
                                 "prisma-queries"; "transactions"; "code-safety";
                                 "exception-types"; "logging"; "external-services";
                                 "job-processing"; "api-design"; "code-quality" ])
               pushed = true.
Proof.
  unfold selectValidatorsForFile.
  generalize (endsWith ".service.ts" filename), (endsWith ".controller.ts" filename),
    (includes "processor" filename), (includes "consumer" filename),
    (includes "/dto/" filename), (includes "repository" filename),
    (includes "guard" filename).
  intros [|] [|] [|] [|] [|] [|] [|];
    cbv beta iota zeta; eexists; (split; [reflexivity | split; reflexivity]).
Qed.

(** no name selected for a file is a property that objects inherit *)
Lemma selected_not_inherited (filename : string) (n : string) :
  In n (selectValidatorsForFile filename) -> mem n inheritedNames = false.
Proof.
  destruct (selection_cases filename) as (pushed & -> & Hq & Hall).
  exact (proj2 (proj2 (proj2 (proj2 (selection_ok pushed Hq Hall)))) n).
Qed.

(** X16.  Whatever the file name, [selectValidatorsForFile] selects at least
    one validator, none twice, always [code-quality], and only names that are
    keys of the registry and metrics of the catalogue. *)
Theorem selectValidatorsForFile_selection (filename : string) :
  selectValidatorsForFile filename <> []
  /\ NoDup (selectValidatorsForFile filename)
  /\ In "code-quality" (selectValidatorsForFile filename)
  /\ (forall n, In n (selectValidatorsForFile filename) ->
                Map_has validators n = true /\ getMetricByName n <> None).
Proof.
  unfold selectValidatorsForFile.
  generalize (endsWith ".service.ts" filename), (endsWith ".controller.ts" filename),
    (includes "processor" filename), (includes "consumer" filename),
    (includes "/dto/" filename), (includes "repository" filename),
    (includes "guard" filename).
  intros [|] [|] [|] [|] [|] [|] [|];
    cbv beta iota zeta;
    (assert (Hok := fun pushed Hq Hall =>
                      let H := selection_ok pushed Hq Hall in
                      conj (proj1 H)
                        (conj (proj1 (proj2 H))
                           (conj (proj1 (proj2 (proj2 H)))
                              (proj1 (proj2 (proj2 (proj2 H))))))));
    apply Hok; reflexivity.
Qed.

Lemma selectValidatorsForFile_selection_witness :
  Map_has validators "code-quality" = true /\ getMetricByName "code-quality" <> None.
Proof.
  destruct (selectValidatorsForFile_selection "src/users/users.service.ts")
    as (_ & _ & Hin & Hall).
  exact (Hall "code-quality" Hin).
Defined.

(** *** The loop over the validators *)

Lemma collectViolation_fold (result : ValidationResult) (isBlocker : bool)
      (vs : list Violation) (bs ws : list ClaudeViolation) :
  fold_left (collectViolation result isBlocker) vs (bs, ws)
  = ((bs ++ map (asClaudeViolation result)
              (filter (fun v => isBlocker || Severity_eqb (severity v) critical) vs))%list,
     (ws ++ map (asClaudeViolation result)
              (filter (fun v => negb (isBlocker || Severity_eqb (severity v) critical)) vs))%list).
Proof.
  revert bs ws. induction vs as [|v vs IH]; intros bs ws.
  - cbn. rewrite !app_nil_r. reflexivity.
  - cbn [fold_left collectViolation filter].
    destruct (isBlocker || Severity_eqb (severity v) critical); cbn [negb map];
      rewrite IH, <- ?app_assoc; reflexivity.
Qed.

Lemma collectWarnings_fold (result : ValidationResult) (l : list Warning)
      (ws : list ClaudeViolation) :
  fold_left (fun ws w => (ws ++ [asClaudeWarning result w])%list) l ws
  = (ws ++ map (asClaudeWarning result) l)%list.
Proof.
  revert ws. induction l as [|w l IH]; intro ws; cbn [fold_left map].
  - rewrite app_nil_r. reflexivity.
  - rewrite IH, <- app_assoc. reflexivity.
Qed.

(** one turn of the loop, in one piece *)
Lemma runKnown_found registry ctx acc n v :
  Map_get registry n = Some v ->
  runKnown registry ctx acc n
  = {| allBlockers :=
         (allBlockers acc
            ++ map (asClaudeViolation (v ctx))
                 (filter (fun x => isBlockerMetric n || Severity_eqb (severity x) critical)
                         (violations (v ctx))))%list;
       allWarnings :=
         ((allWarnings acc
             ++ map (asClaudeViolation (v ctx))
                  (filter (fun x => negb (isBlockerMetric n
                                          || Severity_eqb (severity x) critical))
                          (violations (v ctx))))
            ++ map (asClaudeWarning (v ctx)) (warnings (v ctx)))%list;
       collectedDetails :=
         (collectedDetails acc ++
          [ {| d_name := n;
               d_sopFile := sopFile (v ctx);
               d_score := score (v ctx);
               d_passed := passed (v ctx);
               isBlocker := isBlockerMetric n;
               violationCount := List.length (violations (v ctx));
               warningCount := List.length (warnings (v ctx)) |} ])%list |}.
Proof.
  intro H. unfold runKnown, collect. rewrite H. cbv zeta. rewrite collectViolation_fold.
  rewrite collectWarnings_fold. reflexivity.
Qed.

Lemma runKnown_missing registry ctx acc n :
  Map_get registry n = None -> runKnown registry ctx acc n = acc.
Proof. intro H. unfold runKnown. rewrite H. reflexivity. Qed.

(** a turn of the loop throws for an inherited property and for nothing else *)
Lemma runOne_callable registry ctx acc n :
  runOne registry ctx acc n
  = if callable registry n then Normal (runKnown registry ctx acc n) else Throw typeError.
Proof.
  unfold runOne, getProperty, callable, runKnown, Map_has.
  destruct (Map_get registry n) as [v|]; [reflexivity|].
  cbn [orb]. destruct (mem n inheritedNames); reflexivity.
Qed.

Lemma runValidators_callable registry ctx (names : list string) (acc : Collected) :
  runValidators registry ctx names acc
  = if forallb (callable registry) names
    then Normal (fold_left (runKnown registry ctx) names acc)
    else Throw typeError.
Proof.
  revert acc. induction names as [|n names IH]; intro acc; [reflexivity|].
  cbn [runValidators forallb fold_left]. rewrite runOne_callable.
  destruct (callable registry n); cbn [bind andb]; [apply IH | reflexivity].
Qed.

(** [validateClaudeCode] returns unless a name it runs is an inherited
    property of the registry *)
Lemma validateClaudeCode_callable registry input :
  validateClaudeCode registry input
  = if forallb (callable registry) (validatorsToRun input)
    then Normal (resultOf registry input)
    else Throw typeError.
Proof.
  unfold validateClaudeCode. cbv zeta.
  change (match specifiedValidators input with
          | Some names => names
          | None => selectValidatorsForFile (filename input)
          end) with (validatorsToRun input).
  rewrite runValidators_callable.
  destruct (forallb (callable registry) (validatorsToRun input)); reflexivity.
Qed.

Lemma validateClaudeCode_Normal registry input r :
  validateClaudeCode registry input = Normal r ->
  r = resultOf registry input
  /\ forall n, In n (validatorsToRun input) -> callable registry n = true.
Proof.
  rewrite validateClaudeCode_callable.
  destruct (forallb (callable registry) (validatorsToRun input)) eqn:E; [|discriminate].
  intro H. injection H as <-. split; [reflexivity|].
  exact (proj1 (forallb_forall _ _) E).
Qed.

(** without names given, [validateClaudeCode] returns for every registry *)
Lemma validateClaudeCode_inputOf registry code filename :
  validateClaudeCode registry (inputOf code filename)
  = Normal (resultOf registry (inputOf code filename)).
Proof.
  rewrite validateClaudeCode_callable.
  replace (forallb (callable registry) (validatorsToRun (inputOf code filename)))
    with true; [reflexivity|].
  symmetry. apply forallb_forall. intros n Hn. unfold callable.
  change (validatorsToRun (inputOf code filename))
    with (selectValidatorsForFile filename) in Hn.
  rewrite (selected_not_inherited filename n Hn). apply orb_true_r.
Qed.

(** *** The overall score *)

Lemma weightOf_positive (n : string) : (0 < weightOf n)%Q.
Proof.
  unfold weightOf. destruct (getMetricByName n) as [m|] eqn:E; [|reflexivity].
  unfold getMetricByName in E. apply find_some in E. destruct E as [Hin _].
  exact (proj1 (Forall_forall _ _) weights_positive m Hin).
Qed.

Lemma addDetail_fold (l : list ValidatorDetail) (ts tw : Q) :
  Forall (fun d => (0 <= d_score d)%Q /\ (d_score d <= 1)%Q) l ->
  (0 <= ts)%Q -> (ts <= tw)%Q ->
  let r := fold_left addDetail l (ts, tw) in
  (0 <= fst r)%Q /\ (fst r <= snd r)%Q /\ (tw <= snd r)%Q /\ (l <> [] -> (tw < snd r)%Q).
Proof.
  intro Hall. revert ts tw. induction Hall as [|d l [Hd0 Hd1] _ IH]; intros ts tw H0 H1.
  - cbn. split; [exact H0|]. split; [exact H1|]. split; [apply Qle_refl|].
    intro H. contradiction H. reflexivity.
  - cbn [fold_left]. unfold addDetail at 2. cbv zeta.
    pose proof (weightOf_positive (d_name d)) as Hw.
    assert (Hw' : (0 <= weightOf (d_name d))%Q) by (apply Qlt_le_weak; exact Hw).
    assert (Hprod0 : (0 <= d_score d * weightOf (d_name d))%Q)
      by (apply Qmult_le_0_compat; assumption).
    assert (Hprod1 : (d_score d * weightOf (d_name d) <= weightOf (d_name d))%Q).
    { setoid_replace (weightOf (d_name d)) with (1 * weightOf (d_name d))%Q at 2 by ring.
      apply Qmult_le_compat_r; assumption. }
    destruct (IH (ts + d_score d * weightOf (d_name d))%Q (tw + weightOf (d_name d))%Q)
      as (I0 & I1 & I2 & _).
    + setoid_replace 0%Q with (0 + 0)%Q by ring. apply Qplus_le_compat; assumption.
    + apply Qplus_le_compat; assumption.
    + split; [exact I0|]. split; [exact I1|].
      assert (Hlt : (tw < tw + weightOf (d_name d))%Q).
      { setoid_replace tw with (tw + 0)%Q at 1 by ring.
        apply Qplus_lt_r. exact Hw. }
      split.
      * apply Qle_trans with (tw + weightOf (d_name d))%Q; [apply Qlt_le_weak; exact Hlt|].
        exact I2.
      * intros _. apply Qlt_le_trans with (tw + weightOf (d_name d))%Q; assumption.
Qed.

Lemma overallScore_range (l : list ValidatorDetail) :
  Forall (fun d => (0 <= d_score d)%Q /\ (d_score d <= 1)%Q) l ->
  (0 <= overallScore l)%Q /\ (overallScore l <= 1)%Q.
Proof.
  intro Hall. unfold overallScore.
  destruct (addDetail_fold l 0 0 Hall (Qle_refl 0) (Qle_refl 0)) as (H0 & H1 & H2 & H3).
  destruct (fold_left addDetail l (0%Q, 0%Q)) as [ts tw]. cbn [fst snd] in *.
  destruct (Qlt_bool 0 tw) eqn:E; [|split; discriminate].
  apply Qlt_bool_iff in E. split.
  - apply Qle_shift_div_l; [exact E|]. rewrite Qmult_0_l. exact H0.
  - apply Qle_shift_div_r; [exact E|]. rewrite Qmult_1_l. exact H1.
Qed.

Lemma details_fold registry ctx (names : list string) (acc : Collected) :
  (forall n v c, Map_get registry n = Some v ->
                 (0 <= score (v c))%Q /\ (score (v c) <= 1)%Q) ->
  Forall (fun d => (0 <= d_score d)%Q /\ (d_score d <= 1)%Q) (collectedDetails acc) ->
  Forall (fun d => (0 <= d_score d)%Q /\ (d_score d <= 1)%Q)
         (collectedDetails (fold_left (runKnown registry ctx) names acc)).
Proof.
  intro Hreg. revert acc. induction names as [|n names IH]; intros acc Hacc; [exact Hacc|].
  cbn [fold_left]. apply IH.
  destruct (Map_get registry n) as [v|] eqn:E.
  - rewrite (runKnown_found registry ctx acc n v E). cbn [collectedDetails].
    apply Forall_app. split; [exact Hacc|]. constructor; [|constructor].
    cbn [d_score]. exact (Hreg n v ctx E).
  - rewrite (runKnown_missing registry ctx acc n E). exact Hacc.
Qed.

(** X17.  When [validateClaudeCode] returns, its overall score lies between
    0 and 1, provided the validators of the registry score between 0 and 1,
    as the twelve validators of validators.ts do; this holds for any list of
    validator names, with repetitions and with names the registry does not
    have.  (The call throws a [TypeError] instead of returning when one of
    the names is a property the registry inherits, such as [constructor].) *)
Theorem validateClaudeCode_score_range
        (registry : list (string * Validator)) (input : ClaudeCodeInput)
        (r : ClaudeValidationResult) :
  scoresInRange registry ->
  validateClaudeCode registry input = Normal r ->
  (0 <= cr_score r)%Q /\ (cr_score r <= 1)%Q.
Proof.
  intros Hreg Hrun. destruct (validateClaudeCode_Normal registry input r Hrun) as [-> _].
  unfold resultOf, summarize. cbv zeta. cbn [cr_score].
  apply overallScore_range. apply details_fold; [exact Hreg | constructor].
Qed.

Lemma validators_scoresInRange : scoresInRange validators.
Proof.
  intros n v ctx H. unfold validators in H. cbn [Map_get] in H.
  repeat match type of H with
         | (if ?c then _ else _) = _ => destruct c; [injection H as <- | ]
         end;
    [ exact (validateSupabaseAuth_score ctx)
    | exact (validateTenantIsolation_score ctx)
    | exact (validateAuditLogging_score ctx)
    | exact (validatePrismaQueries_score ctx)
    | exact (validateTransactions_score ctx)
    | exact (validateCodeSafetyPatterns_score ctx)
    | exact (validateExceptionTypes_score ctx)
    | exact (validateLogging_score ctx)
    | exact (validateExternalServicePatterns_score ctx)
    | exact (validateJobProcessing_score ctx)
    | exact (validateApiDesign_score ctx)
    | exact (validateCodeQuality_score ctx)
    | discriminate H ].
Qed.

Lemma validateClaudeCode_score_range_witness :
  exists r, validateClaudeCode validators namedValidators = Normal r
            /\ List.length (details r) = 3
            /\ (0 <= cr_score r)%Q /\ (cr_score r <= 1)%Q.
Proof.
  exists (resultOf validators namedValidators).
  assert (Hrun : validateClaudeCode validators namedValidators
                 = Normal (resultOf validators namedValidators))
    by (rewrite validateClaudeCode_callable; reflexivity).
  split; [exact Hrun|]. split; [vm_compute; reflexivity|].
  exact (validateClaudeCode_score_range validators namedValidators
           (resultOf validators namedValidators) validators_scoresInRange Hrun).
Defined.

(** naming a property the registry inherits makes the call throw *)
Example validateClaudeCode_inherited_name :
  validateClaudeCode validators namesConstructor = Throw typeError.
Proof. rewrite validateClaudeCode_callable. reflexivity. Qed.

(** *** Blockers and warnings *)


Lemma fold_runKnown_blockers registry ctx (names : list string) (acc : Collected) :
  allBlockers (fold_left (runKnown registry ctx) names acc)
  = (allBlockers acc
       ++ flat_map (fun n =>
            match Map_get registry n with
            | Some v =>
                map (asClaudeViolation (v ctx))
                  (filter (fun x => isBlockerMetric n || Severity_eqb (severity x) critical)
                          (violations (v ctx)))
            | None => []
            end) names)%list.
Proof.
  revert acc. induction names as [|n names IH]; intro acc.
  - cbn. rewrite app_nil_r. reflexivity.
  - cbn [fold_left flat_map]. rewrite IH.
    destruct (Map_get registry n) as [v|] eqn:E.
    + rewrite (runKnown_found registry ctx acc n v E). cbn [allBlockers].
      rewrite <- app_assoc. reflexivity.
    + rewrite (runKnown_missing registry ctx acc n E). reflexivity.
Qed.



(** X18.  [validateClaudeCode] passes only without blockers: when the
    result it returns has passed, the score is at least 0.85, no fix is
    suggested, every validator that ran and is a blocking metric reported no
    violation at all, and no validator that ran reported a critical violation.
    When the result has not passed, the fixes are those generated from the
    blockers. *)
Theorem validateClaudeCode_passes_without_blockers
        (registry : list (string * Validator)) (input : ClaudeCodeInput)
        (r : ClaudeValidationResult) :
  validateClaudeCode registry input = Normal r ->
  (cr_passed r = true ->
   blockers r = [] /\ (0.85 <= cr_score r)%Q /\ fixes r = None
   /\ forall n v, In n (validatorsToRun input) -> Map_get registry n = Some v ->
                  (isBlockerMetric n = true -> violations (v (contextOf input)) = [])
                  /\ Forall (fun x => severity x <> critical)
                            (violations (v (contextOf input))))
  /\ (cr_passed r = false -> fixes r = Some (generateFixes (blockers r))).
Proof.
  intro Hrun. destruct (validateClaudeCode_Normal registry input r Hrun) as [Hr _].
  assert (Hpassed : cr_passed r
                    = (List.length (blockers r) =? 0) && Qle_bool 0.85 (cr_score r))
    by (rewrite Hr; reflexivity).
  assert (Hfixes : fixes r = if cr_passed r then None
                             else Some (generateFixes (blockers r)))
    by (rewrite Hr; reflexivity).
  assert (Hb : blockers r
               = flat_map (fun n =>
                   match Map_get registry n with
                   | Some v =>
                       map (asClaudeViolation (v (contextOf input)))
                         (filter (fun x => isBlockerMetric n
                                           || Severity_eqb (severity x) critical)
                                 (violations (v (contextOf input))))
                   | None => []
                   end) (validatorsToRun input)).
  { rewrite Hr. unfold resultOf, summarize. cbv zeta. cbn [blockers].
    rewrite fold_runKnown_blockers. reflexivity. }
  clear Hr. split.
  - intro Hpass.
    assert (Hand : (List.length (blockers r) =? 0) && Qle_bool 0.85 (cr_score r) = true)
      by (rewrite <- Hpassed; exact Hpass).
    apply andb_prop in Hand. destruct Hand as [Hnone Hscore].
    assert (Hnil : blockers r = []).
    { destruct (blockers r); [reflexivity | discriminate Hnone]. }
    split; [exact Hnil|]. split; [apply Qle_bool_iff; exact Hscore|].
    split; [rewrite Hfixes, Hpass; reflexivity|].
    intros n v Hn Hv.
    assert (Hfound : filter (fun x => isBlockerMetric n || Severity_eqb (severity x) critical)
                       (violations (v (contextOf input))) = []).
    { rewrite Hnil in Hb. symmetry in Hb.
      pose proof (flat_map_nil_inv _ _ n Hb Hn) as Hone. cbv beta in Hone.
      rewrite Hv in Hone. apply map_eq_nil in Hone. exact Hone. }
    split.
    + intro Hblock. rewrite Hblock in Hfound. cbn [orb] in Hfound.
      destruct (violations (v (contextOf input))); [reflexivity | discriminate Hfound].
    + apply Forall_forall. intros x Hx Hcrit.
      assert (Hin : In x (filter (fun x => isBlockerMetric n
                                           || Severity_eqb (severity x) critical)
                                 (violations (v (contextOf input))))).
      { apply filter_In. split; [exact Hx|]. rewrite Hcrit. apply orb_true_r. }
      rewrite Hfound in Hin. destruct Hin.
  - intro Hfail. rewrite Hfixes, Hfail. reflexivity.
Qed.

Lemma validateClaudeCode_passes_without_blockers_witness :
  exists r, validateClaudeCode validators teamsQuery = Normal r
            /\ cr_passed r = false
            /\ fixes r = Some (generateFixes (blockers r)).
Proof.
  exists (resultOf validators teamsQuery).
  assert (Hrun : validateClaudeCode validators teamsQuery
                 = Normal (resultOf validators teamsQuery))
    by (rewrite validateClaudeCode_callable; reflexivity).
  assert (Hfail : cr_passed (resultOf validators teamsQuery) = false)
    by (vm_compute; reflexivity).
  split; [exact Hrun|]. split; [exact Hfail|].
  exact (proj2 (validateClaudeCode_passes_without_blockers validators teamsQuery
                  (resultOf validators teamsQuery) Hrun) Hfail).
Defined.



(** *** Suggested fixes *)

Lemma fixFor_rule (b : ClaudeViolation) (f : SuggestedFix) :
  In f (fixFor b) -> sf_rule f = cv_rule b.
Proof.
  unfold fixFor. destruct (find _ knownFixes) as [k|] eqn:E.
  - intros [<-|[]]. apply find_some in E. destruct E as [_ E]. apply String.eqb_eq. exact E.
  - destruct (cv_fix b) as [hint|]; [|intros []].
    destruct (String.eqb hint ""); [intros [] | intros [<-|[]]; reflexivity].
Qed.

Lemma fixFor_at_most_one (b : ClaudeViolation) : List.length (fixFor b) <= 1.
Proof.
  unfold fixFor. destruct (find _ knownFixes); [cbn; lia|].
  destruct (cv_fix b) as [hint|]; [|cbn; lia]. destruct (String.eqb hint ""); cbn; lia.
Qed.

Lemma generateFixesFrom_spec (seen : list string) (bs : list ClaudeViolation) :
  NoDup (map sf_rule (generateFixesFrom seen bs))
  /\ (forall f, In f (generateFixesFrom seen bs) ->
                ~ In (sf_rule f) seen
                /\ exists b, In b bs /\ cv_rule b = sf_rule f /\ In f (fixFor b))
  /\ (forall b, In b bs -> ~ In (cv_rule b) seen ->
                In (cv_rule b) (map sf_rule knownFixes) ->
                In (cv_rule b) (map sf_rule (generateFixesFrom seen bs))).
Proof.
  revert seen. induction bs as [|b bs IH]; intro seen.
  - split; [constructor|]. split; [intros f []|intros b []].
  - cbn [generateFixesFrom]. destruct (mem (cv_rule b) seen) eqn:E.
    + destruct (IH seen) as (H1 & H2 & H3). split; [exact H1|]. split.
      * intros f Hf. destruct (H2 f Hf) as (Hseen & b' & Hb' & Hr & Hfix).
        split; [exact Hseen|]. exists b'. split; [right; exact Hb'|]. split; assumption.
      * intros b' [<-|Hb'] Hseen Hknown.
        -- exfalso. apply Hseen. apply mem_In. exact E.
        -- exact (H3 b' Hb' Hseen Hknown).
    + apply mem_not_In in E.
      destruct (IH (cv_rule b :: seen)) as (H1 & H2 & H3).
      assert (Hhead : forall f, In f (fixFor b) -> sf_rule f = cv_rule b)
        by (intros f Hf; exact (fixFor_rule b f Hf)).
      split; [|split].
      * rewrite map_app. apply NoDup_app; [| exact H1 |].
        -- pose proof (fixFor_at_most_one b) as Hlen.
           destruct (fixFor b) as [|f [|g rest]]; cbn [map];
             [constructor | repeat constructor; intros [] | cbn in Hlen; lia].
        -- intros r Hr1 Hr2. apply in_map_iff in Hr1. destruct Hr1 as (f & <- & Hf).
           apply in_map_iff in Hr2. destruct Hr2 as (g & Hg & Hgin).
           destruct (H2 g Hgin) as (Hseen & _). apply Hseen. left.
           rewrite Hg. symmetry. exact (Hhead f Hf).
      * intros f Hf. apply in_app_or in Hf. destruct Hf as [Hf|Hf].
        -- split; [rewrite (Hhead f Hf); exact E|].
           exists b. split; [left; reflexivity|]. split; [symmetry; exact (Hhead f Hf) | exact Hf].
        -- destruct (H2 f Hf) as (Hseen & b' & Hb' & Hr & Hfix).
           split; [intro H; apply Hseen; right; exact H|].
           exists b'. split; [right; exact Hb'|]. split; assumption.
      * intros b' Hb' Hseen Hknown. rewrite map_app. apply in_or_app.
        destruct (string_dec (cv_rule b) (cv_rule b')) as [Heq|Hne].
        -- left. rewrite <- Heq in Hknown |- *.
           apply in_map_iff in Hknown. destruct Hknown as (k & Hk & Hkin).
           unfold fixFor.
           destruct (find (fun f => String.eqb (sf_rule f) (cv_rule b)) knownFixes)
             as [k'|] eqn:Ef.
           ++ apply find_some in Ef. destruct Ef as [_ Ef]. apply String.eqb_eq in Ef.
              left. exact Ef.
           ++ exfalso. apply (find_none _ _ Ef) in Hkin. cbv beta in Hkin.
              rewrite Hk, String.eqb_refl in Hkin. discriminate Hkin.
        -- right. destruct Hb' as [<-|Hb']; [contradiction Hne; reflexivity|].
           apply (H3 b' Hb'); [|exact Hknown].
           intros [H|H]; [exact (Hne H) | exact (Hseen H)].
Qed.

(** X20.  [generateFixes] suggests at most one fix per rule: the rules of
    the fixes are pairwise different, every fix is the one the [switch]
    gives for a blocker of its rule, and every blocker whose rule is one of
    the nine cases of the [switch] has a fix for its rule. *)
Theorem generateFixes_one_per_rule (blockers : list ClaudeViolation) :
  NoDup (map sf_rule (generateFixes blockers))
  /\ (forall f, In f (generateFixes blockers) ->
                exists b, In b blockers /\ cv_rule b = sf_rule f /\ In f (fixFor b))
  /\ (forall b, In b blockers -> In (cv_rule b) (map sf_rule knownFixes) ->
                In (cv_rule b) (map sf_rule (generateFixes blockers))).
Proof.
  unfold generateFixes. destruct (generateFixesFrom_spec [] blockers) as (H1 & H2 & H3).
  split; [exact H1|]. split.
  - intros f Hf. exact (proj2 (H2 f Hf)).
  - intros b Hb Hknown. apply (H3 b Hb); [intros [] | exact Hknown].
Qed.

Lemma generateFixes_one_per_rule_witness :
  In "INV-PRISMA-SOFT-DELETE"
     (map sf_rule (generateFixes (blockers (resultOf validators teamsQuery)))).
Proof.
  assert (Hb : exists b, In b (blockers (resultOf validators teamsQuery))
                         /\ cv_rule b = "INV-PRISMA-SOFT-DELETE").
  { vm_compute. eexists. split; [left; reflexivity | reflexivity]. }
  destruct Hb as (b & Hin & Hrule). rewrite <- Hrule.
  apply (proj2 (proj2 (generateFixes_one_per_rule
                         (blockers (resultOf validators teamsQuery)))) b Hin).
  rewrite Hrule. vm_compute. tauto.
Defined.

(** *** The quick checks *)

Lemma generateFixesFrom_length (seen : list string) (bs : list ClaudeViolation) :
  List.length (generateFixesFrom seen bs) <= List.length bs.
Proof.
  revert seen. induction bs as [|b bs IH]; intro seen; [apply le_n|].
  cbn [generateFixesFrom List.length]. destruct (mem (cv_rule b) seen).
  - specialize (IH seen). lia.
  - rewrite length_app. pose proof (fixFor_at_most_one b). specialize (IH (cv_rule b :: seen)).
    lia.
Qed.

(** X27.  The quick checks agree with one another.  Whatever the code, the
    file name and the registry, [validateClaudeCode] returns a result on
    them, [hasBlockingViolations] answers that this result has not passed,
    and [getRequiredFixes] returns the fixes of this result, or none when it
    has passed.  When [hasBlockingViolations] answers [false] there is no
    blocker and [getRequiredFixes] is empty; [getRequiredFixes] never returns
    more fixes than there are blockers, so it is empty whenever there is no
    blocker, also when the result fails for its score alone; and the fixes it
    returns have pairwise different rules. *)
Theorem quick_checks_agree (registry : list (string * Validator)) (code filename : string) :
  exists r fs,
    validateClaudeCode registry (inputOf code filename) = Normal r
    /\ hasBlockingViolations registry code filename = Normal (negb (cr_passed r))
    /\ getRequiredFixes registry code filename = Normal fs
    /\ (cr_passed r = true -> blockers r = [] /\ fs = [])
    /\ (cr_passed r = false -> fs = generateFixes (blockers r))
    /\ List.length fs <= List.length (blockers r)
    /\ (blockers r = [] -> fs = [])
    /\ NoDup (map sf_rule fs).
Proof.
  set (r := resultOf registry (inputOf code filename)).
  assert (Hrun : validateClaudeCode registry (inputOf code filename) = Normal r)
    by apply validateClaudeCode_inputOf.
  assert (Hpassed : cr_passed r
                    = (List.length (blockers r) =? 0) && Qle_bool 0.85 (cr_score r))
    by reflexivity.
  assert (Hfixes : fixes r = if cr_passed r then None
                             else Some (generateFixes (blockers r)))
    by reflexivity.
  exists r, (match fixes r with Some l => l | None => [] end).
  split; [exact Hrun|].
  split; [unfold hasBlockingViolations; rewrite Hrun; reflexivity|].
  split; [unfold getRequiredFixes; rewrite Hrun; reflexivity|].
  rewrite Hfixes.
  assert (Hlen : List.length (if cr_passed r then [] else generateFixes (blockers r))
                 <= List.length (blockers r)).
  { destruct (cr_passed r); [apply Nat.le_0_l | apply generateFixesFrom_length]. }
  replace (match (if cr_passed r then None else Some (generateFixes (blockers r))) with
           | Some l => l
           | None => []
           end)
    with (if cr_passed r then [] else generateFixes (blockers r))
    by (destruct (cr_passed r); reflexivity).
  split; [|split; [|split; [exact Hlen|split]]].
  - intro Hpass. rewrite Hpass. split; [|reflexivity].
    rewrite Hpassed in Hpass. apply andb_prop in Hpass.
    destruct Hpass as [Hnone _]. destruct (blockers r); [reflexivity | discriminate Hnone].
  - intro Hfail. rewrite Hfail. reflexivity.
  - intro Hnil.
    assert (Hzero : List.length (if cr_passed r then [] else generateFixes (blockers r)) = 0).
    { apply Nat.le_0_r. rewrite Hnil in Hlen at 2. exact Hlen. }
    apply length_zero_iff_nil. exact Hzero.
  - destruct (cr_passed r); [constructor|].
    exact (proj1 (generateFixesFrom_spec [] (blockers r))).
Qed.

Lemma quick_checks_agree_witness :
  exists r fs,
    validateClaudeCode validators teamsQuery = Normal r
    /\ getRequiredFixes validators (code teamsQuery) (filename teamsQuery) = Normal fs
    /\ cr_passed r = false
    /\ fs = generateFixes (blockers r)
    /\ map sf_rule fs = [ "INV-PRISMA-SOFT-DELETE" ].
Proof.
  destruct (quick_checks_agree validators (code teamsQuery) (filename teamsQuery))
    as (r & fs & Hrun & _ & Hfix & _ & Hfail & _).
  exists r, fs.
  assert (Hr : r = resultOf validators teamsQuery).
  { pose proof (validateClaudeCode_inputOf validators (code teamsQuery)
                  (filename teamsQuery)) as Hsame.
    rewrite Hrun in Hsame. injection Hsame as ->. reflexivity. }
  assert (Hnot : cr_passed r = false) by (rewrite Hr; vm_compute; reflexivity).
  split; [exact Hrun|]. split; [exact Hfix|]. split; [exact Hnot|].
  split; [exact (Hfail Hnot)|].
  rewrite (Hfail Hnot), Hr. vm_compute. reflexivity.
Defined.

End ClaudeProperties.

(* ================================================================== *)
(** * The runner and the command line: properties *)
(* ================================================================== *)

Section RunnerProperties.
Import Validators GeneralPractices RunNotions.
Import MetricsConfig (JsMap, Map_get, Map_has, Map_set, METRIC_DEFINITIONS, getMetricByName,
                      getMetricsBySop, Qlt_bool).

(** X21.  The tables of runner.ts and cli.ts agree with the catalogue of
    metrics-config.ts and with the registry: the same twelve names in the same
    order, the same weight and the same blocking flag for each, and for every
    SOP file the validators of the metrics of that SOP. *)
Theorem runner_tables_agree_with_catalogue :
  map fst Runner.METRIC_WEIGHTS = map MetricsConfig.name METRIC_DEFINITIONS
  /\ map fst validators = map MetricsConfig.name METRIC_DEFINITIONS
  /\ Forall (fun m => Map_get Runner.METRIC_WEIGHTS (MetricsConfig.name m)
                      = Some (MetricsConfig.weight m)
                      /\ mem (MetricsConfig.name m) Runner.BLOCK_ON_FAIL
                         = MetricsConfig.blockOnFail m)
            METRIC_DEFINITIONS
  /\ Forall (fun '(sop, names) => names = map MetricsConfig.name (getMetricsBySop sop))
            Runner.SOP_VALIDATOR_MAP
  /\ map fst Runner.SOP_VALIDATOR_MAP = nodup string_dec (map MetricsConfig.sopFile METRIC_DEFINITIONS)
  /\ Cli.sopMap = Runner.SOP_VALIDATOR_MAP.
Proof.
  split; [reflexivity|]. split; [reflexivity|].
  split; [repeat constructor|]. split; [repeat constructor|].
  split; [vm_compute; reflexivity | reflexivity].
Qed.

(** *** The summary of runner.ts *)

Lemma runner_totals (registry : list (string * Validator)) (results : list ValidationResult)
      (acc : Runner.Totals) :
  let final := fold_left (Runner.addResult registry) results acc in
  Runner.t_blockers final
  = Runner.t_blockers acc
    + list_sum (map (fun r =>
                       if negb (passed r)
                          && Runner.blocksOnFail (Runner.validatorNameOf registry (metric r))
                       then List.length (violations r) else 0) results)
  /\ Runner.t_warnings final
     = Runner.t_warnings acc + list_sum (map (fun r => List.length (warnings r)) results)
  /\ map Runner.ms_name (Runner.t_metrics final)
     = (map Runner.ms_name (Runner.t_metrics acc) ++ map metric results)%list
  /\ (Forall (fun m => Runner.ms_blockOnFail m
                       = Runner.blocksOnFail
                           (Runner.validatorNameOf registry (Runner.ms_name m)))
             (Runner.t_metrics acc) ->
      Forall (fun m => Runner.ms_blockOnFail m
                       = Runner.blocksOnFail
                           (Runner.validatorNameOf registry (Runner.ms_name m)))
             (Runner.t_metrics final)).
Proof.
  revert acc. induction results as [|r results IH]; intro acc.
  - cbn. rewrite !Nat.add_0_r, app_nil_r. split; [reflexivity|]. split; [reflexivity|].
    split; [reflexivity|]. intro H. exact H.
  - cbn [fold_left]. destruct (IH (Runner.addResult registry acc r)) as (H1 & H2 & H3 & H4).
    cbv zeta in *. rewrite H1, H2, H3. cbn [map].
    change (list_sum (?a :: ?l)) with (a + list_sum l).
    unfold Runner.addResult at 1 2 3. cbv zeta.
    cbn [Runner.t_blockers Runner.t_warnings Runner.t_metrics].
    split; [|split; [|split]].
    + destruct (negb (passed r)
                && Runner.blocksOnFail (Runner.validatorNameOf registry (metric r))); lia.
    + lia.
    + rewrite map_app, <- app_assoc. reflexivity.
    + intro Hacc. apply H4. unfold Runner.addResult. cbn [Runner.t_metrics].
      apply Forall_app. split; [exact Hacc|]. constructor; [reflexivity | constructor].
Qed.

(** one step of a weighted average *)
Lemma weighted_step (ts tw s w : Q) :
  (0 <= ts)%Q -> (ts <= tw)%Q -> (0 <= s)%Q -> (s <= 1)%Q -> (0 < w)%Q ->
  (0 <= ts + s * w)%Q /\ (ts + s * w <= tw + w)%Q /\ (tw < tw + w)%Q.
Proof.
  intros H0 H1 Hs0 Hs1 Hw.
  assert (Hw' : (0 <= w)%Q) by (apply Qlt_le_weak; exact Hw).
  assert (Hp0 : (0 <= s * w)%Q) by (apply Qmult_le_0_compat; assumption).
  assert (Hp1 : (s * w <= w)%Q).
  { setoid_replace w with (1 * w)%Q at 2 by ring. apply Qmult_le_compat_r; assumption. }
  split; [|split].
  - setoid_replace 0%Q with (0 + 0)%Q by ring. apply Qplus_le_compat; assumption.
  - apply Qplus_le_compat; assumption.
  - setoid_replace tw with (tw + 0)%Q at 1 by ring. apply Qplus_lt_r. exact Hw.
Qed.

Lemma ratio_range_of (ts tw : Q) :
  (0 <= ts)%Q -> (ts <= tw)%Q ->
  (0 <= (if Qlt_bool 0 tw then ts / tw else 1.0))%Q
  /\ ((if Qlt_bool 0 tw then ts / tw else 1.0) <= 1)%Q.
Proof.
  intros H0 H1. destruct (Qlt_bool 0 tw) eqn:E; [|split; discriminate].
  apply Qlt_bool_iff in E. split.
  - apply Qle_shift_div_l; [exact E|]. rewrite Qmult_0_l. exact H0.
  - apply Qle_shift_div_r; [exact E|]. rewrite Qmult_1_l. exact H1.
Qed.

Lemma weightFor_positive (validatorName : option string) :
  (0 < Runner.weightFor validatorName)%Q.
Proof.
  unfold Runner.weightFor. destruct validatorName as [n|]; [|reflexivity].
  destruct (Map_get Runner.METRIC_WEIGHTS n) as [w|] eqn:E; [|reflexivity].
  destruct (Qeq_bool w 0) eqn:Ez; [reflexivity|].
  unfold Runner.METRIC_WEIGHTS in E. cbn [Map_get] in E.
  repeat match type of E with
         | (if ?c then _ else _) = _ => destruct c; [injection E as <-; reflexivity|]
         end.
  discriminate E.
Qed.

Lemma runner_score_fold (registry : list (string * Validator))
      (results : list ValidationResult) (acc : Runner.Totals) :
  Forall (fun r => (0 <= score r)%Q /\ (score r <= 1)%Q) results ->
  (0 <= Runner.weightedScore acc)%Q ->
  (Runner.weightedScore acc <= Runner.totalWeight acc)%Q ->
  let final := fold_left (Runner.addResult registry) results acc in
  (0 <= Runner.weightedScore final)%Q
  /\ (Runner.weightedScore final <= Runner.totalWeight final)%Q.
Proof.
  intro Hall. revert acc. induction Hall as [|r results [Hr0 Hr1] _ IH]; intros acc H0 H1.
  - split; assumption.
  - cbn [fold_left]. apply IH.
    + unfold Runner.addResult. cbn [Runner.weightedScore].
      exact (proj1 (weighted_step _ _ _ _ H0 H1 Hr0 Hr1 (weightFor_positive _))).
    + unfold Runner.addResult. cbn [Runner.weightedScore Runner.totalWeight].
      exact (proj1 (proj2 (weighted_step _ _ _ _ H0 H1 Hr0 Hr1 (weightFor_positive _)))).
Qed.

(** X22.  The summary of runner.ts: the total score lies between 0 and 1
    when the scores of the results do; the run passes exactly when no blocker
    was counted, the total score is at least 0.85 and, with [failOnWarnings],
    no warning was counted; the warnings counted are those of all results. *)
Theorem calculateSummary_verdict
        (registry : list (string * Validator)) (results : list ValidationResult)
        (filesAnalyzed : nat) (failOnWarnings : bool) :
  let s := Runner.calculateSummary registry results filesAnalyzed failOnWarnings in
  (Forall (fun r => (0 <= score r)%Q /\ (score r <= 1)%Q) results ->
   (0 <= Runner.totalScore s)%Q /\ (Runner.totalScore s <= 1)%Q)
  /\ (Runner.vs_passed s = true <->
      Runner.vs_blockers s = 0 /\ (0.85 <= Runner.totalScore s)%Q
      /\ (failOnWarnings = true -> Runner.vs_warnings s = 0))
  /\ Runner.vs_warnings s = list_sum (map (fun r => List.length (warnings r)) results)
  /\ map Runner.ms_name (Runner.metrics s) = map metric results.
Proof.
  intro s. split; [|split; [|split]].
  - intro Hall. unfold s, Runner.calculateSummary. cbv zeta. cbn [Runner.totalScore].
    destruct (runner_score_fold registry results
                {| Runner.weightedScore := 0; Runner.totalWeight := 0; Runner.t_blockers := 0;
                   Runner.t_warnings := 0; Runner.t_metrics := [] |} Hall
                (Qle_refl 0) (Qle_refl 0)) as [H0 H1].
    apply ratio_range_of; assumption.
  - change (Runner.vs_passed s)
      with ((Runner.vs_blockers s =? 0) && Qle_bool 0.85 (Runner.totalScore s)
            && (negb failOnWarnings || (Runner.vs_warnings s =? 0))).
    rewrite !andb_true_iff, orb_true_iff, !Nat.eqb_eq, Qle_bool_iff, negb_true_iff.
    split.
    + intros [[Hb Hs] Hw]. split; [exact Hb|]. split; [exact Hs|].
      intro Hf. destruct Hw as [Hw|Hw]; [congruence | exact Hw].
    + intros (Hb & Hs & Hw). split; [split; assumption|].
      destruct failOnWarnings; [right; apply Hw; reflexivity | left; reflexivity].
  - exact (proj1 (proj2 (runner_totals registry results
                           {| Runner.weightedScore := 0; Runner.totalWeight := 0;
                              Runner.t_blockers := 0; Runner.t_warnings := 0;
                              Runner.t_metrics := [] |}))).
  - exact (proj1 (proj2 (proj2 (runner_totals registry results
                           {| Runner.weightedScore := 0; Runner.totalWeight := 0;
                              Runner.t_blockers := 0; Runner.t_warnings := 0;
                              Runner.t_metrics := [] |})))).
Qed.

Lemma calculateSummary_verdict_witness :
  (0 <= Runner.totalScore
          (Runner.calculateSummary validators
             [validateTransactions (ValidatorExamples.oneFile "a.service.ts"
                                      ValidatorExamples.multiTableWrite)] 1 false))%Q
  /\ (Runner.totalScore
        (Runner.calculateSummary validators
           [validateTransactions (ValidatorExamples.oneFile "a.service.ts"
                                    ValidatorExamples.multiTableWrite)] 1 false) <= 1)%Q.
Proof.
  apply (proj1 (calculateSummary_verdict validators
                  [validateTransactions (ValidatorExamples.oneFile "a.service.ts"
                                           ValidatorExamples.multiTableWrite)] 1 false)).
  constructor; [|constructor]. apply validateTransactions_score.
Defined.

(** *** The metric names of the results *)








End RunnerProperties.

Section CliProperties.
Import Validators GeneralPractices RunNotions GatingNotions.
Import MetricsConfig (JsMap, Map_get, Map_has, Map_set, METRIC_DEFINITIONS, getMetricByName,
                      Qlt_bool, evaluateGating, calculateWeightedScore, GatingConfig,
                      DEFAULT_GATING_CONFIG, STRICT_GATING_CONFIG).

(** *** The loop over the results *)

Lemma tally_fold (results : list ValidationResult) (acc : Cli.Tally) :
  let final := fold_left Cli.tally results acc in
  Cli.blockers final
  = Cli.blockers acc
    + list_sum (map (fun r => List.length (filter Cli.isBlocker (violations r))) results)
  /\ Cli.warnings final
     = Cli.warnings acc + list_sum (map (fun r => List.length (warnings r)) results)
  /\ (forall k, Map_get (Cli.scores final) k <> None ->
                Map_get (Cli.scores acc) k <> None \/ In k (map metric results)).
Proof.
  revert acc. induction results as [|r results IH]; intro acc.
  - cbn. rewrite !Nat.add_0_r. split; [reflexivity|]. split; [reflexivity|].
    intros k H. left. exact H.
  - cbn [fold_left]. destruct (IH (Cli.tally acc r)) as (H1 & H2 & H3).
    cbv zeta in *. rewrite H1, H2. cbn [map].
    change (list_sum (?a :: ?l)) with (a + list_sum l).
    unfold Cli.tally at 1 2. cbn [Cli.blockers Cli.warnings].
    split; [lia|]. split; [lia|].
    intros k Hk. destruct (H3 k Hk) as [H|H]; [|right; right; exact H].
    unfold Cli.tally in H. cbn [Cli.scores] in H. rewrite Map_get_set in H.
    destruct (String.eqb (metric r) k) eqn:E.
    + right. left. apply String.eqb_eq. exact E.
    + left. exact H.
Qed.

Lemma list_sum_zero (l : list nat) : list_sum l = 0 -> Forall (fun n => n = 0) l.
Proof.
  induction l as [|n l IH]; intro H; [constructor|].
  change (list_sum (n :: l)) with (n + list_sum l) in H.
  constructor; [lia | apply IH; lia].
Qed.

Lemma no_blocker_all_medium (vs : list Violation) :
  List.length (filter Cli.isBlocker vs) = 0 -> Forall (fun v => severity v = medium) vs.
Proof.
  induction vs as [|v vs IH]; intro H; [constructor|].
  cbn [filter] in H. unfold Cli.isBlocker at 1 in H.
  destruct (severity v) eqn:E; cbn in H; try discriminate H.
  constructor; [exact E | exact (IH H)].
Qed.

(** what [runValidationOn] computes when there is a file *)
Lemma runValidationOn_files registry options fileContents :
  fileContents <> [] ->
  let ctx := {| files := map fst fileContents; fileContents := fileContents |} in
  let results := Cli.runValidators registry (Cli.selectValidators registry options) ctx in
  let totals :=
    fold_left Cli.tally results
      {| Cli.scores := []; Cli.blockers := 0; Cli.warnings := 0 |} in
  let gatingResult :=
    evaluateGating (Cli.scores totals) (Z.of_nat (Cli.blockers totals))
      (Z.of_nat (Cli.warnings totals))
      (if Cli.strict options then STRICT_GATING_CONFIG else DEFAULT_GATING_CONFIG) in
  fst (Cli.runValidationOn registry options fileContents) = results
  /\ Cli.s_passed (snd (Cli.runValidationOn registry options fileContents))
     = MetricsConfig.passed gatingResult
  /\ Cli.s_message (snd (Cli.runValidationOn registry options fileContents))
     = MetricsConfig.reason gatingResult
  /\ Cli.s_blockers (snd (Cli.runValidationOn registry options fileContents))
     = Cli.blockers totals
  /\ Cli.s_warnings (snd (Cli.runValidationOn registry options fileContents))
     = Cli.warnings totals.
Proof.
  intro Hne. cbv zeta. unfold Cli.runValidationOn.
  destruct fileContents as [|f rest]; [contradiction Hne; reflexivity|].
  cbn [List.length Nat.eqb]. cbv zeta.
  destruct (fold_left Cli.addScore _ (0%Q, 0%Q)) as [ts tw].
  cbn [fst snd Cli.s_passed Cli.s_message Cli.s_blockers Cli.s_warnings].
  repeat split.
Qed.

(** X24.  The command line on no file passes with the score 1 and runs no
    validator.  On files, when no name given on the command line is a property
    that objects inherit, a run passes only when no validator reported a
    critical or high violation, and in strict mode only when no validator
    reported a warning either; the exit code is 0 only for a run that
    passes. *)
Theorem cli_passes_without_blockers
        (registry : list (string * Validator)) (options : Cli.CLIOptions)
        (fileContents : list (string * string)) :
  let results := fst (Cli.runValidationOn registry options fileContents) in
  let summary := snd (Cli.runValidationOn registry options fileContents) in
  (fileContents = [] ->
   results = [] /\ Cli.s_passed summary = true /\ Cli.s_score summary = 1.0%Q
   /\ Cli.s_message summary = Some "No files to validate")
  /\ (fileContents <> [] -> plainNames options -> Cli.s_passed summary = true ->
      Cli.s_blockers summary = 0
      /\ Forall (fun r => Forall (fun v => severity v = medium) (violations r)) results
      /\ (Cli.strict options = true ->
          Cli.s_warnings summary = 0 /\ Forall (fun r => warnings r = []) results))
  /\ (Cli.exitCode options summary = 0%Z -> Cli.s_passed summary = true).
Proof.
  cbv zeta. split; [|split].
  - intros ->. cbn. repeat split.
  - intros Hne _ Hpass.
    destruct (runValidationOn_files registry options fileContents Hne)
      as (Hres & Hp & _ & Hb & Hw).
    cbv zeta in Hres, Hp, Hb, Hw. rewrite Hres, Hb, Hw. rewrite Hp in Hpass.
    destruct (tally_fold (Cli.runValidators registry (Cli.selectValidators registry options)
                            {| files := map fst fileContents; fileContents := fileContents |})
                {| Cli.scores := []; Cli.blockers := 0; Cli.warnings := 0 |})
      as (Tb & Tw & _).
    cbv zeta in Tb, Tw. cbn [Cli.blockers Cli.warnings Nat.add] in Tb, Tw.
    apply evaluateGating_passed_iff in Hpass. destruct Hpass as (Hnb & Hnw & _ & _).
    assert (Hzero : Cli.blockers
                      (fold_left Cli.tally
                         (Cli.runValidators registry (Cli.selectValidators registry options)
                            {| files := map fst fileContents; fileContents := fileContents |})
                         {| Cli.scores := []; Cli.blockers := 0; Cli.warnings := 0 |}) = 0).
    { destruct (Cli.blockers _) as [|n] eqn:E; [reflexivity|].
      exfalso. apply Hnb. unfold Spec.blockersExceeded.
      destruct (Cli.strict options); split; try reflexivity; cbn; lia. }
    split; [exact Hzero|]. split.
    + rewrite Hzero in Tb. symmetry in Tb. apply list_sum_zero in Tb.
      apply Forall_forall. intros r Hr. apply no_blocker_all_medium.
      rewrite Forall_forall in Tb. apply Tb.
      apply (in_map (fun r => List.length (filter Cli.isBlocker (violations r)))). exact Hr.
    + intro Hstrict. rewrite Hstrict in Hnw.
      assert (Hwz : Cli.warnings
                      (fold_left Cli.tally
                         (Cli.runValidators registry (Cli.selectValidators registry options)
                            {| files := map fst fileContents; fileContents := fileContents |})
                         {| Cli.scores := []; Cli.blockers := 0; Cli.warnings := 0 |}) = 0).
      { destruct (Cli.warnings _) as [|n] eqn:E; [reflexivity|].
        exfalso. apply Hnw. split; [reflexivity | cbn; lia]. }
      split; [exact Hwz|].
      rewrite Hwz in Tw. symmetry in Tw. apply list_sum_zero in Tw.
      apply Forall_forall. intros r Hr. rewrite Forall_forall in Tw.
      assert (Hlen : List.length (warnings r) = 0).
      { apply Tw. apply (in_map (fun r => List.length (warnings r))). exact Hr. }
      destruct (warnings r); [reflexivity | discriminate Hlen].
  - unfold Cli.exitCode.
    destruct (Cli.s_passed (snd (Cli.runValidationOn registry options fileContents)));
      [reflexivity | cbn; discriminate].
Qed.

Lemma cli_passes_without_blockers_witness :
  let run := Cli.runValidationOn validatorsWithGeneral
               (codeOptions totalService "src/util/total.service.ts" false)
               [("src/util/total.service.ts", totalService)] in
  Cli.s_passed (snd run) = true
  /\ Cli.s_warnings (snd run) = 1
  /\ Cli.s_blockers (snd run) = 0
  /\ Forall (fun r => Forall (fun v => severity v = medium) (violations r)) (fst run).
Proof.
  cbv zeta.
  assert (Hpass : Cli.s_passed
                    (snd (Cli.runValidationOn validatorsWithGeneral
                            (codeOptions totalService "src/util/total.service.ts" false)
                            [("src/util/total.service.ts", totalService)])) = true)
    by (vm_compute; reflexivity).
  assert (Hplain : plainNames (codeOptions totalService "src/util/total.service.ts" false))
    by (intros n []).
  destruct (proj1 (proj2 (cli_passes_without_blockers validatorsWithGeneral
                            (codeOptions totalService "src/util/total.service.ts" false)
                            [("src/util/total.service.ts", totalService)]))
              ltac:(discriminate) Hplain Hpass) as (Hb & Hall & _).
  split; [exact Hpass|]. split; [vm_compute; reflexivity|].
  split; [exact Hb | exact Hall].
Defined.

(** *** What gating sees of the results *)








End CliProperties.

(** ** The output of git *)

Section GitProperties.
Import GitNotions.

Lemma split_no_sep (c : ascii) (w : string) :
  hasChar c w = false -> split c w = [w].
Proof.
  induction w as [|a w IH]; intro H; [reflexivity|].
  cbn [hasChar] in H. apply orb_false_iff in H. destruct H as [Ha Hw].
  cbn [split]. rewrite Ha, (IH Hw). reflexivity.
Qed.

Lemma split_app_sep (c : ascii) (w s : string) :
  hasChar c w = false -> split c (w ++ String c s) = w :: split c s.
Proof.
  induction w as [|a w IH]; intro H.
  - cbn [append split]. rewrite Ascii.eqb_refl. reflexivity.
  - cbn [hasChar] in H. apply orb_false_iff in H. destruct H as [Ha Hw].
    cbn [append split]. rewrite Ha, (IH Hw). reflexivity.
Qed.

Lemma hasChar_app (c : ascii) (s t : string) :
  hasChar c (s ++ t) = hasChar c s || hasChar c t.
Proof.
  induction s as [|a s IH]; [reflexivity|].
  cbn [append hasChar]. rewrite IH, orb_assoc. reflexivity.
Qed.

Lemma append_nil_r (s : string) : (s ++ "")%string = s.
Proof. induction s as [|a s IH]; [reflexivity | cbn; rewrite IH; reflexivity]. Qed.

Lemma append_assoc (s t u : string) : ((s ++ t) ++ u)%string = (s ++ (t ++ u))%string.
Proof. induction s as [|a s IH]; [reflexivity | cbn; rewrite IH; reflexivity]. Qed.

Lemma rev_string_twice (s acc acc' : string) :
  rev_string (rev_string s acc) acc' = rev_string acc (s ++ acc').
Proof.
  revert acc. induction s as [|a s IH]; intro acc; [reflexivity|].
  cbn [rev_string append]. rewrite IH. reflexivity.
Qed.

Lemma rev_string_snoc (s : string) (a : ascii) (acc : string) :
  rev_string (s ++ String a "") acc = String a (rev_string s acc).
Proof.
  revert acc. induction s as [|b s IH]; intro acc; [reflexivity|].
  cbn [append rev_string]. apply IH.
Qed.

Lemma lastChar_snoc (s : string) (a : ascii) :
  lastChar s = Some a -> exists s', s = (s' ++ String a "")%string.
Proof.
  induction s as [|b s IH]; intro H; [discriminate H|].
  destruct s as [|b' s].
  - injection H as ->. exists "". reflexivity.
  - destruct (IH H) as (s' & Hs'). exists (String b s'). cbn [append].
    rewrite <- Hs'. reflexivity.
Qed.

Lemma lastChar_app (s t : string) :
  t <> "" -> lastChar (s ++ t) = lastChar t.
Proof.
  intro Ht. induction s as [|a s IH]; [reflexivity|].
  cbn [append]. destruct (s ++ t)%string as [|b u] eqn:E.
  - destruct s; [cbn in E; contradiction | discriminate E].
  - exact IH.
Qed.

(** [trimEnd] drops a final line feed and stops at a character that is not
    white space *)
Lemma trimEnd_line (s : string) (a : ascii) :
  is_space a = false ->
  trimEnd (s ++ String a "") = (s ++ String a "")%string
  /\ trimEnd ((s ++ String a "") ++ nl) = (s ++ String a "")%string.
Proof.
  intro Ha. unfold trimEnd, nl. rewrite !rev_string_snoc.
  assert (Hspace : is_space LF = true) by reflexivity.
  cbn [trimStart]. rewrite Ha, Hspace.
  change (rev_string (String a (rev_string s "")) "")
    with (rev_string (rev_string s "") (String a "")).
  rewrite rev_string_twice. split; reflexivity.
Qed.

Lemma statusLine_shape (c : Cli.FileChange) :
  exists l, statusLine c = String l (String Cli.TAB (Cli.path c))
            /\ is_space l = false /\ Ascii.eqb l LF = false
            /\ Ascii.eqb l Cli.TAB = false
            /\ statusLetter (Cli.status c) = String l "".
Proof.
  unfold statusLine. destruct (Cli.status c); eexists; repeat split.
Qed.

Lemma plainPath_spec (p : string) :
  plainPath p = true ->
  hasChar Cli.TAB p = false /\ hasChar LF p = false
  /\ exists s a, p = (s ++ String a "")%string /\ is_space a = false.
Proof.
  unfold plainPath. intro H.
  apply andb_true_iff in H. destruct H as [H Hlast].
  apply andb_true_iff in H. destruct H as [Ht Hl].
  apply negb_true_iff in Ht, Hl. split; [exact Ht|]. split; [exact Hl|].
  destruct (lastChar p) as [a|] eqn:E; [|discriminate Hlast].
  apply negb_true_iff in Hlast. destruct (lastChar_snoc p a E) as (s & Hs).
  exists s, a. split; assumption.
Qed.

(** the output without its final line feed *)
Lemma gitOutput_joined (c : Cli.FileChange) (changes : list Cli.FileChange) :
  gitOutput (c :: changes) = (join nl (map statusLine (c :: changes)) ++ nl)%string.
Proof.
  revert c. induction changes as [|c' changes IH]; intro c.
  - reflexivity.
  - change (gitOutput (c :: c' :: changes))
      with (statusLine c ++ nl ++ gitOutput (c' :: changes))%string.
    rewrite IH.
    change (join nl (map statusLine (c :: c' :: changes)))
      with (statusLine c ++ nl ++ join nl (map statusLine (c' :: changes)))%string.
    rewrite !append_assoc. reflexivity.
Qed.

Lemma joined_last (c : Cli.FileChange) (changes : list Cli.FileChange) :
  Forall (fun c => plainPath (Cli.path c) = true) (c :: changes) ->
  exists s a, join nl (map statusLine (c :: changes)) = (s ++ String a "")%string
              /\ is_space a = false.
Proof.
  revert c. induction changes as [|c' changes IH]; intros c Hall.
  - inversion Hall as [|? ? Hc _]. cbn [map join].
    destruct (plainPath_spec _ Hc) as (_ & _ & s & a & Hp & Ha).
    destruct (statusLine_shape c) as (ch & Hline & _).
    exists (String ch (String Cli.TAB s)), a. rewrite Hline, Hp. split; [reflexivity | exact Ha].
  - inversion Hall as [|? ? _ Hrest].
    destruct (IH c' Hrest) as (s & a & Hj & Ha).
    exists (statusLine c ++ nl ++ s)%string, a.
    change (join nl (map statusLine (c :: c' :: changes)))
      with (statusLine c ++ nl ++ join nl (map statusLine (c' :: changes)))%string.
    rewrite Hj, !append_assoc. split; [reflexivity | exact Ha].
Qed.

Lemma statusLine_no_line_feed (c : Cli.FileChange) :
  plainPath (Cli.path c) = true -> hasChar LF (statusLine c) = false.
Proof.
  intro Hc. destruct (plainPath_spec _ Hc) as (_ & Hl & _).
  destruct (statusLine_shape c) as (ch & Hline & _ & Hlf & _).
  rewrite Hline. cbn [hasChar]. rewrite Hlf, Hl. reflexivity.
Qed.

Lemma lines_joined (c : Cli.FileChange) (changes : list Cli.FileChange) :
  Forall (fun c => plainPath (Cli.path c) = true) (c :: changes) ->
  lines (join nl (map statusLine (c :: changes))) = map statusLine (c :: changes).
Proof.
  revert c. induction changes as [|c' changes IH]; intros c Hall;
    inversion Hall as [|? ? Hc Hrest].
  - cbn [map join]. apply split_no_sep. exact (statusLine_no_line_feed c Hc).
  - change (join nl (map statusLine (c :: c' :: changes)))
      with (statusLine c ++ String LF (join nl (map statusLine (c' :: changes))))%string.
    unfold lines. rewrite (split_app_sep LF _ _ (statusLine_no_line_feed c Hc)).
    change (split LF (join nl (map statusLine (c' :: changes))))
      with (lines (join nl (map statusLine (c' :: changes)))).
    rewrite (IH c' Hrest). reflexivity.
Qed.

(** X26.  [parseGitStatus] reads back what [git diff --name-status] prints:
    for changes whose paths are not empty, hold no tab and no line feed and do
    not end in white space, parsing the output (one line per change: the
    letter A, M or D, a tab, the path) gives the changes, in order. *)
Theorem parseGitStatus_reads_git_output (changes : list Cli.FileChange) :
  Forall (fun c => plainPath (Cli.path c) = true) changes ->
  Cli.parseGitStatus (gitOutput changes) = changes.
Proof.
  intro Hall. destruct changes as [|c changes]; [reflexivity|].
  unfold Cli.parseGitStatus. cbv zeta.
  assert (Htrim : trim (gitOutput (c :: changes)) = join nl (map statusLine (c :: changes))).
  { rewrite gitOutput_joined.
    destruct (joined_last c changes Hall) as (s & a & Hj & Ha). rewrite Hj.
    unfold trim.
    assert (Hstart : trimStart ((s ++ String a "") ++ nl) = ((s ++ String a "") ++ nl)%string).
    { rewrite <- Hj. cbn [map].
      destruct (statusLine_shape c) as (ch & Hline & Hl & _).
      destruct changes as [|c' changes].
      - cbn [map join]. rewrite Hline. cbn [append trimStart]. rewrite Hl. reflexivity.
      - change (join nl (statusLine c :: map statusLine (c' :: changes)))
          with (statusLine c ++ nl ++ join nl (map statusLine (c' :: changes)))%string.
        rewrite Hline. cbn [append trimStart]. rewrite Hl. reflexivity. }
    rewrite Hstart. exact (proj2 (trimEnd_line s a Ha)). }
  rewrite Htrim, (lines_joined c changes Hall).
  clear Htrim. revert Hall. generalize (c :: changes). clear c changes.
  intros changes Hall. induction Hall as [|c changes Hc _ IH]; [reflexivity|].
  cbn [map filter].
  destruct (statusLine_shape c) as (ch & Hline & _ & _ & Htab & Hletter).
  destruct (plainPath_spec _ Hc) as (Hnotab & _ & s & a & Hp & _).
  rewrite Hline at 1. cbn [String.eqb negb flat_map]. rewrite IH.
  assert (Hsplit : split Cli.TAB (statusLine c) = [statusLetter (Cli.status c); Cli.path c]).
  { unfold statusLine. rewrite Hletter.
    rewrite (split_app_sep Cli.TAB (String ch "") (Cli.path c)).
    - rewrite (split_no_sep _ _ Hnotab). reflexivity.
    - cbn [hasChar]. rewrite Htab. reflexivity. }
  rewrite Hsplit.
  assert (Hne : String.eqb (Cli.path c) "" = false).
  { rewrite Hp. destruct s; reflexivity. }
  rewrite Hne. destruct c as [p st]. cbn [Cli.path Cli.status app].
  destruct st; reflexivity.
Qed.

Lemma parseGitStatus_reads_git_output_witness :
  Cli.parseGitStatus
    (gitOutput [ {| Cli.path := "src/my file.ts"; Cli.status := Cli.added |};
                 {| Cli.path := "src/b.tsx"; Cli.status := Cli.deleted |} ])
  = [ {| Cli.path := "src/my file.ts"; Cli.status := Cli.added |};
      {| Cli.path := "src/b.tsx"; Cli.status := Cli.deleted |} ].
Proof.
  apply parseGitStatus_reads_git_output.
  repeat constructor.
Defined.

End GitProperties.
